(* ===== verification/_CoqProject ===== *)
-Q . S2P
Prelude.v
PyFloat.v
PyText.v
FloatRepr.v
PyPath.v
NumPy.v
Json.v
Argparse.v
Namespace.v
NdArray.v
Blake2b.v
Criteo.v
Workload.v
TraceReader.v
SyntheticTrace.v
Stats.v
LruSim.v
SlotCache.v
Posix.v
LibTypes.v
GdsBackend.v
ChunkCache.v
LibMemtier.v
ReadCache.v
ReadV.v
ReadTasks.v
Requests.v
MemTierLib.v
ObjectDataset.v
Examples.v
Runtime.v
RuntimeData.v
Metrics.v
RuntimeLib.v
EmbeddingBag.v
RuntimeLife.v
Uvm.v
Analyze.v
Bench.v
CpuStaging.v
MemTierBag.v
Ffi.v
ExperimentFile.v
EmbFile.v
FileDataset.v
DlrmConvert.v
Preprocess.v
BenchCli.v
TorchBaseline.v
LoaderBench.v
ToolsCli.v
Pipeline.v
Reports.v
Session.v
