(* ===== verification/Prelude.v ===== *)
(** MemTier: a verification library of its Python tools and of the C++ runtimes
    under them.

    * The program

    The repository has three systems.  [memtier_embedding_bench] studies
    embedding-table lookups that miss GPU memory: scripts make or convert
    traces of ids, an analysis reads them, and benchmark runs replay them, one
    staging blocks through the CPU, one through the C++ runtime
    libmemtier_embedding.so (residency table, DRAM cache, HBM cache, CUDA
    kernels), one in GPU memory with PyTorch.  [memtier_pytorch] puts a file in
    managed memory through a C++ extension and compares a data set over it with
    NumPy's.  libmemtier (include/, src/) is a library that reads ranges of
    files through a cache of chunks, also on worker threads, with a Python
    package (python/memtier) and a C++ data set on top.

    * The files

    Base: this file (results, loops over iterables, operations on a state that
    may throw with their Hoare triples, Python slices and indices, fixed-width
    integers, batches of a list); PyFloat (binary64 as the scripts use it) and
    FloatRepr (the text of a float and its reading); PyText (strings as code
    points, splitting, decimal integers, UTF-8, ordering); PyPath (pathlib);
    Json (values, printer, parser); Argparse and Namespace (command lines, and
    the typed settings read from them); NumPy and NdArray (interfaces of the
    array library with their documented laws, and a concrete instance each);
    Blake2b (the hash of the Criteo ids, executable); Posix ([pread] loops over
    an operating system that interrupts and shortens reads).

    Traces: Criteo (python/criteo_trace_dataset.py), Workload
    (python/embedding_workload.py) and SyntheticTrace (its command line and
    main), TraceReader (python/trace_reader.py, class [EmbeddingTrace]),
    DlrmConvert (scripts/convert_dlrm_trace.py), Preprocess
    (scripts/preprocess_criteo_trace.py); Stats, LruSim and Analyze are
    scripts/analyze_trace.py: its statistics, its cache simulator, the whole
    analysis.  ToolsCli has the command lines of these scripts, and Pipeline
    composes them with the runs.

    Embedding runtime: SlotCache (both LRU caches: src/dram_cache.cpp and
    [HbmCache] of src/memtier_api.cpp); Runtime (the residency table and the
    C API of src/memtier_api.cpp, with a queue of device copies that CUDA
    performs when it likes); RuntimeData (what bytes the pointers returned hold);
    RuntimeLife (what a handle owns from initialisation to destruction);
    Metrics (src/metrics.cpp); RuntimeLib (the interface [EmbeddingLib] of
    include/memtier_api.h as a class, and the runtime as its instance);
    EmbeddingBag (the kernels and their launcher, run on what a lookup returns).

    Benchmark runs: Bench (the measurements the runs share), CpuStaging
    (python/baseline_cpu_staging.py), MemTierBag (python/memtier_embedding.py,
    proved against [EmbeddingLib] only), TorchBaseline
    (python/baseline_torch_embedding.py), BenchCli (their command lines), EmbFile
    (the two generators of embedding files), Uvm
    (memtier_pytorch/csrc/memtier_uvm.cu), FileDataset and LoaderBench
    (memtier_pytorch/memtier/dataset.py and benchmark.py, and the program over
    PyTorch's DataLoader); Reports and Session (the results files that the runs
    append to and the plotting script reads).

    libmemtier: LibTypes (types.h), ChunkCache (src/cache_directory.cpp, with
    the identity of the list nodes its iterators point to), GdsBackend
    (src/gds_backend.cpp, over an interface of cuFile), LibMemtier (src/api.cpp
    and the path selection), ReadCache (what the cache does for reads), ReadV
    ([memtier_readv]), ReadTasks (reads and prefetches as steps that interleave)
    and Requests (the request queue, its workers, clients and condition
    variables), MemTierLib (the package python/memtier), ObjectDataset
    (src/object_dataset.cpp), Examples (the Python examples), Ffi (the types and
    structures the Python wrappers pass to both libraries), ExperimentFile
    (src/file_prep.cpp and src/logger.cpp).

    A Python function is a Gallina function into [result]; a class is a record
    and its methods; a loop that may raise is [foldM].  C++ objects are records
    and their operations state passing in [SM], where an exception keeps the
    state reached and no outcome stands for undefined behaviour or for fuel
    used up.  Threads (Requests, the kernels) are steps of a relation or lists
    of writes taken in any order.  Unsigned arithmetic wraps where the source's
    type does ([wrap]).

    * The theorems

    Traces and analysis: what a script writes the reader reads back, batch by
    batch (round trips of Preprocess, DlrmConvert, TraceReader, SyntheticTrace,
    Criteo); ids are in the range of their field; the analysis terminates, its
    statistics are those of the trace, and its simulator is the LRU cache of a
    recency specification, with the stack-distance characterisation of a hit.
    Accepted command lines give settings of the types the scripts assume, but for
    the empty list that argparse stores for [--option=--], and a preprocessed archive meets the conditions of the replay.

    Embedding runtime: the caches are well-formed and the residency table agrees
    with them in every reachable state, whatever CUDA and the system report; a
    lookup returns and its counters are those of the paths returned; when the
    batch fits, every pointer holds the bytes of its block, and the kernels,
    run on these pointers by threads in any order, compute the bags that a
    reference definition takes from the table; destroying a handle gives back
    what its initialisation took; the DRAM cache takes the decisions of the
    analysis's simulator; the metrics text reads back.

    Benchmark runs: the runs return and report exactly the blocks and bytes of
    the trace, CPU staging reading each distinct block of a batch once, at its
    place in the file, and copying it once, and the runtime never more; the same
    flags replay the same trace in both; a failed lookup ends the run; whatever
    the CUDA runtime answers, the extension's table is what the runtime holds and
    its counter counts it, up to what was held at the last reset; what a session
    of runs appends to a results file reads back as their records.

    libmemtier: a read returns the bytes of the file whichever path each chunk
    takes, and the same read again comes from memory; a scattered read fills
    every destination, and adjacent ranges cost one read; the cuFile backend
    keeps its registrations sound whichever calls fail; the cache stays within
    its budget; under every interleaving of workers and clients each finished
    request has its bytes, and no wakeup is lost: left alone, the threads come
    to rest with every call returned, unless a client frees a request before its
    worker has notified it; the Python package returns these bytes, with
    PyTorch, with NumPy or with neither, and the Python and the C++ data set
    read the same samples from an index.

    Lemmas named in comments as such record where the code departs from what it
    means to do: they compute the departure on a small input.

    * Bounds and fuel

    A [pread] loop has fuel: [B] calls for every byte asked for are enough when
    fewer than [B] calls in a row are interrupted ([pread_loop_stops],
    [pread_loop_reads]), and the theorems that use it take that bound as their
    hypothesis.  The loops of LibMemtier take one turn per byte asked for, since
    a turn copies at least one; that of ReadV one per range; the eviction loop
    of ChunkCache one per list node, since a turn removes one.  A request of
    ReadTasks completes within ten steps per byte and one more, a prefetch within
    five per byte, and Requests counts beside them the steps of the queue.  JSON
    parsing takes the length of the text.  The loop of ExperimentFile takes one
    write per byte, when each write takes something.  Offsets are below 2^63, the
    largest file offset; counts that are divided as floats are at most 2^53.

    * What is not modelled

    The text the scripts print with an indent, and the drawing of the figure;
    PyTorch, NumPy, CUDA, cuFile and the operating system, which are interfaces
    with the laws the code relies on; exhaustion of memory except where the code
    tests for it; the source files that the build leaves out (the older
    src/dram_cache.cpp of libmemtier); packaging, the pybind registration and
    shell scripts, which have no logic of their own; the C++ examples, benchmarks
    and tests, callers of what is modelled; what a script does with an empty list
    for an option (file Namespace).  That the identities of
    different files differ, and that a path keeps its identity between reads, is
    assumed of the hash and of [std::filesystem::weakly_canonical] (file
    LibMemtier), whose own system calls are not counted. *)
From Stdlib Require Export ZArith Lia.
From stdpp Require Export base tactics numbers strings gmap sorting.
From stdpp Require Export list.

#[global] Open Scope Z_scope.

(** ** Python exceptions and the error monad *)

(** The exception classes the modelled code raises (messages are not kept). *)
Inductive exn : Type :=
| ValueError
| IndexError
| KeyError
| TypeError
| ZeroDivisionError
| OverflowError
| MemoryError
| RuntimeError
| OSError
| SystemExit
| AttributeError
| StopIteration
| AssertionError
| ImportError.

#[export] Instance exn_eq_dec : EqDecision exn.
Proof. solve_decision. Defined.

Inductive result (A : Type) : Type :=
| Ok (a : A)
| Err (e : exn).
Arguments Ok {A} a.
Arguments Err {A} e.

#[export] Instance result_eq_dec `{EqDecision A} : EqDecision (result A).
Proof. solve_decision. Defined.

#[export] Instance result_ret : MRet result := @Ok.
#[export] Instance result_bind : MBind result :=
  λ A B f m, match m with Ok a => f a | Err e => Err e end.
#[export] Instance result_fmap : FMap result :=
  λ A B f m, match m with Ok a => Ok (f a) | Err e => Err e end.

Definition is_ok {A} (r : result A) : bool :=
  match r with Ok _ => true | Err _ => false end.

(** [raise_unless b e]: the guard [if not b: raise e]. *)
Definition raise_unless (b : bool) (e : exn) : result unit :=
  if b then Ok () else Err e.

Definition of_option {A} (e : exn) (o : option A) : result A :=
  match o with Some a => Ok a | None => Err e end.

Lemma bind_Ok {A B} (m : result A) (f : A → result B) b :
  m ≫= f = Ok b ↔ ∃ a, m = Ok a ∧ f a = Ok b.
Proof. destruct m; simpl; split; [eauto | by intros (? & [= <-] & ?) | done | by intros (? & [=] & ?)]. Qed.

(** A successful step of a run. *)
Lemma bind_step {A B} (m : result A) (f : A → result B) a r : m = Ok a → f a = r → m ≫= f = r.
Proof. by intros -> <-. Qed.

(** [run_step H]: the next step of the run in the goal succeeds by [H]. *)
Ltac run_step H := eapply bind_step; [H|]; cbv beta iota.

Lemma fmap_Ok {A B} (m : result A) (f : A → B) b :
  f <$> m = Ok b ↔ ∃ a, m = Ok a ∧ f a = b.
Proof.
  destruct m; simpl; split; [intros [= <-]; eauto | intros (? & [= <-] & <-); done | done |].
  by intros (? & [=] & ?).
Qed.

Lemma raise_unless_Ok b e u : raise_unless b e = Ok u ↔ b = true.
Proof. destruct b, u; simpl; naive_solver. Qed.

Lemma of_option_Ok {A} e (o : option A) a : of_option e o = Ok a ↔ o = Some a.
Proof. destruct o; simpl; naive_solver. Qed.

Lemma Ok_inj {A} (a b : A) : Ok a = Ok b → a = b.
Proof. by intros [= ->]. Qed.

(** [inv_res]: take every successful run in the context apart. *)
Ltac inv_res :=
  repeat match goal with
  | H : _ ≫= _ = Ok _ |- _ => apply bind_Ok in H as (? & ? & H)
  | H : _ <$> _ = Ok _ |- _ => apply fmap_Ok in H as (? & ? & ?)
  | H : raise_unless _ _ = Ok _ |- _ => apply raise_unless_Ok in H
  | H : of_option _ _ = Ok _ |- _ => apply of_option_Ok in H
  | H : Ok _ = Ok _ |- _ => apply Ok_inj in H; simplify_eq
  | H : Err _ = Ok _ |- _ => discriminate H
  | H : Ok _ = Err _ |- _ => discriminate H
  | H : mret _ = Ok _ |- _ => apply Ok_inj in H; simplify_eq
  end.

(** [inv_run H]: take the successful run [H] apart, along its tests and tuples too. *)
Ltac inv_run H :=
  repeat match type of H with
  | _ ≫= _ = Ok _ => apply bind_Ok in H as (? & ? & H)
  | match ?x with _ => _ end = Ok _ => destruct x eqn:?
  end.

(** ** Loops over an iterable, with a state and exceptions *)

Fixpoint foldM {S A} (f : S → A → result S) (s : S) (l : list A) : result S :=
  match l with
  | [] => Ok s
  | a :: l => s' ← f s a; foldM f s' l
  end.

Lemma foldM_app {S A} (f : S → A → result S) s l1 l2 :
  foldM f s (l1 ++ l2) = (s' ← foldM f s l1; foldM f s' l2).
Proof.
  revert s; induction l1 as [|a l1 IH]; intros s; simpl; [done|].
  destruct (f s a); simpl; [apply IH|done].
Qed.

(** Invariant rule for loops. *)
Lemma foldM_inv {S A} (P : S → Prop) (Q : A → Prop) (f : S → A → result S) s l s' :
  (∀ s a s', Q a → P s → f s a = Ok s' → P s') →
  Forall Q l → P s → foldM f s l = Ok s' → P s'.
Proof.
  intros Hf HQ; revert s; induction HQ as [|a l Ha HQ IH]; intros s HP; simpl.
  - by intros [= <-].
  - destruct (f s a) as [s1|e] eqn:E; simpl; [|done]. intros H. eauto.
Qed.

(** A loop whose body never raises never raises. *)
Lemma foldM_total {S A} (P : S → Prop) (Q : A → Prop) (f : S → A → result S) s l :
  (∀ s a, Q a → P s → ∃ s', f s a = Ok s' ∧ P s') →
  Forall Q l → P s → ∃ s', foldM f s l = Ok s' ∧ P s'.
Proof.
  intros Hf HQ; revert s; induction HQ as [|a l Ha HQ IH]; intros s HP; simpl.
  - eauto.
  - destruct (Hf s a Ha HP) as (s1 & -> & H1). simpl. eauto.
Qed.

(** The same, the invariant indexed by the elements seen. *)
Lemma foldM_count_total {S A} (P : Z → S → Prop) (Q : A → Prop) (f : S → A → result S) k s l :
  (∀ k s a, Q a → P k s → ∃ s', f s a = Ok s' ∧ P (k + 1) s') →
  Forall Q l → P k s → ∃ s', foldM f s l = Ok s' ∧ P (k + Z.of_nat (length l)) s'.
Proof.
  intros Hf HQ; revert k s; induction HQ as [|a l Ha HQ IH]; intros k s HP; cbn [foldM length].
  - rewrite Z.add_0_r. eauto.
  - destruct (Hf k s a Ha HP) as (s1 & -> & H1). cbn [mbind result_bind]. rewrite Nat2Z.inj_succ.
    replace (k + Z.succ (Z.of_nat (length l))) with (k + 1 + Z.of_nat (length l)) by lia. by apply IH.
Qed.

(** A loop whose body raises [e] on the elements that are not good. *)
Lemma foldM_err {S A} (P : S → Prop) (good : A → Prop) `{!∀ a, Decision (good a)} (f : S → A → result S) e s l :
  (∀ s a, a ∈ l → P s → good a → ∃ s', f s a = Ok s' ∧ P s') →
  (∀ s a, a ∈ l → P s → ¬ good a → f s a = Err e) →
  P s → ¬ Forall good l → foldM f s l = Err e.
Proof.
  revert s; induction l as [|a l IH]; intros s Hgood Hbad HP Hn; [by destruct Hn|]. cbn [foldM].
  destruct (decide (good a)) as [Ha|Ha].
  - destruct (Hgood s a) as (s' & -> & HP'); [by left|done|done|]. cbn [mbind result_bind]. apply IH; [| |done|].
    + intros s1 x Hx. apply Hgood. by right.
    + intros s1 x Hx. apply Hbad. by right.
    + intros HF. apply Hn. by constructor.
  - by rewrite Hbad by (done || left).
Qed.

Lemma seqZ_snoc n : 0 ≤ n → seqZ 0 (Z.succ n) = seqZ 0 n ++ [n].
Proof. intros Hn. unfold Z.succ. rewrite seqZ_app by lia. by rewrite Z.add_0_l. Qed.

(** Invariant rules for [for i in range(n)], the invariant indexed by [i]. *)
Lemma foldM_range_inv {S} (P : Z → S → Prop) (f : S → Z → result S) n s s' :
  0 ≤ n →
  (∀ i s s', 0 ≤ i < n → P i s → f s i = Ok s' → P (i + 1) s') →
  P 0 s → foldM f s (seqZ 0 n) = Ok s' → P n s'.
Proof.
  intros Hn. revert s'. pattern n. apply natlike_ind; [|clear n Hn|done].
  - intros s' _ H0 [= <-]. done.
  - intros n Hn IH s' Hf H0. rewrite seqZ_snoc, foldM_app by done. simpl. intros H.
    destruct (foldM f s (seqZ 0 n)) as [s1|] eqn:E; simpl in H; [|done].
    destruct (f s1 n) as [s2|] eqn:E2; simpl in H; [|done]. injection H as <-.
    apply (Hf n s1); [lia| |done]. apply IH; [|done|done]. intros. eapply Hf; eauto; lia.
Qed.

Lemma foldM_range_total {S} (P : Z → S → Prop) (f : S → Z → result S) n s :
  0 ≤ n →
  (∀ i s, 0 ≤ i < n → P i s → ∃ s', f s i = Ok s' ∧ P (i + 1) s') →
  P 0 s → ∃ s', foldM f s (seqZ 0 n) = Ok s' ∧ P n s'.
Proof.
  intros Hn. pattern n. apply natlike_ind; [|clear n Hn|done].
  - intros _ H0. by exists s.
  - intros n Hn IH Hf H0. rewrite seqZ_snoc, foldM_app by done.
    destruct IH as (s1 & -> & H1); [|done|]. { intros. apply Hf; [lia|done]. }
    destruct (Hf n s1) as (s2 & E2 & H2); [lia|done|]. simpl. rewrite E2. simpl. eauto.
Qed.

(** A pure body: the loop is a [foldl]. *)
Lemma foldM_pure {S A} (f : S → A → S) s l :
  foldM (λ s a, Ok (f s a)) s l = Ok (foldl f s l).
Proof. revert s; induction l as [|a l IH]; intros s; simpl; [done|apply IH]. Qed.

Lemma mapM_Ok {A B} (f : A → result B) l k :
  mapM f l = Ok k ↔ Forall2 (λ x y, f x = Ok y) l k.
Proof.
  split.
  - revert k; induction l as [|x l IH]; intros k; simpl; intros H.
    + injection H as <-. constructor.
    + inv_res. constructor; eauto.
  - induction 1 as [|x y l k Hxy _ IH]; simpl; [done|]. by rewrite Hxy; simpl; rewrite IH.
Qed.

(** A loop over a generator, whose elements may raise when they are reached. *)
Definition for_each {S A} (f : S → A → result S) (s : S) (stream : list (result A)) : result S :=
  foldM (λ s r, a ← r; f s a) s stream.

Lemma for_each_inv {S A} (P : S → Prop) (f : S → A → result S) s stream s' :
  (∀ s a s', P s → f s a = Ok s' → P s') → P s → for_each f s stream = Ok s' → P s'.
Proof.
  intros Hf. unfold for_each. apply (foldM_inv P (λ _, True)); [|by apply Forall_true].
  intros s1 r s2 _ HP H. apply bind_Ok in H as (a & _ & H). by eapply Hf.
Qed.

Lemma for_each_Ok {S A} (f : S → A → result S) s l : for_each f s (Ok <$> l) = foldM f s l.
Proof.
  unfold for_each. revert s; induction l as [|a l IH]; intros s; [done|]. rewrite fmap_cons. cbn [foldM mbind result_bind].
  destruct (f s a); simpl; [apply IH|done].
Qed.

(** ** Operations on a state that may throw

    The state changed before an exception stays changed.  [None] is the absence
    of an outcome: undefined behaviour, or a loop that runs out of fuel. *)

Definition SM (S A : Type) : Type := S → option (result A * S).
#[export] Instance sm_ret {S} : MRet (SM S) := λ A a s, Some (Ok a, s).
#[export] Instance sm_bind {S} : MBind (SM S) := λ A B f m s,
  match m s with
  | Some (Ok a, s) => f a s
  | Some (Err e, s) => Some (Err e, s)
  | None => None
  end.
Definition throw {S A} (e : exn) : SM S A := λ s, Some (Err e, s).
Definition modify {S} (f : S → S) : SM S unit := λ s, Some (Ok (), f s).
Definition gets {S A} (f : S → A) : SM S A := λ s, Some (Ok (f s), s).
Definition guarded {S} (b : bool) (e : exn) : SM S unit := if b then mret () else throw e.
Definition lift {S A} (r : result A) : SM S A := λ s, Some (r, s).
(** [try { m } catch (...) { undo; throw; }]. *)
Definition on_error {S A} (m : SM S A) (undo : S → S) : SM S A := λ s,
  match m s with
  | Some (Err e, s) => Some (Err e, undo s)
  | r => r
  end.

Fixpoint sm_fold {S T A} (f : T → A → SM S T) (st : T) (l : list A) : SM S T :=
  match l with
  | [] => mret st
  | a :: l => st' ← f st a; sm_fold f st' l
  end.

Lemma sm_bind_inv {S A B} (m : SM S A) (f : A → SM S B) s r s' :
  (m ≫= f) s = Some (r, s') →
  (∃ a s1, m s = Some (Ok a, s1) ∧ f a s1 = Some (r, s')) ∨ (∃ e, m s = Some (Err e, s') ∧ r = Err e).
Proof.
  unfold mbind, sm_bind. destruct (m s) as [[[a|e] s1]|]; [by eauto| |done]. intros [= <- <-]. right; eauto.
Qed.

Lemma on_error_inv {S A} (m : SM S A) undo s r s' :
  on_error m undo s = Some (r, s') → ∃ s1, m s = Some (r, s1) ∧ s' = match r with Ok _ => s1 | Err _ => undo s1 end.
Proof. unfold on_error. destruct (m s) as [[[a|e] s1]|]; [| |done]; intros [= <- <-]; eauto. Qed.

Lemma sm_step {S A B} (m : SM S A) (f : A → SM S B) s a s1 r :
  m s = Some (Ok a, s1) → f a s1 = r → (m ≫= f) s = r.
Proof. unfold mbind, sm_bind. by intros -> <-. Qed.

Lemma sm_raise {S A B} (m : SM S A) (f : A → SM S B) s e s1 : m s = Some (Err e, s1) → (m ≫= f) s = Some (Err e, s1).
Proof. unfold mbind, sm_bind. by intros ->. Qed.

Lemma sm_fold_snoc {S T A} (f : T → A → SM S T) st l a s st1 s1 r :
  sm_fold f st l s = Some (Ok st1, s1) → f st1 a s1 = r → sm_fold f st (l ++ [a]) s = r.
Proof.
  revert st s. induction l as [|x l IH]; intros st s E Ha; cbn [app sm_fold] in *.
  - injection E as -> ->. unfold mbind, sm_bind. rewrite Ha. by destruct r as [[[?|?] ?]|].
  - unfold mbind, sm_bind in *. destruct (f st x s) as [[[st'|e] s']|]; [by apply IH|done..].
Qed.

(** [sm_run H]: the next step of the operation in the goal succeeds by [H]. *)
Ltac sm_run H := eapply sm_step; [H|]; cbv beta.

(** A property of the accumulator that every step that returns keeps. *)
Lemma sm_fold_inv {S T A} (P : T → Prop) (f : T → A → SM S T) l st s st' s' :
  (∀ st a s st' s', P st → f st a s = Some (Ok st', s') → P st') →
  P st → sm_fold f st l s = Some (Ok st', s') → P st'.
Proof.
  intros Hf. revert st s. induction l as [|a l IH]; intros st s HP; cbn [sm_fold].
  - by intros [= -> _].
  - intros [(st1 & s1 & E1 & E)|(e & _ & [=])]%sm_bind_inv. eapply IH; [by eapply Hf|done].
Qed.

(** A Hoare triple for total correctness: from a state of [P] the operation has
    an outcome, [Q] holds when it returns and [E] when it throws. *)
Definition sm_spec {S A} (P : S → Prop) (m : SM S A) (Q : A → S → Prop) (E : S → Prop) : Prop :=
  ∀ s, P s → ∃ r s', m s = Some (r, s') ∧ match r with Ok a => Q a s' | Err _ => E s' end.

Section Triples.
Context {S : Type}.
Implicit Types P E : S → Prop.

Lemma spec_ret {A} P (Q : A → S → Prop) E a : (∀ s, P s → Q a s) → sm_spec P (mret a) Q E.
Proof. intros H s Hs. exists (Ok a), s. split; [done|]. by apply H. Qed.

Lemma spec_bind {A B} P (Q : A → S → Prop) (R : B → S → Prop) E (m : SM S A) (f : A → SM S B) :
  sm_spec P m Q E → (∀ a, sm_spec (Q a) (f a) R E) → sm_spec P (m ≫= f) R E.
Proof.
  intros Hm Hf s Hs. destruct (Hm s Hs) as ([a|e] & s1 & E1 & H1).
  - destruct (Hf a s1 H1) as (r & s2 & E2 & H2). exists r, s2. split; [|done]. unfold mbind, sm_bind. by rewrite E1.
  - exists (Err e), s1. split; [|done]. unfold mbind, sm_bind. by rewrite E1.
Qed.

Lemma spec_conseq {A} P P' (Q Q' : A → S → Prop) E E' (m : SM S A) :
  sm_spec P' m Q' E' → (∀ s, P s → P' s) → (∀ a s, Q' a s → Q a s) → (∀ s, E' s → E s) → sm_spec P m Q E.
Proof.
  intros Hm HP HQ HE s Hs. destruct (Hm s (HP s Hs)) as (r & s' & E1 & H). exists r, s'. split; [done|].
  destruct r; auto.
Qed.

Lemma spec_modify P (Q : unit → S → Prop) E (f : S → S) : (∀ s, P s → Q () (f s)) → sm_spec P (modify f) Q E.
Proof. intros H s Hs. exists (Ok ()), (f s). split; [done|]. by apply H. Qed.

Lemma spec_gets {A} P (Q : A → S → Prop) E (f : S → A) : (∀ s, P s → Q (f s) s) → sm_spec P (gets f) Q E.
Proof. intros H s Hs. exists (Ok (f s)), s. split; [done|]. by apply H. Qed.

(** A loop, with an invariant on what is done. *)
Lemma spec_fold {T A} (I : list A → T → S → Prop) E (f : T → A → SM S T) (l done : list A) t :
  (∀ done a t, a ∈ l → sm_spec (I done t) (f t a) (I (done ++ [a])) E) →
  sm_spec (I done t) (sm_fold f t l) (I (done ++ l)) E.
Proof.
  revert done t; induction l as [|a l IH]; intros dn t Hf; cbn [sm_fold].
  - apply spec_ret. intros s. by rewrite app_nil_r.
  - eapply spec_bind; [apply Hf; left|]. intros t'. cbv beta. replace (dn ++ a :: l) with ((dn ++ [a]) ++ l) by by rewrite <-app_assoc.
    apply IH. intros dn' b t1 Hb. apply Hf. by right.
Qed.
End Triples.

(** ** Lists indexed by Python integers *)

Abbreviation zlen l := (Z.of_nat (length l)).

(** [l[i]], with Python's negative indices. *)
Definition py_index {A} (l : list A) (i : Z) : result A :=
  let j := if i <? 0 then i + zlen l else i in
  if j <? 0 then Err IndexError else of_option IndexError (l !! Z.to_nat j).

(** A slice bound: negative bounds count from the end, then clamp to [0, n]. *)
Definition slice_bound (n i : Z) : Z :=
  let j := if i <? 0 then i + n else i in Z.max 0 (Z.min n j).

(** [l[i:j]]. *)
Definition py_slice {A} (l : list A) (i j : Z) : list A :=
  let n := zlen l in
  let a := slice_bound n i in let b := slice_bound n j in
  take (Z.to_nat (b - a)) (drop (Z.to_nat a) l).

(** [[x] * n]: empty for a negative count. *)
Definition py_repeat {A} (n : Z) (x : A) : list A := replicate (Z.to_nat n) x.

Lemma slice_bound_nonneg n i : 0 ≤ n → 0 ≤ i → slice_bound n i = Z.min n i.
Proof. unfold slice_bound. destruct (Z.ltb_spec i 0); lia. Qed.

Lemma py_slice_nonneg {A} (l : list A) i j :
  0 ≤ i → 0 ≤ j → py_slice l i j = take (Z.to_nat (j - i)) (drop (Z.to_nat i) l).
Proof.
  intros Hi Hj. unfold py_slice. rewrite !slice_bound_nonneg by lia.
  destruct (decide (i ≤ zlen l)).
  - rewrite (Z.min_r _ i) by lia. destruct (decide (j ≤ zlen l)).
    + by rewrite Z.min_r by lia.
    + rewrite (Z.min_l _ j) by lia. rewrite !take_ge; [done| |]; rewrite length_drop; lia.
  - rewrite (drop_ge l (Z.to_nat i)) by lia.
    rewrite (drop_ge l (Z.to_nat (zlen l `min` i))) by lia. by rewrite !take_nil.
Qed.

Lemma length_py_slice {A} (l : list A) i j :
  0 ≤ i → 0 ≤ j → zlen (py_slice l i j) = Z.max 0 (Z.min j (zlen l) - i).
Proof. intros. rewrite py_slice_nonneg by done. rewrite length_take, length_drop. lia. Qed.

Lemma py_slice_all {A} (l : list A) n : zlen l ≤ n → py_slice l 0 n = l.
Proof.
  intros. rewrite py_slice_nonneg by lia. simpl. apply take_ge. lia.
Qed.

(** A slice of a slice. *)
Lemma py_slice_slice {A} (l : list A) r v i j :
  0 ≤ r → 0 ≤ i → 0 ≤ j ≤ v → py_slice (py_slice l r (r + v)) i j = py_slice l (r + i) (r + j).
Proof.
  intros Hr Hi Hj. rewrite !py_slice_nonneg by lia.
  rewrite skipn_firstn_comm, take_take, drop_drop. f_equal; [lia|]. f_equal. lia.
Qed.

Lemma py_slice_elem {A} (l : list A) i j x : x ∈ py_slice l i j → x ∈ l.
Proof.
  unfold py_slice. intros H.
  apply list_elem_of_lookup in H as [k Hk].
  apply lookup_take_Some in Hk as [Hk _]. rewrite lookup_drop in Hk.
  by eapply list_elem_of_lookup_2.
Qed.

Lemma py_index_elem {A} (l : list A) i x : py_index l i = Ok x → x ∈ l.
Proof.
  unfold py_index. intros H. case_match; [done|]. destruct (l !! _) as [y|] eqn:E; [|done]. injection H as <-.
  by eapply list_elem_of_lookup_2.
Qed.

Lemma py_index_nonneg {A} (l : list A) i x :
  0 ≤ i → l !! Z.to_nat i = Some x → py_index l i = Ok x.
Proof.
  intros Hi Hx. unfold py_index. destruct (Z.ltb_spec i 0); [lia|].
  destruct (Z.ltb_spec i 0); [lia|]. by rewrite Hx.
Qed.

(** [enumerate(l)]. *)
Definition enumerate {A} (l : list A) : list (Z * A) := zip (seqZ 0 (zlen l)) l.

Lemma enumerate_elem {A} (l : list A) f x :
  (f, x) ∈ enumerate l → 0 ≤ f < zlen l ∧ l !! Z.to_nat f = Some x.
Proof.
  unfold enumerate. intros [i Hi]%list_elem_of_lookup.
  apply lookup_zip_with_Some in Hi as (f' & x' & [= <- <-] & Hf & Hx).
  apply lookup_seqZ in Hf as [-> Hlt]. split; [lia|].
  by rewrite Z.add_0_l, Nat2Z.id.
Qed.

Lemma enumerate_snoc {A} (l : list A) x : enumerate (l ++ [x]) = enumerate l ++ [(zlen l, x)].
Proof.
  unfold enumerate. rewrite length_app, Nat2Z.inj_add. change (zlen [x]) with 1.
  rewrite Z.add_1_r, seqZ_snoc by lia. rewrite zip_with_app; [done|]. rewrite length_seqZ. lia.
Qed.

(** [Forall P l] from [Forall Q l] in the context, when [lia] proves [Q → P]. *)
Ltac forall_lia :=
  match goal with
  | H : Forall _ ?l |- Forall _ ?l => refine (Forall_impl _ _ _ H _); cbv beta; intros; lia
  end.

Lemma filter_all {A} (P : A → Prop) `{!∀ x, Decision (P x)} l : Forall P l → filter P l = l.
Proof. induction 1 as [|x l Hx _ IH]; [done|]. by rewrite filter_cons_True, IH. Qed.

Lemma filter_none {A} (P : A → Prop) `{!∀ x, Decision (P x)} l : Forall (λ x, ¬ P x) l → filter P l = [].
Proof. induction 1 as [|x l Hx _ IH]; [done|]. by rewrite filter_cons_False, IH. Qed.

(** A duplicate-free list around one of its elements. *)
Lemma NoDup_split {A} (l : list A) b :
  NoDup l → b ∈ l → ∃ l1 l2, l = l1 ++ b :: l2 ∧ b ∉ l1 ∧ b ∉ l2.
Proof.
  intros ND (l1 & l2 & ->)%list_elem_of_split. exists l1, l2. split; [done|].
  apply NoDup_app in ND as (_ & Hd & [Hn _]%NoDup_cons). split; [|done].
  intros H. apply (Hd b H). left.
Qed.

Lemma NoDup_omap {A B} (f : A → option B) (l : list A) :
  NoDup l → (∀ x y b, x ∈ l → y ∈ l → f x = Some b → f y = Some b → x = y) → NoDup (omap f l).
Proof.
  induction 1 as [|x l Hx _ IH]; intros Hf; cbn [omap list_omap]; [constructor|].
  assert (NoDup (omap f l)) as ND by (apply IH; intros y z b Hy Hz; apply Hf; by right).
  destruct (f x) as [b|] eqn:E; [|done]. constructor; [|done].
  intros (y & Hy & Ey)%list_elem_of_omap. destruct Hx. rewrite (Hf x y b); [done|left|by right|done..].
Qed.

Lemma elem_of_concat {A} (x : A) ls : x ∈ concat ls ↔ ∃ l, x ∈ l ∧ l ∈ ls.
Proof.
  rewrite list_elem_of_In, in_concat. setoid_rewrite list_elem_of_In. split; intros (l & ? & ?); eauto.
Qed.

(** ** Sums *)

Definition zsum (l : list Z) : Z := foldr Z.add 0 l.

Lemma zsum_app l1 l2 : zsum (l1 ++ l2) = zsum l1 + zsum l2.
Proof. induction l1; simpl; lia. Qed.

Lemma zsum_nonneg l : Forall (λ x, 0 ≤ x) l → 0 ≤ zsum l.
Proof. induction 1; simpl; lia. Qed.

Lemma zsum_Permutation l k : l ≡ₚ k → zsum l = zsum k.
Proof. induction 1; simpl; lia. Qed.

Lemma zsum_replicate n x : zsum (replicate n x) = Z.of_nat n * x.
Proof. induction n; simpl; lia. Qed.

(** ** Consecutive batches

    [cdiv n b] batches of [b] cover a list of [n] items; the slices
    [k*b .. min(n, (k+1)*b)) concatenate back to the list. *)

Definition cdiv (n b : Z) : Z := (n + b - 1) `div` b.

Lemma cdiv_spec n b : 0 < b → b * (cdiv n b - 1) < n ≤ b * cdiv n b.
Proof.
  intros Hb. unfold cdiv.
  pose proof (Z.div_mod (n + b - 1) b ltac:(lia)).
  pose proof (Z.mod_pos_bound (n + b - 1) b Hb). lia.
Qed.

Lemma cdiv_unique n b q : 0 < b → b * (q - 1) < n ≤ b * q → cdiv n b = q.
Proof. intros Hb Hq. pose proof (cdiv_spec n b Hb). nia. Qed.

Lemma cdiv_nonneg n b : 0 ≤ n → 0 < b → 0 ≤ cdiv n b.
Proof. intros. unfold cdiv. apply Z.div_pos; lia. Qed.

Lemma cdiv_pos n b : 0 < n → 0 < b → 0 < cdiv n b.
Proof. intros Hn Hb. pose proof (cdiv_spec n b Hb). nia. Qed.

Lemma take_drop_batches {A} (l : list A) b k :
  concat ((λ i, take b (drop (i * b) l)) <$> seq 0 k) = take (k * b) l.
Proof.
  induction k as [|k IH]; [done|].
  rewrite seq_S, fmap_app, concat_app, IH; simpl. rewrite app_nil_r.
  rewrite <-(take_drop (k * b) (take (b + k * b) l)).
  rewrite take_take, skipn_firstn_comm. do 2 f_equal; [lia|]. f_equal; lia.
Qed.

(** The batches of [b] items of [l], as the code slices them. *)
Definition batches_of {A} (b : Z) (l : list A) : list (list A) :=
  (λ k, py_slice l (k * b) (Z.min (zlen l) (k * b + b))) <$> seqZ 0 (cdiv (zlen l) b).

Lemma batches_of_concat {A} (b : Z) (l : list A) : 0 < b → concat (batches_of b l) = l.
Proof.
  intros Hb. unfold batches_of, seqZ. rewrite <-list_fmap_compose.
  rewrite <-(take_ge l (Z.to_nat (cdiv (zlen l) b) * Z.to_nat b)) at 2.
  2:{ pose proof (cdiv_spec (zlen l) b Hb). pose proof (cdiv_nonneg (zlen l) b). nia. }
  rewrite <-take_drop_batches. f_equal. apply list_fmap_ext. intros i x Hx. simpl.
  rewrite Z.add_0_r. rewrite py_slice_nonneg by lia.
  replace (Z.to_nat (Z.of_nat x * b)) with (x * Z.to_nat b)%nat by lia.
  destruct (decide (Z.of_nat x * b + b ≤ zlen l)).
  - rewrite Z.min_r by lia. f_equal. lia.
  - rewrite Z.min_l by lia. rewrite !take_ge; [done| |]; rewrite length_drop; lia.
Qed.

Lemma Forall_batches {A} (P : A → Prop) b (l : list A) : 0 < b → Forall P l → Forall (Forall P) (batches_of b l).
Proof.
  intros Hb H. rewrite <-(batches_of_concat b l Hb) in H. by apply Forall_concat in H.
Qed.

(** ** Unsigned machine integers *)

Definition wrap (w : Z) (z : Z) : Z := z `mod` 2 ^ w.
Definition in_width (w : Z) (z : Z) : Prop := 0 ≤ z < 2 ^ w.

#[export] Instance in_width_dec w z : Decision (in_width w z).
Proof. unfold in_width. apply _. Defined.

Lemma wrap_small w z : in_width w z → wrap w z = z.
Proof. apply Z.mod_small. Qed.

Lemma wrap_in_width w z : 0 ≤ w → in_width w (wrap w z).
Proof. intros. apply Z.mod_pos_bound. by apply Z.pow_pos_nonneg. Qed.

Lemma wrap_add_l w x y : wrap w (wrap w x + y) = wrap w (x + y).
Proof. unfold wrap. by rewrite Zplus_mod_idemp_l. Qed.

Lemma wrap_wrap w x : wrap w (wrap w x) = wrap w x.
Proof. unfold wrap. by rewrite Zmod_mod. Qed.

(** ** Hints shared by the components *)

Create HintDb memtier discriminated.
#[export] Hint Resolve zsum_nonneg cdiv_nonneg cdiv_pos : memtier.
