(* ===== verification/PyFloat.v ===== *)
(** Python floats: IEEE 754 binary64 numbers, correctly rounded.

    The scripts divide integers, take fractions of counts and round indices in
    floating point, so their numeric results depend on rounding.  A float is a
    sign, an integer mantissa below 2^53 and an exponent; every operation
    computes the exact rational result and rounds it once, to nearest, ties to
    even ([round_q]).  Integer true division, [statistics.mean] and decimal
    literals are correctly rounded rationals too, so they share [round_q].

    The lemmas are the ones clients need: rounding is monotone, it is the
    identity on representable values, and therefore it keeps a ratio of counts
    between 0 and 1 and a ceiling of a quotient exact below 2^53. *)

From S2P Require Import Prelude.

(** ** Representation *)

Inductive f64 : Type :=
| Fin (neg : bool) (m e : Z)   (* (-1)^neg * m * 2^e *)
| Inf (neg : bool)
| NaN.

#[export] Instance f64_eq_dec : EqDecision f64.
Proof. solve_decision. Defined.

Definition emin : Z := -1074.
Definition emax : Z := 971.
Definition two52 : Z := Eval compute in 2 ^ 52.
Definition two53 : Z := Eval compute in 2 ^ 53.

(** [x * 2^k] when [k] is positive, [x] otherwise: a rational times a power of
    two of either sign is [shl n k / shl d (-k)]. *)
Definition shl (x k : Z) : Z := x * 2 ^ Z.max 0 k.

Definition canonical (m e : Z) : bool :=
  (0 <=? m) && (m <? two53) && (emin <=? e) && (e <=? emax) && ((two52 <=? m) || (e =? emin)).

Definition f_wf (f : f64) : bool :=
  match f with Fin _ m e => canonical m e | _ => true end.

(** ** Rounding a non-negative rational *)

(** Integer division rounded to nearest, ties to even ([d > 0]). *)
Definition div_rne (n d : Z) : Z :=
  let q := n `div` d in let r := n `mod` d in
  if (2 * r <? d) || ((2 * r =? d) && Z.even q) then q else q + 1.

(** [floor (log2 (n / d))] for positive [n] and [d]. *)
Definition flog2 (n d : Z) : Z :=
  let k := Z.log2 n - Z.log2 d in
  if shl d k <=? shl n (- k) then k else k - 1.

Definition round_q (neg : bool) (n d : Z) : f64 :=
  if n =? 0 then Fin neg 0 emin else
  let e := Z.max emin (flog2 n d - 52) in
  let m := div_rne (shl n (- e)) (shl d e) in
  let '(m, e) := if m =? two53 then (two52, e + 1) else (m, e) in
  if emax <? e then Inf neg else Fin neg m e.

(** ** Operations *)

Definition sgn_apply (neg : bool) (x : Z) : Z := if neg then - x else x.
(** The exact value of [Fin neg m e] is [fnum / fden]. *)
Definition fnum (f : f64) : Z :=
  match f with Fin s m e => sgn_apply s (shl m e) | _ => 0 end.
Definition fden (f : f64) : Z :=
  match f with Fin _ _ e => shl 1 (- e) | _ => 1 end.

Definition round_signed (n d : Z) : f64 := round_q (n <? 0) (Z.abs n) d.

(** A decimal literal [n/d]. *)
Definition lit (n d : Z) : f64 := round_signed n d.
Definition f_zero : f64 := Fin false 0 emin.
Definition f_one : f64 := lit 1 1.

Definition not_inf (f : f64) : result f64 :=
  match f with Inf _ => Err OverflowError | _ => Ok f end.

(** [float(z)]. *)
Definition of_Z (z : Z) : result f64 := not_inf (round_signed z 1).

(** [a / b] on ints: the correctly rounded quotient. *)
Definition truediv (a b : Z) : result f64 :=
  if b =? 0 then Err ZeroDivisionError
  else not_inf (round_q (xorb (a <? 0) (b <? 0)) (Z.abs a) (Z.abs b)).

Definition fmul (x y : f64) : f64 :=
  match x, y with
  | NaN, _ | _, NaN => NaN
  | Inf s, Inf t => Inf (xorb s t)
  | Inf s, Fin t m _ | Fin t m _, Inf s => if m =? 0 then NaN else Inf (xorb s t)
  | Fin s _ _, Fin t _ _ =>
      round_q (xorb s t) (Z.abs (fnum x) * Z.abs (fnum y)) (fden x * fden y)
  end.

Definition fopp (x : f64) : f64 :=
  match x with Fin s m e => Fin (negb s) m e | Inf s => Inf (negb s) | NaN => NaN end.

Definition fadd (x y : f64) : f64 :=
  match x, y with
  | NaN, _ | _, NaN => NaN
  | Inf s, Inf t => if Bool.eqb s t then Inf s else NaN
  | Inf s, _ | _, Inf s => Inf s
  | Fin s _ _, Fin t _ _ =>
      let n := fnum x * fden y + fnum y * fden x in
      if n =? 0 then Fin (s && t) 0 emin else round_signed n (fden x * fden y)
  end.

Definition fsub (x y : f64) : f64 := fadd x (fopp y).

(** [x / y] on floats; a zero divisor raises. *)
Definition fdiv (x y : f64) : result f64 :=
  match x, y with
  | _, Fin _ 0 _ => Err ZeroDivisionError
  | NaN, _ | _, NaN => Ok NaN
  | Inf _, Inf _ => Ok NaN
  | Inf s, Fin t _ _ => Ok (Inf (xorb s t))
  | Fin s _ _, Inf t => Ok (Fin (xorb s t) 0 emin)
  | Fin s _ _, Fin t _ _ =>
      Ok (round_q (xorb s t) (Z.abs (fnum x) * fden y) (fden x * Z.abs (fnum y)))
  end.

(** [x <= y] (false with a NaN). *)
Definition fle (x y : f64) : bool :=
  match x, y with
  | NaN, _ | _, NaN => false
  | Inf s, Inf t => s || negb t
  | Inf s, _ => s
  | _, Inf t => negb t
  | Fin s m e, Fin t m' e' => shl (sgn_apply s m) (e - e') <=? shl (sgn_apply t m') (e' - e)
  end.
Definition flt (x y : f64) : bool := fle x y && negb (fle y x).

(** [int(x)], [math.ceil(x)], [round(x)] on a float. *)
Definition f_to_int (conv : Z → Z → Z) (x : f64) : result Z :=
  match x with
  | NaN => Err ValueError
  | Inf _ => Err OverflowError
  | Fin _ _ _ => Ok (conv (fnum x) (fden x))
  end.
Definition f_int : f64 → result Z := f_to_int Z.quot.
Definition f_ceil : f64 → result Z := f_to_int (λ n d, - ((- n) `div` d)).
Definition f_round : f64 → result Z := f_to_int div_rne.

(** [max(x, y)] and [min(x, y)] on floats, Python's first-wins rule. *)
Definition f_max (x y : f64) : f64 := if flt x y then y else x.

(** [sum(l)] on floats, added from the left (Python before 3.12). *)
Definition f_sum (l : list f64) : f64 := foldl fadd f_zero l.

(** [statistics.mean]: the exact mean of the data, rounded once.  The data are
    ints here; an empty sequence raises [StatisticsError], a [ValueError]. *)
Definition mean_Z (l : list Z) : result f64 :=
  if decide (l = []) then Err ValueError else truediv (zsum l) (zlen l).

(** The exact sum of floats as a rational over [2^1074]. *)
Definition fscaled (f : f64) : Z := fnum f * (2 ^ 1074 `div` fden f).
Definition is_fin (f : f64) : bool := match f with Fin _ _ _ => true | _ => false end.

Definition mean_f (l : list f64) : result f64 :=
  if decide (l = []) then Err ValueError
  else match filter (λ f, is_fin f = false) l with
       | [] => not_inf (round_signed (zsum (fscaled <$> l)) (zlen l * 2 ^ 1074))
       | x :: xs => Ok (foldl fadd x xs)
       end.

(** ** Lemmas: rounding *)

Lemma div_rne_spec n d :
  0 < d → let q := div_rne n d in
  2 * n - d ≤ 2 * q * d ≤ 2 * n + d ∧
  (2 * q * d = 2 * n + d ∨ 2 * q * d = 2 * n - d → Z.even q = true).
Proof.
  intros Hd q. pose proof (Z.div_mod n d ltac:(lia)) as Hn.
  pose proof (Z.mod_pos_bound n d Hd) as Hr. subst q. unfold div_rne.
  set (q := n `div` d) in *. set (r := n `mod` d) in *. clearbody q r. subst n.
  destruct (Z.ltb_spec (2 * r) d); simpl; [split; [nia|intros [?|?]; nia]|].
  destruct (Z.eqb_spec (2 * r) d) as [E|E]; simpl; [|split; [nia|intros [?|?]; nia]].
  destruct (Z.even q) eqn:Eq; [split; [nia|done]|].
  split; [nia|]. intros _. by rewrite Z.even_add, Eq.
Qed.

Lemma div_rne_mono n1 d1 n2 d2 :
  0 < d1 → 0 < d2 → n1 * d2 ≤ n2 * d1 → div_rne n1 d1 ≤ div_rne n2 d2.
Proof.
  intros Hd1 Hd2 H.
  destruct (div_rne_spec n1 d1 Hd1) as [[_ H1] E1].
  destruct (div_rne_spec n2 d2 Hd2) as [[H2 _] E2].
  set (q1 := div_rne n1 d1) in *. set (q2 := div_rne n2 d2) in *. clearbody q1 q2.
  destruct (Z.le_gt_cases q1 q2) as [|Hq]; [done|exfalso].
  assert (2 * q1 * d1 * d2 ≤ 2 * n2 * d1 + d1 * d2) by nia.
  assert (2 * n2 * d1 ≤ 2 * q2 * d2 * d1 + d1 * d2) by nia.
  assert (q1 = q2 + 1) as -> by nia.
  assert (2 * (q2 + 1) * d1 = 2 * n1 + d1) as T1 by nia.
  assert (2 * q2 * d2 = 2 * n2 - d2) as T2 by nia.
  specialize (E1 (or_introl T1)). specialize (E2 (or_intror T2)).
  rewrite Z.even_add, E2 in E1. done.
Qed.

Lemma div_rne_mult q d : 0 < d → div_rne (q * d) d = q.
Proof.
  intros Hd. unfold div_rne. rewrite Z.div_mul, Z.mod_mul by lia.
  destruct (Z.ltb_spec (2 * 0) d); [done|lia].
Qed.

Lemma shl_pos x k : 0 < x → 0 < shl x k.
Proof. intros. unfold shl. pose proof (Z.pow_pos_nonneg 2 (Z.max 0 k)). nia. Qed.
Lemma shl_nonneg x k : 0 ≤ x → 0 ≤ shl x k.
Proof. intros. unfold shl. pose proof (Z.pow_pos_nonneg 2 (Z.max 0 k)). nia. Qed.
#[export] Hint Resolve shl_pos shl_nonneg : memtier.

(** Comparing [n/d] with a power of two, scaled so that no exponent is negative. *)
Lemma shl_le x y k t :
  0 ≤ t → 0 ≤ t + k → shl x k ≤ shl y (- k) ↔ x * 2 ^ (t + k) ≤ y * 2 ^ t.
Proof.
  intros Ht Htk. unfold shl. destruct (Z.le_gt_cases 0 k).
  - rewrite (Z.max_r 0 k), (Z.max_l 0 (- k)) by lia.
    rewrite Z.pow_add_r by lia. pose proof (Z.pow_pos_nonneg 2 t). nia.
  - rewrite (Z.max_l 0 k), (Z.max_r 0 (- k)) by lia.
    replace t with ((t + k) + - k) at 2 by lia. rewrite (Z.pow_add_r 2 (t + k)) by lia.
    pose proof (Z.pow_pos_nonneg 2 (t + k)). nia.
Qed.

Lemma flog2_spec n d t (k := flog2 n d) :
  0 < n → 0 < d → 0 ≤ t → 0 ≤ t + k →
  d * 2 ^ (t + k) ≤ n * 2 ^ t < d * 2 ^ (t + k + 1).
Proof.
  intros Hn Hd Ht Htk. subst k. unfold flog2 in *.
  pose proof (Z.log2_spec n Hn) as [Ln1 Ln2]. pose proof (Z.log2_spec d Hd) as [Ld1 Ld2].
  pose proof (Z.log2_nonneg n). pose proof (Z.log2_nonneg d).
  set (a := Z.log2 n) in *. set (b := Z.log2 d) in *.
  rewrite Z.pow_succ_r in Ln2, Ld2 by lia.
  destruct (Z.leb_spec (shl d (a - b)) (shl n (- (a - b)))) as [Hle|Hgt].
  - rewrite shl_le with (t := t) in Hle by lia. split; [done|].
    rewrite Z.pow_add_r by lia.
    (* n < 2 * 2^a, 2^b <= d *)
    assert (n * 2 ^ t * 2 ^ b < 2 * 2 ^ a * 2 ^ t * 2 ^ b) by (pose proof (Z.pow_pos_nonneg 2 t); pose proof (Z.pow_pos_nonneg 2 b); nia).
    assert (2 ^ a * 2 ^ t = 2 ^ (t + (a - b)) * 2 ^ b) as E by (rewrite <-!Z.pow_add_r by lia; f_equal; lia).
    pose proof (Z.pow_pos_nonneg 2 (t + (a - b))). pose proof (Z.pow_pos_nonneg 2 b). nia.
  - apply Z.nle_gt in Hgt. rewrite shl_le with (t := t) in Hgt by lia. apply Z.nle_gt in Hgt.
    replace (t + (a - b - 1) + 1) with (t + (a - b)) by lia. split; [|lia].
    assert (2 ^ (t + (a - b)) = 2 * 2 ^ (t + (a - b - 1))) as E2
      by (rewrite <-Z.pow_succ_r by lia; f_equal; lia).
    assert (2 ^ a * 2 ^ t = 2 ^ (t + (a - b)) * 2 ^ b) as E by (rewrite <-!Z.pow_add_r by lia; f_equal; lia).
    pose proof (Z.pow_pos_nonneg 2 (t + (a - b - 1))). pose proof (Z.pow_pos_nonneg 2 b).
    pose proof (Z.pow_pos_nonneg 2 t). nia.
Qed.

Lemma flog2_mono n1 d1 n2 d2 :
  0 < n1 → 0 < n2 → 0 < d1 → 0 < d2 → n1 * d2 ≤ n2 * d1 → flog2 n1 d1 ≤ flog2 n2 d2.
Proof.
  intros Hn1 Hn2 Hd1 Hd2 H. set (k1 := flog2 n1 d1). set (k2 := flog2 n2 d2).
  destruct (Z.le_gt_cases k1 k2) as [|Hk]; [done|exfalso].
  set (t := Z.abs k1 + Z.abs k2).
  destruct (flog2_spec n1 d1 t) as [H1 _]; [lia..|]. fold k1 in H1.
  destruct (flog2_spec n2 d2 t) as [_ H2]; [lia..|]. fold k2 in H2.
  assert (2 ^ (t + k2 + 1) ≤ 2 ^ (t + k1)) by (apply Z.pow_le_mono_r; lia).
  pose proof (Z.pow_pos_nonneg 2 t). nia.
Qed.

Lemma flog2_unique n d k t :
  0 < n → 0 < d → 0 ≤ t → 0 ≤ t + k → 0 ≤ t + flog2 n d →
  d * 2 ^ (t + k) ≤ n * 2 ^ t < d * 2 ^ (t + k + 1) → flog2 n d = k.
Proof.
  intros Hn Hd Ht Htk Htf [H1 H2]. destruct (flog2_spec n d t) as [H3 H4]; [lia..|].
  set (f := flog2 n d) in *.
  assert (2 ^ (t + k) < 2 ^ (t + f + 1)) as A%Z.pow_lt_mono_r_iff by nia; [|lia..].
  assert (2 ^ (t + f) < 2 ^ (t + k + 1)) as B%Z.pow_lt_mono_r_iff by nia; lia.
Qed.

(** The order on canonical mantissa/exponent pairs. *)
Definition lex_le (p q : Z * Z) : Prop := p.2 < q.2 ∨ (p.2 = q.2 ∧ p.1 ≤ q.1).

(** The exponent and mantissa before the overflow check. *)
Definition round_me (n d : Z) : Z * Z :=
  let e := Z.max emin (flog2 n d - 52) in
  let m := div_rne (shl n (- e)) (shl d e) in
  if m =? two53 then (two52, e + 1) else (m, e).

Lemma round_q_me s n d :
  n ≠ 0 → round_q s n d =
  if emax <? (round_me n d).2 then Inf s else Fin s (round_me n d).1 (round_me n d).2.
Proof.
  intros Hn. unfold round_q, round_me. destruct (Z.eqb_spec n 0); [done|].
  by destruct (_ =? two53).
Qed.

Lemma round_mant_bounds n d (e := Z.max emin (flog2 n d - 52))
    (m := div_rne (shl n (- e)) (shl d e)) :
  0 < n → 0 < d → 0 ≤ m ≤ two53 ∧ (emin < e → two52 ≤ m).
Proof.
  intros Hn Hd. set (t := Z.abs (flog2 n d) + 2000).
  destruct (flog2_spec n d t) as [H1 H2]; [lia..|].
  assert (0 < shl d e) by auto with memtier. assert (0 < shl n (- e)) by auto with memtier.
  assert (He : 0 ≤ t + e) by (unfold t, e, emin; lia).
  split; [split|].
  - replace 0 with (div_rne 0 1) by done. apply div_rne_mono; lia.
  - replace two53 with (div_rne two53 1) by done. apply div_rne_mono; [lia..|].
    assert (¬ shl (two53 * d) e ≤ shl n (- e) ∨ shl n (- e) = shl (two53 * d) e) as Hc.
    { destruct (Z.eq_dec (shl n (- e)) (shl (two53 * d) e)); [by right|left].
      intros Hle. rewrite shl_le with (t := t) in Hle by (unfold t; lia).
      assert (2 ^ (t + flog2 n d + 1) ≤ two53 * 2 ^ (t + e)).
      { change two53 with (2 ^ 53). rewrite <-Z.pow_add_r by lia. apply Z.pow_le_mono_r; lia. }
      nia. }
    unfold shl in *. nia.
  - intros Hemin. replace two52 with (div_rne two52 1) by done. apply div_rne_mono; [lia..|].
    assert (shl (two52 * d) e ≤ shl n (- e)) as Hc; [|unfold shl in *; nia].
    rewrite shl_le with (t := t) by (unfold t; lia).
    assert (two52 * 2 ^ (t + e) = 2 ^ (t + flog2 n d)); [|nia].
    change two52 with (2 ^ 52). rewrite <-Z.pow_add_r by lia. f_equal. lia.
Qed.

Lemma round_me_mono n1 d1 n2 d2 :
  0 < n1 → 0 < n2 → 0 < d1 → 0 < d2 → n1 * d2 ≤ n2 * d1 →
  lex_le (round_me n1 d1) (round_me n2 d2).
Proof.
  intros Hn1 Hn2 Hd1 Hd2 H. pose proof (flog2_mono n1 d1 n2 d2 Hn1 Hn2 Hd1 Hd2 H) as Hk.
  pose proof (round_mant_bounds n1 d1 Hn1 Hd1) as [B1 C1].
  pose proof (round_mant_bounds n2 d2 Hn2 Hd2) as [B2 C2].
  unfold round_me, lex_le.
  set (e1 := Z.max emin (flog2 n1 d1 - 52)) in *. set (e2 := Z.max emin (flog2 n2 d2 - 52)) in *.
  assert (e1 = e2 ∨ e1 < e2) as [He|He] by lia.
  - rewrite <-He in *. clearbody e1. clear C1 C2.
    assert (div_rne (shl n1 (- e1)) (shl d1 e1) ≤ div_rne (shl n2 (- e1)) (shl d2 e1)).
    { apply div_rne_mono; [auto with memtier..|]. unfold shl.
      pose proof (Z.pow_pos_nonneg 2 (Z.max 0 (- e1))). pose proof (Z.pow_pos_nonneg 2 (Z.max 0 e1)).
      nia. }
    destruct (Z.eqb_spec (div_rne (shl n1 (- e1)) (shl d1 e1)) two53);
    destruct (Z.eqb_spec (div_rne (shl n2 (- e1)) (shl d2 e1)) two53); simpl; lia.
  - assert (emin < e2) as L by lia. specialize (C2 L).
    destruct (Z.eqb_spec (div_rne (shl n1 (- e1)) (shl d1 e1)) two53);
    destruct (Z.eqb_spec (div_rne (shl n2 (- e2)) (shl d2 e2)) two53); simpl; lia.
Qed.

(** A representable value rounds to itself. *)
Lemma round_me_exact n d m e :
  0 < m → canonical m e = true → 0 < n → 0 < d → shl n (- e) = m * shl d e →
  round_me n d = (m, e).
Proof.
  intros Hm Hc Hn Hd E. unfold canonical in Hc.
  rewrite !andb_true_iff, orb_true_iff, !Z.leb_le, Z.ltb_lt, Z.eqb_eq in Hc.
  destruct Hc as ((((_ & Hm2) & He) & _) & Hnorm).
  assert (Z.log2 m < 53) as L2 by (apply Z.log2_lt_pow2; [done|exact Hm2]).
  assert (Z.max emin (flog2 n d - 52) = e) as Ek.
  { pose proof (Z.log2_spec m Hm) as [Lm1 Lm2]. rewrite Z.pow_succ_r in Lm2 by apply Z.log2_nonneg.
    set (t := Z.abs e + Z.abs (flog2 n d) + 100).
    assert (n * 2 ^ t = m * d * 2 ^ (t + e)) as Ent.
    { unfold shl in E. destruct (Z.le_gt_cases 0 e).
      - rewrite (Z.max_r 0 e), (Z.max_l 0 (- e)), Z.pow_0_r, Z.mul_1_r in E by lia.
        rewrite E, Z.pow_add_r by lia. ring.
      - rewrite (Z.max_l 0 e), (Z.max_r 0 (- e)), Z.pow_0_r, Z.mul_1_r in E by lia.
        replace t with ((t + e) + - e) at 1 by lia. rewrite (Z.pow_add_r 2 (t + e)), <-E by lia. ring. }
    assert (flog2 n d = Z.log2 m + e) as ->.
    { pose proof (Z.log2_nonneg m). apply flog2_unique with (t := t); [lia..|].
      replace (t + (Z.log2 m + e)) with (Z.log2 m + (t + e)) by lia.
      rewrite (Z.pow_add_r 2 _ 1), (Z.pow_add_r 2 (Z.log2 m)), Z.pow_1_r, Ent by lia.
      assert (0 < d * 2 ^ (t + e)) by (pose proof (Z.pow_pos_nonneg 2 (t + e)); nia).
      set (z := 2 ^ (t + e)) in *. set (l := 2 ^ Z.log2 m) in *. clearbody z l. nia. }
    destruct Hnorm as [Hn52| ->]; [|lia].
    assert (52 ≤ Z.log2 m); [|lia]. apply Z.log2_le_pow2; [done|exact Hn52]. }
  unfold round_me. rewrite Ek, E, div_rne_mult by auto with memtier.
  destruct (Z.eqb_spec m two53); [lia|done].
Qed.

Lemma round_me_wf n d :
  0 < n → 0 < d → let '(m, e) := round_me n d in emin ≤ e ∧ 0 ≤ m < two53 ∧ (two52 ≤ m ∨ e = emin).
Proof.
  intros Hn Hd. pose proof (round_mant_bounds n d Hn Hd) as [B C]. unfold round_me.
  set (e := Z.max emin (flog2 n d - 52)) in *.
  destruct (Z.eqb_spec (div_rne (shl n (- e)) (shl d e)) two53); unfold two52, two53, emin in *; lia.
Qed.

Lemma round_q_wf s n d : 0 ≤ n → 0 < d → f_wf (round_q s n d) = true.
Proof.
  intros Hn Hd. destruct (Z.eq_dec n 0) as [->|Hn0]; [done|].
  rewrite round_q_me by done. pose proof (round_me_wf n d ltac:(lia) Hd) as W.
  destruct (round_me n d) as [m e]; simpl.
  destruct (Z.ltb_spec emax e); [done|]. simpl. unfold canonical.
  rewrite !andb_true_iff, orb_true_iff, !Z.leb_le, Z.ltb_lt, Z.eqb_eq. lia.
Qed.

(** ** Lemmas: order and bounds *)

Lemma canonical_spec m e :
  canonical m e = true ↔ 0 ≤ m < two53 ∧ emin ≤ e ≤ emax ∧ (two52 ≤ m ∨ e = emin).
Proof.
  unfold canonical. rewrite !andb_true_iff, orb_true_iff, !Z.leb_le, Z.ltb_lt, Z.eqb_eq. tauto.
Qed.

Lemma fden_pos f : 0 < fden f.
Proof. destruct f; simpl; [apply shl_pos|..]; lia. Qed.
#[export] Hint Resolve fden_pos : memtier.

(** The value of a finite float over a common scale. *)
Lemma fnum_scaled m e t :
  0 ≤ t → 0 ≤ t + e → fnum (Fin false m e) * 2 ^ t = m * 2 ^ (t + e) * fden (Fin false m e).
Proof.
  intros Ht Hte. simpl. unfold shl. destruct (Z.le_gt_cases 0 e).
  - rewrite Z.max_r, (Z.max_l 0 (- e)), Z.pow_add_r by lia. lia.
  - rewrite Z.max_l, (Z.max_r 0 (- e)) by lia.
    replace t with ((t + e) + - e) at 1 by lia. rewrite (Z.pow_add_r 2 (t + e)) by lia. lia.
Qed.

Lemma fle_rat s m e s' m' e' :
  fle (Fin s m e) (Fin s' m' e') = true ↔
  fnum (Fin s m e) * fden (Fin s' m' e') ≤ fnum (Fin s' m' e') * fden (Fin s m e).
Proof.
  assert (∀ (b : bool) x k, sgn_apply b (shl x k) = shl (sgn_apply b x) k) as Hs
    by (intros [] x k; unfold sgn_apply, shl; lia).
  simpl. rewrite Z.leb_le, !Hs. set (x := sgn_apply s m). set (y := sgn_apply s' m').
  unfold shl. set (g := Z.min (Z.max 0 e + Z.max 0 (- e')) (Z.max 0 e' + Z.max 0 (- e))).
  assert (2 ^ Z.max 0 e * 2 ^ Z.max 0 (- e') = 2 ^ Z.max 0 (e - e') * 2 ^ g) as E1
    by (rewrite <-!Z.pow_add_r by lia; f_equal; lia).
  assert (2 ^ Z.max 0 e' * 2 ^ Z.max 0 (- e) = 2 ^ Z.max 0 (e' - e) * 2 ^ g) as E2
    by (rewrite <-!Z.pow_add_r by lia; f_equal; lia).
  rewrite !Z.mul_1_l, <-!Z.mul_assoc, E1, E2, !Z.mul_assoc.
  pose proof (Z.pow_pos_nonneg 2 g ltac:(lia) ltac:(lia)) as Hg.
  by rewrite <-Z.mul_le_mono_pos_r.
Qed.

Lemma lex_fle m e m' e' :
  0 ≤ m < two53 → 0 ≤ m' → (two52 ≤ m' ∨ e' ≤ e) → lex_le (m, e) (m', e') →
  fle (Fin false m e) (Fin false m' e') = true.
Proof.
  intros Hm Hm' Hn [He|[He Hle]]; simpl in *; apply Z.leb_le; unfold shl.
  - rewrite (Z.max_l 0 (e - e')), (Z.max_r 0 (e' - e)), Z.pow_0_r by lia. destruct Hn as [Hn|]; [|lia].
    assert (2 ^ 1 ≤ 2 ^ (e' - e)) as HP by (apply Z.pow_le_mono_r; lia).
    set (P := 2 ^ (e' - e)) in *. clearbody P. unfold two52, two53 in *. nia.
  - rewrite He, !Z.sub_diag. change (2 ^ Z.max 0 0) with 1. unfold sgn_apply. lia.
Qed.

Lemma fle_refl_fin s m e : fle (Fin s m e) (Fin s m e) = true.
Proof. simpl. by rewrite Z.leb_refl. Qed.

Lemma round_q_mono n1 d1 n2 d2 :
  0 ≤ n1 → 0 ≤ n2 → 0 < d1 → 0 < d2 → n1 * d2 ≤ n2 * d1 →
  fle (round_q false n1 d1) (round_q false n2 d2) = true.
Proof.
  intros Hn1 Hn2 Hd1 Hd2 H.
  destruct (Z.eq_dec n2 0) as [->|N2].
  { assert (n1 = 0) as -> by nia. apply fle_refl_fin. }
  pose proof (round_me_wf n2 d2 ltac:(lia) Hd2) as W2. rewrite (round_q_me _ n2) by done.
  destruct (Z.eq_dec n1 0) as [->|N1].
  { destruct (round_me n2 d2) as [m e]; simpl. destruct (Z.ltb_spec emax e); [done|].
    simpl. apply Z.leb_le. unfold shl. pose proof (Z.pow_pos_nonneg 2 (Z.max 0 (e - emin))). nia. }
  pose proof (round_me_wf n1 d1 ltac:(lia) Hd1) as W1. rewrite (round_q_me _ n1) by done.
  pose proof (round_me_mono n1 d1 n2 d2 ltac:(lia) ltac:(lia) Hd1 Hd2 H) as L.
  destruct (round_me n1 d1) as [m1 e1], (round_me n2 d2) as [m2 e2]. unfold lex_le in L; simpl in *.
  destruct (Z.ltb_spec emax e1), (Z.ltb_spec emax e2); [done|lia|done|].
  apply lex_fle; [lia|lia| |done]. lia.
Qed.

(** A canonical float is its own rounding. *)
Lemma round_q_repr m e :
  canonical m e = true → round_q false (fnum (Fin false m e)) (fden (Fin false m e)) = Fin false m e.
Proof.
  intros Hc. pose proof Hc as (Hm & He & Hn)%canonical_spec.
  destruct (Z.eq_dec m 0) as [->|Hm0].
  { assert (e = emin) as -> by (unfold two52 in *; lia). done. }
  assert (0 < shl m e) by (apply shl_pos; lia). assert (0 < shl 1 (- e)) by (apply shl_pos; lia).
  rewrite round_q_me by (simpl; lia).
  rewrite (round_me_exact _ _ m e); simpl; try lia; try done.
  - destruct (Z.ltb_spec emax e); [lia|done].
  - unfold shl. lia.
Qed.

(** Rounding never crosses a representable value. *)
Lemma round_q_le_repr n d m e :
  0 ≤ n → 0 < d → canonical m e = true →
  n * fden (Fin false m e) ≤ fnum (Fin false m e) * d →
  fle (round_q false n d) (Fin false m e) = true.
Proof.
  intros Hn Hd Hc H. rewrite <-(round_q_repr m e Hc). apply canonical_spec in Hc as ([? ?] & _).
  apply round_q_mono; [done|simpl; auto with memtier|done|apply fden_pos|done].
Qed.

Lemma f_one_eq : f_one = Fin false two52 (-52).
Proof. vm_compute. reflexivity. Qed.

(** [0 <= round_q n d <= 1] for a proper fraction. *)
Definition in_unit (f : f64) : bool := f_wf f && fle f_zero f && fle f f_one.

Lemma round_q_nonneg n d : 0 ≤ n → 0 < d → fle f_zero (round_q false n d) = true.
Proof.
  intros. replace f_zero with (round_q false 0 1) by done. apply round_q_mono; lia.
Qed.

Lemma round_q_unit n d : 0 ≤ n → 0 < d → n ≤ d → in_unit (round_q false n d) = true.
Proof.
  intros. unfold in_unit. rewrite round_q_nonneg, round_q_wf by done; simpl.
  rewrite f_one_eq. apply round_q_le_repr; [done|done|done|]. vm_compute fden. vm_compute fnum. lia.
Qed.

Lemma in_unit_fin f : in_unit f = true → ∃ s m e, f = Fin s m e.
Proof. destruct f as [s m e|[]|]; [eauto|done..]. Qed.

Lemma truediv_unit a b : 0 ≤ a ≤ b → 0 < b → ∃ f, truediv a b = Ok f ∧ in_unit f = true.
Proof.
  intros Ha Hb. exists (round_q false a b). unfold truediv.
  destruct (Z.eqb_spec b 0); [lia|]. destruct (Z.ltb_spec a 0), (Z.ltb_spec b 0); [lia..|]. simpl.
  rewrite !Z.abs_eq by lia. pose proof (round_q_unit a b ltac:(lia) Hb ltac:(lia)) as U.
  split; [|done]. by destruct (in_unit_fin _ U) as (s & m & e & ->).
Qed.

Lemma truediv_zero b : 0 < b → truediv 0 b = Ok f_zero.
Proof.
  intros Hb. unfold truediv. destruct (Z.eqb_spec b 0); [lia|]. destruct (Z.ltb_spec b 0); [lia|done].
Qed.

Lemma in_unit_spec f :
  in_unit f = true ↔ ∃ s m e, f = Fin s m e ∧ f_wf f = true ∧ 0 ≤ fnum f ≤ fden f.
Proof.
  unfold in_unit. rewrite !andb_true_iff, f_one_eq. unfold f_zero.
  split.
  - intros [[W H0] H1]. destruct f as [s m e|[]|]; [|done..]. exists s, m, e. split_and!; try done.
    + apply fle_rat in H0. change (fnum (Fin false 0 emin)) with 0 in H0.
      assert (0 < fden (Fin false 0 emin)) by apply fden_pos. nia.
    + apply fle_rat in H1. change (fnum (Fin false two52 (-52))) with two52 in H1.
      change (fden (Fin false two52 (-52))) with two52 in H1. unfold two52 in H1. lia.
  - intros (s & m & e & -> & W & H). split_and!; [done|apply fle_rat|apply fle_rat].
    + change (fnum (Fin false 0 emin)) with 0. assert (0 < fden (Fin false 0 emin)) by apply fden_pos. nia.
    + change (fnum (Fin false two52 (-52))) with two52.
      change (fden (Fin false two52 (-52))) with two52. unfold two52. lia.
Qed.

(** The mean of ratios is a ratio. *)
Lemma fscaled_unit f : in_unit f = true → 0 ≤ fscaled f ≤ 2 ^ 1074.
Proof.
  intros (s & m & e & -> & W & H)%in_unit_spec. apply canonical_spec in W as (_ & [He _] & _).
  unfold fscaled.
  assert (fden (Fin s m e) * (2 ^ 1074 `div` fden (Fin s m e)) = 2 ^ 1074) as E.
  { unfold fden, shl. rewrite Z.mul_1_l. unfold emin in He.
    replace 1074 with (Z.max 0 (- e) + (1074 - Z.max 0 (- e))) by lia.
    rewrite Z.pow_add_r by lia. rewrite (Z.mul_comm (2 ^ Z.max 0 (- e)) (2 ^ _)) at 1.
    rewrite Z.div_mul by (apply Z.pow_nonzero; lia). lia. }
  pose proof (fden_pos (Fin s m e)). set (D := fden (Fin s m e)) in *. set (N := fnum (Fin s m e)) in *.
  set (Q := 2 ^ 1074 `div` D) in *. set (P := 2 ^ 1074) in *.
  assert (0 ≤ Q) by (apply Z.div_pos; [unfold P; apply Z.pow_nonneg; lia|done]).
  clearbody Q P D N. nia.
Qed.

Lemma mean_f_unit l :
  l ≠ [] → Forall (λ f, in_unit f = true) l → ∃ f, mean_f l = Ok f ∧ in_unit f = true.
Proof.
  intros Hl HF. unfold mean_f. rewrite decide_False by done.
  assert (filter (λ f, is_fin f = false) l = []) as ->.
  { clear Hl. induction HF as [|f l Hf HF IH]; [done|]. rewrite filter_cons, decide_False; [done|].
    by destruct (in_unit_fin f Hf) as (s & m & e & ->). }
  assert (0 ≤ zsum (fscaled <$> l) ≤ zlen l * 2 ^ 1074) as Hs.
  { clear Hl. induction HF as [|f l Hf HF IH]; [simpl; lia|].
    pose proof (fscaled_unit f Hf). rewrite fmap_cons. simpl zsum. rewrite length_cons.
    set (P := 2 ^ 1074) in *. clearbody P. lia. }
  assert (0 < zlen l * 2 ^ 1074) as Hpos.
  { destruct l; [done|]. rewrite length_cons. pose proof (Z.pow_pos_nonneg 2 1074 ltac:(lia) ltac:(lia)).
    set (P := 2 ^ 1074) in *. clearbody P. nia. }
  unfold round_signed. destruct (Z.ltb_spec (zsum (fscaled <$> l)) 0); [lia|]. rewrite Z.abs_eq by lia.
  set (S := zsum _) in *. set (D := _ * 2 ^ 1074) in *. clearbody S D.
  pose proof (round_q_unit S D ltac:(lia) ltac:(lia) ltac:(lia)) as U. eexists; split; [|done].
  apply in_unit_spec in U as (s & m & e & -> & _). done.
Qed.

(** Integers up to 2^53 are exact. *)
Lemma of_Z_exact z :
  0 ≤ z ≤ two53 → ∃ m e, of_Z z = Ok (Fin false m e) ∧ canonical m e = true ∧
    fnum (Fin false m e) = z * fden (Fin false m e).
Proof.
  intros Hz. destruct (Z.eq_dec z 0) as [->|H0]; [by exists 0, emin|].
  destruct (Z.eq_dec z two53) as [->|H53]; [by exists two52, 1|].
  set (e := Z.log2 z - 52). set (m := z * 2 ^ (- e)).
  assert (Z.log2 z < 53) as L2 by (apply Z.log2_lt_pow2; [lia|change (2 ^ 53) with two53; lia]).
  pose proof (Z.log2_nonneg z). pose proof (Z.log2_spec z ltac:(lia)) as [L3 L4].
  assert (two52 ≤ m < two53) as Hm.
  { change two52 with (2 ^ 52). change two53 with (2 ^ 53). unfold m.
    replace (2 ^ 52) with (2 ^ Z.log2 z * 2 ^ (- e)) by (rewrite <-Z.pow_add_r by lia; f_equal; lia).
    replace (2 ^ 53) with (2 ^ Z.succ (Z.log2 z) * 2 ^ (- e)) by (rewrite <-Z.pow_add_r by lia; f_equal; lia).
    pose proof (Z.pow_pos_nonneg 2 (- e) ltac:(lia) ltac:(lia)).
    split; [apply Z.mul_le_mono_nonneg_r|apply Z.mul_lt_mono_pos_r]; lia. }
  assert (canonical m e = true) as Hc by (apply canonical_spec; unfold emin, emax, two52 in *; lia).
  assert (fnum (Fin false m e) = z * fden (Fin false m e)) as Ev.
  { simpl. unfold shl. rewrite (Z.max_l 0 e), (Z.max_r 0 (- e)) by lia. unfold m. lia. }
  exists m, e. split_and!; [|done|done].
  unfold of_Z, round_signed. destruct (Z.ltb_spec z 0); [lia|]. rewrite Z.abs_eq by lia.
  rewrite round_q_me by lia. rewrite (round_me_exact z 1 m e); [|unfold two52 in *; lia|done|lia|lia|].
  - simpl. destruct (Z.ltb_spec emax e); [unfold emax in *; lia|done].
  - unfold shl. rewrite (Z.max_l 0 e), (Z.max_r 0 (- e)) by lia. unfold m. lia.
Qed.

Lemma f_ceil_between s m e k (f := Fin s m e) :
  (k - 1) * fden f < fnum f ≤ k * fden f → f_ceil f = Ok k.
Proof.
  intros H. change (f_ceil f) with (Ok (- ((- fnum f) `div` fden f))). f_equal.
  generalize dependent (fden f). generalize (fnum f). intros N D H.
  rewrite <-(Z.div_unique (- N) D (- k) (k * D - N)); lia.
Qed.

(** The rounded quotient stays strictly above the integer below the exact one. *)
Lemma round_mant_above a b k e (M := div_rne (shl a (- e)) (shl b e)) t :
  0 < b → (k - 1) * b < a < two53 → e = flog2 a b - 52 → 0 < a → 0 ≤ t → 0 ≤ t + e →
  (k - 1) * 2 ^ t < M * 2 ^ (t + e).
Proof.
  intros Hb Ha He Ha0 Ht Hte.
  destruct (flog2_spec a b t Ha0 Hb Ht ltac:(lia)) as [S1 _].
  replace (t + flog2 a b) with (52 + (t + e)) in S1 by lia. rewrite Z.pow_add_r in S1 by lia.
  destruct (div_rne_spec (shl a (- e)) (shl b e) ltac:(auto with memtier)) as [[D1 _] _].
  fold M in D1. clearbody M. unfold shl in D1.
  assert (2 ^ Z.max 0 (- e) * 2 ^ (t + e) = 2 ^ Z.max 0 e * 2 ^ t) as E
    by (rewrite <-!Z.pow_add_r by lia; f_equal; lia).
  pose proof (Z.pow_pos_nonneg 2 (Z.max 0 e) ltac:(lia) ltac:(lia)) as Pv.
  pose proof (Z.pow_pos_nonneg 2 (t + e) ltac:(lia) ltac:(lia)) as Pw.
  pose proof (Z.pow_pos_nonneg 2 t ltac:(lia) ltac:(lia)) as PT.
  set (v := 2 ^ Z.max 0 e) in *. set (u := 2 ^ Z.max 0 (- e)) in *.
  set (w := 2 ^ (t + e)) in *. set (T := 2 ^ t) in *. change (2 ^ 52) with two52 in S1.
  clearbody u v w T. unfold two52, two53 in *.
  assert (b * w < 2 * T) by nia.
  assert (v * (2 * a * T - b * w) ≤ v * (2 * M * b * w)) as D2.
  { transitivity ((2 * (a * u) - b * v) * w); [|nia]. nia. }
  apply Z.mul_le_mono_pos_l in D2; [|done]. nia.
Qed.

(** [math.ceil(a / b)] is the ceiling of the exact quotient while the
    dividend stays below 2^53. *)
Lemma ceil_truediv_exact a b :
  0 < a < two53 → 0 < b ≤ two53 → (f ← truediv a b; f_ceil f) = Ok (cdiv a b).
Proof.
  intros Ha Hb. set (k := cdiv a b). pose proof (cdiv_spec a b ltac:(lia)) as Hk. fold k in Hk.
  assert (1 ≤ k ≤ a) as Hk1 by nia. clearbody k.
  assert (flog2 a b ≤ 53) as F1 by (apply (flog2_mono a b two53 1); unfold two53 in *; lia).
  assert (-53 ≤ flog2 a b) as F2 by (apply (flog2_mono 1 two53 a b); unfold two53 in *; lia).
  pose proof (round_mant_above a b k (flog2 a b - 52) 200 ltac:(lia) ltac:(lia) eq_refl
    ltac:(lia) ltac:(lia) ltac:(lia)) as Lo.
  destruct (of_Z_exact k) as (mk & ek & _ & Ck & Vk); [lia|].
  assert (fle (round_q false a b) (Fin false mk ek) = true) as Up
    by (apply round_q_le_repr; [lia|lia|done|rewrite Vk; pose proof (fden_pos (Fin false mk ek)); nia]).
  unfold truediv. destruct (Z.eqb_spec b 0); [lia|]. destruct (Z.ltb_spec a 0), (Z.ltb_spec b 0); [lia..|].
  simpl xorb. rewrite !Z.abs_eq by lia.
  rewrite round_q_me in Up |- * by lia. unfold round_me in *.
  rewrite (Z.max_r emin) in * by (unfold emin; lia). set (e := flog2 a b - 52) in *.
  set (M := div_rne _ _) in *.
  assert (∃ m e', (if M =? two53 then (two52, e + 1) else (M, e)) = (m, e') ∧ e' ≤ 2 ∧ -105 ≤ e' ∧
    m * 2 ^ (200 + e') = M * 2 ^ (200 + e)) as (m & e' & E & He' & He'' & Vm).
  { destruct (Z.eqb_spec M two53) as [EM|]; [|exists M, e; split_and!; [done|lia..]].
    exists two52, (e + 1). split_and!; [done|lia|lia|]. rewrite EM, Z.add_assoc, Z.pow_add_r by lia.
    change two53 with (two52 * 2). lia. }
  rewrite E in *; cbn [fst snd] in *. destruct (Z.ltb_spec emax e'); [unfold emax in *; lia|].
  change (f_ceil (Fin false m e') = Ok k). apply f_ceil_between. pose proof (fden_pos (Fin false m e')) as Dp.
  pose proof (fden_pos (Fin false mk ek)). apply fle_rat in Up. rewrite Vk in Up.
  pose proof (fnum_scaled m e' 200 ltac:(lia) ltac:(lia)) as Sc. rewrite Vm in Sc.
  pose proof (Z.pow_pos_nonneg 2 200 ltac:(lia) ltac:(lia)) as PT.
  set (D := fden (Fin false m e')) in *. set (N := fnum (Fin false m e')) in *.
  set (D' := fden (Fin false mk ek)) in *. set (T := 2 ^ 200) in *. set (W := M * 2 ^ (200 + e)) in *.
  clearbody D N D' T W. split; nia.
Qed.

Lemma fmul_comm x y : fmul x y = fmul y x.
Proof.
  destruct x, y; simpl; try done; rewrite ?(xorb_comm neg0); try done.
  f_equal; lia.
Qed.

(** An in-range ratio is zero or positive. *)
Lemma in_unit_cases r :
  in_unit r = true → fnum r = 0 ∨ (∃ m e, r = Fin false m e ∧ 0 < fnum r).
Proof.
  intros (s & m & e & -> & W & H0 & H1)%in_unit_spec.
  destruct (Z.eq_dec (fnum (Fin s m e)) 0) as [|Hr]; [by left|right].
  destruct s; [|exists m, e; split; [done|lia]].
  apply canonical_spec in W as (Hm & _). simpl in H0, Hr. pose proof (shl_nonneg m e). lia.
Qed.

(** [n * r] for an int [n] (exact as a float) and a ratio [r]: its value. *)
Lemma fmul_unit n r m e :
  of_Z n = Ok (Fin false m e) → 0 ≤ n → fnum (Fin false m e) = n * fden (Fin false m e) →
  in_unit r = true →
  ∃ s, fmul (Fin false m e) r =
       round_q s (n * fden (Fin false m e) * fnum r) (fden (Fin false m e) * fden r) ∧
       (fnum r = 0 ∨ s = false).
Proof.
  intros _ Hn V U. pose proof U as (s & mr & er & -> & _ & H0 & _)%in_unit_spec.
  exists s. split.
  - change (fmul (Fin false m e) (Fin s mr er)) with
      (round_q (xorb false s) (Z.abs (fnum (Fin false m e)) * Z.abs (fnum (Fin s mr er)))
        (fden (Fin false m e) * fden (Fin s mr er))).
    pose proof (fden_pos (Fin false m e)). rewrite !Z.abs_eq by (rewrite ?V; nia). by rewrite V.
  - destruct (in_unit_cases _ U) as [?|(?&?&[= -> _ _]&_)]; auto.
Qed.

(** The product of an int and a ratio lies between 0 and the int. *)
Lemma scale_unit n r :
  0 ≤ n ≤ two53 → in_unit r = true →
  ∃ f s m e, of_Z n = Ok f ∧ fmul f r = Fin s m e ∧
    0 ≤ fnum (Fin s m e) ≤ n * fden (Fin s m e).
Proof.
  intros Hn U. destruct (of_Z_exact n Hn) as (m & e & Ef & C & V).
  destruct (fmul_unit n r m e Ef ltac:(lia) V U) as (s & Em & Hs).
  exists (Fin false m e). rewrite Em, Ef. clear Em. pose proof U as (sr & mr & er & -> & _ & H0 & H1)%in_unit_spec.
  pose proof (fden_pos (Fin false m e)) as D1. pose proof (fden_pos (Fin sr mr er)) as D2.
  destruct Hs as [Hr | ->].
  { rewrite Hr, Z.mul_0_r. exists s, 0, emin. pose proof (fden_pos (Fin s 0 emin)) as D0.
    assert (fnum (Fin s 0 emin) = 0) as -> by (by destruct s). split_and!; [done|done|lia|nia]. }
  set (N := fnum (Fin sr mr er)) in *. set (D' := fden (Fin sr mr er)) in *.
  set (D := fden (Fin false m e)) in *.
  assert (fle (round_q false (n * D * N) (D * D')) (Fin false m e) = true) as Up.
  { apply round_q_le_repr; [nia|nia|done|]. rewrite V. fold D. nia. }
  assert (fle f_zero (round_q false (n * D * N) (D * D')) = true) as Lo
    by (apply round_q_nonneg; nia).
  unfold f_zero in Lo. destruct (round_q false (n * D * N) (D * D')) as [s' m' e'| |]; [|by destruct neg|done].
  apply fle_rat in Up, Lo. rewrite V in Up. fold D in Up.
  change (fnum (Fin false 0 emin)) with 0 in Lo.
  assert (0 < fden (Fin false 0 emin)) by apply fden_pos.
  pose proof (fden_pos (Fin s' m' e')).
  exists s', m', e'. split_and!; [done|done|nia|nia].
Qed.

(** The product grows with the ratio. *)
Lemma scale_unit_mono n r1 r2 f :
  0 ≤ n ≤ two53 → in_unit r1 = true → in_unit r2 = true → fle r1 r2 = true → of_Z n = Ok f →
  fle (fmul f r1) (fmul f r2) = true.
Proof.
  intros Hn U1 U2 Hle Hf. destruct (of_Z_exact n Hn) as (m & e & Ef & C & V).
  rewrite Ef in Hf. injection Hf as <-.
  destruct (fmul_unit n r1 m e Ef ltac:(lia) V U1) as (s1 & -> & Hs1).
  destruct (fmul_unit n r2 m e Ef ltac:(lia) V U2) as (s2 & -> & Hs2).
  pose proof U1 as (? & ? & ? & -> & _ & P1 & _)%in_unit_spec.
  pose proof U2 as (? & ? & ? & -> & _ & P2 & _)%in_unit_spec.
  apply fle_rat in Hle. pose proof (fden_pos (Fin false m e)) as D0.
  assert (∀ s n d, 0 ≤ n → 0 < d → fle (Fin s 0 emin) (round_q false n d) = true) as Z0.
  { intros s k d Hk Hd. pose proof (round_q_nonneg k d Hk Hd) as L.
    destruct s; [|exact L]. unfold f_zero in L. destruct (round_q false k d); [|done..].
    apply fle_rat in L. by apply fle_rat. }
  assert (∀ s d, round_q s 0 d = Fin s 0 emin) as Z1 by done.
  set (f1 := Fin x x0 x1) in *. set (f2 := Fin x2 x3 x4) in *.
  pose proof (fden_pos f1) as D1. pose proof (fden_pos f2) as D2.
  assert (0 ≤ n * fden (Fin false m e)) as ND by nia. set (D := n * fden (Fin false m e)) in *. clearbody D.
  destruct Hs1 as [E1 | ->].
  - rewrite E1, Z.mul_0_r, Z1. destruct Hs2 as [E2 | ->]; [|apply Z0; nia].
    rewrite E2, Z.mul_0_r, Z1. by destruct s1, s2.
  - destruct Hs2 as [E2 | ->].
    2:{ apply round_q_mono; try (by apply Z.mul_nonneg_nonneg); try (by apply Z.mul_pos_pos).
        assert (0 ≤ D * fden (Fin false m e)) as DD by (apply Z.mul_nonneg_nonneg; lia).
        pose proof (Z.mul_le_mono_nonneg_l _ _ _ DD Hle). lia. }
    assert (fnum f1 = 0) as E1 by nia. rewrite E1, E2, !Z.mul_0_r, !Z1. by destruct s2.
Qed.

(** [int(n * r)] for a ratio [r] stays between 0 and [n]. *)
Lemma int_fraction n r :
  0 ≤ n ≤ two53 → in_unit r = true →
  ∃ f k, of_Z n = Ok f ∧ f_int (fmul f r) = Ok k ∧ 0 ≤ k ≤ n.
Proof.
  intros Hn U. destruct (scale_unit n r Hn U) as (f & s & m & e & Ef & Em & H).
  pose proof (fden_pos (Fin s m e)).
  exists f, (Z.quot (fnum (Fin s m e)) (fden (Fin s m e))). rewrite Em. split_and!; [done|done|apply Z.quot_pos; lia|].
  rewrite Z.quot_div_nonneg by lia. apply Z.div_le_upper_bound; lia.
Qed.

(** [round(n * r)] stays between 0 and [n]. *)
Lemma round_fraction n r :
  0 ≤ n ≤ two53 → in_unit r = true →
  ∃ f k, of_Z n = Ok f ∧ f_round (fmul f r) = Ok k ∧ 0 ≤ k ≤ n.
Proof.
  intros Hn U. destruct (scale_unit n r Hn U) as (f & s & m & e & Ef & Em & H).
  pose proof (fden_pos (Fin s m e)) as D.
  exists f, (div_rne (fnum (Fin s m e)) (fden (Fin s m e))). rewrite Em. split; [done|]. split; [done|].
  rewrite <-(div_rne_mult 0 1), <-(div_rne_mult n 1) by lia. split; apply div_rne_mono; lia.
Qed.

(** [x / 100.0] for a percentage is a ratio; it grows with the percentage. *)
Definition percentage (x : f64) : Prop := f_wf x = true ∧ ∃ m e, x = Fin false m e ∧ fle x (lit 100 1) = true.

Lemma percentage_ratio x :
  percentage x → ∃ r, fdiv x (lit 100 1) = Ok r ∧ in_unit r = true ∧
    r = round_q false (fnum x * fden (lit 100 1)) (fden x * fnum (lit 100 1)).
Proof.
  intros [W (m & e & -> & H)]. set (f := Fin false m e) in *.
  change (lit 100 1) with (Fin false 7036874417766400 (-46)) in *.
  set (g := Fin false 7036874417766400 (-46)) in *.
  apply fle_rat in H. fold f g in H. apply canonical_spec in W as (Hm & _).
  assert (0 ≤ fnum f) by (simpl; apply shl_nonneg; lia).
  assert (fdiv f g = Ok (round_q (xorb false false) (Z.abs (fnum f) * fden g) (fden f * Z.abs (fnum g)))) as -> by done.
  assert (0 < fnum g) as Hg by done. pose proof (fden_pos f). pose proof (fden_pos g).
  rewrite !Z.abs_eq by lia. eexists. split; [done|]. split; [|done]. apply round_q_unit; nia.
Qed.

Lemma percentage_ratio_mono x y r1 r2 :
  percentage x → percentage y → fle x y = true →
  fdiv x (lit 100 1) = Ok r1 → fdiv y (lit 100 1) = Ok r2 → fle r1 r2 = true.
Proof.
  intros Px Py Hle E1 E2.
  destruct (percentage_ratio x Px) as (r1' & E1' & _ & ->). destruct (percentage_ratio y Py) as (r2' & E2' & _ & ->).
  rewrite E1 in E1'. rewrite E2 in E2'. injection E1' as ->. injection E2' as ->.
  assert (0 < fnum (lit 100 1)) by done. pose proof (fden_pos (lit 100 1)).
  pose proof (fden_pos x). pose proof (fden_pos y).
  destruct Px as [Wx (? & ? & -> & _)], Py as [Wy (? & ? & -> & _)]. apply fle_rat in Hle.
  apply canonical_spec in Wx as (Hx & _). apply canonical_spec in Wy as (Hy & _).
  assert (∀ m e, 0 ≤ m → 0 ≤ fnum (Fin false m e)) as Hnn by (intros; simpl; by apply shl_nonneg).
  pose proof (Hnn _ x2 (proj1 Hy)). pose proof (Hnn _ x1 (proj1 Hx)).
  assert (0 ≤ fden (lit 100 1) * fnum (lit 100 1)) as DD by nia.
  pose proof (Z.mul_le_mono_nonneg_l _ _ _ DD Hle).
  apply round_q_mono; [nia|nia|by apply Z.mul_pos_pos|by apply Z.mul_pos_pos|lia].
Qed.

(** ** Quotients and means of bounded ints *)

Lemma truediv_nonneg_eq a b : 0 ≤ a → 0 < b → truediv a b = not_inf (round_q false a b).
Proof.
  intros Ha Hb. unfold truediv. destruct (Z.eqb_spec b 0); [lia|].
  destruct (Z.ltb_spec a 0), (Z.ltb_spec b 0); [lia..|]. simpl. by rewrite !Z.abs_eq by lia.
Qed.

Lemma truediv_bounded a b :
  0 ≤ a → 0 < b → a ≤ b * two53 → ∃ f, truediv a b = Ok f ∧ fle f_zero f = true.
Proof.
  intros Ha Hb Hab. exists (round_q false a b). rewrite truediv_nonneg_eq by done.
  assert (fle (round_q false a b) (Fin false two52 1) = true) as Up.
  { apply round_q_le_repr; [done|done|done|]. change (fden (Fin false two52 1)) with 1.
    change (fnum (Fin false two52 1)) with two53. lia. }
  pose proof (round_q_nonneg a b Ha Hb) as Lo. split; [|done].
  destruct (round_q false a b) as [?|[]|]; [done|by unfold f_zero in Lo|done|done].
Qed.

Lemma truediv_mono a1 a2 b f1 f2 :
  0 ≤ a1 ≤ a2 → 0 < b → truediv a1 b = Ok f1 → truediv a2 b = Ok f2 → fle f1 f2 = true.
Proof.
  intros Ha Hb. rewrite !truediv_nonneg_eq by lia. intros E1 E2.
  assert (∀ f g, not_inf f = Ok g → g = f) as Hn by (intros [] ?; simpl; congruence).
  apply Hn in E1, E2. subst. apply round_q_mono; nia.
Qed.

Lemma zsum_bounded (l : list Z) k :
  Forall (λ x, 0 ≤ x ≤ k) l → 0 ≤ zsum l ≤ zlen l * k.
Proof. induction 1 as [|x l Hx _ IH]; [done|]. cbn [zsum foldr length]. unfold zsum in IH. lia. Qed.

Lemma mean_Z_bounded l : l ≠ [] → Forall (λ x, 0 ≤ x ≤ two53) l → ∃ f, mean_Z l = Ok f ∧ fle f_zero f = true.
Proof.
  intros Hl H. unfold mean_Z. rewrite decide_False by done. pose proof (zsum_bounded _ _ H).
  apply truediv_bounded; [lia| |lia]. destruct l; [done|cbn [length]; lia].
Qed.

Lemma mean_Z_zeros n : n ≠ O → mean_Z (replicate n 0) = Ok f_zero.
Proof.
  intros Hn. unfold mean_Z. rewrite decide_False by (by destruct n).
  rewrite zsum_replicate, Z.mul_0_r, length_replicate. apply truediv_zero. lia.
Qed.

Lemma mean_f_zeros n : n ≠ O → mean_f (replicate n f_zero) = Ok f_zero.
Proof.
  intros Hn. unfold mean_f. rewrite decide_False by (by destruct n).
  assert (Forall (λ f, ¬ is_fin f = false) (replicate n f_zero)) as HF by (by apply Forall_replicate).
  rewrite (filter_none _ _ HF).
  assert (fscaled <$> replicate n f_zero = replicate n 0) as -> by (by rewrite fmap_replicate).
  by rewrite zsum_replicate, Z.mul_0_r.
Qed.

Lemma mean_Z_Permutation l k : l ≡ₚ k → mean_Z l = mean_Z k.
Proof.
  intros H. unfold mean_Z. rewrite (zsum_Permutation _ _ H), (Permutation_length H).
  destruct (decide (l = [])) as [->|Hl].
  - apply Permutation_nil_l in H. subst. done.
  - rewrite decide_False; [done|]. intros ->. by apply Permutation_nil_r in H.
Qed.

Lemma of_Z_small z : 0 ≤ z ≤ two53 → ∃ f, of_Z z = Ok f.
Proof. intros Hz. destruct (of_Z_exact z Hz) as (m & e & E & _). eauto. Qed.

Lemma fdiv_pos_Ok x m e : 0 < m → ∃ f, fdiv x (Fin false m e) = Ok f.
Proof. intros Hm. destruct x, m; try lia; cbn [fdiv]; eauto. Qed.

(** The mean of finite floats is finite. *)
Lemma fscaled_bound f : f_wf f = true → Z.abs (fscaled f) ≤ (two53 - 1) * 2 ^ 2045.
Proof.
  assert (0 ≤ 2 ^ 2045) as HP by (apply Z.pow_nonneg; lia).
  assert (∀ x, 0 ≤ x → 0 ≤ (two53 - 1) * x) as Hm by (unfold two53; lia).
  destruct f as [s m e|s|]; [|intros _; exact (Hm _ HP)..]. intros ([Hm0 Hm1] & [He0 He1] & _)%canonical_spec.
  unfold fscaled, fnum, fden, shl. rewrite Z.mul_1_l.
  assert (2 ^ 1074 `div` 2 ^ Z.max 0 (- e) = 2 ^ (1074 - Z.max 0 (- e))) as ->.
  { unfold emin in He0. replace 1074 with (1074 - Z.max 0 (- e) + Z.max 0 (- e)) at 1 by lia.
    rewrite Z.pow_add_r by lia. apply Z.div_mul, Z.pow_nonzero; lia. }
  assert (Z.abs (sgn_apply s (m * 2 ^ Z.max 0 e)) = m * 2 ^ Z.max 0 e) as Ea.
  { pose proof (Z.pow_nonneg 2 (Z.max 0 e) ltac:(lia)). unfold sgn_apply. destruct s; nia. }
  rewrite Z.abs_mul, Ea, (Z.abs_eq (2 ^ _)) by (apply Z.pow_nonneg; lia).
  rewrite <-Z.mul_assoc, <-Z.pow_add_r by (unfold emin in He0; lia).
  unfold emin, emax in *. assert (2 ^ (Z.max 0 e + (1074 - Z.max 0 (- e))) ≤ 2 ^ 2045) as Hle by (apply Z.pow_le_mono_r; lia).
  pose proof (Z.pow_nonneg 2 (Z.max 0 e + (1074 - Z.max 0 (- e))) ltac:(lia)).
  apply Z.mul_le_mono_nonneg; [lia|unfold two53 in *; lia|lia|exact Hle].
Qed.

Lemma round_signed_finite n d :
  0 < d → Z.abs n ≤ (two53 - 1) * 2 ^ 971 * d → ∃ s m e, round_signed n d = Fin s m e.
Proof.
  intros Hd H. unfold round_signed.
  assert (fle (round_q false (Z.abs n) d) (Fin false (two53 - 1) 971) = true) as Hle.
  { apply round_q_le_repr; [lia|done|vm_compute; done|].
    change (fden (Fin false (two53 - 1) 971)) with 1. 
    assert (fnum (Fin false (two53 - 1) 971) = (two53 - 1) * 2 ^ 971) as -> by (cbn [fnum sgn_apply]; reflexivity).
    lia. }
  destruct (Z.eq_dec (Z.abs n) 0) as [->|Hn]; [unfold round_q; simpl; eauto|].
  rewrite round_q_me in Hle |- * by done. destruct (_ <? _); [done|eauto].
Qed.

Lemma mean_f_total l : l ≠ [] → Forall (λ f, f_wf f = true) l → ∃ f, mean_f l = Ok f.
Proof.
  intros Hl HF. unfold mean_f. rewrite decide_False by done. case_match; [|eauto].
  destruct (round_signed_finite (zsum (fscaled <$> l)) (zlen l * 2 ^ 1074)) as (s & m & e & ->); [| |simpl; eauto].
  - destruct l; [done|]. cbn [length]. apply Z.mul_pos_pos; [lia|]. apply Z.pow_pos_nonneg; lia.
  - assert (Z.abs (zsum (fscaled <$> l)) ≤ zlen l * ((two53 - 1) * 2 ^ 2045)) as Hs.
    { clear - HF. induction HF as [|f l Hf _ IH]; [simpl; lia|]. rewrite fmap_cons. cbn [zsum foldr length].
      pose proof (fscaled_bound f Hf). set (B := (two53 - 1) * 2 ^ 2045) in *. clearbody B. unfold zsum in IH. lia. }
    replace ((two53 - 1) * 2 ^ 971 * (zlen l * 2 ^ 1074)) with (zlen l * ((two53 - 1) * 2 ^ 2045)); [done|].
    change 2045 with (971 + 1074). rewrite (Z.pow_add_r 2 971 1074) by lia. set (a := 2 ^ 971). set (b := 2 ^ 1074). clearbody a b. lia.
Qed.

(** Every operation gives a well-formed float. *)
Lemma round_signed_wf n d : 0 < d → f_wf (round_signed n d) = true.
Proof. intros. apply round_q_wf; [lia|done]. Qed.

Lemma fmul_wf x y : f_wf (fmul x y) = true.
Proof.
  destruct x as [s m e|s|], y as [t m' e'|t|]; simpl; try case_match; try done.
  apply round_q_wf; [lia|]. pose proof (fden_pos (Fin s m e)). pose proof (fden_pos (Fin t m' e')). simpl in *. nia.
Qed.

Lemma fadd_wf x y : f_wf (fadd x y) = true.
Proof.
  destruct x as [s m e|s|], y as [t m' e'|t|]; cbn [fadd]; try done; [|by case_match].
  case_match; [done|]. apply round_signed_wf. pose proof (fden_pos (Fin s m e)). pose proof (fden_pos (Fin t m' e')). nia.
Qed.

Lemma fsub_wf x y : f_wf (fsub x y) = true.
Proof. apply fadd_wf. Qed.

Lemma not_inf_wf f g : f_wf f = true → not_inf f = Ok g → f_wf g = true.
Proof. destruct f; cbn [not_inf]; intros H [= <-]; done. Qed.

Lemma of_Z_wf z f : of_Z z = Ok f → f_wf f = true.
Proof. apply not_inf_wf. by apply round_signed_wf. Qed.

Lemma truediv_wf a b f : truediv a b = Ok f → f_wf f = true.
Proof. unfold truediv. destruct (Z.eqb_spec b 0); [done|]. apply not_inf_wf, round_q_wf; lia. Qed.

Lemma fdiv_wf x y f : fdiv x y = Ok f → f_wf f = true.
Proof.
  assert (∀ s s' m e t k e', k ≠ 0 →
    f_wf (round_q s (Z.abs (fnum (Fin s' m e)) * fden (Fin t k e')) (fden (Fin s' m e) * Z.abs (fnum (Fin t k e')))) = true) as Hq.
  { intros s s' m e t k e' Hk. pose proof (fden_pos (Fin s' m e)). pose proof (fden_pos (Fin t k e')).
    apply round_q_wf; [nia|]. assert (fnum (Fin t k e') ≠ 0); [|nia].
    cbn [fnum]. unfold sgn_apply, shl. pose proof (Z.pow_pos_nonneg 2 (Z.max 0 e')). destruct t; nia. }
  destruct x as [s m e|s|], y as [t [|k|k] e'|t|]; cbn [fdiv]; try done; intros [= <-]; try done; by apply Hq.
Qed.

Lemma f_max_wf x y : f_wf x = true → f_wf y = true → f_wf (f_max x y) = true.
Proof. unfold f_max. by case_match. Qed.

Lemma foldl_fadd_wf l x : f_wf x = true → f_wf (foldl fadd x l) = true.
Proof. revert x. induction l as [|y l IH]; intros x Hx; [done|]. apply IH, fadd_wf. Qed.

Lemma mean_f_wf l f : mean_f l = Ok f → f_wf f = true.
Proof.
  unfold mean_f. case_decide as E; [done|]. destruct (filter _ l) as [|x xs] eqn:Ef.
  - apply not_inf_wf, round_signed_wf. assert (0 < zlen l) by (destruct l; [done|cbn [length]; lia]). lia.
  - intros [= <-]. apply foldl_fadd_wf. assert (x ∈ filter (λ f, is_fin f = false) l) as Hx by (rewrite Ef; left).
    apply list_elem_of_filter in Hx as [Hx _]. by destruct x.
Qed.

Lemma mean_Z_wf l f : mean_Z l = Ok f → f_wf f = true.
Proof. unfold mean_Z. case_decide; [done|]. apply truediv_wf. Qed.

(** A positive literal on the right keeps [max] away from zero. *)
Lemma fdiv_max_Ok x y m e : 0 < m → ∃ f, fdiv x (f_max y (Fin false m e)) = Ok f.
Proof.
  intros Hm. unfold f_max.
  destruct (flt y (Fin false m e)) eqn:E.
  - destruct x, m; try lia; cbn [fdiv]; eauto.
  - assert (∀ s e', y ≠ Fin s 0 e') as Hy.
    { intros s e' ->. unfold flt, fle in E. unfold shl in E.
      destruct s; cbn [sgn_apply Z.opp] in E; pose proof (Z.pow_pos_nonneg 2 (Z.max 0 (e - e')));
        destruct (Z.leb_spec (0 * 2 ^ Z.max 0 (e' - e)) (m * 2 ^ Z.max 0 (e - e'))) as [|]; try nia;
        destruct (Z.leb_spec (m * 2 ^ Z.max 0 (e - e')) (0 * 2 ^ Z.max 0 (e' - e))) as [|]; cbn in E; try nia; done. }
    destruct y as [s [|p|p] e'|s|]; try (by exfalso; eapply Hy); destruct x; cbn [fdiv]; eauto.
Qed.

Lemma of_Z_u64 z : 0 ≤ z < 2 ^ 64 → ∃ f, of_Z z = Ok f.
Proof.
  intros Hz. unfold of_Z. destruct (round_signed_finite z 1) as (s & m & e & ->); [lia| |simpl; eauto].
  rewrite Z.abs_eq, Z.mul_1_r by lia.
  assert (1 ≤ 2 ^ 907) by (pose proof (Z.pow_pos_nonneg 2 907 ltac:(lia) ltac:(lia)); lia).
  change 971 with (64 + 907). rewrite (Z.pow_add_r 2 64 907) by lia. unfold two53. set (x := 2 ^ 907) in *. clearbody x. nia.
Qed.

(** ** Differences from one *)

Lemma round_q_sign neg n d s m e : round_q neg n d = Fin s m e → s = neg.
Proof. unfold round_q. repeat case_match; intros ?; by simplify_eq. Qed.

Lemma round_q_inf_sign neg n d s : round_q neg n d = Inf s → s = neg.
Proof. unfold round_q. repeat case_match; intros ?; by simplify_eq. Qed.

Lemma round_q_not_nan neg n d : round_q neg n d ≠ NaN.
Proof. unfold round_q. repeat case_match; done. Qed.

Lemma round_signed_nonpos n d : n ≤ 0 → 0 < d → n ≠ 0 → fle (round_signed n d) f_zero = true.
Proof.
  intros Hn Hd H0. unfold round_signed. rewrite (proj2 (Z.ltb_lt n 0)) by lia.
  pose proof (round_q_wf true (Z.abs n) d ltac:(lia) Hd) as W.
  destruct (round_q true (Z.abs n) d) as [s m e|s|] eqn:E.
  - apply round_q_sign in E as ->. apply canonical_spec in W as (Hm & _). apply Z.leb_le. unfold sgn_apply, shl.
    pose proof (Z.pow_pos_nonneg 2 (Z.max 0 (e - emin)) ltac:(lia) ltac:(lia)). nia.
  - by apply round_q_inf_sign in E as ->.
  - by apply round_q_not_nan in E.
Qed.

(** [1.0 - t] is not positive when [t] is at least one. *)
Lemma fsub_one_nonpos s m e : fle f_one (Fin s m e) = true → fle (fsub f_one (Fin s m e)) f_zero = true.
Proof.
  rewrite f_one_eq. intros H%fle_rat. unfold fsub, fopp. cbn [fadd]. case_match eqn:En; [done|].
  apply Z.eqb_neq in En.
  assert (fnum (Fin (negb s) m e) = - fnum (Fin s m e)) as Eo by (destruct s; cbn; lia).
  assert (fden (Fin (negb s) m e) = fden (Fin s m e)) as Ed by done. rewrite Eo, Ed in *.
  pose proof (fden_pos (Fin false two52 (-52))). pose proof (fden_pos (Fin s m e)).
  apply round_signed_nonpos; nia.
Qed.

Lemma truediv_ge_one a b : 0 < b → b ≤ a → a ≤ b * two53 → ∃ s m e, truediv a b = Ok (Fin s m e) ∧ fle f_one (Fin s m e) = true.
Proof.
  intros Hb Hab Hle. pose proof (round_q_mono 1 1 a b ltac:(lia) ltac:(lia) ltac:(lia) Hb ltac:(lia)) as H1.
  change (round_q false 1 1) with f_one in H1.
  destruct (truediv_bounded a b ltac:(lia) Hb Hle) as (f & E & _). rewrite truediv_nonneg_eq in E |- * by lia.
  destruct (round_q false a b) as [s m e|s|]; [eauto|done|done].
Qed.
