(* ===== verification/PyText.v ===== *)
(** Python text: [str] as a list of code points.

    [str.split], [str.strip], [str.rstrip], [str.lower] (for comparison with
    lower-case ASCII keys), [int(s)], [str(n)] on ints and UTF-8 encoding with
    [surrogatepass], over the Unicode white space and decimal digit tables.
    The lemmas are the round trip of decimal notation and the injectivity of
    the encoder. *)

From S2P Require Import Prelude.

(** ** Strings and character classes *)

Abbreviation str := (list Z) (only parsing).

(** A string literal of the source. *)
Definition u (s : string) : str :=
  (λ a : Ascii.ascii, Z.of_N (Ascii.N_of_ascii a)) <$> String.list_ascii_of_string s.
Arguments u s%_string_scope.

Definition is_space (c : Z) : bool :=
  ((9 <=? c) && (c <=? 13)) || ((28 <=? c) && (c <=? 32)) || (c =? 0x85) || (c =? 0xa0)
  || (c =? 0x1680) || ((0x2000 <=? c) && (c <=? 0x200a)) || (c =? 0x2028) || (c =? 0x2029)
  || (c =? 0x202f) || (c =? 0x205f) || (c =? 0x3000).

(** [int()] strips the C white space and the non-ASCII Unicode spaces, not the
    four ASCII separators 28..31. *)
Definition is_space_int (c : Z) : bool := is_space c && negb ((28 <=? c) && (c <=? 31)).

(** The zero digits of the Unicode decimal digit blocks (Unicode 14). *)
Definition digit_zeros : list Z :=
  [48; 1632; 1776; 1984; 2406; 2534; 2662; 2790; 2918; 3046; 3174; 3302; 3430; 3558; 3664; 3792;
   3872; 4160; 4240; 6112; 6160; 6470; 6608; 6784; 6800; 6992; 7088; 7232; 7248; 42528; 43216;
   43264; 43472; 43504; 43600; 44016; 65296; 66720; 68912; 69734; 69872; 69942; 70096; 70384;
   70736; 70864; 71248; 71360; 71472; 71904; 72016; 72784; 73040; 73120; 92768; 92864; 93008;
   120782; 120792; 120802; 120812; 120822; 123200; 123632; 125264; 130032].

Definition digit_value (c : Z) : option Z :=
  (λ z, c - z) <$> List.find (λ z, (z <=? c) && (c <? z + 10)) digit_zeros.

(** ** Splitting and stripping *)

Fixpoint drop_while {A} (p : A → bool) (l : list A) : list A :=
  match l with
  | [] => []
  | x :: l' => if p x then drop_while p l' else l
  end.

Definition lstrip (p : Z → bool) (s : str) : str := drop_while p s.
Definition rstrip (p : Z → bool) (s : str) : str := rev (drop_while p (rev s)).
Definition strip_by (p : Z → bool) (s : str) : str := rstrip p (lstrip p s).
(** [s.strip()]. *)
Definition strip : str → str := strip_by is_space.

(** [c in s] for a one-character string. *)
Definition contains_char (c : Z) (s : str) : bool := existsb (Z.eqb c) s.

(** [s.split(sep)] for a one-character separator: never empty. *)
Fixpoint split_char (sep : Z) (s : str) : list str :=
  match s with
  | [] => [[]]
  | c :: s' =>
      if c =? sep then [] :: split_char sep s'
      else match split_char sep s' with
           | w :: ws => (c :: w) :: ws
           | [] => [[c]]
           end
  end.

(** [s.split()]: the maximal runs of non-space characters; [w] is the word
    being read. *)
Fixpoint split_ws_aux (w : str) (s : str) : list str :=
  match s with
  | [] => match w with [] => [] | _ => [rev w] end
  | c :: s' =>
      if is_space c
      then match w with [] => split_ws_aux [] s' | _ => rev w :: split_ws_aux [] s' end
      else split_ws_aux (c :: w) s'
  end.
Definition split_ws (s : str) : list str := split_ws_aux [] s.

(** [s.lower()], as far as a comparison with a lower-case ASCII string sees
    it: ASCII letters and U+212A (KELVIN SIGN) are the only characters whose
    lower case is ASCII. *)
Definition lower (s : str) : str :=
  (λ c, if (65 <=? c) && (c <=? 90) then c + 32 else if c =? 0x212a then 107 else c) <$> s.

(** ** Decimal integers *)

(** The digits of [int(s)] after the sign: single underscores may separate
    digits.  [us]: a digit is required next. *)
Fixpoint int_digits (us : bool) (acc : Z) (s : str) : option Z :=
  match s with
  | [] => if us then None else Some acc
  | c :: s' =>
      if c =? 95 then (if us then None else int_digits true acc s')
      else match digit_value c with
           | Some d => int_digits false (10 * acc + d) s'
           | None => None
           end
  end.

(** [int(s)] (base 10; the interpreter's digit-count limit is off). *)
Definition py_int (s : str) : result Z :=
  of_option ValueError
    match strip_by is_space_int s with
    | 45 :: s' => Z.opp <$> int_digits true 0 s'
    | 43 :: s' => int_digits true 0 s'
    | s' => int_digits true 0 s'
    end.

(** The digits of a non-negative int, least significant first; the binary
    length bounds the number of digits. *)
Fixpoint digits_rev (fuel : nat) (n : Z) : str :=
  match fuel with
  | O => []
  | S f => if n <? 10 then [48 + n] else (48 + n `mod` 10) :: digits_rev f (n `div` 10)
  end.
Definition dec_nonneg (n : Z) : str := rev (digits_rev (S (Z.to_nat (Z.log2 n))) n).
(** [str(z)] on an int. *)
Definition dec (z : Z) : str := if z <? 0 then 45 :: dec_nonneg (- z) else dec_nonneg z.

(** ** UTF-8, surrogates included *)

Definition utf8_char (c : Z) : list Z :=
  if c <? 0x80 then [c]
  else if c <? 0x800 then [0xc0 + c `div` 64; 0x80 + c `mod` 64]
  else if c <? 0x10000 then [0xe0 + c `div` 4096; 0x80 + (c `div` 64) `mod` 64; 0x80 + c `mod` 64]
  else [0xf0 + c `div` 262144; 0x80 + (c `div` 4096) `mod` 64; 0x80 + (c `div` 64) `mod` 64;
        0x80 + c `mod` 64].

(** [s.encode("utf-8", errors="surrogatepass")]. *)
Definition utf8 (s : str) : list Z := concat (utf8_char <$> s).

Definition code_point (c : Z) : Prop := 0 ≤ c ≤ 0x10ffff.

(** ** Lemmas *)

Lemma strip_nonempty s : strip s ≠ [] → ∃ c, c ∈ s ∧ is_space c = false.
Proof.
  intros H. assert (lstrip is_space s ≠ []) as Hl.
  { intros E. apply H. unfold strip, strip_by. by rewrite E. }
  clear H. unfold lstrip in *. induction s as [|c s IH]; simpl in *; [done|].
  destruct (is_space c) eqn:E; [|exists c; split; [left|done]].
  destruct (IH Hl) as (d & ? & ?). exists d. split; [by right|done].
Qed.

Lemma split_char_nonempty sep s : split_char sep s ≠ [].
Proof. induction s as [|c s IH]; simpl; [done|]. destruct (_ =? _), (split_char sep s); done. Qed.

Lemma split_ws_aux_nonempty w s :
  w ≠ [] ∨ (∃ c, c ∈ s ∧ is_space c = false) → split_ws_aux w s ≠ [].
Proof.
  revert w; induction s as [|c s IH]; intros w H; simpl.
  - destruct H as [H|(c & Hc & _)]; [by destruct w|]. by apply elem_of_nil in Hc.
  - destruct (is_space c) eqn:E.
    + destruct w; [|done]. apply IH. right. destruct H as [|(d & Hd & Ed)]; [done|].
      apply elem_of_cons in Hd as [->|Hd]; [congruence|eauto].
    + apply IH. by left.
Qed.

Lemma split_ws_nonempty s c : c ∈ s → is_space c = false → split_ws s ≠ [].
Proof. intros. apply split_ws_aux_nonempty. right. eauto. Qed.

Lemma digit_value_ascii d : 0 ≤ d < 10 → digit_value (48 + d) = Some d.
Proof.
  intros Hd. unfold digit_value, digit_zeros. cbn [List.find].
  assert ((48 <=? 48 + d) && (48 + d <? 48 + 10) = true) as ->
    by (apply andb_true_iff; rewrite Z.leb_le, Z.ltb_lt; lia).
  cbn. f_equal. lia.
Qed.

Lemma int_digits_app_digit us acc s d :
  0 ≤ d < 10 → int_digits us acc (s ++ [48 + d]) =
  match s with
  | [] => Some (10 * acc + d)
  | _ => match int_digits us acc s with
         | Some v => Some (10 * v + d)
         | None => int_digits us acc (s ++ [48 + d])
         end
  end.
Proof.
  intros Hd. destruct s as [|c s'] eqn:Es.
  - cbn -[digit_value]. rewrite digit_value_ascii by done. destruct (Z.eqb_spec (48 + d) 95); [lia|done].
  - rewrite <-Es. assert (s ≠ []) as Hs by (by subst). clear Es c s'.
    destruct (int_digits us acc s) as [v|] eqn:E; [|done].
    revert us acc E; induction s as [|c s IH]; intros us acc E; [done|].
    cbn -[digit_value] in *. destruct (c =? 95).
    + destruct us; [done|]. destruct s; [done|]. by apply IH.
    + destruct (digit_value c) as [x|]; [|done]. destruct s as [|c' s]; [|by apply IH].
      cbn -[digit_value] in *. injection E as <-. rewrite digit_value_ascii by done.
      destruct (Z.eqb_spec (48 + d) 95); [lia|done].
Qed.

Lemma digits_rev_parse fuel n :
  0 ≤ n < 2 ^ Z.of_nat fuel → int_digits true 0 (rev (digits_rev fuel n)) = Some n ∨ (fuel = O).
Proof.
  revert n; induction fuel as [|fuel IH]; intros n Hn; [by right|left].
  simpl. destruct (Z.ltb_spec n 10).
  - cbn -[digit_value]. rewrite digit_value_ascii by lia. destruct (Z.eqb_spec (48 + n) 95); [lia|done].
  - pose proof (Z.mod_pos_bound n 10 ltac:(lia)). pose proof (Z.div_mod n 10 ltac:(lia)).
    rewrite Nat2Z.inj_succ, Z.pow_succ_r in Hn by lia.
    assert (0 ≤ n `div` 10 < 2 ^ Z.of_nat fuel) as Hq by lia.
    simpl rev. rewrite int_digits_app_digit by lia.
    destruct (IH _ Hq) as [E|E].
    + destruct (rev (digits_rev fuel (n `div` 10))) eqn:Er; [done|]. rewrite E. f_equal. lia.
    + subst fuel. simpl in Hq. lia.
Qed.

Lemma dec_fuel n : 0 ≤ n → 0 ≤ n < 2 ^ Z.of_nat (S (Z.to_nat (Z.log2 n))).
Proof.
  intros Hn. rewrite Nat2Z.inj_succ, Z2Nat.id by apply Z.log2_nonneg. split; [done|].
  destruct (Z.eq_dec n 0) as [->|]; [done|]. apply Z.log2_spec. lia.
Qed.

Lemma dec_nonneg_parse n : 0 ≤ n → int_digits true 0 (dec_nonneg n) = Some n.
Proof. intros Hn. by destruct (digits_rev_parse _ n (dec_fuel n Hn)). Qed.

Definition is_digit (c : Z) : Prop := 48 ≤ c ≤ 57.

Lemma digits_rev_digits fuel n : 0 ≤ n → Forall is_digit (digits_rev fuel n).
Proof.
  revert n; induction fuel as [|fuel IH]; intros n Hn; simpl; [constructor|].
  destruct (Z.ltb_spec n 10).
  - repeat constructor; lia.
  - pose proof (Z.mod_pos_bound n 10 ltac:(lia)). constructor; [split; lia|].
    apply IH. apply Z.div_pos; lia.
Qed.

Lemma dec_nonneg_digits n : 0 ≤ n → Forall is_digit (dec_nonneg n).
Proof. intros. apply Forall_rev, digits_rev_digits; done. Qed.

Lemma drop_while_none {A} (p : A → bool) l : Forall (λ x, p x = false) l → drop_while p l = l.
Proof. destruct 1 as [|x l Hx]; simpl; [done|by rewrite Hx]. Qed.

Lemma strip_by_none p s : Forall (λ x, p x = false) s → strip_by p s = s.
Proof.
  intros H. unfold strip_by, lstrip, rstrip. rewrite (drop_while_none _ s) by done.
  rewrite drop_while_none by by apply Forall_rev. apply rev_involutive.
Qed.

Lemma dec_chars z : Forall (λ c, c = 45 ∨ is_digit c) (dec z).
Proof.
  unfold dec. destruct (Z.ltb_spec z 0); [constructor; [by left|]|];
    (eapply Forall_impl; [apply dec_nonneg_digits; lia|intros c Hc; by right]).
Qed.

(** Decimal notation round-trips. *)
Lemma py_int_dec z : py_int (dec z) = Ok z.
Proof.
  unfold py_int. rewrite strip_by_none.
  2:{ eapply Forall_impl; [apply dec_chars|]. intros c [->|Hc]; [done|]. unfold is_digit in Hc.
      assert (is_space c = false) as Hs; [|unfold is_space_int; by rewrite Hs].
      unfold is_space. rewrite !orb_false_iff, !andb_false_iff, !Z.leb_gt, !Z.eqb_neq. lia. }
  unfold dec. destruct (Z.ltb_spec z 0).
  - rewrite dec_nonneg_parse by lia. simpl. f_equal. lia.
  - pose proof (dec_nonneg_digits z ltac:(lia)) as HD. pose proof (dec_nonneg_parse z ltac:(lia)) as HP.
    destruct (dec_nonneg z) as [|c s]; [done|]. apply Forall_cons in HD as [Hc _]. unfold is_digit in Hc.
    assert (∃ d, c = 48 + d ∧ 0 ≤ d < 10) as (d & -> & Hd) by (exists (c - 48); lia).
    assert (d = 0 ∨ d = 1 ∨ d = 2 ∨ d = 3 ∨ d = 4 ∨ d = 5 ∨ d = 6 ∨ d = 7 ∨ d = 8 ∨ d = 9) as Hd' by lia.
    enough (match 48 + d :: s with
            | 45 :: s' => Z.opp <$> int_digits true 0 s'
            | 43 :: s' => int_digits true 0 s'
            | s' => int_digits true 0 s' end = int_digits true 0 (48 + d :: s)) as ->; [by rewrite HP|].
    clear - Hd'. by destruct Hd' as [-> | [-> | [-> | [-> | [-> | [-> | [-> | [-> | [-> | ->]]]]]]]]].
Qed.

Lemma dec_inj z1 z2 : dec z1 = dec z2 → z1 = z2.
Proof. intros E. assert (Ok z1 = Ok z2) as [= ?] by (rewrite <-!py_int_dec; by f_equal). done. Qed.

(** A UTF-8 reader, the inverse of the encoder on valid text. *)
Definition utf8_decode1 (l : list Z) : option (Z * list Z) :=
  match l with
  | a :: r1 =>
      if a <? 0x80 then Some (a, r1)
      else match r1 with
      | b :: r2 =>
          if a <? 0xe0 then Some ((a - 0xc0) * 64 + (b - 0x80), r2)
          else match r2 with
          | c :: r3 =>
              if a <? 0xf0 then Some ((a - 0xe0) * 4096 + (b - 0x80) * 64 + (c - 0x80), r3)
              else match r3 with
              | d :: r4 =>
                  Some ((a - 0xf0) * 262144 + (b - 0x80) * 4096 + (c - 0x80) * 64 + (d - 0x80), r4)
              | [] => None
              end
          | [] => None
          end
      | [] => None
      end
  | [] => None
  end.

Lemma utf8_decode1_char c r : code_point c → utf8_decode1 (utf8_char c ++ r) = Some (c, r).
Proof.
  intros Hc. unfold code_point in Hc. unfold utf8_char.
  pose proof (Z.div_mod c 64 ltac:(lia)). pose proof (Z.mod_pos_bound c 64 ltac:(lia)).
  pose proof (Z.div_mod (c `div` 64) 64 ltac:(lia)). pose proof (Z.mod_pos_bound (c `div` 64) 64 ltac:(lia)).
  assert ((c `div` 64) `div` 64 = c `div` 4096) as E by (rewrite Z.div_div by lia; done).
  pose proof (Z.div_mod (c `div` 4096) 64 ltac:(lia)). pose proof (Z.mod_pos_bound (c `div` 4096) 64 ltac:(lia)).
  assert ((c `div` 4096) `div` 64 = c `div` 262144) as E' by (rewrite Z.div_div by lia; done).
  rewrite E in *. rewrite E' in *.
  destruct (Z.ltb_spec c 0x80); [|destruct (Z.ltb_spec c 0x800); [|destruct (Z.ltb_spec c 0x10000)]];
    unfold utf8_decode1; cbn [app];
    repeat (match goal with |- context [?x <? ?y] => destruct (Z.ltb_spec x y); try lia end);
    do 2 f_equal; lia.
Qed.

Lemma utf8_inj s1 s2 : Forall code_point s1 → Forall code_point s2 → utf8 s1 = utf8 s2 → s1 = s2.
Proof.
  unfold utf8. intros H1. revert s2; induction H1 as [|c s1 Hc H1 IH]; intros s2 H2 E.
  - destruct H2 as [|d s2 Hd H2]; [done|]. exfalso. rewrite fmap_cons in E. cbn [concat fmap list_fmap] in E.
    pose proof (utf8_decode1_char d (concat (utf8_char <$> s2)) Hd) as D. by rewrite <-E in D.
  - rewrite fmap_cons in E. cbn [concat] in E.
    pose proof (utf8_decode1_char c (concat (utf8_char <$> s1)) Hc) as D1.
    destruct H2 as [|d s2 Hd H2]; [by rewrite E in D1|]. rewrite fmap_cons in E. cbn [concat] in E.
    pose proof (utf8_decode1_char d (concat (utf8_char <$> s2)) Hd) as D2.
    rewrite E, D2 in D1. injection D1 as -> E'. f_equal. apply IH; done.
Qed.

Lemma utf8_app s1 s2 : utf8 (s1 ++ s2) = utf8 s1 ++ utf8 s2.
Proof. unfold utf8. by rewrite fmap_app, concat_app. Qed.

(** ** Joining *)

(** [sep.join(l)]. *)
Fixpoint join (sep : str) (l : list str) : str :=
  match l with
  | [] => []
  | [w] => w
  | w :: l => w ++ sep ++ join sep l
  end.

Lemma split_char_app_sep sep w s :
  Forall (λ c, c ≠ sep) w → split_char sep (w ++ sep :: s) = w :: split_char sep s.
Proof.
  induction 1 as [|c w Hc _ IH]; simpl.
  - by rewrite Z.eqb_refl.
  - rewrite IH. by destruct (Z.eqb_spec c sep).
Qed.

Lemma split_char_none sep w : Forall (λ c, c ≠ sep) w → split_char sep w = [w].
Proof.
  induction 1 as [|c w Hc _ IH]; simpl; [done|]. rewrite IH. by destruct (Z.eqb_spec c sep).
Qed.

(** Splitting undoes joining when no part contains the separator. *)
Lemma split_char_join sep l :
  l ≠ [] → Forall (Forall (λ c, c ≠ sep)) l → split_char sep (join [sep] l) = l.
Proof.
  intros Hl H. induction H as [|w l Hw H IH]; [done|]. destruct l as [|w' l].
  - by apply split_char_none.
  - change (join [sep] (w :: w' :: l)) with (w ++ sep :: join [sep] (w' :: l)).
    rewrite split_char_app_sep by done. by rewrite IH.
Qed.

Lemma join_Forall (P : Z → Prop) sep l :
  Forall P sep → Forall (Forall P) l → Forall P (join sep l).
Proof.
  intros Hs. induction 1 as [|w l Hw H IH]; simpl; [done|].
  destruct l; [done|]. by rewrite !Forall_app.
Qed.

Lemma rstrip_char_app c s : Forall (λ x, x ≠ c) s → rstrip (Z.eqb c) (s ++ [c]) = s.
Proof.
  intros H. unfold rstrip. rewrite rev_app_distr. cbn [rev app drop_while]. rewrite Z.eqb_refl.
  rewrite drop_while_none; [apply rev_involutive|]. apply Forall_rev.
  eapply Forall_impl; [exact H|]. cbv beta. intros x Hx. apply Z.eqb_neq. congruence.
Qed.

Lemma contains_char_spec c s : contains_char c s = true ↔ c ∈ s.
Proof.
  unfold contains_char. rewrite existsb_exists. split.
  - intros (x & Hx%list_elem_of_In & ->%Z.eqb_eq). done.
  - intros H. exists c. rewrite <-list_elem_of_In. split; [done|apply Z.eqb_refl].
Qed.

(** ** Words separated by spaces *)

Definition word (w : str) : Prop := w ≠ [] ∧ Forall (λ c, is_space c = false) w.

Lemma join_cons sep w ws : ws ≠ [] → join sep (w :: ws) = w ++ sep ++ join sep ws.
Proof. by destruct ws. Qed.

Lemma split_ws_aux_word acc w r :
  Forall (λ c, is_space c = false) w → split_ws_aux acc (w ++ r) = split_ws_aux (rev w ++ acc) r.
Proof.
  intros H. revert acc. induction H as [|c w Hc _ IH]; intros acc; cbn [app split_ws_aux rev]; [done|].
  by rewrite Hc, IH, <-app_assoc.
Qed.

(** Splitting undoes joining with single spaces. *)
Lemma split_ws_join ws : Forall word ws → split_ws (join [32] ws) = ws.
Proof.
  unfold split_ws. induction 1 as [|w ws [Hne Hw] H IH]; [done|].
  assert (rev w ≠ []) as Hr by (intros E; apply Hne; by rewrite <-(rev_involutive w), E).
  destruct ws as [|w' ws].
  - cbn [join]. rewrite <-(app_nil_r w) at 1. rewrite split_ws_aux_word, app_nil_r by done. cbn [split_ws_aux].
    destruct (rev w) eqn:E; [done|]. by rewrite <-E, rev_involutive.
  - rewrite join_cons by done. rewrite split_ws_aux_word, app_nil_r by done. cbn [app split_ws_aux is_space].
    change (is_space 32) with true. cbv iota. rewrite IH. destruct (rev w) eqn:E; [done|]. by rewrite <-E, rev_involutive.
Qed.

Lemma word_last w : word w → ∃ l c, w = l ++ [c] ∧ is_space c = false.
Proof.
  intros [Hne Hw]. destruct (exists_last Hne) as (l & c & ->). exists l, c. split; [done|].
  apply Forall_app in Hw as [_ Hc]. by apply Forall_inv in Hc.
Qed.

Lemma join_last ws : ws ≠ [] → Forall word ws → ∃ l c, join [32] ws = l ++ [c] ∧ is_space c = false.
Proof.
  intros Hne H. induction H as [|w ws Hw H IH]; [done|]. destruct ws as [|w' ws]; [by apply word_last|].
  destruct IH as (l & c & E & Hc); [done|]. rewrite join_cons, E by done. exists (w ++ [32] ++ l), c.
  by rewrite <-!app_assoc.
Qed.

(** [strip] of a line of words takes its newline off. *)
Lemma strip_line ws : ws ≠ [] → Forall word ws → strip (join [32] ws ++ [10]) = join [32] ws.
Proof.
  intros Hne H. destruct (join_last ws Hne H) as (l & c & E & Hc).
  assert (∃ d r, join [32] ws = d :: r ∧ is_space d = false) as (d & r & Ed & Hd).
  { destruct H as [|w ws [Hw Hs] H]; [done|]. destruct Hs as [|d w Hd _]; [done|].
    destruct ws; [by exists d, w|]. rewrite join_cons by done. eexists d, _. split; [reflexivity|done]. }
  unfold strip, strip_by, lstrip. rewrite Ed. cbn [app drop_while]. rewrite Hd. change (d :: r ++ [10]) with ((d :: r) ++ [10]).
  rewrite <-Ed, E. unfold rstrip. rewrite !rev_app_distr. cbn [rev app drop_while]. change (is_space 10) with true.
  cbv iota. rewrite Hc. cbn [rev]. by rewrite rev_involutive.
Qed.

Lemma dec_word z : word (dec z).
Proof.
  split.
  - intros E. pose proof (py_int_dec z) as H. rewrite E in H. discriminate H.
  - eapply Forall_impl; [apply dec_chars|]. intros c Hc. unfold is_space, is_digit in *.
    repeat match goal with |- context [?a =? ?b] => rewrite (proj2 (Z.eqb_neq a b)) by lia end.
    destruct Hc as [->|Hc]; [done|].
    repeat match goal with |- context [?a <=? ?b] => destruct (Z.leb_spec a b) end; (done || lia).
Qed.

(** ** Ordering *)

(** Strings compare by code points. *)
Fixpoint str_leb (a b : str) : bool :=
  match a, b with
  | [], _ => true
  | _ :: _, [] => false
  | x :: a, y :: b => (x <? y) || ((x =? y) && str_leb a b)
  end.
Definition str_le (a b : str) : Prop := str_leb a b = true.
#[export] Instance str_le_dec : RelDecision str_le.
Proof. intros a b. unfold str_le. apply _. Defined.
