(* ===== verification/FloatRepr.v ===== *)
(** Floats in decimal notation: what [repr(x)], [str(x)] and the JSON encoder
    write for a float, and the value of a decimal number.

    [float_repr] writes the shortest digits that read back as the float, the
    nearest ones if there are several, and lays them out as Python does (the
    style of [repr], an exponent from 1e16 on and below 1e-4).
    [repr_reads_back] is the round trip: seventeen digits are always enough. *)

From S2P Require Import Prelude PyFloat PyText.

(** ** Reading *)

Definition ascii_digit (c : Z) : bool := (48 <=? c) && (c <=? 57).

Fixpoint span (p : Z → bool) (s : list Z) : list Z * list Z :=
  match s with
  | c :: s' => if p c then let '(a, b) := span p s' in (c :: a, b) else ([], s)
  | [] => ([], [])
  end.

Definition digits_value (ds : list Z) : Z := foldl (λ acc c, 10 * acc + (c - 48)) 0 ds.

(** The float nearest to [mant * 10^e10]. *)
Definition decimal_float (neg : bool) (mant : Z) (e10 : Z) : f64 :=
  round_q neg (mant * 10 ^ Z.max 0 e10) (10 ^ Z.max 0 (- e10)).

(** ** [repr] *)

(** [floor (log10 (n / d))] for positive [n] and [d]. *)
Definition flog10 (n d : Z) : Z :=
  if d <=? n then zlen (dec_nonneg (n `div` d)) - 1 else - zlen (dec_nonneg ((d - 1) `div` n)).

(** The number of [n] digits that reads back as the positive float [m * 2^e],
    and its exponent: of the two neighbours the one that does, the nearest if
    both do. *)
Definition pick_digits (m e k n : Z) : option (Z * Z) :=
  let s := n - 1 - k in
  let num := shl m e * 10 ^ Z.max 0 s in
  let den := shl 1 (- e) * 10 ^ Z.max 0 (- s) in
  let reads c := bool_decide (decimal_float false c (- s) = Fin false m e) in
  let lo := num `div` den in
  (λ c, (c, - s)) <$>
    (if reads lo then Some (if reads (lo + 1) then div_rne num den else lo)
     else if reads (lo + 1) then Some (lo + 1) else None).

Fixpoint first_some {A B} (f : A → option B) (l : list A) : option B :=
  match l with
  | [] => None
  | x :: l => match f x with Some y => Some y | None => first_some f l end
  end.

(** The shortest digits; [repr_digits_total]: the search succeeds. *)
Definition repr_number (m e : Z) : Z * Z :=
  default (0, 0) (first_some (pick_digits m e (flog10 (shl m e) (shl 1 (- e)))) (seqZ 1 17)).

(** The digits without final zeros, and how many of them stand before the point. *)
Definition repr_digits (m e : Z) : str * Z :=
  let '(c, x) := repr_number m e in (rstrip (Z.eqb 48) (dec_nonneg c), zlen (dec_nonneg c) + x).

Definition zeros (n : Z) : str := py_repeat n 48.

Definition repr_layout (ds : str) (decpt : Z) : str :=
  if (decpt <=? -4) || (16 <? decpt) then
    take 1 ds ++ (if decide (drop 1 ds = []) then [] else 46 :: drop 1 ds) ++
    101 :: (if decpt - 1 <? 0 then 45 else 43) ::
    (if Z.abs (decpt - 1) <? 10 then [48] else []) ++ dec_nonneg (Z.abs (decpt - 1))
  else if decpt <=? 0 then u "0." ++ zeros (- decpt) ++ ds
  else if zlen ds <=? decpt then ds ++ zeros (decpt - zlen ds) ++ u ".0"
  else take (Z.to_nat decpt) ds ++ 46 :: drop (Z.to_nat decpt) ds.

Definition minus_sign (neg : bool) : str := if neg then [45] else [].

Definition float_repr (f : f64) : str :=
  match f with
  | NaN => u "nan"
  | Inf neg => minus_sign neg ++ u "inf"
  | Fin neg m e => minus_sign neg ++ (if m =? 0 then u "0.0" else let '(ds, p) := repr_digits m e in repr_layout ds p)
  end.

Example float_repr_examples :
  float_repr (lit 1 10) = u "0.1" ∧ float_repr (lit 100 1) = u "100.0" ∧ float_repr (lit (-5) 4) = u "-1.25" ∧
  float_repr (lit 1 3) = u "0.3333333333333333" ∧ float_repr (lit 1 10000) = u "0.0001" ∧
  float_repr (lit 1 80000) = u "1.25e-05" ∧ float_repr (lit (10 ^ 16) 1) = u "1e+16" ∧
  float_repr (lit (10 ^ 15) 1) = u "1000000000000000.0" ∧ float_repr (Fin false 1 (-1074)) = u "5e-324" ∧
  float_repr (lit 1 (2 ^ 44)) = u "5.684341886080802e-14" ∧
  float_repr (fadd (lit 1 10) (lit 2 10)) = u "0.30000000000000004" ∧ float_repr (Fin true 0 emin) = u "-0.0" ∧
  float_repr (lit (10 ^ 23) 1) = u "1e+23".
Proof. by vm_compute. Qed.

(** ** Lemmas: digits *)

Lemma span_digits ds r :
  Forall is_digit ds → (match r with [] => True | c :: _ => ascii_digit c = false end) →
  span ascii_digit (ds ++ r) = (ds, r).
Proof.
  intros Hds Hr. induction Hds as [|c ds Hc _ IH]; simpl.
  - destruct r as [|c r]; simpl; [done|by rewrite Hr].
  - assert (ascii_digit c = true) as -> by (unfold ascii_digit, is_digit in *; lia). by rewrite IH.
Qed.

Lemma digits_value_snoc ds d : digits_value (ds ++ [d]) = 10 * digits_value ds + (d - 48).
Proof. unfold digits_value. by rewrite foldl_app. Qed.

Lemma digits_rev_S fuel n :
  digits_rev (S fuel) n = if n <? 10 then [48 + n] else (48 + n `mod` 10) :: digits_rev fuel (n `div` 10).
Proof. done. Qed.

Lemma digits_value_rev fuel n :
  0 ≤ n < 2 ^ Z.of_nat (S fuel) → digits_value (rev (digits_rev (S fuel) n)) = n.
Proof.
  revert n; induction fuel as [|fuel IH]; intros n Hn; rewrite digits_rev_S.
  - destruct (Z.ltb_spec n 10); [cbn; lia|]. change (2 ^ Z.of_nat 1) with 2 in Hn. lia.
  - destruct (Z.ltb_spec n 10); [cbn; lia|]. cbn [rev]. rewrite digits_value_snoc.
    pose proof (Z.div_mod n 10 ltac:(lia)). pose proof (Z.mod_pos_bound n 10 ltac:(lia)).
    rewrite Nat2Z.inj_succ, Z.pow_succ_r in Hn by lia. rewrite IH by lia. lia.
Qed.

Lemma digits_value_dec n : 0 ≤ n → digits_value (dec_nonneg n) = n.
Proof. intros. apply digits_value_rev. by apply dec_fuel. Qed.

(** The most significant digit of a positive number is not zero. *)
Lemma digits_rev_last fuel n :
  0 < n < 2 ^ Z.of_nat (S fuel) → ∃ d ds, rev (digits_rev (S fuel) n) = d :: ds ∧ 49 ≤ d ≤ 57.
Proof.
  revert n; induction fuel as [|fuel IH]; intros n Hn; rewrite digits_rev_S.
  - destruct (Z.ltb_spec n 10); [|change (2 ^ Z.of_nat 1) with 2 in Hn; lia]. exists (48 + n), []. split; [done|lia].
  - destruct (Z.ltb_spec n 10); [exists (48 + n), []; split; [done|lia]|].
    rewrite Nat2Z.inj_succ, Z.pow_succ_r in Hn by lia.
    pose proof (Z.div_mod n 10 ltac:(lia)). pose proof (Z.mod_pos_bound n 10 ltac:(lia)).
    destruct (IH (n `div` 10)) as (d & ds & E & Hd); [lia|].
    exists d, (ds ++ [48 + n `mod` 10]). cbn [rev]. by rewrite E.
Qed.

Lemma dec_nonneg_head n :
  0 ≤ n → (n = 0 ∧ dec_nonneg n = [48]) ∨ (∃ d ds, dec_nonneg n = d :: ds ∧ 49 ≤ d ≤ 57).
Proof.
  intros Hn. destruct (Z.eq_dec n 0) as [->|]; [by left|]. right.
  apply digits_rev_last. pose proof (dec_fuel n Hn). lia.
Qed.


Lemma digits_value_app ds es : digits_value (ds ++ es) = digits_value ds * 10 ^ zlen es + digits_value es.
Proof.
  induction es as [|d es IH] using rev_ind; [rewrite app_nil_r; cbn; lia|].
  rewrite app_assoc, !digits_value_snoc, IH, length_app, Nat2Z.inj_add. cbn [length]. rewrite Z.pow_add_r by lia. lia.
Qed.

Lemma digits_value_nonneg ds : Forall is_digit ds → 0 ≤ digits_value ds.
Proof.
  induction ds as [|c ds IH] using rev_ind; [done|]. intros [H1 [H2 _]%Forall_cons]%Forall_app. unfold is_digit in H2.
  rewrite digits_value_snoc. specialize (IH H1). lia.
Qed.

Lemma zeros_length n : 0 ≤ n → zlen (zeros n) = n.
Proof. intros. unfold zeros, py_repeat. rewrite length_replicate. lia. Qed.

Lemma digits_value_zeros n : digits_value (zeros n) = 0.
Proof.
  unfold zeros, py_repeat. induction (Z.to_nat n) as [|k IH]; [done|]. change (S k) with (1 + k)%nat.
  rewrite Nat.add_comm, replicate_add, digits_value_app, IH. done.
Qed.

Lemma zeros_digits n : Forall is_digit (zeros n).
Proof. apply Forall_replicate. unfold is_digit. lia. Qed.

Lemma span_digit s : Forall is_digit (span ascii_digit s).1.
Proof.
  induction s as [|c s IH]; [done|]. cbn [span]. destruct (ascii_digit c) eqn:E; [|constructor].
  destruct (span ascii_digit s) as [a b]. constructor; [unfold ascii_digit in E; unfold is_digit; lia|exact IH].
Qed.

Lemma decimal_float_wf neg ds x : Forall is_digit ds → f_wf (decimal_float neg (digits_value ds) x) = true.
Proof.
  intros H. apply digits_value_nonneg in H. pose proof (Z.pow_pos_nonneg 10 (Z.max 0 x) ltac:(lia) ltac:(lia)).
  apply round_q_wf; [nia|apply Z.pow_pos_nonneg; lia].
Qed.

(** How long a number is. *)
Lemma digits_rev_length fuel n :
  0 < n < 2 ^ Z.of_nat (S fuel) →
  10 ^ (zlen (digits_rev (S fuel) n) - 1) ≤ n < 10 ^ zlen (digits_rev (S fuel) n).
Proof.
  revert n; induction fuel as [|fuel IH]; intros n Hn; rewrite digits_rev_S.
  - destruct (Z.ltb_spec n 10); [cbn; lia|]. change (2 ^ Z.of_nat 1) with 2 in Hn. lia.
  - destruct (Z.ltb_spec n 10); [cbn; lia|]. rewrite Nat2Z.inj_succ, Z.pow_succ_r in Hn by lia.
    pose proof (Z.div_mod n 10 ltac:(lia)). pose proof (Z.mod_pos_bound n 10 ltac:(lia)).
    destruct (IH (n `div` 10)) as [L1 L2]; [lia|]. cbn [length]. set (l := digits_rev (S fuel) (n `div` 10)) in *.
    assert (0 < zlen l) by (unfold l; rewrite digits_rev_S; case_match; cbn [length]; lia).
    rewrite Nat2Z.inj_succ. replace (Z.succ (zlen l) - 1) with (Z.succ (zlen l - 1)) by lia.
    rewrite !Z.pow_succ_r by lia. lia.
Qed.

Lemma dec_length n : 0 < n → 0 < zlen (dec_nonneg n) ∧ 10 ^ (zlen (dec_nonneg n) - 1) ≤ n < 10 ^ zlen (dec_nonneg n).
Proof.
  intros Hn. unfold dec_nonneg. rewrite length_rev. pose proof (dec_fuel n ltac:(lia)).
  split; [|apply digits_rev_length; lia].
  rewrite digits_rev_S. case_match; cbn [length]; lia.
Qed.

(** ** Lemmas: the nearest digits read back *)

Lemma div_rne_near x y m : 0 < y → 2 * Z.abs (x - m * y) < y → div_rne x y = m.
Proof. intros Hy H. destruct (div_rne_spec x y Hy) as [H1 _]. set (q := div_rne x y) in *. clearbody q. nia. Qed.

(** A rational within 1/(2*10^16) of a positive float, relatively, rounds to it. *)
Lemma round_me_near n d m e (x := shl n (- e)) (y := shl d e) :
  0 < m → canonical m e = true → 0 < n → 0 < d → 2 * 10 ^ 16 * Z.abs (x - m * y) ≤ m * y → round_me n d = (m, e).
Proof.
  intros Hm Hc Hn Hd H. apply canonical_spec in Hc as (Hm2 & He & Hnorm).
  assert (0 < x) as Hx by (unfold x; auto with memtier). assert (0 < y) as Hy by (unfold y; auto with memtier).
  pose proof (Z.log2_spec m Hm) as [Lm1 Lm2]. pose proof (Z.log2_nonneg m) as Hl.
  assert (Z.log2 m < 53) as Hl2 by (apply Z.log2_lt_pow2; [done|exact (proj2 Hm2)]).
  assert (e = emin ∨ Z.log2 m = 52) as Hl52.
  { destruct Hnorm as [Hn52| ->]; [right|by left]. assert (52 ≤ Z.log2 m) by (apply Z.log2_le_pow2; [done|exact Hn52]). lia. }
  set (l := Z.log2 m) in *. set (k := flog2 n d). set (t := Z.abs e + Z.abs k + 100).
  destruct (flog2_spec n d t) as [K1 K2]; [lia..|]. fold k in K1, K2.
  set (w := t - Z.max 0 (- e)).
  assert (n * 2 ^ t = x * 2 ^ w) as Ex.
  { unfold x, shl. rewrite <-Z.mul_assoc, <-Z.pow_add_r by lia. do 2 f_equal. lia. }
  assert (∀ j, 0 ≤ j → d * 2 ^ (t + (e + j)) = y * 2 ^ j * 2 ^ w) as Ey.
  { intros j Hj. unfold y, shl. rewrite <-!Z.mul_assoc, <-!Z.pow_add_r by lia. do 2 f_equal. lia. }
  assert (0 < 2 ^ w) as Hw by (apply Z.pow_pos_nonneg; lia).
  (* comparing exponents *)
  assert (∀ j, 0 ≤ j → e + j ≤ k → y * 2 ^ j ≤ x) as Hge.
  { intros j Hj Hk. apply (Z.mul_le_mono_pos_r _ _ (2 ^ w)); [done|]. rewrite <-Ey, <-Ex by done.
    etransitivity; [|exact K1]. apply Z.mul_le_mono_nonneg_l; [lia|]. apply Z.pow_le_mono_r; lia. }
  assert (∀ j, 0 ≤ j → k < e + j → x < y * 2 ^ j) as Hlt.
  { intros j Hj Hk. apply (Z.mul_lt_mono_pos_r (2 ^ w)); [done|]. rewrite <-Ey, <-Ex by done.
    eapply Z.lt_le_trans; [exact K2|]. apply Z.mul_le_mono_nonneg_l; [lia|]. apply Z.pow_le_mono_r; lia. }
  rewrite Z.pow_succ_r in Lm2 by lia. assert (2 ^ l ≤ 2 ^ 52) as P52 by (apply Z.pow_le_mono_r; lia).
  change (2 ^ 52) with 4503599627370496 in P52. change (10 ^ 16) with 10000000000000000 in H. unfold two53 in Hm2.
  assert (k ≤ e + l) as Hk1.
  { destruct (Z.le_gt_cases k (e + l)) as [|Hk]; [done|]. specialize (Hge (l + 1) ltac:(lia) ltac:(lia)).
    rewrite Z.pow_add_r in Hge by lia. change (2 ^ 1) with 2 in Hge. nia. }
  assert (Z.max emin (k - 52) ≤ e) as Hu by lia.
  assert (Z.max emin (k - 52) = e ∨ (Z.max emin (k - 52) = e - 1 ∧ m = two52)) as [Ee|[Ee Em]].
  { destruct (Z.le_gt_cases e emin) as [|Hemin]; [left; lia|]. assert (l = 52) as Hl5 by lia.
    destruct (Z.le_gt_cases (e + l) k); [left; lia|right]. clear K1 K2 Ex Ey.
    pose proof (Hlt l Hl ltac:(lia)) as L1. rewrite Hl5 in *. change (2 ^ 52) with 4503599627370496 in *.
    assert (m = two52) as Em by (unfold two52; nia). split; [|done].
    destruct (Z.le_gt_cases (e + 51) k); [lia|]. specialize (Hlt 51 ltac:(lia) ltac:(lia)).
    change (2 ^ 51) with 2251799813685248 in Hlt. nia. }
  - unfold round_me. fold k. rewrite Ee. fold x y. rewrite (div_rne_near x y m) by (done || nia).
    destruct (Z.eqb_spec m two53); [unfold two53 in *; lia|done].
  - unfold round_me. fold k. rewrite Ee. set (x' := shl n (- (e - 1))). set (y' := shl d (e - 1)).
    assert (0 < x') by (unfold x'; auto with memtier). assert (0 < y') by (unfold y'; auto with memtier).
    assert (x' * y = 2 * x * y') as E'.
    { unfold x', y', x, y, shl. transitivity (n * d * (2 ^ Z.max 0 (- (e - 1)) * 2 ^ Z.max 0 e)); [ring|].
      transitivity (n * d * (2 ^ 1 * (2 ^ Z.max 0 (- e) * 2 ^ Z.max 0 (e - 1)))); [|change (2 ^ 1) with 2; ring].
      rewrite <-!Z.pow_add_r by lia. do 2 f_equal. lia. }
    rewrite (div_rne_near x' y' two53).
    + rewrite Z.eqb_refl, Em. f_equal. lia.
    + done.
    + apply (Z.mul_lt_mono_pos_r y); [done|]. rewrite <-Z.mul_assoc, <-(Z.abs_eq y) at 1 by lia. rewrite <-Z.abs_mul.
      replace ((x' - two53 * y') * y) with (2 * y' * (x - two52 * y))
        by (rewrite Z.mul_sub_distr_r, E'; unfold two52, two53; ring).
      rewrite Z.abs_mul, (Z.abs_eq (2 * y')) by lia. rewrite Em in H. unfold two52 in *. nia.
Qed.

(** [10^k <= n/d < 10^(k+1)], scaled to seventeen digits. *)
Lemma flog10_spec n d (k := flog10 n d) (s := 16 - k) :
  0 < n → 0 < d →
  d * 10 ^ Z.max 0 (- s) * 10 ^ 16 ≤ n * 10 ^ Z.max 0 s < d * 10 ^ Z.max 0 (- s) * 10 ^ 17.
Proof.
  intros Hn Hd. assert (∀ a b, 0 ≤ a → 0 ≤ b → 10 ^ a * 10 ^ b = 10 ^ (a + b)) as Hp by (intros; by rewrite Z.pow_add_r).
  unfold s, k, flog10. clear s k. destruct (Z.leb_spec d n) as [Hle|Hlt].
  - pose proof (Z.div_str_pos n d ltac:(lia)) as Hq. destruct (dec_length _ Hq) as (Hl & L1 & L2).
    set (l := zlen (dec_nonneg (n `div` d))) in *. clearbody l.
    assert (d * 10 ^ (l - 1) ≤ n < d * 10 ^ l) as [A1 A2].
    { pose proof (Z.div_mod n d ltac:(lia)). pose proof (Z.mod_pos_bound n d Hd). nia. }
    rewrite <-!Z.mul_assoc, !Hp by lia. destruct (Z.le_gt_cases (l - 1) 16).
    + rewrite !(Z.max_l 0 (- (16 - (l - 1)))), !(Z.max_r 0 (16 - (l - 1))) by lia.
      change (10 ^ (0 + 16)) with (10 ^ 16). change (10 ^ (0 + 17)) with (10 ^ 17).
      replace (10 ^ 16) with (10 ^ (l - 1) * 10 ^ (16 - (l - 1))) by (rewrite Hp by lia; f_equal; lia).
      replace (10 ^ 17) with (10 ^ l * 10 ^ (16 - (l - 1))) by (rewrite Hp by lia; f_equal; lia).
      pose proof (Z.pow_pos_nonneg 10 (16 - (l - 1)) ltac:(lia) ltac:(lia)). split; nia.
    + rewrite !(Z.max_r 0 (- (16 - (l - 1)))), !(Z.max_l 0 (16 - (l - 1))), Z.mul_1_r by lia.
      replace (- (16 - (l - 1)) + 16) with (l - 1) by lia. replace (- (16 - (l - 1)) + 17) with l by lia. lia.
  - pose proof (Z.div_str_pos (d - 1) n ltac:(lia)) as Hq. destruct (dec_length _ Hq) as (Hl & L1 & L2).
    set (l := zlen (dec_nonneg ((d - 1) `div` n))) in *. clearbody l.
    assert (n * 10 ^ (l - 1) < d ≤ n * 10 ^ l) as [A1 A2].
    { pose proof (Z.div_mod (d - 1) n ltac:(lia)). pose proof (Z.mod_pos_bound (d - 1) n Hn). nia. }
    rewrite !(Z.max_l 0 (- (16 - - l))), !(Z.max_r 0 (16 - - l)), Z.pow_0_r, Z.mul_1_r by lia.
    replace (10 ^ (16 - - l)) with (10 ^ l * 10 ^ 16) by (rewrite Hp by lia; f_equal; lia).
    replace (10 ^ l) with (10 ^ 1 * 10 ^ (l - 1)) in * by (rewrite Hp by lia; f_equal; lia).
    change (10 ^ 1) with 10 in *. change (10 ^ 17) with (10 * 10 ^ 16).
    pose proof (Z.pow_pos_nonneg 10 16 ltac:(lia) ltac:(lia)). split; nia.
Qed.

(** Equal rationals round to the same float; the sign passes through. *)
Lemma round_q_ratio s n1 d1 n2 d2 :
  0 < n1 → 0 < n2 → 0 < d1 → 0 < d2 → n1 * d2 = n2 * d1 → round_q s n1 d1 = round_q s n2 d2.
Proof.
  intros H1 H2 H3 H4 E. rewrite !round_q_me by lia.
  pose proof (round_me_mono n1 d1 n2 d2 H1 H2 H3 H4 ltac:(lia)) as L1.
  pose proof (round_me_mono n2 d2 n1 d1 H2 H1 H4 H3 ltac:(lia)) as L2.
  destruct (round_me n1 d1) as [m1 e1], (round_me n2 d2) as [m2 e2]. unfold lex_le in *. cbn [fst snd] in *.
  assert (m1 = m2 ∧ e1 = e2) as [-> ->] by lia. done.
Qed.

Lemma round_q_flip s n d m e : round_q false n d = Fin false m e → round_q s n d = Fin s m e.
Proof. unfold round_q. destruct (n =? 0); [congruence|]. cbv zeta. repeat case_match; congruence. Qed.

Lemma pow10_pos x : 0 < 10 ^ Z.max 0 x.
Proof. apply Z.pow_pos_nonneg; lia. Qed.
#[export] Hint Resolve pow10_pos : memtier.

Lemma decimal_float_scale neg c z x : 0 ≤ c → 0 ≤ z → decimal_float neg (c * 10 ^ z) x = decimal_float neg c (x + z).
Proof.
  intros Hc Hz. destruct (Z.eq_dec c 0) as [->|]; [by rewrite Z.mul_0_l|].
  pose proof (Z.pow_pos_nonneg 10 z ltac:(lia) Hz). unfold decimal_float.
  pose proof (pow10_pos x). pose proof (pow10_pos (x + z)).
  apply round_q_ratio; [nia|nia|apply pow10_pos|apply pow10_pos|].
  transitivity (c * (10 ^ z * 10 ^ Z.max 0 x * 10 ^ Z.max 0 (- (x + z)))); [ring|].
  transitivity (c * (10 ^ Z.max 0 (x + z) * 10 ^ Z.max 0 (- x))); [|ring].
  rewrite <-!Z.pow_add_r by lia. do 2 f_equal. lia.
Qed.

Section Digits.
Variables m e : Z.
Hypothesis mant_pos : 0 < m.
Hypothesis mant_canonical : canonical m e = true.

Lemma first_some_Some {A B} (f : A → option B) l y : first_some f l = Some y → ∃ x, x ∈ l ∧ f x = Some y.
Proof.
  induction l as [|x l IH]; [done|]. cbn [first_some]. destruct (f x) as [y'|] eqn:E.
  - intros [= ->]. exists x. split; [left|done].
  - intros H. destruct (IH H) as (x' & Hx & Ex). exists x'. split; [by right|done].
Qed.

Lemma first_some_is_Some {A B} (f : A → option B) l x : x ∈ l → is_Some (f x) → is_Some (first_some f l).
Proof.
  intros Hx Hf. induction Hx as [x l|x y l _ IH]; cbn [first_some].
  - destruct Hf as [y ->]. eauto.
  - destruct (f y); [eauto|by apply IH].
Qed.

(** Digits that are picked read back. *)
Lemma pick_digits_reads k n c x : pick_digits m e k n = Some (c, x) → decimal_float false c x = Fin false m e.
Proof.
  unfold pick_digits. set (s := n - 1 - k). set (num := shl m e * _). set (den := shl 1 (- e) * _).
  destruct (bool_decide_reflect (decimal_float false (num `div` den) (- s) = Fin false m e)) as [H1|H1];
    destruct (bool_decide_reflect (decimal_float false (num `div` den + 1) (- s) = Fin false m e)) as [H2|H2];
    cbn; intros [= <- <-]; try done. unfold div_rne. by case_match.
Qed.

(** Of seventeen digits, the nearest ones do. *)
Lemma pick_seventeen : is_Some (pick_digits m e (flog10 (shl m e) (shl 1 (- e))) 17).
Proof.
  assert (0 < shl m e) as HN by (auto with memtier). assert (0 < shl 1 (- e)) as HD by (apply shl_pos; lia).
  pose proof (flog10_spec _ _ HN HD) as [F1 F2]. unfold pick_digits. set (k := flog10 _ _) in *.
  change (17 - 1 - k) with (16 - k). set (s := 16 - k) in *. set (P := 10 ^ Z.max 0 s) in *. set (Q := 10 ^ Z.max 0 (- s)) in *.
  assert (0 < P ∧ 0 < Q) as [HP HQ] by (split; apply pow10_pos).
  set (num := shl m e * P) in *. set (den := shl 1 (- e) * Q) in *. assert (0 < den) as Hden by (unfold den; nia).
  assert (decimal_float false (div_rne num den) (- s) = Fin false m e) as Hr.
  { destruct (div_rne_spec num den Hden) as [R _]. set (c := div_rne num den) in *. change (10 ^ 16) with 10000000000000000 in *.
    assert (0 < c) as Hc by (clear - R F1 Hden; nia). assert (0 < c * Q) as HcQ by (clear - Hc HQ; nia).
    assert (2 * 10000000000000000 * Z.abs (c * den - num) ≤ num) as Hnear by (clear - R F1; nia).
    unfold decimal_float. rewrite Z.opp_involutive. fold P Q. apply canonical_spec in mant_canonical as Hcan.
    rewrite round_q_me by (clear - HcQ; lia). rewrite (round_me_near _ _ m e); [|done..|].
    - cbn [fst snd]. destruct (Z.ltb_spec emax e); [lia|done].
    - replace (shl (c * Q) (- e)) with (c * den) by (unfold den, shl; ring).
      by replace (m * shl P e) with num by (unfold num, shl; ring). }
  assert (div_rne num den = num `div` den ∨ div_rne num den = num `div` den + 1) as [E|E]
    by (unfold div_rne; case_match; [by left|by right]); rewrite E in Hr; rewrite (bool_decide_eq_true_2 _ Hr); [done|].
  by destruct (bool_decide _).
Qed.

(** The shortest digits read back. *)
Lemma repr_number_reads : let '(c, x) := repr_number m e in 0 < c ∧ decimal_float false c x = Fin false m e.
Proof.
  unfold repr_number.
  destruct (first_some_is_Some (pick_digits m e (flog10 (shl m e) (shl 1 (- e)))) (seqZ 1 17) 17) as [[c x] E];
    [apply elem_of_seqZ; lia|apply pick_seventeen|].
  rewrite E. cbn [default from_option]. apply first_some_Some in E as (n & _ & E). apply pick_digits_reads in E as Hr.
  split; [|done]. unfold pick_digits in E. set (s := n - 1 - _) in E.
  assert (0 ≤ c) as Hc.
  { pose proof (pow10_pos s). pose proof (pow10_pos (- s)). assert (0 < shl m e) by (auto with memtier).
    assert (0 < shl 1 (- e)) by (apply shl_pos; lia). set (num := shl m e * _) in E. set (den := shl 1 (- e) * _) in E.
    assert (0 ≤ num `div` den) by (apply Z.div_pos; unfold num, den; nia).
    clearbody num den. clear Hr. cbv zeta in E. unfold div_rne in E. repeat case_match; simplify_eq/=; lia. }
  destruct (Z.eq_dec c 0) as [->|]; [|lia]. unfold decimal_float in Hr. rewrite Z.mul_0_l in Hr. injection Hr as <- <-. lia.
Qed.
End Digits.

(** ** Lemmas: the layout *)

(** The parts of a number: integer digits, fraction digits, and the sign and
    digits of the exponent. *)
Definition decimal_text (ip fp : str) (ex : option (bool * str)) : str :=
  ip ++ (if decide (fp = []) then [] else 46 :: fp) ++
  match ex with Some (neg, ds) => 101 :: (if neg then 45 else 43) :: ds | None => [] end.

Definition exponent (ex : option (bool * str)) : Z :=
  match ex with Some (neg, ds) => sgn_apply neg (digits_value ds) | None => 0 end.

(** What makes it a number with a point or an exponent, in JSON too. *)
Record number_shape (ip fp : str) (ex : option (bool * str)) : Prop := {
  ns_head : ip = [48] ∨ ∃ d ds, ip = d :: ds ∧ 49 ≤ d ≤ 57;
  ns_int : Forall is_digit ip;
  ns_frac : Forall is_digit fp;
  ns_exp : match ex with Some (_, ds) => ds ≠ [] ∧ Forall is_digit ds | None => fp ≠ [] end;
}.

(** The parts denote [f]. *)
Definition denotes (ip fp : str) (ex : option (bool * str)) (neg : bool) (f : f64) : Prop :=
  decimal_float neg (digits_value (ip ++ fp)) (exponent ex - zlen fp) = f.

(** The exponent is written with two digits at least. *)
Definition exponent_digits (x : Z) : str := (if Z.abs x <? 10 then [48] else []) ++ dec_nonneg (Z.abs x).

Lemma exponent_digits_ok x :
  exponent_digits x ≠ [] ∧ Forall is_digit (exponent_digits x) ∧ sgn_apply (x <? 0) (digits_value (exponent_digits x)) = x.
Proof.
  pose proof (dec_nonneg_digits (Z.abs x) ltac:(lia)) as Hd.
  assert (digits_value (exponent_digits x) = Z.abs x) as Hv.
  { unfold exponent_digits. case_match; [rewrite digits_value_app; change (digits_value [48]) with 0|cbn [app]];
      rewrite digits_value_dec; lia. }
  split_and!.
  - intros E. unfold exponent_digits in E. apply app_eq_nil in E as [_ E].
    destruct (dec_nonneg_head (Z.abs x)) as [[_ H]|(? & ? & H & _)]; [lia|rewrite E in H; done..].
  - unfold exponent_digits. apply Forall_app. split; [|done]. case_match; repeat constructor; lia.
  - rewrite Hv. unfold sgn_apply. destruct (Z.ltb_spec x 0); lia.
Qed.

Lemma repr_layout_shape ds p :
  (∃ d es, ds = d :: es ∧ 49 ≤ d ≤ 57) → Forall is_digit ds →
  ∃ ip fp ex, repr_layout ds p = decimal_text ip fp ex ∧ number_shape ip fp ex ∧
    ∀ neg, denotes ip fp ex neg (decimal_float neg (digits_value ds) (p - zlen ds)).
Proof.
  intros (d & es & E & Hd) Hds. pose proof (digits_value_nonneg ds Hds) as Hv.
  assert (0 < zlen ds) as Hlen by (rewrite E; cbn [length]; lia). unfold repr_layout, denotes.
  destruct (_ || _) eqn:Ex; [|apply orb_false_iff in Ex as [P1 P2]; destruct (Z.leb_spec p 0); [|destruct (Z.leb_spec (zlen ds) p)]].
  - destruct (exponent_digits_ok (p - 1)) as (Hne & Hed & Hev).
    exists (take 1 ds), (drop 1 ds), (Some (p - 1 <? 0, exponent_digits (p - 1))). split_and!; [by destruct (p - 1 <? 0)| |].
    + split; [right; subst ds; by exists d, []|by apply Forall_take|by apply Forall_drop|done].
    + intros neg. rewrite take_drop. cbn [exponent]. rewrite Hev. f_equal. rewrite length_drop. lia.
  - exists [48], (zeros (- p) ++ ds), None. split_and!.
    + unfold decimal_text. rewrite decide_False by (subst ds; by destruct (zeros (- p))). by rewrite app_nil_r.
    + split; [by left|by repeat constructor|apply Forall_app; split; [apply zeros_digits|done]|]. subst ds. by destruct (zeros (- p)).
    + intros neg. rewrite !digits_value_app, digits_value_zeros. change (digits_value [48]) with 0.
      rewrite !Z.mul_0_l, !Z.add_0_l. cbn [exponent]. f_equal. rewrite length_app, Nat2Z.inj_add, zeros_length; lia.
  - exists (ds ++ zeros (p - zlen ds)), [48], None. split_and!.
    + unfold decimal_text. rewrite decide_False by done. by rewrite <-app_assoc.
    + split; [right; subst ds; cbn [app]; eauto|apply Forall_app; split; [done|apply zeros_digits]|by repeat constructor|done].
    + intros neg. rewrite !digits_value_app, digits_value_zeros, zeros_length by lia.
      change (digits_value [48]) with 0. change (zlen [48]) with 1. cbn [exponent].
      replace ((digits_value ds * 10 ^ (p - zlen ds) + 0) * 10 ^ 1 + 0) with (digits_value ds * 10 ^ (p - zlen ds + 1))
        by (rewrite Z.pow_add_r by lia; lia).
      rewrite decimal_float_scale by lia. f_equal. lia.
  - exists (take (Z.to_nat p) ds), (drop (Z.to_nat p) ds), None.
    assert (drop (Z.to_nat p) ds ≠ []) as Hdr by (intros D; apply (f_equal length) in D; rewrite length_drop in D; cbn in D; lia).
    split_and!.
    + unfold decimal_text. rewrite decide_False by done. by rewrite app_nil_r.
    + split; [right|by apply Forall_take|by apply Forall_drop|done]. subst ds. destruct (Z.to_nat p) eqn:Ep; [lia|]. cbn [take]. eauto.
    + intros neg. rewrite take_drop. cbn [exponent]. f_equal. rewrite length_drop. lia.
Qed.

Lemma rstrip_prefix p (l : str) : ∃ r, l = rstrip p l ++ r ∧ Forall (λ c, p c = true) r.
Proof.
  unfold rstrip. induction l as [|c l IH] using rev_ind; [by exists []|]. rewrite rev_app_distr. cbn [rev app drop_while].
  destruct (p c) eqn:E.
  - destruct IH as (r & El & Hr). exists (r ++ [c]). split; [by rewrite app_assoc, <-El|]. apply Forall_app. by repeat constructor.
  - exists []. cbn [rev]. rewrite rev_involutive. by rewrite app_nil_r.
Qed.

Lemma all_zeros r : Forall (λ c, (48 =? c) = true) r → r = zeros (zlen r).
Proof.
  unfold zeros, py_repeat. rewrite Nat2Z.id. induction 1 as [|c r Hc _ IH]; [done|]. cbn [length replicate]. apply Z.eqb_eq in Hc. by f_equal.
Qed.

(** The text of a finite float: a sign and the parts of a number that denotes it. *)
Lemma float_repr_shape s m e :
  canonical m e = true →
  ∃ ip fp ex, float_repr (Fin s m e) = minus_sign s ++ decimal_text ip fp ex ∧ number_shape ip fp ex ∧ denotes ip fp ex s (Fin s m e).
Proof.
  intros Hc. pose proof Hc as (Hm & He & Hn)%canonical_spec. cbn [float_repr]. destruct (Z.eqb_spec m 0) as [->|Hm0].
  { assert (e = emin) as -> by (unfold two52 in *; lia). exists [48], [48], None. split_and!; [done| |done].
    by split; [left|repeat constructor; lia|repeat constructor; lia|]. }
  pose proof (repr_number_reads m e ltac:(lia) Hc) as Hr. unfold repr_digits. destruct (repr_number m e) as [c x].
  destruct Hr as [Hpos Hr]. destruct (rstrip_prefix (Z.eqb 48) (dec_nonneg c)) as (r & Er & Hr0). pose proof (all_zeros r Hr0) as Hz.
  set (ds := rstrip (Z.eqb 48) (dec_nonneg c)) in *.
  assert (Forall is_digit ds) as Hds.
  { pose proof (dec_nonneg_digits c ltac:(lia)) as H. rewrite Er in H. by apply Forall_app in H as [? _]. }
  destruct (dec_nonneg_head c) as [[? _]|(d & es & Eh & Hd)]; [lia|lia|].
  assert (∃ d es, ds = d :: es ∧ 49 ≤ d ≤ 57) as Hhead.
  { rewrite Eh in Er. destruct ds as [|d' es']; [|injection Er as <- _; eauto].
    cbn [app] in Er. rewrite <-Er in Hr0. apply Forall_cons in Hr0 as [Hd0%Z.eqb_eq _]. lia. }
  destruct (repr_layout_shape ds (zlen (dec_nonneg c) + x) Hhead Hds) as (ip & fp & ex & El & Hs & Hden).
  exists ip, fp, ex. split; [by rewrite El|]. split; [done|]. unfold denotes in *. rewrite Hden.
  unfold decimal_float in *. rewrite <-(round_q_flip s _ _ m e Hr). fold (decimal_float s c x).
  fold (decimal_float s (digits_value ds) (zlen (dec_nonneg c) + x - zlen ds)).
  assert (c = digits_value ds * 10 ^ zlen r) as Ec.
  { pose proof (digits_value_dec c ltac:(lia)) as H. rewrite Er, digits_value_app, (f_equal digits_value Hz), digits_value_zeros in H. lia. }
  assert (zlen (dec_nonneg c) = zlen ds + zlen r) as -> by (rewrite Er, length_app; lia).
  rewrite Ec at 1. rewrite decimal_float_scale; [f_equal; lia|by apply digits_value_nonneg|lia].
Qed.
