(* ===== verification/PyPath.v ===== *)
(** Paths of the scripts: [pathlib.PurePosixPath], as far as the scripts look
    into them.

    A path is its root and its components; the constructor drops empty
    components and [.], keeps [..], and keeps a root of exactly two slashes.
    [name], [stem] and [suffix] are those of CPython up to 3.13. *)

From S2P Require Import Prelude PyText.

Record path := { path_root : str; path_parts : list str }.

#[export] Instance path_eq_dec : EqDecision path.
Proof. solve_decision. Defined.

(** A component that the constructor keeps. *)
Definition keeps_part (x : str) : bool := negb (bool_decide (x = [])) && negb (bool_decide (x = [46])).

(** [Path(s)]. *)
Definition path_of (s : str) : path :=
  let rel := drop_while (Z.eqb 47) s in
  {| path_root := match (length s - length rel)%nat with O => [] | 2%nat => [47; 47] | _ => [47] end;
     path_parts := List.filter keeps_part (split_char 47 rel) |}.

(** [str(p)]. *)
Definition path_str (p : path) : str :=
  match path_root p ++ join [47] (path_parts p) with [] => [46] | s => s end.

(** [p.name]. *)
Definition path_name (p : path) : str := default [] (last (path_parts p)).

(** The name cut at its last dot, unless the dot is its first or last
    character: [p.stem] and [p.suffix]. *)
Definition split_suffix (name : str) : str * str :=
  match split_char 46 name with
  | [] | [_] => (name, [])
  | parts =>
      let stem := join [46] (removelast parts) in
      let ext := default [] (last parts) in
      if bool_decide (stem = []) || bool_decide (ext = []) then (name, []) else (stem, 46 :: ext)
  end.
Definition path_stem (p : path) : str := (split_suffix (path_name p)).1.
Definition path_suffix (p : path) : str := (split_suffix (path_name p)).2.

Example path_of_messy :
  path_str (path_of (u "./results//x/../a.tar.npz/.")) = u "results/x/../a.tar.npz" ∧
  path_str (path_of (u "")) = u "." ∧ path_str (path_of (u "//a")) = u "//a" ∧ path_str (path_of (u "///a")) = u "/a" ∧
  path_stem (path_of (u "results/a.tar.npz")) = u "a.tar" ∧ path_suffix (path_of (u "results/a.tar.npz")) = u ".npz" ∧
  path_suffix (path_of (u "x/.npz")) = [] ∧ path_suffix (path_of (u "x/a.")) = [].
Proof. by vm_compute. Qed.

(** ** A path prints as itself *)

(** The paths the constructor builds. *)
Record path_wf (p : path) : Prop := {
  pw_root : path_root p = [] ∨ path_root p = [47] ∨ path_root p = [47; 47];
  pw_parts : Forall (λ x, keeps_part x = true ∧ Forall (λ c, c ≠ 47) x) (path_parts p);
}.

Lemma split_char_no_sep sep s : Forall (Forall (λ c, c ≠ sep)) (split_char sep s).
Proof.
  induction s as [|c s IH]; cbn [split_char]; [repeat constructor|].
  destruct (Z.eqb_spec c sep) as [->|Hc].
  - constructor; [constructor|done].
  - destruct (split_char sep s) as [|w ws]; [repeat constructor; done|]. inversion IH; subst. repeat constructor; done.
Qed.

Lemma path_of_wf s : path_wf (path_of s).
Proof.
  split.
  - cbn [path_of path_root]. destruct (_ - _)%nat as [|[|[|n]]]; auto.
  - cbn [path_of path_parts]. apply Forall_forall. intros x Hx%list_elem_of_In%filter_In.
    destruct Hx as [Hx Hk]. split; [done|]. apply list_elem_of_In in Hx.
    by apply (proj1 (Forall_forall _ _) (split_char_no_sep 47 (drop_while (Z.eqb 47) s))).
Qed.

Lemma drop_while_head {A} (p : A → bool) x l : p x = false → drop_while p (x :: l) = x :: l.
Proof. intros H. cbn [drop_while]. by rewrite H. Qed.

Lemma join_parts_head (parts : list str) :
  Forall (λ x, keeps_part x = true ∧ Forall (λ c, c ≠ 47) x) parts → parts ≠ [] →
  ∃ c r, join [47] parts = c :: r ∧ c ≠ 47.
Proof.
  destruct 1 as [|x parts [Hk Hx] Hp]; [done|]. intros _.
  destruct x as [|c x]; [by unfold keeps_part in Hk|]. inversion Hx; subst.
  destruct parts; cbn [join]; eauto. 
Qed.

Lemma filter_keeps (parts : list str) :
  Forall (λ x, keeps_part x = true ∧ Forall (λ c, c ≠ 47) x) parts → List.filter keeps_part parts = parts.
Proof. induction 1 as [|x l [Hk _] _ IH]; [done|]. cbn [List.filter]. rewrite Hk. by rewrite IH. Qed.

(** [Path(str(p))] is [p]. *)
Lemma path_of_str p : path_wf p → path_of (path_str p) = p.
Proof.
  destruct p as [root parts]. intros [Hr Hp]. cbn [path_root path_parts] in Hr, Hp.
  destruct parts as [|x parts].
  - destruct Hr as [->|[->| ->]]; by vm_compute.
  - destruct (join_parts_head (x :: parts)) as (c & r & Ej & Hc); [done..|].
    assert (path_str {| path_root := root; path_parts := x :: parts |} = root ++ c :: r) as ->.
    { unfold path_str. cbn [path_root path_parts]. rewrite Ej. by destruct root. }
    assert (drop_while (Z.eqb 47) (c :: r) = c :: r) as Ed by (apply drop_while_head, Z.eqb_neq; lia).
    assert (drop_while (Z.eqb 47) (root ++ c :: r) = c :: r) as Ed' by (destruct Hr as [->|[->| ->]]; exact Ed).
    unfold path_of. rewrite Ed'. f_equal.
    + rewrite length_app. replace (length root + length (c :: r) - length (c :: r))%nat with (length root) by lia.
      by destruct Hr as [->|[->| ->]].
    + rewrite <-Ej, split_char_join; [by apply filter_keeps|done|].
      eapply Forall_impl; [exact Hp|]. by intros y [_ H].
Qed.
