(* ===== verification/NumPy.v ===== *)
(** The NumPy operations the scripts call, as an interface.

    NumPy is not part of the repository: its operations are the fields of a
    class, and the laws are the documented behaviour the scripts rely on.
    Components are proved against the class; [reference_numpy] is a concrete
    instance (used by the witnesses), and [np_unique_ref] shows that the laws
    of [np.unique] determine its result. *)

From S2P Require Import Prelude.

(** ** Interface *)

Class NumPy := {
  (** [np.unique(a)]: the sorted distinct elements of an array. *)
  np_unique : list Z → list Z;
  np_unique_elem l x : x ∈ np_unique l ↔ x ∈ l;
  np_unique_sorted l : StronglySorted Z.lt (np_unique l);
  (** [np.array_split(a, n)]: [len % n] parts of [len // n + 1] elements, then
      parts of [len // n]. *)
  np_array_split : list Z → Z → list (list Z);
  np_array_split_concat l n : 0 < n → concat (np_array_split l n) = l;
  np_array_split_sizes l n :
    0 < n → (λ p, zlen p) <$> np_array_split l n =
      py_repeat (zlen l `mod` n) (zlen l `div` n + 1) ++ py_repeat (n - zlen l `mod` n) (zlen l `div` n);
  (** [np.uint64(z)] on a Python int. *)
  np_uint64 : Z → result Z;
  np_uint64_small z : in_width 64 z → np_uint64 z = Ok z;
  np_uint64_width z t : np_uint64 z = Ok t → in_width 64 t;
  (** [x // y] and [x % y] on [uint64]. *)
  np_floordiv : Z → Z → Z;
  np_floordiv_pos x y : in_width 64 x → 0 < y → np_floordiv x y = x `div` y;
  np_mod : Z → Z → Z;
  np_mod_pos x y : in_width 64 x → 0 < y → np_mod x y = x `mod` y;
  np_mod_width x y : in_width 64 x → in_width 64 y → in_width 64 (np_mod x y);
}.

(** [a.astype(np.uint64)] on integers. *)
Definition astype_uint64 (l : list Z) : list Z := wrap 64 <$> l.

Definition all_u64 (l : list Z) : Prop := Forall (in_width 64) l.

Lemma astype_uint64_id l : all_u64 l → astype_uint64 l = l.
Proof.
  unfold astype_uint64, all_u64. induction 1 as [|x l Hx _ IH]; [done|].
  rewrite fmap_cons, IH. f_equal. by apply wrap_small.
Qed.

Lemma astype_uint64_in_width l : all_u64 (astype_uint64 l).
Proof. apply Forall_fmap, Forall_true. intros x. by apply wrap_in_width. Qed.
#[export] Hint Resolve astype_uint64_in_width : memtier.

(** ** Sorted lists without duplicates *)

Lemma StronglySorted_lt_NoDup l : StronglySorted Z.lt l → NoDup l.
Proof.
  induction 1 as [|x l _ IH Hx]; constructor; [|done].
  intros Hin. rewrite Forall_forall in Hx. specialize (Hx x Hin). lia.
Qed.

(** A strictly sorted list is determined by its elements. *)
Lemma StronglySorted_lt_unique l k :
  StronglySorted Z.lt l → StronglySorted Z.lt k → (∀ x, x ∈ l ↔ x ∈ k) → l = k.
Proof.
  intros Hl; revert k; induction Hl as [|x l Hl IH Hx]; intros k Hk E.
  - destruct k as [|y k]; [done|]. assert (y ∈ []) as F by (apply E; left). by apply elem_of_nil in F.
  - destruct Hk as [|y k Hk Hy].
    + assert (x ∈ []) as F by (apply E; left). by apply elem_of_nil in F.
    + rewrite Forall_forall in Hx, Hy.
      assert (x ∈ y :: k) as F by (apply E; left). assert (y ∈ x :: l) as G by (apply E; left).
      assert (x = y) as <-.
      { apply elem_of_cons in F as [->|F]; [done|]. apply elem_of_cons in G as [->|G]; [done|].
        specialize (Hx _ G). specialize (Hy _ F). lia. }
      f_equal. apply IH; [done|]. intros z. clear F G. specialize (E z).
      rewrite !elem_of_cons in E. split; intros Hz.
      * destruct E as [[->|F] _]; [by right| |done]. specialize (Hx _ Hz). lia.
      * destruct E as [_ [->|G]]; [by right| |done]. specialize (Hy _ Hz). lia.
Qed.

Definition unique_ref (l : list Z) : list Z := merge_sort Z.le (remove_dups l).

Lemma unique_ref_elem l x : x ∈ unique_ref l ↔ x ∈ l.
Proof. unfold unique_ref. by rewrite merge_sort_Permutation, elem_of_remove_dups. Qed.

Lemma unique_ref_sorted l : StronglySorted Z.lt (unique_ref l).
Proof.
  assert (NoDup (unique_ref l)) as ND
    by (unfold unique_ref; rewrite merge_sort_Permutation; apply NoDup_remove_dups).
  assert (StronglySorted Z.le (unique_ref l)) as SS by (apply (StronglySorted_merge_sort Z.le); apply _).
  revert ND SS. generalize (unique_ref l). clear l. intros l ND SS.
  induction SS as [|x l SS IH Hx]; constructor.
  - apply IH. by apply NoDup_cons in ND as [_ ?].
  - apply NoDup_cons in ND as [Hn _]. rewrite Forall_forall in Hx |- *. intros y Hy.
    specialize (Hx y Hy). assert (x ≠ y) by (by intros ->). lia.
Qed.

Section Laws.
  Context {NP : NumPy}.

Lemma np_unique_NoDup l : NoDup (np_unique l).
Proof. apply StronglySorted_lt_NoDup, np_unique_sorted. Qed.

Lemma np_unique_ref l : np_unique l = unique_ref l.
Proof.
    apply StronglySorted_lt_unique; [apply np_unique_sorted|apply unique_ref_sorted|].
    intros x. by rewrite np_unique_elem, unique_ref_elem.
  Qed.

Lemma np_unique_idemp l : StronglySorted Z.lt l → np_unique l = l.
Proof.
    intros. apply StronglySorted_lt_unique; [apply np_unique_sorted|done|apply np_unique_elem].
  Qed.

Lemma np_unique_nil_iff l : np_unique l = [] ↔ l = [].
Proof.
    split; intros E.
    - destruct l as [|x l]; [done|]. assert (x ∈ np_unique (x :: l)) as H
        by (apply np_unique_elem; left). rewrite E in H. by apply elem_of_nil in H.
    - subst. destruct (np_unique []) as [|x l] eqn:E; [done|]. assert (x ∈ np_unique []) as H
        by (rewrite E; left). rewrite np_unique_elem in H. by apply elem_of_nil in H.
  Qed.

Lemma np_unique_length_le l : zlen (np_unique l) ≤ zlen l.
Proof.
    apply inj_le. apply submseteq_length, NoDup_submseteq; [apply np_unique_NoDup|].
    intros x. by rewrite np_unique_elem.
  Qed.

Lemma np_array_split_length l n : 0 < n → zlen (np_array_split l n) = n.
Proof.
    intros Hn. pose proof (np_array_split_sizes l n Hn) as E.
    apply (f_equal length) in E. rewrite length_fmap in E. rewrite E.
    unfold py_repeat. rewrite length_app, !length_replicate.
    pose proof (Z.mod_pos_bound (zlen l) n Hn). lia.
  Qed.
End Laws.

(** ** A concrete instance *)

Fixpoint split_sizes {A} (sizes : list Z) (l : list A) : list (list A) :=
  match sizes with
  | [] => []
  | s :: sizes => take (Z.to_nat s) l :: split_sizes sizes (drop (Z.to_nat s) l)
  end.

Lemma split_sizes_spec {A} sizes (l : list A) :
  Forall (λ s, 0 ≤ s) sizes → zsum sizes = zlen l →
  concat (split_sizes sizes l) = l ∧ (λ p, zlen p) <$> split_sizes sizes l = sizes.
Proof.
  intros H; revert l; induction H as [|s sizes Hs HF IH]; intros l E;
    cbn [split_sizes concat zsum foldr] in *.
  - by destruct l.
  - rewrite fmap_cons. pose proof (zsum_nonneg sizes HF). unfold zsum in *.
    destruct (IH (drop (Z.to_nat s) l)) as [E1 E2]; [rewrite length_drop; lia|].
    rewrite E1, E2, take_drop. split; [done|]. f_equal. rewrite length_take. lia.
Qed.

Definition array_split_ref (l : list Z) (n : Z) : list (list Z) :=
  split_sizes (py_repeat (zlen l `mod` n) (zlen l `div` n + 1)
               ++ py_repeat (n - zlen l `mod` n) (zlen l `div` n)) l.

Lemma array_split_ref_spec l n :
  0 < n → concat (array_split_ref l n) = l ∧
  (λ p, zlen p) <$> array_split_ref l n =
    py_repeat (zlen l `mod` n) (zlen l `div` n + 1) ++ py_repeat (n - zlen l `mod` n) (zlen l `div` n).
Proof.
  intros Hn. pose proof (Z.mod_pos_bound (zlen l) n Hn). pose proof (Z.div_mod (zlen l) n ltac:(lia)).
  pose proof (Z.div_pos (zlen l) n ltac:(lia) Hn).
  apply split_sizes_spec.
  - apply Forall_app. split; apply Forall_replicate; lia.
  - unfold py_repeat. rewrite zsum_app, !zsum_replicate. nia.
Qed.

#[program] Definition reference_numpy : NumPy := {|
  np_unique := unique_ref;
  np_array_split := array_split_ref;
  np_uint64 z := if decide (in_width 64 z) then Ok z else Err OverflowError;
  np_floordiv x y := x `div` y;
  np_mod x y := if y =? 0 then 0 else x `mod` y;
|}.
Next Obligation. apply unique_ref_elem. Qed.
Next Obligation. apply unique_ref_sorted. Qed.
Next Obligation. intros. by apply array_split_ref_spec. Qed.
Next Obligation. intros. by apply array_split_ref_spec. Qed.
Next Obligation. intros z Hz. simpl. by rewrite decide_True. Qed.
Next Obligation. intros z t. simpl. by case_decide; [intros [= <-]|]. Qed.
Next Obligation. done. Qed.
Next Obligation. intros x y _ Hy. simpl. destruct (Z.eqb_spec y 0); [lia|done]. Qed.
Next Obligation.
  intros x y Hx Hy. simpl. destruct (Z.eqb_spec y 0); [unfold in_width; lia|].
  unfold in_width in *. pose proof (Z.mod_pos_bound x y). lia.
Qed.
