(* ===== verification/Json.v ===== *)
(** JSON texts, as Python's [json] module reads and writes them.

    [json_loads] is the decoder of [json.loads] (strict mode, duplicate keys
    keep the last value); [json_dumps] is the encoder of [json.dumps] with its
    default arguments, floats as [float.__repr__] writes them.  The two are
    inverse ([loads_dumps]). *)

From S2P Require Import Prelude PyFloat PyText FloatRepr.

Unset Elimination Schemes.
Inductive json : Type :=
| JNull
| JBool (b : bool)
| JInt (z : Z)
| JFloat (f : f64)
| JStr (s : list Z)
| JList (l : list json)
| JObj (l : list (list Z * json)).
Set Elimination Schemes.

(** Induction through lists of values. *)
Fixpoint json_ind (P : json → Prop)
    (Hnull : P JNull) (Hbool : ∀ b, P (JBool b)) (Hint : ∀ z, P (JInt z)) (Hfloat : ∀ f, P (JFloat f))
    (Hstr : ∀ s, P (JStr s)) (Hlist : ∀ l, Forall P l → P (JList l))
    (Hobj : ∀ l, Forall (λ kv, P kv.2) l → P (JObj l)) (v : json) : P v :=
  let rec := json_ind P Hnull Hbool Hint Hfloat Hstr Hlist Hobj in
  match v with
  | JNull => Hnull
  | JBool b => Hbool b
  | JInt z => Hint z
  | JFloat f => Hfloat f
  | JStr s => Hstr s
  | JList l => Hlist l ((fix go l := match l return Forall P l with
                         | [] => Forall_nil_2 P
                         | x :: l => Forall_cons_2 P x l (rec x) (go l) end) l)
  | JObj l => Hobj l ((fix go l := match l return Forall (λ kv, P kv.2) l with
                       | [] => Forall_nil_2 _
                       | x :: l => Forall_cons_2 _ x l (rec x.2) (go l) end) l)
  end.

(** ** Dictionaries in insertion order *)

(** [d.get(k)]. *)
Fixpoint dict_get {A} (d : list (list Z * A)) (k : list Z) : option A :=
  match d with
  | [] => None
  | (k', v) :: d => if decide (k = k') then Some v else dict_get d k
  end.

(** [d[k] = v]. *)
Fixpoint dict_set {A} (d : list (list Z * A)) (k : list Z) (v : A) : list (list Z * A) :=
  match d with
  | [] => [(k, v)]
  | (k', v') :: d => if decide (k = k') then (k', v) :: d else (k', v') :: dict_set d k v
  end.

Lemma dict_get_set {A} (d : list (list Z * A)) k k' v :
  dict_get (dict_set d k v) k' = if decide (k' = k) then Some v else dict_get d k'.
Proof.
  induction d as [|[k0 v0] d IH]; [done|]. cbn [dict_set]. destruct (decide (k = k0)) as [->|Hne]; cbn [dict_get].
  - by destruct (decide (k' = k0)).
  - rewrite IH. destruct (decide (k' = k0)) as [->|]; [|done]. by rewrite decide_False by congruence.
Qed.

(** Without repeated keys a dictionary gives each key the value it is listed with. *)
Lemma dict_get_elem {A} (d : list (list Z * A)) k v : NoDup d.*1 → dict_get d k = Some v ↔ (k, v) ∈ d.
Proof.
  induction d as [|[k' v'] d IH]; cbn [dict_get].
  - split; [done|by intros ?%elem_of_nil].
  - rewrite fmap_cons. intros [Hk ND]%NoDup_cons. cbn [fst] in Hk. rewrite elem_of_cons. case_decide as E.
    + subst k'. split; [by intros [= ->]; left|]. intros [[= ->]|Hv]; [done|].
      destruct Hk. apply list_elem_of_fmap. by exists (k, v).
    + rewrite IH by done. split; [by right|]. intros [[= -> ->]|Hv]; done.
Qed.

(** ** Decoding *)

Definition json_ws (c : Z) : bool := (c =? 32) || (c =? 9) || (c =? 10) || (c =? 13).
Definition skip_ws (s : list Z) : list Z := drop_while json_ws s.

Definition hex_value (c : Z) : option Z :=
  if ascii_digit c then Some (c - 48)
  else if (65 <=? c) && (c <=? 70) then Some (c - 55)
  else if (97 <=? c) && (c <=? 102) then Some (c - 87) else None.

Definition hex4 (s : list Z) : option (Z * list Z) :=
  match s with
  | a :: b :: c :: d :: s =>
      match hex_value a, hex_value b, hex_value c, hex_value d with
      | Some a, Some b, Some c, Some d => Some (((a * 16 + b) * 16 + c) * 16 + d, s)
      | _, _, _, _ => None
      end
  | _ => None
  end.

Definition simple_escape (c : Z) : option Z :=
  if c =? 34 then Some 34 else if c =? 92 then Some 92 else if c =? 47 then Some 47
  else if c =? 98 then Some 8 else if c =? 102 then Some 12 else if c =? 110 then Some 10
  else if c =? 114 then Some 13 else if c =? 116 then Some 9 else None.

Definition is_high (z : Z) : bool := (0xd800 <=? z) && (z <=? 0xdbff).
Definition is_low (z : Z) : bool := (0xdc00 <=? z) && (z <=? 0xdfff).

(** One character of a string body and what follows it; the closing quote is
    [None] on the left. *)
Definition string_char (s : list Z) : option (option Z * list Z) :=
  match s with
  | [] => None
  | c :: s =>
      if c =? 34 then Some (None, s)
      else if c <? 32 then None
      else if c =? 92 then
        match s with
        | [] => None
        | e :: s =>
            if e =? 117 then
              match hex4 s with
              | None => None
              | Some (z, s) =>
                  match s with
                  | b :: w :: s' =>
                      if is_high z && (b =? 92) && (w =? 117) then
                        match hex4 s' with
                        | Some (z2, s'') =>
                            if is_low z2 then Some (Some (0x10000 + (z - 0xd800) * 1024 + (z2 - 0xdc00)), s'')
                            else Some (Some z, s)
                        | None => Some (Some z, s)
                        end
                      else Some (Some z, s)
                  | _ => Some (Some z, s)
                  end
              end
            else match simple_escape e with Some z => Some (Some z, s) | None => None end
        end
      else Some (Some c, s)
  end.

(** The characters up to the closing quote; [fuel] bounds the characters. *)
Fixpoint string_body (fuel : nat) (s : list Z) : option (list Z * list Z) :=
  match fuel with
  | O => None
  | S fuel =>
      match string_char s with
      | None => None
      | Some (None, s) => Some ([], s)
      | Some (Some c, s) =>
          match string_body fuel s with Some (w, s) => Some (c :: w, s) | None => None end
      end
  end.

(** The scanner's number syntax: an optional minus sign, the integer digits (no
    leading zero), an optional fraction and an optional exponent. *)
Definition number_frac (s : list Z) : option (list Z) * list Z :=
  match s with
  | 46 :: s' => match span ascii_digit s' with ([], _) => (None, s) | (ds, r) => (Some ds, r) end
  | _ => (None, s)
  end.

Definition number_exp (s : list Z) : option Z * list Z :=
  match s with
  | c :: s' =>
      if (c =? 101) || (c =? 69) then
        let '(neg, s'') := match s' with 45 :: r => (true, r) | 43 :: r => (false, r) | _ => (false, s') end in
        match span ascii_digit s'' with
        | ([], _) => (None, s)
        | (ds, r) => (Some (sgn_apply neg (digits_value ds)), r)
        end
      else (None, s)
  | [] => (None, s)
  end.

Definition parse_number (s : list Z) : option (json * list Z) :=
  let '(neg, s1) := match s with 45 :: r => (true, r) | _ => (false, s) end in
  let '(ds, s2) := match s1 with
                   | 48 :: r => ([48], r)
                   | _ => span ascii_digit s1
                   end in
  if decide (ds = []) then None else
  let '(frac, s3) := number_frac s2 in
  let '(ex, s4) := number_exp s3 in
  match frac, ex with
  | None, None => Some (JInt (sgn_apply neg (digits_value ds)), s2)
  | _, _ =>
      let fs := default [] frac in
      Some (JFloat (decimal_float neg (digits_value (ds ++ fs)) (default 0 ex - zlen fs)), s4)
  end.

(** [prefix w s]: what follows the keyword [w] at the head of [s]. *)
Fixpoint after (w s : list Z) : option (list Z) :=
  match w, s with
  | [], _ => Some s
  | c :: w, d :: s => if c =? d then after w s else None
  | _ :: _, [] => None
  end.

Definition keyword (s : list Z) : option (json * list Z) :=
  match after (u "null") s with Some r => Some (JNull, r) | None =>
  match after (u "true") s with Some r => Some (JBool true, r) | None =>
  match after (u "false") s with Some r => Some (JBool false, r) | None =>
  match after (u "NaN") s with Some r => Some (JFloat NaN, r) | None =>
  match after (u "Infinity") s with Some r => Some (JFloat (Inf false), r) | None =>
  match after (u "-Infinity") s with Some r => Some (JFloat (Inf true), r) | None => None
  end end end end end end.

(** The scanner; [fuel] bounds the nesting and the number of items. *)
Fixpoint parse_value (fuel : nat) (s : list Z) {struct fuel} : option (json * list Z) :=
  match fuel with
  | O => None
  | S fuel =>
      match s with
      | 34 :: s => match string_body (length s) s with Some (w, s) => Some (JStr w, s) | None => None end
      | 91 :: s =>
          let s := skip_ws s in
          match s with
          | 93 :: s => Some (JList [], s)
          | _ => match parse_elems fuel s with Some (l, s) => Some (JList l, s) | None => None end
          end
      | 123 :: s =>
          let s := skip_ws s in
          match s with
          | 125 :: s => Some (JObj [], s)
          | _ => match parse_members fuel [] s with Some (l, s) => Some (JObj l, s) | None => None end
          end
      | _ => match keyword s with Some r => Some r | None => parse_number s end
      end
  end
with parse_elems (fuel : nat) (s : list Z) {struct fuel} : option (list json * list Z) :=
  match fuel with
  | O => None
  | S fuel =>
      match parse_value fuel s with
      | None => None
      | Some (v, s) =>
          match skip_ws s with
          | 93 :: s => Some ([v], s)
          | 44 :: s =>
              match parse_elems fuel (skip_ws s) with Some (l, s) => Some (v :: l, s) | None => None end
          | _ => None
          end
      end
  end
with parse_members (fuel : nat) (acc : list (list Z * json)) (s : list Z) {struct fuel}
    : option (list (list Z * json) * list Z) :=
  match fuel with
  | O => None
  | S fuel =>
      match s with
      | 34 :: s =>
          match string_body (length s) s with
          | None => None
          | Some (k, s) =>
              match skip_ws s with
              | 58 :: s =>
                  match parse_value fuel (skip_ws s) with
                  | None => None
                  | Some (v, s) =>
                      let acc := dict_set acc k v in
                      match skip_ws s with
                      | 125 :: s => Some (acc, s)
                      | 44 :: s => parse_members fuel acc (skip_ws s)
                      | _ => None
                      end
                  end
              | _ => None
              end
          end
      | _ => None
      end
  end.

(** [json.loads(s)]; [JSONDecodeError] is a [ValueError].  Every value, item
    and key takes at least one character, so twice the length is fuel enough. *)
Definition json_loads (s : list Z) : result json :=
  match parse_value (S (2 * length s)) (skip_ws s) with
  | Some (v, r) => if decide (skip_ws r = []) then Ok v else Err ValueError
  | None => Err ValueError
  end.

(** ** Encoding *)

Definition hex_digit (d : Z) : Z := if d <? 10 then 48 + d else 87 + d.
Definition hex4_of (z : Z) : list Z :=
  [hex_digit (z `div` 4096); hex_digit (z `div` 256 `mod` 16); hex_digit (z `div` 16 `mod` 16);
   hex_digit (z `mod` 16)].

Definition escape_char (c : Z) : list Z :=
  if c =? 34 then [92; 34] else if c =? 92 then [92; 92] else if c =? 10 then [92; 110]
  else if c =? 13 then [92; 114] else if c =? 9 then [92; 116] else if c =? 12 then [92; 102]
  else if c =? 8 then [92; 98]
  else if (32 <=? c) && (c <=? 126) then [c]
  else if c <? 0x10000 then [92; 117] ++ hex4_of c
  else let v := c - 0x10000 in
       [92; 117] ++ hex4_of (0xd800 + v `div` 1024) ++ [92; 117] ++ hex4_of (0xdc00 + v `mod` 1024).

Definition dumps_str (s : list Z) : list Z := [34] ++ concat (escape_char <$> s) ++ [34].

(** The encoder's [floatstr]. *)
Definition dumps_float (f : f64) : list Z :=
  match f with
  | NaN => u "NaN"
  | Inf neg => minus_sign neg ++ u "Infinity"
  | Fin _ _ _ => float_repr f
  end.

(** [json.dumps(v)]. *)
Fixpoint json_dumps (v : json) : list Z :=
  match v with
  | JNull => u "null"
  | JFloat f => dumps_float f
  | JBool true => u "true"
  | JBool false => u "false"
  | JInt z => dec z
  | JStr s => dumps_str s
  | JList l => [91] ++ (join (u ", ") (json_dumps <$> l) ++ [93])
  | JObj l => [123] ++ join (u ", ") ((λ kv, dumps_str kv.1 ++ u ": " ++ json_dumps kv.2) <$> l) ++ [125]
  end.

(** ** The decoder inverts the encoder *)

(** Values the encoder writes back unambiguously: well-formed floats, distinct
    keys, text without surrogates. *)
Definition plain_char (c : Z) : Prop := 0 ≤ c < 0xd800 ∨ 0xdfff < c ≤ 0x10ffff.
Definition plain_text (s : list Z) : Prop := Forall plain_char s.

Fixpoint plain_json (v : json) : Prop :=
  match v with
  | JFloat f => f_wf f = true
  | JStr s => plain_text s
  | JList l => (fix go l := match l with [] => True | x :: l => plain_json x ∧ go l end) l
  | JObj l =>
      NoDup l.*1 ∧
      (fix go l := match l with [] => True | kv :: l => (plain_text kv.1 ∧ plain_json kv.2) ∧ go l end) l
  | _ => True
  end.

Lemma plain_json_list l : plain_json (JList l) ↔ Forall plain_json l.
Proof.
  induction l as [|x l IH]; [by split|]. rewrite Forall_cons. rewrite <-IH. done.
Qed.

Lemma plain_json_obj l :
  plain_json (JObj l) ↔ NoDup l.*1 ∧ Forall (λ kv, plain_text kv.1 ∧ plain_json kv.2) l.
Proof.
  cbn [plain_json]. apply and_iff_compat_l. induction l as [|x l IH]; [by split|].
  rewrite Forall_cons. rewrite <-IH. done.
Qed.

Lemma hex_value_digit d : 0 ≤ d < 16 → hex_value (hex_digit d) = Some d.
Proof.
  intros Hd. unfold hex_digit, hex_value, ascii_digit.
  repeat case_match; try lia; f_equal; lia.
Qed.

Lemma hex4_of_parse z r : 0 ≤ z < 65536 → hex4 (hex4_of z ++ r) = Some (z, r).
Proof.
  intros Hz. unfold hex4_of. cbn [app hex4].
  pose proof (Z.div_mod z 16 ltac:(lia)). pose proof (Z.mod_pos_bound z 16 ltac:(lia)).
  pose proof (Z.div_mod (z `div` 16) 16 ltac:(lia)). pose proof (Z.mod_pos_bound (z `div` 16) 16 ltac:(lia)).
  assert ((z `div` 16) `div` 16 = z `div` 256) as E1 by (by rewrite Z.div_div by lia).
  pose proof (Z.div_mod (z `div` 256) 16 ltac:(lia)). pose proof (Z.mod_pos_bound (z `div` 256) 16 ltac:(lia)).
  assert ((z `div` 256) `div` 16 = z `div` 4096) as E2 by (by rewrite Z.div_div by lia).
  rewrite E1 in *. rewrite E2 in *.
  rewrite !hex_value_digit by lia. do 2 f_equal. lia.
Qed.

(** One escaped character is read back. *)
Lemma string_char_escape c r :
  plain_char c → string_char (escape_char c ++ r) = Some (Some c, r).
Proof.
  intros Hc. unfold plain_char in Hc. unfold escape_char.
  repeat match goal with
  | |- context [?x =? ?y] => destruct (Z.eqb_spec x y) as [->|?]; [reflexivity|]
  end.
  destruct ((32 <=? c) && (c <=? 126)) eqn:E1.
  { cbn [app string_char]. rewrite (proj2 (Z.eqb_neq c 34)) by done.
    rewrite (proj2 (Z.ltb_ge c 32)) by lia. by rewrite (proj2 (Z.eqb_neq c 92)) by done. }
  destruct (Z.ltb_spec c 0x10000).
  - rewrite <-app_assoc. cbn [app string_char]. simpl (_ =? _). cbv iota.
    change (117 =? 117) with true. cbv iota. rewrite hex4_of_parse by lia.
    assert (is_high c = false) as Eh by (unfold is_high; lia). rewrite Eh.
    destruct r as [|b [|w r]]; done.
  - set (v := c - 0x10000).
    pose proof (Z.div_mod v 1024 ltac:(lia)). pose proof (Z.mod_pos_bound v 1024 ltac:(lia)).
    rewrite <-!app_assoc. cbn [app string_char]. simpl (_ =? _). cbv iota.
    change (117 =? 117) with true. cbv iota. rewrite hex4_of_parse by lia.
    assert (is_high (0xd800 + v `div` 1024) = true) as -> by (unfold is_high; lia).
    cbn [andb]. simpl (_ =? _). cbn [andb]. cbv iota. rewrite hex4_of_parse by lia.
    assert (is_low (0xdc00 + v `mod` 1024) = true) as -> by (unfold is_low; lia).
    do 3 f_equal. lia.
Qed.

Lemma string_body_escape fuel s r :
  plain_text s → (length s < fuel)%nat →
  string_body fuel (concat (escape_char <$> s) ++ 34 :: r) = Some (s, r).
Proof.
  revert fuel; induction s as [|c s IH]; intros [|fuel] Hs Hf; simpl in Hf; try lia; [done|].
  apply Forall_cons in Hs as [Hc Hs]. rewrite fmap_cons. cbn [concat]. rewrite <-app_assoc.
  cbn [string_body]. rewrite string_char_escape by done. rewrite IH; [done|done|lia].
Qed.

Lemma escape_char_length c : (1 ≤ length (escape_char c))%nat.
Proof. unfold escape_char. repeat case_match; simpl; lia. Qed.

Lemma escape_length s : (length s ≤ length (concat (escape_char <$> s)))%nat.
Proof.
  induction s as [|c s IH]; [done|]. rewrite fmap_cons. cbn [concat length]. rewrite length_app.
  pose proof (escape_char_length c). lia.
Qed.

(** A string literal, opening quote consumed. *)
Lemma string_body_dumps s r :
  plain_text s →
  let t := concat (escape_char <$> s) ++ 34 :: r in string_body (length t) t = Some (s, r).
Proof.
  intros Hs t. apply string_body_escape; [done|]. subst t. rewrite length_app. simpl.
  pose proof (escape_length s). lia.
Qed.

(** *** Numbers *)

(** What may follow a number: nothing the number would absorb. *)
Definition ends_number (r : list Z) : Prop :=
  match r with [] => True | c :: _ => ascii_digit c = false ∧ c ≠ 46 ∧ c ≠ 101 ∧ c ≠ 69 end.

Definition skip_minus (s : list Z) : bool * list Z :=
  match s with 45 :: r => (true, r) | _ => (false, s) end.

(** The integer part of a number. *)
Definition int_part (s1 : list Z) : list Z * list Z :=
  match s1 with 48 :: r => ([48], r) | _ => span ascii_digit s1 end.

Ltac case_digit Hd :=
  match type of Hd with
  | 49 ≤ ?d ≤ 57 =>
      let H := fresh in
      assert (d = 49 ∨ d = 50 ∨ d = 51 ∨ d = 52 ∨ d = 53 ∨ d = 54 ∨ d = 55 ∨ d = 56 ∨ d = 57) as H by lia;
      destruct H as [-> | [-> | [-> | [-> | [-> | [-> | [-> | [-> | ->]]]]]]]]
  end.

Lemma int_part_dec n r : 0 ≤ n → ends_number r → int_part (dec_nonneg n ++ r) = (dec_nonneg n, r).
Proof.
  intros Hn Hr. destruct (dec_nonneg_head n Hn) as [[-> ->]|(d & ds & E & Hd)]; [done|].
  rewrite <-(span_digits (dec_nonneg n) r); [|by apply dec_nonneg_digits|by destruct r; [|destruct Hr]].
  rewrite E. cbn [app]. unfold int_part. by case_digit Hd.
Qed.

Lemma parse_number_dec z r : ends_number r → parse_number (dec z ++ r) = Some (JInt z, r).
Proof.
  intros Hr.
  assert (number_frac r = (None, r)) as Ef.
  { destruct r as [|c r]; [done|]. destruct Hr as (_ & H & _). unfold number_frac.
    destruct c as [|p|p]; try done. do 6 (destruct p as [p|p|]; try done). }
  assert (number_exp r = (None, r)) as Ee.
  { destruct r as [|c r]; [done|]. destruct Hr as (_ & _ & H1 & H2). cbn.
    by rewrite (proj2 (Z.eqb_neq c 101)), (proj2 (Z.eqb_neq c 69)) by done. }
  assert (∀ n, 0 ≤ n → dec_nonneg n ≠ []) as Hne.
  { intros n Hn. destruct (dec_nonneg_head n Hn) as [[_ ->]|(? & ? & -> & _)]; done. }
  assert (∀ neg n, 0 ≤ n → skip_minus (dec z ++ r) = (neg, dec_nonneg n ++ r) →
            parse_number (dec z ++ r) = Some (JInt (sgn_apply neg n), r)) as Main.
  { intros neg n Hn Hm. unfold parse_number.
    change (match dec z ++ r with 45 :: r0 => (true, r0) | _ => (false, dec z ++ r) end)
      with (skip_minus (dec z ++ r)). rewrite Hm.
    change (match dec_nonneg n ++ r with 48 :: r0 => ([48], r0) | _ => span ascii_digit (dec_nonneg n ++ r) end)
      with (int_part (dec_nonneg n ++ r)). rewrite int_part_dec by done.
    rewrite decide_False by auto. rewrite Ef. rewrite Ee. by rewrite digits_value_dec. }
  unfold dec in *. destruct (Z.ltb_spec z 0).
  - rewrite (Main true (- z)); [|lia|done]. unfold sgn_apply. do 3 f_equal. lia.
  - rewrite (Main false z); [done|lia|]. unfold skip_minus.
    destruct (dec_nonneg_head z) as [[-> E]|(d & ds & E & Hd)]; [lia|done|].
    rewrite E. cbn [app]. by case_digit Hd.
Qed.

(** A number with a point or an exponent. *)
Lemma number_exp_ends r : ends_number r → number_exp r = (None, r).
Proof.
  destruct r as [|c r]; [done|]. intros (_ & _ & H1 & H2). cbn. by rewrite (proj2 (Z.eqb_neq c 101)), (proj2 (Z.eqb_neq c 69)) by done.
Qed.

Lemma span_digits_text ds r : Forall is_digit ds → ends_number r → span ascii_digit (ds ++ r) = (ds, r).
Proof. intros Hd Hr. apply span_digits; [done|]. destruct r; [done|]. by destruct Hr. Qed.

Lemma number_exp_text ex r :
  ends_number r → (match ex : option (bool * list Z) with Some (_, ds) => ds ≠ [] ∧ Forall is_digit ds | None => True end) →
  number_exp (match ex with Some (neg, ds) => 101 :: (if neg : bool then 45 else 43) :: ds | None => [] end ++ r) =
    ((λ _, exponent ex) <$> ex, r).
Proof.
  intros Hr. destruct ex as [[neg ds]|]; [|intros _; by apply number_exp_ends]. intros [Hne Hds]. cbn [app number_exp].
  change ((101 =? 101) || (101 =? 69)) with true. destruct neg; cbv iota beta; rewrite span_digits_text by done;
    destruct ds; done.
Qed.

Lemma number_frac_text fp r :
  Forall is_digit fp → (match r with [] => True | c :: _ => ascii_digit c = false ∧ c ≠ 46 end) →
  number_frac ((if decide (fp = []) then [] else 46 :: fp) ++ r) = (if decide (fp = []) then None else Some fp, r).
Proof.
  intros Hf Hr. case_decide as E.
  - destruct r as [|c r]; [done|]. destruct Hr as (_ & H). cbn [app]. unfold number_frac.
    destruct c as [|p|p]; try done. do 6 (destruct p as [p|p|]; try done).
  - cbn [app number_frac]. rewrite span_digits; [by destruct fp|done|]. destruct r; [done|]. by destruct Hr.
Qed.

Lemma parse_number_text neg ip fp ex r :
  number_shape ip fp ex → ends_number r →
  parse_number (minus_sign neg ++ decimal_text ip fp ex ++ r) =
    Some (JFloat (decimal_float neg (digits_value (ip ++ fp)) (exponent ex - zlen fp)), r).
Proof.
  intros [Hh Hi Hf He] Hr. set (t := decimal_text ip fp ex ++ r).
  assert (ip ≠ []) as Hne by (destruct Hh as [->|(? & ? & -> & _)]; done).
  assert (skip_minus (minus_sign neg ++ t) = (neg, t)) as Hm.
  { destruct neg; [done|]. subst t. unfold decimal_text.
    destruct Hh as [->|(d & ds & -> & Hd)]; [done|]. cbn [minus_sign app]. by case_digit Hd. }
  set (tail := match ex with Some (n, ds) => 101 :: (if n : bool then 45 else 43) :: ds | None => [] end ++ r).
  assert (match tail with [] => True | c :: _ => ascii_digit c = false ∧ c ≠ 46 end) as Ht.
  { subst tail. destruct ex as [[]|]; [done|]. destruct r; [done|]. cbn [app]. by destruct Hr as (? & ? & _). }
  assert (int_part t = (ip, (if decide (fp = []) then [] else 46 :: fp) ++ tail)) as Hip.
  { subst t. unfold decimal_text. rewrite <-!app_assoc. fold tail. destruct Hh as [->|(d & ds & -> & Hd)]; [done|].
    rewrite <-(span_digits (d :: ds) ((if decide (fp = []) then [] else 46 :: fp) ++ tail)); [cbn [app]; unfold int_part; case_digit Hd; reflexivity|done|].
    case_decide; [destruct tail; [done|by destruct Ht]|done]. }
  unfold parse_number. fold (skip_minus (minus_sign neg ++ t)). rewrite Hm. fold (int_part t). rewrite Hip.
  rewrite decide_False by done. rewrite number_frac_text by done. unfold tail.
  rewrite number_exp_text; [|done|by destruct ex as [[]|]]. case_decide as E.
  - destruct ex as [[n ds]|]; [|done]. cbn [fmap option_fmap option_map]. by rewrite E, !app_nil_r.
  - by destruct ex as [[n ds]|].
Qed.

Lemma dec_head z : ∃ c s, dec z = c :: s ∧ (c = 45 ∨ is_digit c).
Proof.
  unfold dec. destruct (Z.ltb_spec z 0); [eauto|].
  destruct (dec_nonneg_head z) as [[-> ->]|(d & ds & -> & Hd)]; [lia|..]; do 2 eexists; (split; [done|]);
    right; unfold is_digit; lia.
Qed.

(** A decimal number at the head of a value. *)
Lemma parse_value_dec fuel z r :
  ends_number r → parse_value (S fuel) (dec z ++ r) = Some (JInt z, r).
Proof.
  intros Hr. rewrite <-(parse_number_dec z r Hr). unfold dec.
  assert (∀ n, 0 ≤ n → ∃ d ds, dec_nonneg n = d :: ds ∧ (d = 48 ∨ 49 ≤ d ≤ 57)) as Hh.
  { intros n Hn. destruct (dec_nonneg_head n Hn) as [[_ ->]|(d & ds & -> & Hd)]; eauto. }
  destruct (Z.ltb_spec z 0).
  - destruct (Hh (- z)) as (d & ds & -> & [->|Hd]); [lia|done|]. by case_digit Hd.
  - destruct (Hh z) as (d & ds & -> & [->|Hd]); [lia|done|]. by case_digit Hd.
Qed.

(** A float at the head of a value. *)
Lemma parse_value_float fuel f r :
  f_wf f = true → ends_number r → parse_value (S fuel) (dumps_float f ++ r) = Some (JFloat f, r).
Proof.
  intros Hf Hr. destruct f as [s m e|[]|]; [|done..]. cbn [dumps_float f_wf] in *.
  destruct (float_repr_shape s m e Hf) as (ip & fp & ex & -> & Hs & Hd). unfold denotes in Hd. rewrite <-Hd.
  rewrite <-(parse_number_text s ip fp ex r Hs Hr). rewrite <-app_assoc.
  assert (∃ d w, decimal_text ip fp ex ++ r = d :: w ∧ (d = 48 ∨ 49 ≤ d ≤ 57)) as (d & w & -> & Hdg).
  { destruct Hs as [Hh _ _ _]. unfold decimal_text. destruct Hh as [->|(d & ds & -> & Hdd)]; cbn [app]; eauto. }
  destruct Hdg as [->|Hdd]; destruct s; cbn [minus_sign app]; try done; by case_digit Hdd.
Qed.

(** *** Values *)

(** The fuel a value needs. *)
Fixpoint need (v : json) : nat :=
  match v with
  | JList l => S (foldr (λ x n, S (Nat.max (need x) n)) O l)
  | JObj l => S (foldr (λ kv n, S (Nat.max (need kv.2) n)) O l)
  | _ => 1
  end.

Lemma skip_ws_id c w : json_ws c = false → skip_ws (c :: w) = c :: w.
Proof. unfold skip_ws. cbn [drop_while]. by intros ->. Qed.

Lemma dumps_float_head f : f_wf f = true → ∃ c w, dumps_float f = c :: w ∧ json_ws c = false ∧ c ≠ 93.
Proof.
  destruct f as [s m e|[]|]; [|by do 2 eexists; split..]. intros Hf. cbn [dumps_float].
  destruct (float_repr_shape s m e Hf) as (ip & fp & ex & -> & [Hh _ _ _] & _). unfold decimal_text.
  destruct s; [by do 2 eexists|]. cbn [minus_sign app]. destruct Hh as [->|(d & ds & -> & Hd)]; [by do 2 eexists|].
  do 2 eexists. split; [done|]. unfold json_ws. lia.
Qed.

Lemma dumps_nonempty v : json_dumps v ≠ [].
Proof.
  destruct v as [|[]|z|f|s|l|l]; cbn [json_dumps]; try done.
  - by destruct (dec_head z) as (c & s & -> & _).
  - destruct f as [s m e|[]|]; [|done..]. cbn [dumps_float float_repr]. unfold repr_layout. intros [_ E]%app_eq_nil.
    destruct (m =? 0); [done|]. destruct (repr_digits m e) as [ds p]. destruct (_ || _).
    { by apply app_eq_nil in E as [_ [_ [=]]%app_eq_nil]. }
    destruct (p <=? 0); [done|]. destruct (zlen ds <=? p).
    + by apply app_eq_nil in E as [_ [_ [=]]%app_eq_nil].
    + by apply app_eq_nil in E as [_ [=]].
Qed.

Lemma dumps_head v : plain_json v → ∃ c w, json_dumps v = c :: w ∧ json_ws c = false ∧ c ≠ 93.
Proof.
  destruct v as [|[]|z|f|s|l|l]; cbn [json_dumps]; intros Hp; try (do 2 eexists; split; [reflexivity|done]);
    [|by apply dumps_float_head].
  destruct (dec_head z) as (c & s & -> & Hd). do 2 eexists. split; [done|].
  unfold json_ws, is_digit in *. lia.
Qed.

Lemma skip_ws_value v r : plain_json v → skip_ws (json_dumps v ++ r) = json_dumps v ++ r.
Proof. intros Hp. destruct (dumps_head v Hp) as (c & w & -> & Hc & _). by apply skip_ws_id. Qed.

Lemma parse_value_list fuel c w :
  json_ws c = false → c ≠ 93 →
  parse_value (S fuel) (91 :: c :: w) =
    match parse_elems fuel (c :: w) with Some (l, s) => Some (JList l, s) | None => None end.
Proof.
  intros Hs Hc. cbn [parse_value]. rewrite skip_ws_id by done.
  destruct c as [|p|p]; try done. do 7 (destruct p as [p|p|]; try done).
Qed.

(** Encoded values inside the brackets. *)
Definition dumps_member (kv : list Z * json) : list Z := dumps_str kv.1 ++ u ": " ++ json_dumps kv.2.

Definition reads_back (v : json) : Prop :=
  ∀ fuel r, plain_json v → ends_number r → (need v ≤ fuel)%nat →
    parse_value fuel (json_dumps v ++ r) = Some (v, r).

Lemma join_cons2 sep (x y : list Z) l : join sep (x :: y :: l) = x ++ sep ++ join sep (y :: l).
Proof. done. Qed.

Lemma reads_back_elems l fuel r :
  l ≠ [] → Forall reads_back l → Forall plain_json l →
  (foldr (λ x n, S (Nat.max (need x) n)) O l ≤ fuel)%nat →
  parse_elems fuel (join (u ", ") (json_dumps <$> l) ++ 93 :: r) = Some (l, r).
Proof.
  revert fuel; induction l as [|x l IH]; intros fuel Hne Hrb Hp Hf; [done|]. clear Hne.
  apply Forall_cons in Hrb as [Hx Hrb]. apply Forall_cons in Hp as [Px Hp].
  destruct fuel as [|fuel]; cbn [foldr] in Hf; [lia|]. cbn [parse_elems].
  destruct l as [|y l].
  - cbn [fmap list_fmap join]. rewrite Hx; [|done|done|lia]. done.
  - rewrite !fmap_cons, join_cons2, <-!app_assoc. rewrite Hx; [|done|done|lia].
    change (u ", " ++ ?s) with (44 :: 32 :: s). rewrite skip_ws_id by done. cbv iota.
    change (skip_ws (32 :: ?s)) with (skip_ws s).
    rewrite <-fmap_cons.
    assert (∀ t, skip_ws (join (u ", ") (json_dumps <$> y :: l) ++ t) = join (u ", ") (json_dumps <$> y :: l) ++ t) as ->.
    { intros t. apply Forall_cons in Hp as [Hpy _]. rewrite fmap_cons. destruct l as [|z l]; [by apply skip_ws_value|].
      rewrite fmap_cons, join_cons2, <-!app_assoc. by apply skip_ws_value. }
    rewrite IH; [done|done|done|done|lia].
Qed.

Lemma dict_set_fresh {A} (d : list (list Z * A)) k v : k ∉ d.*1 → dict_set d k v = d ++ [(k, v)].
Proof.
  induction d as [|[k' v'] d IH]; intros Hk; simpl; [done|].
  rewrite fmap_cons in Hk. apply not_elem_of_cons in Hk as [Hn Hk]. rewrite decide_False by done. by rewrite IH.
Qed.

Lemma reads_back_members l acc fuel r :
  l ≠ [] → Forall (λ kv, reads_back kv.2) l →
  Forall (λ kv, plain_text kv.1 ∧ plain_json kv.2) l → NoDup (acc ++ l).*1 →
  (foldr (λ kv n, S (Nat.max (need kv.2) n)) O l ≤ fuel)%nat →
  parse_members fuel acc (join (u ", ") (dumps_member <$> l) ++ 125 :: r) = Some (acc ++ l, r).
Proof.
  revert fuel acc; induction l as [|[k v] l IH]; intros fuel acc Hne Hrb Hp ND Hf; [done|]. clear Hne.
  apply Forall_cons in Hrb as [Hx Hrb]. apply Forall_cons in Hp as [[Pk Pv] Hp]. simpl in Hx, Pk, Pv.
  destruct fuel as [|fuel]; cbn [foldr] in Hf; [lia|]. simpl in Hf.
  assert (k ∉ acc.*1) as Hk.
  { rewrite fmap_app, fmap_cons in ND. apply NoDup_app in ND as (_ & Hd & _). intros Hin.
    apply (Hd k Hin). by left. }
  assert (∀ t, ends_number t → ∃ t',
             dumps_member (k, v) ++ t = 34 :: t' ∧
             parse_members (S fuel) acc (34 :: t') =
               match skip_ws t with
               | 125 :: s => Some (acc ++ [(k, v)], s)
               | 44 :: s => parse_members fuel (acc ++ [(k, v)]) (skip_ws s)
               | _ => None
               end) as Step.
  { intros t Ht. unfold dumps_member, dumps_str. cbn [fst snd]. rewrite <-!app_assoc. cbn [app].
    eexists. split; [done|]. cbn [parse_members]. rewrite string_body_dumps by done.
    change (u ": " ++ ?s) with (58 :: 32 :: s). rewrite skip_ws_id by done. cbv iota.
    change (skip_ws (32 :: ?s)) with (skip_ws s). rewrite skip_ws_value, Hx; [|done|done|lia|done].
    by rewrite dict_set_fresh by done. }
  destruct l as [|y l].
  - cbn [fmap list_fmap join]. destruct (Step (125 :: r)) as (t' & -> & ->); done.
  - rewrite !fmap_cons, join_cons2, <-!app_assoc.
    change (u ", " ++ ?s) with (44 :: 32 :: s).
    edestruct Step as (t' & -> & ->); [done|]. rewrite skip_ws_id by done. cbv iota.
    change (skip_ws (32 :: ?s)) with (skip_ws s). rewrite <-fmap_cons.
    assert (∀ t, skip_ws (join (u ", ") (dumps_member <$> y :: l) ++ t) = join (u ", ") (dumps_member <$> y :: l) ++ t) as ->.
    { intros t. rewrite fmap_cons. destruct l; [|rewrite fmap_cons, join_cons2, <-!app_assoc]; done. }
    rewrite (IH fuel (acc ++ [(k, v)])); [by rewrite <-app_assoc|done|done|done| |lia].
    by rewrite <-app_assoc.
Qed.

Lemma parse_value_dumps v : reads_back v.
Proof.
  induction v as [|[]|z|f|s|l IH|l IH] using json_ind; intros [|fuel] r Hp Hr Hf; try (simpl in Hf; lia).
  - done.
  - done.
  - done.
  - apply parse_value_dec. done.
  - by apply parse_value_float.
  - cbn [json_dumps dumps_str app]. unfold dumps_str. rewrite <-app_assoc. cbn [app parse_value].
    by rewrite string_body_dumps.
  - apply plain_json_list in Hp. cbn [json_dumps]. rewrite <-!app_assoc. cbn [app].
    destruct l as [|x l]; [done|]. cbn [need] in Hf.
    assert (∃ c w, join (u ", ") (json_dumps <$> x :: l) ++ 93 :: r = c :: w ∧ json_ws c = false ∧ c ≠ 93)
      as (c & w & E & Hs & Hc).
    { rewrite fmap_cons. apply Forall_cons in Hp as [Hpx _]. destruct (dumps_head x Hpx) as (c & w & -> & ?).
      destruct l; [|rewrite fmap_cons, join_cons2]; simpl; eauto. }
    rewrite E, parse_value_list, <-E by done.
    rewrite reads_back_elems; [done|done|done|done|]. simpl in Hf |- *. lia.
  - apply plain_json_obj in Hp as [ND Hp]. cbn [json_dumps]. rewrite <-!app_assoc. cbn [app parse_value].
    destruct l as [|x l]; [done|]. cbn [need] in Hf. fold dumps_member.
    assert (∃ w, join (u ", ") (dumps_member <$> x :: l) ++ 125 :: r = 34 :: w) as (w & E).
    { rewrite fmap_cons. destruct l; [|rewrite fmap_cons, join_cons2]; simpl; eauto. }
    change (λ kv, dumps_str kv.1 ++ u ": " ++ json_dumps kv.2) with dumps_member.
    rewrite E, skip_ws_id by done. cbv iota. rewrite <-E.
    rewrite (reads_back_members (x :: l) []); [done|done|done|done|done|]. simpl in Hf |- *. lia.
Qed.

(** Twice the length of the text is fuel enough. *)
Lemma need_length v : (need v ≤ 2 * length (json_dumps v))%nat.
Proof.
  induction v as [|[]|z|f|s|l IH|l IH] using json_ind; cbn [need json_dumps]; try (cbn; lia).
  - destruct (dec_head z) as (c & s & -> & _). simpl. lia.
  - pose proof (dumps_nonempty (JFloat f)) as H. cbn [json_dumps] in H. destruct (dumps_float f); [done|cbn; lia].
  - cbn [app length]. rewrite length_app. simpl length at 2.
    enough (foldr (λ x n, S (Nat.max (need x) n)) O l ≤ 2 * length (join (u ", ") (json_dumps <$> l)) + 1)%nat by lia.
    induction IH as [|x l Hx _ IH]; [simpl; lia|]. rewrite fmap_cons. cbn [foldr].
    assert (1 ≤ length (json_dumps x))%nat as E by (pose proof (dumps_nonempty x); destruct (json_dumps x); [done|cbn; lia]).
    destruct l as [|y l]; [cbn [foldr fmap list_fmap join]; lia|].
    rewrite fmap_cons, join_cons2, <-fmap_cons, !length_app. change (length (u ", ")) with 2%nat. lia.
  - cbn [app length]. rewrite length_app. simpl length at 2.
    change (λ kv, dumps_str kv.1 ++ u ": " ++ json_dumps kv.2) with dumps_member.
    enough (foldr (λ kv n, S (Nat.max (need kv.2) n)) O l ≤ 2 * length (join (u ", ") (dumps_member <$> l)) + 1)%nat by lia.
    induction IH as [|x l Hx _ IH]; [simpl; lia|]. rewrite fmap_cons. cbn [foldr].
    assert (length (json_dumps x.2) + 2 ≤ length (dumps_member x))%nat as E.
    { unfold dumps_member. rewrite !length_app. change (length (u ": ")) with 2%nat. lia. }
    destruct l as [|y l]; [cbn [foldr fmap list_fmap join]; lia|].
    rewrite fmap_cons, join_cons2, <-fmap_cons, !length_app. change (length (u ", ")) with 2%nat. lia.
Qed.

(** [json.loads(json.dumps(v)) == v], with any white space after the text. *)
Lemma loads_dumps_ws v r :
  plain_json v → Forall (λ c, json_ws c = true) r → json_loads (json_dumps v ++ r) = Ok v.
Proof.
  intros Hp Hr. assert (skip_ws r = []) as Er by (unfold skip_ws; induction Hr as [|c r Hc _ IH]; simpl; [done|by rewrite Hc]).
  unfold json_loads. rewrite skip_ws_value by done. rewrite (parse_value_dumps v); [by rewrite Er|done| |].
  - destruct Hr as [|c r Hc _]; [done|]. simpl. unfold json_ws, ascii_digit in *. lia.
  - rewrite length_app. pose proof (need_length v). lia.
Qed.

Lemma loads_dumps v : plain_json v → json_loads (json_dumps v) = Ok v.
Proof. intros. rewrite <-(app_nil_r (json_dumps v)). by apply loads_dumps_ws. Qed.

(** The encoder writes printable ASCII only. *)
Definition printable (c : Z) : Prop := 32 ≤ c ≤ 126.

Lemma hex4_of_printable z : 0 ≤ z < 65536 → Forall printable (hex4_of z).
Proof.
  intros Hz. assert (∀ d, 0 ≤ d < 16 → printable (hex_digit d)) as Hd.
  { intros d Hd. unfold hex_digit, printable. case_match; lia. }
  assert (0 ≤ z `div` 4096 < 16) by (split; [by apply Z.div_pos; lia|apply Z.div_lt_upper_bound; lia]).
  unfold hex4_of. repeat constructor; apply Hd; try done; by apply Z.mod_pos_bound.
Qed.

Lemma escape_char_printable c : plain_char c → Forall printable (escape_char c).
Proof.
  intros Hc. unfold plain_char in Hc. unfold escape_char.
  repeat match goal with
  | |- context [?x =? ?y] => destruct (Z.eqb_spec x y) as [->|?]; [repeat constructor; done|]
  end.
  destruct ((32 <=? c) && (c <=? 126)) eqn:E; [repeat constructor; lia|].
  destruct (Z.ltb_spec c 0x10000); [apply Forall_app_2; [repeat constructor; done|apply hex4_of_printable; lia]|].
  assert (0 ≤ (c - 0x10000) `div` 1024 < 1024)
    by (split; [apply Z.div_pos; lia|apply Z.div_lt_upper_bound; lia]).
  pose proof (Z.mod_pos_bound (c - 0x10000) 1024 ltac:(lia)).
  cbv zeta. apply Forall_app_2; [repeat constructor; done|].
  apply Forall_app_2; [apply hex4_of_printable; lia|].
  apply Forall_app_2; [repeat constructor; done|apply hex4_of_printable; lia].
Qed.

Lemma dumps_str_printable s : plain_text s → Forall printable (dumps_str s).
Proof.
  intros Hs. unfold dumps_str. apply Forall_cons_2; [done|]. apply Forall_app_2; [|repeat constructor; done].
  apply Forall_concat, Forall_fmap. refine (Forall_impl _ _ _ Hs _). intros c. apply escape_char_printable.
Qed.

Lemma digits_printable ds : Forall is_digit ds → Forall printable ds.
Proof. intros H. refine (Forall_impl _ _ _ H _). unfold is_digit, printable. lia. Qed.

Lemma dumps_float_printable f : f_wf f = true → Forall printable (dumps_float f).
Proof.
  destruct f as [s m e|[]|]; intros Hf; [|repeat constructor; done..]. cbn [dumps_float].
  destruct (float_repr_shape s m e Hf) as (ip & fp & ex & -> & [_ Hi Hfr He] & _). unfold decimal_text.
  apply Forall_app_2; [destruct s; repeat constructor; done|]. apply Forall_app_2; [by apply digits_printable|].
  apply Forall_app_2; [case_decide; [constructor|constructor; [done|by apply digits_printable]]|].
  destruct ex as [[n ds]|]; [|constructor]. destruct He as [_ He]. constructor; [done|]. constructor; [by destruct n|]. by apply digits_printable.
Qed.

Lemma dumps_printable v : plain_json v → Forall printable (json_dumps v).
Proof.
  assert (∀ s, forallb (λ c, (32 <=? c) && (c <=? 126)) s = true → Forall printable s) as Hlit.
  { intros s H. apply Forall_forall. intros c Hc. rewrite forallb_forall in H.
    specialize (H c). rewrite list_elem_of_In in Hc. specialize (H Hc). unfold printable. lia. }
  induction v as [|[]|z|f|s|l IH|l IH] using json_ind; intros Hp; try (by apply Hlit).
  - cbn [json_dumps]. eapply Forall_impl; [apply dec_chars|].
    intros c [->|Hc]; unfold printable, is_digit in *; lia.
  - by apply dumps_float_printable.
  - by apply dumps_str_printable.
  - apply plain_json_list in Hp. cbn [json_dumps]. apply Forall_cons_2; [done|].
    apply Forall_app_2; [|repeat constructor; done]. apply join_Forall; [by apply Hlit|].
    apply Forall_fmap. rewrite Forall_forall in IH, Hp |- *. intros x Hx. simpl. auto.
  - apply plain_json_obj in Hp as [_ Hp]. cbn [json_dumps]. apply Forall_cons_2; [done|].
    apply Forall_app_2; [|repeat constructor; done]. apply join_Forall; [by apply Hlit|].
    apply Forall_fmap. rewrite Forall_forall in IH, Hp |- *. intros x Hx. cbv beta.
    destruct (Hp x Hx) as [Hk Hv]. apply Forall_app_2; [by apply dumps_str_printable|].
    apply (Forall_app_2 _ (u ": ")); [by apply Hlit|auto].
Qed.

Lemma plain_text_check s : forallb (λ c, (0 <=? c) && (c <? 0xd800)) s = true → plain_text s.
Proof.
  intros H. apply Forall_forall. intros c Hc. rewrite forallb_forall in H.
  rewrite list_elem_of_In in Hc. specialize (H c Hc). unfold plain_char. lia.
Qed.
