(* ===== verification/Argparse.v ===== *)
(** Command lines of the scripts: the part of Python's [argparse] (3.9 to 3.11)
    that their parsers use.

    A parser is the list of its [add_argument] calls, all of them options:
    [store] with a type and choices, [store_true] and [BooleanOptionalAction].
    [parse_args] classifies the words (exact options, [option=value],
    unambiguous abbreviations, negative numbers, [--]), consumes them from left
    to right and checks the required options.  In these versions the value of
    [--option=--] is dropped, and an empty list stored with neither conversion
    nor choices ([dash_dash_stores_empty_list]).  Asking for help and every error
    of a command line end the program: [SystemExit].

    [parse_spelled]: a command line that spells a list of settings, each with
    the value behind a space or an equals sign, means what the settings say.
    [accepted_canonical]: every accepted command line, abbreviations included,
    means a list of settings. *)

From S2P Require Import Prelude PyFloat PyText FloatRepr PyPath Json.

(** ** Values and their types *)

Inductive value : Type :=
| VNone
| VBool (b : bool)
| VInt (z : Z)
| VFloat (f : f64)
| VStr (s : str)
| VPath (p : path)
| VEmptyList.                    (* what [--option=--] stores *)

#[export] Instance value_eq_dec : EqDecision value.
Proof. solve_decision. Defined.

Inductive arg_type : Type := TInt | TFloat | TStr | TPath.

#[export] Instance arg_type_eq_dec : EqDecision arg_type.
Proof. solve_decision. Defined.

(** *** [float(s)] *)

(** Underscores, allowed between two digits only, are dropped. *)
Fixpoint drop_underscores (after_digit : bool) (s : str) : option str :=
  match s with
  | [] => Some []
  | c :: s' =>
      if c =? 95 then
        if after_digit && match s' with d :: _ => ascii_digit d | [] => false end
        then drop_underscores false s' else None
      else cons c <$> drop_underscores (ascii_digit c) s'
  end.

Definition unsigned_float (neg : bool) (s : str) : option f64 :=
  if decide (lower s = u "inf") then Some (Inf neg)
  else if decide (lower s = u "infinity") then Some (Inf neg)
  else if decide (lower s = u "nan") then Some NaN
  else
    let '(ds, s1) := span ascii_digit s in
    let '(fs, s2) := match s1 with 46 :: r => span ascii_digit r | _ => ([], s1) end in
    if decide (ds ++ fs = []) then None else
    match number_exp s2 with
    | (ex, []) => Some (decimal_float neg (digits_value (ds ++ fs)) (default 0 ex - zlen fs))
    | _ => None
    end.

Definition py_float (s : str) : result f64 :=
  of_option ValueError
    (s ← drop_underscores false ((λ c, match digit_value c with Some d => 48 + d | None => c end) <$> strip_by is_space_int s);
     match s with
     | 45 :: s' => unsigned_float true s'
     | 43 :: s' => unsigned_float false s'
     | _ => unsigned_float false s
     end).

Lemma py_float_wf s f : py_float s = Ok f → f_wf f = true.
Proof.
  assert (∀ neg s f, unsigned_float neg s = Some f → f_wf f = true) as Hu.
  { clear. intros neg s f. unfold unsigned_float. repeat (case_decide; [by intros [= <-]|]).
    pose proof (span_digit s) as Hds. destruct (span ascii_digit s) as [ds s1]. cbn [fst] in Hds.
    assert (Forall is_digit (match s1 with 46 :: r => span ascii_digit r | _ => ([], s1) end).1) as Hfs
      by (repeat case_match; first [apply span_digit|constructor]).
    destruct (match s1 with 46 :: r => span ascii_digit r | _ => ([], s1) end) as [fs s2]. cbn [fst] in Hfs.
    case_decide; [done|]. destruct (number_exp s2) as [ex [|]]; [|done]. intros [= <-].
    apply decimal_float_wf. by apply Forall_app_2. }
  unfold py_float. destruct (drop_underscores _ _) as [t|]; [|done]. cbn [mbind option_bind]. intros E.
  unfold of_option in E. repeat case_match; simplify_eq; by eapply Hu.
Qed.

Example py_float_examples :
  py_float (u " 0.25 ") = Ok (lit 1 4) ∧ py_float (u "-1_0e-1") = Ok (lit (-1) 1) ∧
  py_float (u "1.") = Ok f_one ∧ py_float (u "-Infinity") = Ok (Inf true) ∧
  py_float (u "1__0") = Err ValueError ∧ py_float (u ".") = Err ValueError ∧ py_float (u "1e") = Err ValueError.
Proof. by vm_compute. Qed.

(** [type(s)]. *)
Definition convert_arg (t : arg_type) (s : str) : result value :=
  match t with
  | TInt => VInt <$> py_int s
  | TFloat => VFloat <$> py_float s
  | TStr => Ok (VStr s)
  | TPath => Ok (VPath (path_of s))
  end.

(** ** Parsers *)

Inductive action : Type :=
| Store (type : arg_type) (choices : option (list value))
| StoreTrue
| BooleanOptional.

(** One [add_argument(option_string, ...)]. *)
Record argument := { option_string : str; act : action; required : bool; default_value : value }.

#[export] Instance action_eq_dec : EqDecision action.
Proof. solve_decision. Defined.
#[export] Instance argument_eq_dec : EqDecision argument.
Proof. solve_decision. Defined.

Abbreviation parser := (list argument).
Abbreviation namespace := (list (str * value)).

(** The attribute an option sets: [--dtype-size] sets [dtype_size]. *)
Definition dest (a : argument) : str :=
  (λ c, if c =? 45 then 95 else c) <$> drop_while (Z.eqb 45) (option_string a).

(** [--no-x], the negation of [--x]. *)
Definition negated (a : argument) : str := u "--no-" ++ drop 2 (option_string a).
Definition option_strings (a : argument) : list str :=
  option_string a :: match act a with BooleanOptional => [negated a] | _ => [] end.

(** [_option_string_actions]; [None] is the action that prints the help. *)
Definition option_table (p : parser) : list (str * option argument) :=
  [(u "-h", None); (u "--help", None)] ++ mjoin ((λ a, (λ o, (o, Some a)) <$> option_strings a) <$> p).

Definition defaults (p : parser) : namespace :=
  foldl (λ ns a, dict_set ns (dest a) (default_value a)) [] p.

(** The shapes of the calls: an optional value with its default, among choices,
    a required value, a switch. *)
Definition opt (o : string) (t : arg_type) (d : value) : argument :=
  {| option_string := u o; act := Store t None; required := false; default_value := d |}.
Definition opt_in (o : string) (t : arg_type) (choices : list value) (d : value) : argument :=
  {| option_string := u o; act := Store t (Some choices); required := false; default_value := d |}.
Definition req (o : string) (t : arg_type) : argument :=
  {| option_string := u o; act := Store t None; required := true; default_value := VNone |}.
Definition flag (o : string) : argument :=
  {| option_string := u o; act := StoreTrue; required := false; default_value := VBool false |}.
Definition toggle (o : string) (d : bool) : argument :=
  {| option_string := u o; act := BooleanOptional; required := false; default_value := VBool d |}.

(** ** Words of a command line *)

Inductive token : Type :=
| Positional (w : str)
| Optional (o : str) (a : option argument) (explicit : option str)
| Unknown
| DashDash.

Definition starts_with (w s : str) : bool := match after w s with Some _ => true | None => false end.

(** [s.split("=", 1)] when there is one. *)
Fixpoint split_eq (s : str) : option (str * str) :=
  match s with
  | [] => None
  | c :: s' => if c =? 61 then Some ([], s') else (λ kv, (c :: kv.1, kv.2)) <$> split_eq s'
  end.

(** [^-\d+$|^-\d*\.\d+$]; [$] also matches before a final line feed. *)
Definition negative_number (s : str) : bool :=
  match s with
  | 45 :: r =>
      let is_d c := match digit_value c with Some _ => true | None => false end in
      let at_end t := bool_decide (t = []) || bool_decide (t = [10]) in
      let '(ds, t) := span is_d r in
      (negb (bool_decide (ds = [])) && at_end t) ||
      match t with
      | 46 :: t => let '(fs, t) := span is_d t in negb (bool_decide (fs = [])) && at_end t
      | _ => false
      end
  | _ => false
  end.

(** [_get_option_tuples]: the options a word may abbreviate.  One dash: the
    word is a single-letter option with its value attached, or a prefix. *)
Definition option_tuples (p : parser) (w : str) : list token :=
  match w with
  | 45 :: 45 :: _ =>
      let '(prefix, explicit) := match split_eq w with Some (k, v) => (k, Some v) | None => (w, None) end in
      (λ oa : str * option argument, Optional oa.1 oa.2 explicit) <$>
        List.filter (λ oa : str * option argument, starts_with prefix oa.1) (option_table p)
  | _ =>
      mjoin ((λ oa : str * option argument,
                if decide (oa.1 = take 2 w) then [Optional oa.1 oa.2 (Some (drop 2 w))]
                else if starts_with w oa.1 then [Optional oa.1 oa.2 None] else []) <$> option_table p)
  end.

(** [_parse_optional]. *)
Definition parse_optional (p : parser) (w : str) : result token :=
  match w with
  | 45 :: rest =>
      match dict_get (option_table p) w with
      | Some a => Ok (Optional w a None)
      | None =>
          if decide (rest = []) then Ok (Positional w) else
          match (kv ← split_eq w; a ← dict_get (option_table p) kv.1; Some (Optional kv.1 a (Some kv.2))) with
          | Some t => Ok t
          | None =>
              match option_tuples p w with
              | [t] => Ok t
              | _ :: _ :: _ => Err SystemExit
              | [] => if negative_number w then Ok (Positional w)
                      else if contains_char 32 w then Ok (Positional w) else Ok Unknown
              end
          end
      end
  | _ => Ok (Positional w)
  end.

(** Behind [--] every word is positional. *)
Fixpoint tokenize (p : parser) (argv : list str) : result (list token) :=
  match argv with
  | [] => Ok []
  | w :: argv =>
      if decide (w = u "--") then Ok (DashDash :: (Positional <$> argv))
      else t ← parse_optional p w; ts ← tokenize p argv; Ok (t :: ts)
  end.

(** ** Parsing *)

(** [_get_values] and [_check_value] for the word given to an option.  The word
    [--] is removed first: nothing is left to convert or check, and the option
    is given an empty list. *)
Definition get_value (t : arg_type) (choices : option (list value)) (s : str) : result value :=
  if decide (s = u "--") then Ok VEmptyList else
  match convert_arg t s with
  | Err _ => Err SystemExit
  | Ok v => if default true ((λ l, bool_decide (v ∈ l)) <$> choices) then Ok v else Err SystemExit
  end.

(** The loop of [_parse_known_args]: the namespace, and the attributes set so
    far.  A word that no option takes is reported as unrecognized at the end. *)
Fixpoint consume (ts : list token) (ns : namespace) (seen : list str) : result (namespace * list str) :=
  match ts with
  | [] => Ok (ns, seen)
  | Optional o (Some a) explicit :: ts =>
      let set ts v := consume ts (dict_set ns (dest a) v) (dest a :: seen) in
      match act a, explicit, ts with
      | Store t choices, Some s, _ => v ← get_value t choices s; set ts v
      | Store t choices, None, Positional s :: ts => v ← get_value t choices s; set ts v
      | StoreTrue, None, _ => set ts (VBool true)
      | BooleanOptional, None, _ => set ts (VBool (negb (starts_with (u "--no-") o)))
      | _, _, _ => Err SystemExit
      end
  | _ => Err SystemExit
  end.

Definition all_required (p : parser) (seen : list str) : bool :=
  forallb (λ a, negb (required a) || bool_decide (dest a ∈ seen)) p.

Definition parse_args (p : parser) (argv : list str) : result namespace :=
  ts ← tokenize p argv;
  '(ns, seen) ← consume ts (defaults p) [];
  if all_required p seen then Ok ns else Err SystemExit.

(** ** What a command line says *)

(** An option given a text, or switched. *)
Inductive setting : Type :=
| Given (a : argument) (s : str)
| Switch (a : argument) (b : bool).

Definition setting_arg (st : setting) : argument := match st with Given a _ | Switch a _ => a end.

Definition setting_value (st : setting) : result value :=
  match st with
  | Given a s => match act a with Store t choices => get_value t choices s | _ => Err SystemExit end
  | Switch a b =>
      match act a, b with
      | StoreTrue, true => Ok (VBool true)
      | BooleanOptional, b => Ok (VBool b)
      | _, _ => Err SystemExit
      end
  end.

Definition apply_setting (ns : namespace) (st : setting) : result namespace :=
  v ← setting_value st; Ok (dict_set ns (dest (setting_arg st)) v).

(** The settings in order, over the defaults, the required options among them. *)
Definition run_settings (p : parser) (ss : list setting) : result namespace :=
  ns ← foldM apply_setting (defaults p) ss;
  if all_required p (dest ∘ setting_arg <$> ss) then Ok ns else Err SystemExit.

(** A word that is the value of the option before it. *)
Definition plain_word (p : parser) (w : str) : Prop := w ≠ u "--" ∧ parse_optional p w = Ok (Positional w).

(** The ways to write a setting. *)
Inductive spells (p : parser) : setting → list str → Prop :=
| spells_joined a t choices s :
    a ∈ p → act a = Store t choices → spells p (Given a s) [option_string a ++ u "=" ++ s]
| spells_spaced a t choices s :
    a ∈ p → act a = Store t choices → plain_word p s → spells p (Given a s) [option_string a; s]
| spells_on a :
    a ∈ p → act a = StoreTrue ∨ act a = BooleanOptional → spells p (Switch a true) [option_string a]
| spells_off a :
    a ∈ p → act a = BooleanOptional → spells p (Switch a false) [negated a].

(** The parsers meant: long options, none a negation unless it is one, no
    two options or attributes of the same name, and no empty list by default. *)
Definition good_option (o : str) : bool :=
  starts_with (u "--") o && negb (bool_decide (o = u "--")) && negb (contains_char 61 o).
Definition good_argument (a : argument) : bool :=
  good_option (option_string a) &&
  match act a with BooleanOptional => good_option (negated a) && negb (starts_with (u "--no-") (option_string a)) | _ => true end.
Definition parser_ok (p : parser) : bool :=
  forallb good_argument p && bool_decide (NoDup (option_table p).*1) && bool_decide (NoDup (dest <$> p)) &&
  forallb (λ a, negb (bool_decide (default_value a = VEmptyList))) p.

(** ** Lemmas: words *)

Lemma after_app w s r : after w s = Some r ↔ s = w ++ r.
Proof.
  revert s. induction w as [|c w IH]; intros s; cbn [after app]; [split; [by intros [= ->]|by intros ->]|].
  destruct s as [|d s]; [done|]. destruct (Z.eqb_spec c d) as [->|Hn].
  - rewrite IH. split; [by intros ->|by intros [= ->]].
  - split; [done|]. by intros [= -> _].
Qed.

Lemma starts_with_spec w s : starts_with w s = true ↔ ∃ r, s = w ++ r.
Proof.
  unfold starts_with. destruct (after w s) as [r|] eqn:E.
  - split; [intros _; exists r; by apply after_app|done].
  - split; [done|]. intros [r Hr]. apply after_app in Hr. congruence.
Qed.

Lemma split_eq_app o s : contains_char 61 o = false → split_eq (o ++ u "=" ++ s) = Some (o, s).
Proof.
  induction o as [|c o IH]; cbn [app split_eq]; [done|]. intros H. change (u "=" ++ s) with (61 :: s) in *.
  assert (c ≠ 61 ∧ contains_char 61 o = false) as [Hc Ho].
  { unfold contains_char in *. cbn [existsb] in H. apply orb_false_iff in H as [H1 H2]. split; [lia|done]. }
  destruct (Z.eqb_spec c 61); [done|]. by rewrite IH.
Qed.

Lemma good_option_dashes o : good_option o = true → ∃ c r, o = 45 :: 45 :: c :: r ∧ contains_char 61 o = false.
Proof.
  unfold good_option. intros [[H1 H2]%andb_true_iff H3%negb_true_iff]%andb_true_iff.
  apply starts_with_spec in H1 as [r ->]. destruct r as [|c r].
  - by vm_compute in H2.
  - exists c, r. split; [done|done].
Qed.

Section Parser.
Variable p : parser.
Hypothesis ok : parser_ok p = true.

Lemma parser_ok_spec : Forall (λ a, good_argument a = true) p ∧ NoDup (option_table p).*1 ∧ NoDup (dest <$> p).
Proof.
  unfold parser_ok in ok. apply andb_true_iff in ok as [[[H1 H2]%andb_true_iff H3]%andb_true_iff _].
  split_and!; [|by apply bool_decide_eq_true in H2|by apply bool_decide_eq_true in H3].
  apply Forall_forall. intros a Ha. apply list_elem_of_In in Ha. by apply (proj1 (forallb_forall _ _) H1).
Qed.

Lemma option_table_elem a o : a ∈ p → o ∈ option_strings a → dict_get (option_table p) o = Some (Some a).
Proof.
  intros Ha Ho. destruct parser_ok_spec as (_ & ND & _). apply dict_get_elem; [done|].
  unfold option_table. apply elem_of_app. right. apply list_elem_of_join. exists ((λ o, (o, Some a)) <$> option_strings a).
  split; apply list_elem_of_fmap; eauto.
Qed.

Lemma option_table_inv o a : dict_get (option_table p) o = Some (Some a) → a ∈ p ∧ o ∈ option_strings a.
Proof.
  destruct parser_ok_spec as (_ & ND & _). intros H%dict_get_elem; [|done]. unfold option_table in H.
  apply elem_of_app in H as [H|H].
  - apply elem_of_cons in H as [[=]|H]. apply list_elem_of_singleton in H as [=].
  - apply list_elem_of_join in H as (l & Hl & HL). apply list_elem_of_fmap in HL as (a' & -> & Ha').
    apply list_elem_of_fmap in Hl as (o' & [= -> ->] & Ho'). done.
Qed.

(** Every option string of the parser begins with a dash and has no [=]. *)
Lemma option_strings_good a o : a ∈ p → o ∈ option_strings a → good_option o = true.
Proof.
  intros Ha Ho. destruct parser_ok_spec as (HF & _). apply (Forall_forall _ _) with (x := a) in HF; [|done].
  unfold good_argument in HF. apply andb_true_iff in HF as [H1 H2]. unfold option_strings in Ho.
  apply elem_of_cons in Ho as [->|Ho]; [done|]. destruct (act a); try by apply elem_of_nil in Ho.
  apply list_elem_of_singleton in Ho as ->. by apply andb_true_iff in H2 as [? _].
Qed.

Lemma option_of_table o v : dict_get (option_table p) o = Some v → contains_char 61 o = false.
Proof.
  intros H. destruct v as [a|].
  - apply option_table_inv in H as [Ha Ho].
    by destruct (good_option_dashes o (option_strings_good a o Ha Ho)) as (? & ? & _ & ?).
  - destruct parser_ok_spec as (_ & ND & _). apply dict_get_elem in H; [|done]. unfold option_table in H.
    apply elem_of_app in H as [H|H].
    + apply elem_of_cons in H as [[= ->]|H]; [done|]. by apply list_elem_of_singleton in H as [= ->].
    + apply list_elem_of_join in H as (l & Hl & HL). apply list_elem_of_fmap in HL as (a' & -> & Ha').
      by apply list_elem_of_fmap in Hl as (o' & [=] & Ho').
Qed.

Lemma parse_exact a o : a ∈ p → o ∈ option_strings a → o ≠ u "--" ∧ parse_optional p o = Ok (Optional o (Some a) None).
Proof.
  intros Ha Ho. destruct (good_option_dashes o (option_strings_good a o Ha Ho)) as (c & r & E & _).
  pose proof (option_table_elem a o Ha Ho) as Et. split; [by rewrite E|]. rewrite E in *. unfold parse_optional. by rewrite Et.
Qed.

Lemma parse_joined a s (o := option_string a) (w := o ++ u "=" ++ s) :
  a ∈ p → w ≠ u "--" ∧ parse_optional p w = Ok (Optional o (Some a) (Some s)).
Proof.
  intros Ha. assert (o ∈ option_strings a) as Ho by left. pose proof (option_table_elem a o Ha Ho) as Et.
  destruct (good_option_dashes o (option_strings_good a o Ha Ho)) as (c & r & E & Hc).
  assert (dict_get (option_table p) w = None) as Ew.
  { destruct (dict_get (option_table p) w) as [v|] eqn:H; [|done]. apply option_of_table in H.
    assert (contains_char 61 w = true) by (apply contains_char_spec; unfold w; set_solver). congruence. }
  pose proof (split_eq_app o s Hc) as Es. fold w in Es.
  assert (w = 45 :: 45 :: c :: r ++ u "=" ++ s) as E' by (unfold w; by rewrite E). split; [by rewrite E'|].
  rewrite E' in *. unfold parse_optional. rewrite Ew. rewrite decide_False by done. rewrite Es.
  cbn [mbind option_bind fst snd]. by rewrite Et.
Qed.

(** ** Lemmas: settings *)

(** The words of a setting are classified one by one, and the loop takes them
    as the setting says, whatever follows. *)
Lemma spells_tokens st ws :
  spells p st ws →
  ∃ ts, Forall2 (λ w t, w ≠ u "--" ∧ parse_optional p w = Ok t) ws ts ∧
    ∀ rest ns seen, consume (ts ++ rest) ns seen =
      (v ← setting_value st;
       consume rest (dict_set ns (dest (setting_arg st)) v) (dest (setting_arg st) :: seen)).
Proof.
  destruct 1 as [a t ch s Ha Ht|a t ch s Ha Ht Hs|a Ha Ht|a Ha Ht].
  - exists [Optional (option_string a) (Some a) (Some s)]. split.
    + constructor; [by apply parse_joined|constructor].
    + intros. cbn [app consume setting_value setting_arg]. by rewrite Ht.
  - exists [Optional (option_string a) (Some a) None; Positional s]. split.
    + constructor; [apply parse_exact; [done|by left]|]. constructor; [done|constructor].
    + intros. cbn [app consume setting_value setting_arg]. by rewrite Ht.
  - exists [Optional (option_string a) (Some a) None]. split.
    + constructor; [apply parse_exact; [done|by left]|constructor].
    + intros. cbn [app consume setting_value setting_arg]. destruct Ht as [Ht|Ht]; rewrite Ht; [done|].
      destruct (parser_ok_spec) as (HF & _). apply (Forall_forall _ _) with (x := a) in HF; [|done].
      unfold good_argument in HF. rewrite Ht in HF.
      apply andb_true_iff in HF as [_ [_ ->]%andb_true_iff]. done.
  - exists [Optional (negated a) (Some a) None]. split.
    + constructor; [|constructor]. apply parse_exact; [done|]. unfold option_strings. rewrite Ht. right. by left.
    + intros. cbn [app consume setting_value setting_arg]. rewrite Ht.
      assert (starts_with (u "--no-") (negated a) = true) as -> by (apply starts_with_spec; unfold negated; eauto). done.
Qed.

Lemma tokenize_words ws ts argv :
  Forall2 (λ w t, w ≠ u "--" ∧ parse_optional p w = Ok t) ws ts →
  tokenize p (ws ++ argv) = (ts' ← tokenize p argv; Ok (ts ++ ts')).
Proof.
  induction 1 as [|w t ws ts [Hw Ht] _ IH]; cbn [app tokenize]; [by destruct (tokenize p argv)|].
  rewrite decide_False by done. rewrite Ht, IH. cbn [mbind result_bind]. by destruct (tokenize p argv).
Qed.

Lemma consume_settings ss wss :
  Forall2 (spells p) ss wss →
  ∃ ts, tokenize p (concat wss) = Ok ts ∧
    ∀ ns seen, consume ts ns seen =
      (ns' ← foldM apply_setting ns ss; Ok (ns', rev (dest ∘ setting_arg <$> ss) ++ seen)).
Proof.
  induction 1 as [|st ws ss wss Hst _ (ts & Et & IH)]; [by exists []|]. cbn [concat].
  destruct (spells_tokens st ws Hst) as (ts1 & Ht1 & Hc). exists (ts1 ++ ts). split.
  - by rewrite (tokenize_words ws ts1 _ Ht1), Et.
  - intros ns seen. rewrite Hc. cbn [foldM].
    change (apply_setting ns st) with (v ← setting_value st; Ok (dict_set ns (dest (setting_arg st)) v)).
    destruct (setting_value st) as [v|e]; [|done]. cbn [mbind result_bind]. rewrite IH.
    rewrite fmap_cons. cbn [rev compose]. by rewrite <-app_assoc.
Qed.
(** *** Plain words *)

Lemma plain_no_dash w : (∀ r, w ≠ 45 :: r) → plain_word p w.
Proof.
  intros Hw. split; [intros ->; by eapply Hw|]. unfold parse_optional. destruct w as [|c r]; [done|].
  destruct (decide (c = 45)) as [->|Hc]; [by destruct (Hw r)|]. repeat (case_match; try congruence).
Qed.

Lemma option_table_shape o a : (o, a) ∈ option_table p → o = [45; 104] ∨ ∃ c r, o = 45 :: 45 :: c :: r.
Proof.
  unfold option_table. rewrite elem_of_app, !elem_of_cons. intros [[[= -> ->]|[[= -> ->]|H]]|H].
  - by left.
  - right. eexists _, _. reflexivity.
  - by apply elem_of_nil in H.
  - right. apply list_elem_of_join in H as (l & Hl & HL). apply list_elem_of_fmap in HL as (a' & -> & Ha').
    apply list_elem_of_fmap in Hl as (o' & [= -> ->] & Ho').
    destruct (good_option_dashes o' (option_strings_good a' o' Ha' Ho')) as (c & r & -> & _). eauto.
Qed.

Lemma split_eq_none w : Forall (λ c, c ≠ 61) w → split_eq w = None.
Proof.
  induction 1 as [|c w Hc _ IH]; [done|]. cbn [split_eq]. destruct (Z.eqb_spec c 61); [done|]. by rewrite IH.
Qed.

(** A dash and a digit begin no option. *)
Lemma dash_digit_no_option d r : is_digit d → option_tuples p (45 :: d :: r) = [] ∧ dict_get (option_table p) (45 :: d :: r) = None.
Proof.
  intros Hd. unfold is_digit in Hd. split.
  - unfold option_tuples.
    assert (∀ T, mjoin ((λ oa : str * option argument,
                if decide (oa.1 = take 2 (45 :: d :: r)) then [Optional oa.1 oa.2 (Some (drop 2 (45 :: d :: r)))]
                else if starts_with (45 :: d :: r) oa.1 then [Optional oa.1 oa.2 None] else []) <$> T) = [] ∨
              ∃ o a, (o, a) ∈ T ∧ ¬ (o = [45; 104] ∨ ∃ c r, o = 45 :: 45 :: c :: r)) as Hall.
    { induction T as [|[o a] T IH]; [by left|]. destruct IH as [IH|(o' & a' & H1 & H2)]; [|right; exists o', a'; split; [by right|done]].
      rewrite fmap_cons. cbn [mjoin list_join fst snd]. case_decide as E.
      { right. exists o, a. split; [by left|]. rewrite E. intros [[= ->]|(? & ? & [=])]; lia. }
      destruct (starts_with _ o) eqn:Es; [|by left]. apply starts_with_spec in Es as [x ->].
      right. eexists _, a. split; [by left|]. intros [[=]|(? & ? & [=])]; lia. }
    destruct (Hall (option_table p)) as [H|(o & a & Hi & Hn)]; [|by destruct (Hn (option_table_shape o a Hi))].
    destruct (decide (d = 45)) as [->|Hne]; [lia|]. repeat (case_match; try congruence; try exact H); simplify_eq.
  - destruct (dict_get _ _) as [a|] eqn:E; [|done]. destruct parser_ok_spec as (_ & ND & _).
    apply dict_get_elem in E; [|done]. apply option_table_shape in E as [[= ->]|(? & ? & [=])]; lia.
Qed.

Lemma span_all P (s : list Z) : Forall (λ c, P c = true) s → span P s = (s, []).
Proof. induction 1 as [|c s Hc _ IH]; [done|]. cbn [span]. by rewrite Hc, IH. Qed.

(** An integer is a plain word, negative or not. *)
Lemma plain_dec z : plain_word p (dec z).
Proof.
  destruct (dec_head z) as (c & s & E & [->|Hd]).
  2: { apply plain_no_dash. intros r. rewrite E. intros [= -> _]. unfold is_digit in Hd. lia. }
  assert (z < 0) as Hz.
  { unfold dec in E. destruct (Z.ltb_spec z 0) as [|H]; [done|]. pose proof (dec_nonneg_digits z) as HF.
    rewrite E in HF. specialize (HF H). apply Forall_inv in HF. unfold is_digit in HF. lia. }
  assert (s = dec_nonneg (- z)) as -> by (unfold dec in E; destruct (Z.ltb_spec z 0); [congruence|lia]).
  pose proof (dec_nonneg_digits (- z) ltac:(lia)) as HF. rewrite E.
  assert (∃ d r, dec_nonneg (- z) = d :: r) as (d & r & Er)
    by (destruct (dec_nonneg_head (- z) ltac:(lia)) as [[_ ->]|(? & ? & -> & _)]; eauto). rewrite Er in *.
  pose proof (Forall_inv HF) as Hd. split; [intros [= -> _]; unfold is_digit in Hd; lia|].
  destruct (dash_digit_no_option d r Hd) as [Ht Eg]. unfold parse_optional. rewrite Eg, decide_False by done.
  rewrite split_eq_none. 2: { constructor; [done|]. eapply Forall_impl; [exact HF|]. unfold is_digit. lia. }
  cbn [mbind option_bind]. rewrite Ht.
  assert (negative_number (45 :: d :: r) = true) as ->; [|done].
  unfold negative_number. rewrite span_all; [done|]. eapply Forall_impl; [exact HF|].
  intros x Hx. cbv beta. unfold is_digit in Hx. replace x with (48 + (x - 48)) by lia. by rewrite digit_value_ascii by lia.
Qed.
End Parser.

Lemma all_required_ext p seen seen' : (∀ k, k ∈ seen ↔ k ∈ seen') → all_required p seen = all_required p seen'.
Proof.
  intros H. unfold all_required. induction p as [|a p IH]; [done|]. cbn [forallb]. rewrite IH. f_equal. f_equal.
  by apply bool_decide_ext.
Qed.

(** Any option with a value, a required one too, accepts [--option=--]: it is
    given an empty list, whatever its type and choices. *)
Lemma dash_dash_stores_empty_list p a t choices :
  parser_ok p = true → a ∈ p → act a = Store t choices → forallb (λ b, negb (required b) || bool_decide (b = a)) p = true →
  parse_args p [option_string a ++ u "=--"] = Ok (dict_set (defaults p) (dest a) VEmptyList).
Proof.
  intros ok Ha Ht Hr.
  change [option_string a ++ u "=--"] with (concat [[option_string a ++ u "=" ++ u "--"]]).
  destruct (consume_settings p ok [Given a (u "--")] [[option_string a ++ u "=" ++ u "--"]]) as (ts & Et & Hc).
  { constructor; [by eapply spells_joined|constructor]. }
  unfold parse_args. rewrite Et. cbn [mbind result_bind]. rewrite Hc. cbn [foldM]. unfold apply_setting.
  cbn [setting_value setting_arg]. rewrite Ht. cbn [get_value]. unfold get_value. rewrite decide_True by done.
  cbn [mbind result_bind rev fmap list_fmap app compose setting_arg].
  assert (all_required p [dest a] = true) as ->; [|done].
  unfold all_required. apply forallb_forall. intros b Hb. apply (proj1 (forallb_forall _ _) Hr) in Hb.
  apply orb_true_iff in Hb as [->| ->%bool_decide_eq_true]; [done|]. apply orb_true_iff. right.
  apply bool_decide_eq_true. by left.
Qed.

(** A command line means its settings. For a parser of long options with
    distinct names, words that spell a list of settings — [--option value] with
    a word that is not itself taken for an option, [--option=value] with any
    text, a switch or its negation — are parsed to the namespace that the
    settings give, applied in order over the defaults; a value that does not
    convert or is not a choice, and a required option left out, end the program. *)
Lemma parse_spelled p ss wss :
  parser_ok p = true → Forall2 (spells p) ss wss → parse_args p (concat wss) = run_settings p ss.
Proof.
  intros ok H. destruct (consume_settings p ok ss wss H) as (ts & Et & Hc). unfold parse_args, run_settings.
  rewrite Et. cbn [mbind result_bind]. rewrite Hc.
  destruct (foldM apply_setting (defaults p) ss) as [ns|e]; [|done]. cbn [mbind result_bind].
  rewrite (all_required_ext p _ (dest ∘ setting_arg <$> ss)); [done|]. intros k.
  by rewrite app_nil_r, !list_elem_of_In, <-in_rev.
Qed.

(** ** Every accepted command line *)

(** A setting that the parser has an option for, and how to write it. *)
Definition setting_of (p : parser) (st : setting) : Prop := ∃ ws, spells p st ws.

Definition token_of (p : parser) (t : token) : Prop :=
  match t with Optional o (Some a) _ => a ∈ p ∧ o ∈ option_strings a | _ => True end.

Section Accepted.
Variable p : parser.
Hypothesis ok : parser_ok p = true.

Lemma table_token o a explicit : (o, a) ∈ option_table p → token_of p (Optional o a explicit).
Proof.
  destruct a as [a|]; [|done]. intros H. destruct (parser_ok_spec p ok) as (_ & ND & _).
  apply (option_table_inv p ok). by apply dict_get_elem.
Qed.

Lemma option_tuples_token w : Forall (token_of p) (option_tuples p w).
Proof.
  assert (∀ k e, Forall (token_of p) ((λ oa : str * option argument, Optional oa.1 oa.2 e) <$>
            List.filter (λ oa : str * option argument, starts_with k oa.1) (option_table p))) as Hlong.
  { intros k e. apply Forall_fmap, Forall_forall. intros [o a] Hx%list_elem_of_In%filter_In. destruct Hx as [Hx _].
    by apply table_token, list_elem_of_In. }
  assert (Forall (token_of p) (mjoin ((λ oa : str * option argument,
            if decide (oa.1 = take 2 w) then [Optional oa.1 oa.2 (Some (drop 2 w))]
            else if starts_with w oa.1 then [Optional oa.1 oa.2 None] else []) <$> option_table p))) as Hshort.
  { apply Forall_join, Forall_fmap, Forall_forall. intros [o a] Hx. cbn [compose fst snd].
    case_decide; [by repeat constructor; apply table_token|]. destruct (starts_with w o); [|constructor].
    by repeat constructor; apply table_token. }
  unfold option_tuples. repeat (case_match; try exact Hshort); simplify_eq; apply Hlong.
Qed.

Lemma parse_optional_token w t : parse_optional p w = Ok t → token_of p t.
Proof.
  assert (∀ w a e, dict_get (option_table p) w = Some a → token_of p (Optional w a e)) as Hd.
  { intros w' a e H. apply table_token. apply dict_get_elem; [|done]. apply (parser_ok_spec p ok). }
  unfold parse_optional. destruct w as [|c rest]; [by intros [= <-]|].
  destruct (decide (c = 45)) as [->|Hc].
  2: { intros H. assert (t = Positional (c :: rest)) as ->; [|done]. repeat (case_match; try congruence). }
  destruct (dict_get (option_table p) (45 :: rest)) as [a|] eqn:E; [intros [= <-]; by apply Hd|].
  case_decide; [by intros [= <-]|].
  destruct (kv ← split_eq _; _) as [t'|] eqn:Es.
  - intros [= <-]. destruct (split_eq _) as [kv|]; [|done]. cbn [mbind option_bind] in Es.
    destruct (dict_get _ kv.1) as [a|] eqn:Ea; [|done]. injection Es as <-. by apply Hd.
  - pose proof (option_tuples_token (45 :: rest)) as HF.
    destruct (option_tuples p (45 :: rest)) as [|t1 [|t2 l]]; [| |done].
    + by repeat case_match; intros [= <-].
    + intros [= <-]. by inversion HF.
Qed.

Lemma tokenize_tokens argv ts : tokenize p argv = Ok ts → Forall (token_of p) ts.
Proof.
  revert ts. induction argv as [|w argv IH]; intros ts; cbn [tokenize]; [intros [= <-]; constructor|].
  case_decide.
  - intros [= <-]. constructor; [done|]. apply Forall_fmap, Forall_forall. done.
  - intros H'. inv_res. constructor; [by eapply parse_optional_token|eauto].
Qed.

Lemma consume_inv n ts ns seen ns' seen' :
  (length ts ≤ n)%nat → Forall (token_of p) ts → consume ts ns seen = Ok (ns', seen') →
  ∃ ss, Forall (setting_of p) ss ∧ foldM apply_setting ns ss = Ok ns' ∧ seen' = rev (dest ∘ setting_arg <$> ss) ++ seen.
Proof.
  revert ts ns seen. induction n as [|n IH]; intros ts ns seen Hn HF Hc; (destruct ts as [|tok ts];
    [injection Hc as <- <-; exists []; repeat constructor|cbn [length] in Hn]); [lia|].
  inversion HF as [|? ? Ht HF']; subst.
  assert (∀ st v ts', setting_of p st → setting_value st = Ok v → (length ts' ≤ n)%nat → Forall (token_of p) ts' →
    consume ts' (dict_set ns (dest (setting_arg st)) v) (dest (setting_arg st) :: seen) = Ok (ns', seen') →
    ∃ ss, Forall (setting_of p) ss ∧ foldM apply_setting ns ss = Ok ns' ∧ seen' = rev (dest ∘ setting_arg <$> ss) ++ seen)
    as Hstep.
  { intros st v ts' Hst Hv Hl HF1 H. destruct (IH ts' _ _ Hl HF1 H) as (ss & Hss & Ef & Es). exists (st :: ss).
    split; [by constructor|]. split.
    - cbn [foldM]. replace (apply_setting ns st) with (Ok (dict_set ns (dest (setting_arg st)) v)); [exact Ef|].
      unfold apply_setting. by rewrite Hv.
    - rewrite Es, fmap_cons. cbn [rev compose]. by rewrite <-app_assoc. }
  cbn [consume] in Hc. destruct tok as [|o [a|] explicit| |]; try done. destruct Ht as [Ha Ho].
  destruct (act a) as [t choices| |] eqn:Et.
  - destruct explicit as [s|].
    + inv_res. apply (Hstep (Given a s) x ts); [|cbn [setting_value]; by rewrite Et|lia|done|done].
      eexists. by eapply spells_joined.
    + destruct ts as [|[s| | |] ts]; try done. inv_res. inversion HF'; subst. cbn [length] in Hn.
      apply (Hstep (Given a s) x ts); [|cbn [setting_value]; by rewrite Et|lia|done|done].
      eexists. by eapply spells_joined.
  - destruct explicit; [done|]. apply (Hstep (Switch a true) (VBool true) ts); [|cbn [setting_value]; by rewrite Et|lia|done|done].
    eexists. apply spells_on; auto.
  - destruct explicit; [done|]. unfold option_strings in Ho. rewrite Et in Ho.
    destruct (parser_ok_spec p ok) as (HG & _). apply (Forall_forall _ _) with (x := a) in HG; [|done].
    unfold good_argument in HG. rewrite Et in HG. apply andb_true_iff in HG as [_ [_ Hno]%andb_true_iff].
    apply elem_of_cons in Ho as [->|Ho%list_elem_of_singleton].
    + apply (Hstep (Switch a true) (VBool true) ts); [|cbn [setting_value]; by rewrite Et|lia|done|].
      * eexists. apply spells_on; auto.
      * by rewrite Hno in Hc.
    + subst o. apply (Hstep (Switch a false) (VBool false) ts); [|cbn [setting_value]; by rewrite Et|lia|done|].
      * eexists. apply spells_off; auto.
      * assert (starts_with (u "--no-") (negated a) = true) as E by (apply starts_with_spec; unfold negated; eauto).
        by rewrite E in Hc.
Qed.

Lemma accepted_settings argv ns :
  parse_args p argv = Ok ns → ∃ ss, Forall (setting_of p) ss ∧ run_settings p ss = Ok ns.
Proof.
  unfold parse_args. intros H. apply bind_Ok in H as (ts & Et & H). apply bind_Ok in H as ([ns' seen] & Ec & H).
  destruct (consume_inv (length ts) ts _ _ _ _ (le_n _) (tokenize_tokens argv ts Et) Ec) as (ss & Hss & Ef & Es).
  exists ss. split; [done|]. unfold run_settings. rewrite Ef. cbn [mbind result_bind].
  rewrite (all_required_ext p _ seen); [done|]. intros k. rewrite Es.
  by rewrite app_nil_r, !list_elem_of_In, <-in_rev.
Qed.
End Accepted.

(** Every accepted command line has a canonical form. When a parser of long
    options with distinct names accepts a command line — abbreviated options,
    repeated options and attached values included — there are settings, each
    spelled with its full option, that give the same namespace, and the parser
    takes the words that spell them to that namespace too. *)
Lemma accepted_canonical p argv ns :
  parser_ok p = true → parse_args p argv = Ok ns →
  ∃ ss wss, Forall2 (spells p) ss wss ∧ run_settings p ss = Ok ns ∧ parse_args p (concat wss) = Ok ns.
Proof.
  intros ok H. destruct (accepted_settings p ok argv ns H) as (ss & Hss & Er).
  apply Forall_exists_Forall2_l in Hss as (wss & Hw). exists ss, wss. split; [done|]. split; [done|].
  by rewrite (parse_spelled p ss wss ok Hw).
Qed.

(** ** Where an empty list comes from *)

Lemma split_eq_inv w k v : split_eq w = Some (k, v) → w = k ++ u "=" ++ v.
Proof.
  revert k v. induction w as [|c w IH]; intros k v; cbn [split_eq]; [done|].
  destruct (Z.eqb_spec c 61) as [->|]; [by intros [= <- <-]|]. destruct (split_eq w) as [[k' v']|]; [|done].
  cbn [fmap option_fmap option_map fst snd]. intros [= <- <-]. cbn [app]. f_equal. by apply IH.
Qed.

Section EmptyLists.
Variable p : parser.
Hypothesis ok : parser_ok p = true.

(** A value attached to an option of the parser is what is behind an equals sign. *)
Definition attached (w : str) (t : token) : Prop :=
  ∀ o a s, t = Optional o (Some a) (Some s) → ∃ x, w = x ++ u "=" ++ s.

Lemma option_tuples_attached w : Forall (attached w) (option_tuples p w).
Proof.
  assert (∀ k e, (∀ s, e = Some s → ∃ x, w = x ++ u "=" ++ s) →
    Forall (attached w) ((λ oa : str * option argument, Optional oa.1 oa.2 e) <$>
            List.filter (λ oa : str * option argument, starts_with k oa.1) (option_table p))) as Hlong.
  { intros k e He. apply Forall_fmap, Forall_forall. intros [o a] _ o' a' s [= _ _ ->]. by apply He. }
  assert (Forall (attached w) (mjoin ((λ oa : str * option argument,
            if decide (oa.1 = take 2 w) then [Optional oa.1 oa.2 (Some (drop 2 w))]
            else if starts_with w oa.1 then [Optional oa.1 oa.2 None] else []) <$> option_table p))) as Hshort.
  { apply Forall_join, Forall_fmap, Forall_forall. intros [o a] Hx. cbn [compose fst snd].
    case_decide as E; [|destruct (starts_with w o); repeat constructor; by intros ? ? ? [=]].
    repeat constructor. intros o' a' s [= -> -> _]. exfalso.
    destruct (option_table_inv p ok o' a') as [Ha Ho]; [by apply dict_get_elem; [apply (parser_ok_spec p ok)|]|].
    destruct (good_option_dashes o' (option_strings_good p ok a' o' Ha Ho)) as (c & r & -> & _).
    apply (f_equal length) in E. rewrite length_take in E. cbn [length] in E. lia. }
  unfold option_tuples. destruct (split_eq w) as [[k v]|] eqn:Es.
  - apply split_eq_inv in Es. assert (∀ s, Some v = Some s → ∃ x, w = x ++ u "=" ++ s) as Hv by (intros s [= <-]; by exists k).
    repeat (case_match; try exact Hshort); by apply Hlong.
  - assert (∀ s : str, None = Some s → ∃ x, w = x ++ u "=" ++ s) as Hv by done.
    repeat (case_match; try exact Hshort); by apply Hlong.
Qed.

Lemma parse_optional_attached w t : parse_optional p w = Ok t → attached w t ∧ (∀ s, t = Positional s → s = w) ∧ t ≠ DashDash.
Proof.
  assert (∀ x, attached w (Positional x)) as Hp by (by intros ? ? ? ? [=]).
  unfold parse_optional. destruct w as [|c rest]; [intros [= <-]; split_and!; [done|by intros s [= <-]|done]|].
  destruct (decide (c = 45)) as [->|Hc].
  2: { intros H. assert (t = Positional (c :: rest)) as ->; [|split_and!; [done|by intros s [= <-]|done]]. repeat (case_match; try congruence). }
  destruct (dict_get (option_table p) (45 :: rest)) as [a|]; [intros [= <-]; split_and!; by intros ? ? ? [=] || done|].
  case_decide; [intros [= <-]; split_and!; [done|by intros s [= <-]|done]|].
  destruct (kv ← split_eq _; _) as [t'|] eqn:Es.
  - intros [= <-]. destruct (split_eq _) as [[k v]|] eqn:Ek; [|done]. cbn [mbind option_bind fst snd] in Es.
    destruct (dict_get _ k) as [a|]; [|done]. injection Es as <-. apply split_eq_inv in Ek.
    split_and!; [|done|done]. intros o a' s [= _ _ <-]. by exists k.
  - pose proof (option_tuples_attached (45 :: rest)) as HF.
    assert (∀ t, t ∈ option_tuples p (45 :: rest) → (∀ s, t ≠ Positional s) ∧ t ≠ DashDash) as Hopt.
    { unfold option_tuples. intros t0 Ht0. repeat case_match;
        repeat match goal with
        | H : _ ∈ _ <$> _ |- _ => apply list_elem_of_fmap in H as (? & -> & _)
        | H : _ ∈ mjoin _ |- _ => apply list_elem_of_join in H as (? & H & (? & -> & _)%list_elem_of_fmap); repeat case_decide; repeat case_match
        | H : _ ∈ [_] |- _ => apply list_elem_of_singleton in H as ->
        | H : _ ∈ [] |- _ => by apply elem_of_nil in H
        end; done. }
    destruct (option_tuples p (45 :: rest)) as [|t1 [|t2 l]]; [| |done].
    + repeat case_match; intros [= <-]; split_and!; try done; try (by intros ? ? ? [=]); by intros s [= <-].
    + intros [= <-]. destruct (Hopt t1 ltac:(left)) as [H1 H2]. split_and!; [by inversion HF|intros s E; by destruct (H1 s E)|done].
Qed.

(** The tokens up to a [--] do not hold the text [--]. *)
Fixpoint quiet (ts : list token) : Prop :=
  match ts with
  | [] | DashDash :: _ => True
  | t :: ts => t ≠ Positional (u "--") ∧ (∀ o a, t ≠ Optional o (Some a) (Some (u "--"))) ∧ quiet ts
  end.

Lemma tokenize_quiet argv ts :
  Forall (λ w, ¬ ∃ x, w = x ++ u "=--") argv → tokenize p argv = Ok ts → quiet ts.
Proof.
  intros HF. revert ts. induction HF as [|w argv Hw _ IH]; intros ts; cbn [tokenize]; [by intros [= <-]|].
  case_decide as Hd; [by intros [= <-]|]. intros H. inv_res.
  match goal with E : parse_optional p w = Ok _ |- _ => apply parse_optional_attached in E as (Ha & Hp & Hn) end.
  match goal with |- quiet (?t :: _) => assert (t ≠ Positional (u "--") ∧ (∀ o a, t ≠ Optional o (Some a) (Some (u "--")))) as [Hq1 Hq2] end.
  { split; [intros E; by apply Hp in E|]. intros o a E. destruct (Ha _ _ _ E) as [y ->]. apply Hw. by exists y. }
  cbn [quiet]. case_match; [..|done]; split_and!; eauto.
Qed.

Lemma get_value_full t choices s v : s ≠ u "--" → get_value t choices s = Ok v → v ≠ VEmptyList.
Proof.
  intros Hs. unfold get_value. rewrite decide_False by done. destruct (convert_arg t s) as [v'|] eqn:E; [|done].
  case_match; [|done]. intros [= <-] ->. destruct t; cbn [convert_arg] in E; by inv_res.
Qed.

Definition stores_no_list (ns : namespace) : Prop := ∀ k, dict_get ns k ≠ Some VEmptyList.

Lemma dict_set_full (ns : namespace) k v : v ≠ VEmptyList → stores_no_list ns → stores_no_list (dict_set ns k v).
Proof. intros Hv Hn k'. rewrite dict_get_set. case_decide; [congruence|apply Hn]. Qed.

Lemma consume_full n ts ns seen ns' seen' :
  (length ts ≤ n)%nat → quiet ts → stores_no_list ns → consume ts ns seen = Ok (ns', seen') → stores_no_list ns'.
Proof.
  revert ts ns seen. induction n as [|n IH]; intros ts ns seen Hn Hq Hns Hc; (destruct ts as [|tok ts];
    [by injection Hc as <- _|cbn [length] in Hn]); [lia|].
  cbn [consume] in Hc. destruct tok as [|o [a|] explicit| |]; try done. cbn [quiet] in Hq. destruct Hq as (_ & Ho & Hq).
  destruct (act a) as [t choices| |].
  - destruct explicit as [s|].
    + inv_res. assert (s ≠ u "--") as Hs by (intros ->; by apply (Ho o a)).
      eapply (IH ts); [lia|done| |eassumption]. apply dict_set_full; [by eapply get_value_full|done].
    + destruct ts as [|[s| | |] ts]; try done. inv_res. cbn [length] in Hn. cbn [quiet] in Hq. destruct Hq as (Hs & _ & Hq).
      eapply (IH ts); [lia|done| |eassumption]. apply dict_set_full; [eapply get_value_full; [|eassumption]; by intros ->|done].
  - destruct explicit; [done|]. eapply (IH ts); [lia|done| |eassumption]. by apply dict_set_full.
  - destruct explicit; [done|]. eapply (IH ts); [lia|done| |eassumption]. by apply dict_set_full.
Qed.

Lemma defaults_full : stores_no_list (defaults p).
Proof.
  pose proof ok as H. unfold parser_ok in H. apply andb_true_iff in H as [_ H]. unfold defaults.
  assert (∀ ns, stores_no_list ns → stores_no_list (foldl (λ ns a, dict_set ns (dest a) (default_value a)) ns p)) as Hf.
  { clear ok. induction p as [|a l IH]; intros ns Hns; [done|]. cbn [forallb] in H. apply andb_true_iff in H as [Ha H].
    cbn [foldl]. apply IH; [done|]. apply dict_set_full; [|done]. apply negb_true_iff in Ha. by apply bool_decide_eq_false in Ha. }
  by apply Hf.
Qed.

(** Only a word that ends in [=--] stores an empty list. *)
Lemma stored_empty_list argv ns :
  Forall (λ w, ¬ ∃ x, w = x ++ u "=--") argv → parse_args p argv = Ok ns → stores_no_list ns.
Proof.
  intros Hw. unfold parse_args. intros H. apply bind_Ok in H as (ts & Et & H). apply bind_Ok in H as ([ns' seen] & Ec & H).
  case_match; [|done]. injection H as <-.
  exact (consume_full (length ts) ts _ _ _ _ (le_n _) (tokenize_quiet argv ts Hw Et) defaults_full Ec).
Qed.

(** Among settings, only the text [--]. *)
Lemma settings_full ss ns ns' :
  (∀ a, Given a (u "--") ∉ ss) → stores_no_list ns → foldM apply_setting ns ss = Ok ns' → stores_no_list ns'.
Proof.
  revert ns. induction ss as [|st ss IH]; intros ns Hss Hns; [by intros [= <-]|]. cbn [foldM]. intros H.
  apply bind_Ok in H as (ns1 & E1 & H). apply bind_Ok in E1 as (v & Ev & [= <-]).
  refine (IH _ _ _ H); [intros a Ha; apply (Hss a); by right|]. apply dict_set_full; [|done].
  destruct st as [a s|a b]; cbn [setting_value] in Ev.
  - destruct (act a); [|done..]. eapply get_value_full; [|exact Ev]. intros ->. apply (Hss a). left.
  - by repeat case_match; simplify_eq.
Qed.
End EmptyLists.
