(* ===== verification/Namespace.v ===== *)
(** The attributes of a parsed command line.

    A script reads each attribute at the type its parser declares:
    [int_attr] and the like raise when the value has another type.
    [namespace_typed] and the lemmas after it show that they never do for an
    accepted command line that stores no empty list: with [--option=--], and
    only then ([stored_empty_list]), a script goes on with an empty list for a
    value.  What it does then is not followed: the [TypeError] below stands for
    it, and is not an outcome of any other run. *)

From S2P Require Import Prelude PyFloat PyText PyPath Json Argparse.

(** ** The attributes of a namespace *)

Definition of_type (t : arg_type) (v : value) : Prop :=
  match t, v with
  | TInt, VInt _ | TStr, VStr _ | TPath, VPath _ => True
  | TFloat, VFloat f => f_wf f = true
  | _, _ => False
  end.

(** A value that the option of an argument can set. *)
Definition value_of (a : argument) (v : value) : Prop :=
  match act a with
  | Store t choices => of_type t v ∧ (∀ l, choices = Some l → v ∈ l)
  | _ => ∃ b, v = VBool b
  end.

Lemma get_value_of t choices s v :
  get_value t choices s = Ok v → v = VEmptyList ∨ of_type t v ∧ (∀ l, choices = Some l → v ∈ l).
Proof.
  unfold get_value. case_decide as Hd; [intros [= <-]; by left|]. intros H. right. revert H. destruct (convert_arg t s) as [v'|] eqn:E; [|done].
  destruct (default true _) eqn:Ed; [|done]. intros [= ->]. split.
  - destruct t; cbn [convert_arg] in E; inv_res; simplify_eq; try done. by eapply py_float_wf.
  - intros l ->. cbn [fmap option_fmap option_map default] in Ed. by apply bool_decide_eq_true in Ed.
Qed.

Lemma setting_value_of st v : setting_value st = Ok v → v = VEmptyList ∨ value_of (setting_arg st) v.
Proof.
  unfold value_of. destruct st as [a s|a b]; cbn [setting_value setting_arg]; destruct (act a); try done.
  - by apply get_value_of.
  - destruct b; [|done]. intros [= <-]. right. eauto.
  - intros [= <-]. right. eauto.
Qed.

Lemma dest_inj p a a' : NoDup (dest <$> p) → a ∈ p → a' ∈ p → dest a = dest a' → a = a'.
Proof.
  intros ND [i Hi]%list_elem_of_lookup [j Hj]%list_elem_of_lookup E.
  assert (i = j) as ->; [|congruence].
  eapply NoDup_lookup; [exact ND| |]; rewrite list_lookup_fmap; [rewrite Hi|rewrite Hj]; cbn; by rewrite ?E.
Qed.

Lemma dict_get_foldl p ns k :
  NoDup (dest <$> p) →
  dict_get (foldl (λ ns a, dict_set ns (dest a) (default_value a)) ns p) k =
    match list_find (λ a, dest a = k) p with Some (_, a) => Some (default_value a) | None => dict_get ns k end.
Proof.
  revert ns. induction p as [|a p IH]; intros ns; [done|]. rewrite fmap_cons. intros [Ha ND]%NoDup_cons. cbn [foldl list_find].
  rewrite IH by done. case_decide as E.
  - destruct (list_find _ p) as [[i a']|] eqn:Ef.
    + apply list_find_Some in Ef as (Hl & Hd & _). destruct Ha. apply list_elem_of_fmap. exists a'.
      split; [congruence|by eapply list_elem_of_lookup_2].
    + rewrite dict_get_set. by rewrite decide_True by congruence.
  - destruct (list_find _ p) as [[i a']|] eqn:Ef; cbn [fmap option_fmap option_map prod_map]; [done|].
    rewrite dict_get_set. by rewrite decide_False by congruence.
Qed.

Lemma defaults_get p a : NoDup (dest <$> p) → a ∈ p → dict_get (defaults p) (dest a) = Some (default_value a).
Proof.
  intros ND Ha. unfold defaults. rewrite dict_get_foldl by done.
  destruct (list_find _ p) as [[i a']|] eqn:Ef.
  - apply list_find_Some in Ef as (Hl & Hd & _). do 2 f_equal. apply (dest_inj p); [done| |done|done].
    by eapply list_elem_of_lookup_2.
  - apply list_find_None in Ef. by apply (proj1 (Forall_forall _ _) Ef) in Ha.
Qed.

(** The attribute of an argument after some settings: the default until one of
    them sets it, a value of the argument's type and choices after. *)
Lemma foldM_settings_get p ss ns ns' a :
  NoDup (dest <$> p) → a ∈ p → Forall (λ st, setting_arg st ∈ p) ss → foldM apply_setting ns ss = Ok ns' →
  if decide (dest a ∈ dest ∘ setting_arg <$> ss)
  then ∃ v, dict_get ns' (dest a) = Some v ∧ (v = VEmptyList ∨ value_of a v)
  else dict_get ns' (dest a) = dict_get ns (dest a).
Proof.
  intros ND Ha HF. revert ns'. induction ss as [|st ss IH] using rev_ind; intros ns'.
  - intros [= <-]. done.
  - apply Forall_app in HF as [HF Hst]. inversion Hst as [|? ? Hp _]; subst. rewrite foldM_app. intros H.
    apply bind_Ok in H as (ns1 & E1 & H). cbn [foldM] in H. apply bind_Ok in H as (ns2 & E2 & [= <-]).
    unfold apply_setting in E2. apply bind_Ok in E2 as (v & Ev & [= <-]). specialize (IH HF ns1 E1).
    rewrite fmap_app. cbn [fmap list_fmap compose]. rewrite dict_get_set. destruct (decide (dest a = dest (setting_arg st))) as [Ed|Ed].
    + rewrite decide_True by set_solver. exists v. split; [done|].
      assert (a = setting_arg st) as -> by (by apply (dest_inj p)). by apply setting_value_of.
    + destruct (decide (dest a ∈ dest ∘ setting_arg <$> ss)); [rewrite decide_True by set_solver|rewrite decide_False by set_solver]; done.
Qed.

Lemma foldM_settings_absent (p : parser) ss ns ns' k :
  k ∉ dest <$> p → Forall (λ st, setting_arg st ∈ p) ss → foldM apply_setting ns ss = Ok ns' →
  dict_get ns' k = dict_get ns k.
Proof.
  intros Hk HF. revert ns. induction HF as [|st ss Hst _ IH]; intros ns; [by intros [= <-]|]. cbn [foldM]. intros H.
  apply bind_Ok in H as (ns1 & E1 & H). apply bind_Ok in E1 as (v & _ & [= <-]). rewrite (IH _ H), dict_get_set.
  rewrite decide_False; [done|]. intros ->. apply Hk. apply list_elem_of_fmap. eauto.
Qed.

Lemma setting_of_arg p st : setting_of p st → setting_arg st ∈ p.
Proof. intros [ws H]. by destruct H. Qed.

(** Every attribute of an accepted command line has a value of its argument's
    type and choices, or the default of an option that is not required, or is
    the empty list. *)
Lemma namespace_typed p argv ns a :
  parser_ok p = true → parse_args p argv = Ok ns → a ∈ p →
  ∃ v, dict_get ns (dest a) = Some v ∧ (v = VEmptyList ∨ value_of a v ∨ (v = default_value a ∧ required a = false)).
Proof.
  intros ok H Ha. destruct (accepted_settings p ok argv ns H) as (ss & Hss & Er).
  destruct (parser_ok_spec p ok) as (_ & _ & ND). unfold run_settings in Er.
  apply bind_Ok in Er as (ns' & Ef & Er). destruct (all_required p _) eqn:Eq; [|done]. injection Er as ->.
  pose proof (foldM_settings_get p ss (defaults p) ns a ND Ha) as Hg. case_decide as Hd.
  - destruct Hg as (v & Ev & Hv); [|done|exists v; tauto]. eapply Forall_impl; [exact Hss|]. apply setting_of_arg.
  - exists (default_value a). rewrite Hg, defaults_get by (done || (eapply Forall_impl; [exact Hss|]; apply setting_of_arg)).
    split; [done|]. right. right. split; [done|]. unfold all_required in Eq.
    apply list_elem_of_In in Ha. apply (proj1 (forallb_forall _ _) Eq) in Ha.
    rewrite bool_decide_eq_false_2 in Ha by done. by destruct (required a).
Qed.

(** A namespace has no other attribute. *)
Lemma namespace_absent (p : parser) argv ns k :
  parser_ok p = true → parse_args p argv = Ok ns → k ∉ dest <$> p → dict_get ns k = None.
Proof.
  intros ok H Hk. destruct (accepted_settings p ok argv ns H) as (ss & Hss & Er). unfold run_settings in Er. inv_run Er; simplify_eq.
  rewrite (foldM_settings_absent p ss (defaults p) _ k Hk) by (done || (eapply Forall_impl; [exact Hss|]; apply setting_of_arg)).
  unfold defaults. rewrite dict_get_foldl by apply (parser_ok_spec p ok).
  destruct (list_find _ p) as [[i a]|] eqn:E; [|done]. apply list_find_Some in E as (Hl & <- & _). destruct Hk.
  apply list_elem_of_fmap. exists a. split; [done|]. by eapply list_elem_of_lookup_2.
Qed.

(** The same settings over two namespaces: both succeed or neither, and an
    attribute on which the namespaces agree stays the same. *)
Lemma settings_agree ss ns ns' :
  (∃ r r', foldM apply_setting ns ss = Ok r ∧ foldM apply_setting ns' ss = Ok r' ∧
     ∀ k, dict_get ns k = dict_get ns' k → dict_get r k = dict_get r' k) ∨
  (foldM apply_setting ns ss = Err SystemExit ∧ foldM apply_setting ns' ss = Err SystemExit).
Proof.
  revert ns ns'. induction ss as [|st ss IH]; intros ns ns'; [left; by exists ns, ns'|]. cbn [foldM].
  assert (∀ ns, apply_setting ns st = (v ← setting_value st; Ok (dict_set ns (dest (setting_arg st)) v))) as -> by done.
  assert (apply_setting ns' st = (v ← setting_value st; Ok (dict_set ns' (dest (setting_arg st)) v))) as -> by done.
  destruct (setting_value st) as [v|e] eqn:E.
  - cbn [mbind result_bind].
    destruct (IH (dict_set ns (dest (setting_arg st)) v) (dict_set ns' (dest (setting_arg st)) v))
      as [(r & r' & E1 & E2 & Hk)|[E1 E2]]; [left|right; done].
    exists r, r'. split_and!; [done|done|]. intros k H. apply Hk. rewrite !dict_get_set. by case_decide.
  - right. assert (e = SystemExit) as ->; [|done]. destruct st as [a s|a s]; cbn [setting_value] in E.
    + destruct (act a); [|congruence..]. unfold get_value in E. case_decide; [done|]. by repeat case_match; simplify_eq.
    + by repeat case_match; simplify_eq.
Qed.

(** ** Reading attributes *)

(** [args.k], used at a type. *)
Definition attr (ns : namespace) (k : string) : result value := of_option AttributeError (dict_get ns (u k)).
Definition int_attr (ns : namespace) (k : string) : result Z :=
  v ← attr ns k; match v with VInt z => Ok z | _ => Err TypeError end.
Definition float_attr (ns : namespace) (k : string) : result f64 :=
  v ← attr ns k; match v with VFloat f => Ok f | _ => Err TypeError end.
Definition str_attr (ns : namespace) (k : string) : result str :=
  v ← attr ns k; match v with VStr s => Ok s | _ => Err TypeError end.
Definition path_attr (ns : namespace) (k : string) : result path :=
  v ← attr ns k; match v with VPath p => Ok p | _ => Err TypeError end.
Definition bool_attr (ns : namespace) (k : string) : result bool :=
  v ← attr ns k; match v with VBool b => Ok b | _ => Err TypeError end.
(** An attribute that may be [None]. *)
Definition opt_attr {A} (get : namespace → string → result A) (ns : namespace) (k : string) : result (option A) :=
  v ← attr ns k; match v with VNone => Ok None | _ => Some <$> get ns k end.

(** What a script reads an attribute as. *)
Inductive kind : Type := KInt | KFloat | KStr | KPath | KBool.

Definition kind_of (k : kind) (v : value) : bool :=
  match k, v with
  | KInt, VInt _ | KFloat, VFloat _ | KStr, VStr _ | KPath, VPath _ | KBool, VBool _ => true
  | _, _ => false
  end.

Definition stored_kind (a : argument) : kind :=
  match act a with
  | Store TInt _ => KInt
  | Store TFloat _ => KFloat
  | Store TStr _ => KStr
  | Store TPath _ => KPath
  | _ => KBool
  end.

#[export] Instance kind_eq_dec : EqDecision kind.
Proof. solve_decision. Defined.

Definition find_arg (p : parser) (k : string) : option argument := snd <$> list_find (λ a, dest a = u k) p.

(** The parser sets the attribute to a value of the kind, always or ([opt])
    unless it leaves [None]. *)
Definition declares (p : parser) (k : string) (opt : bool) (kd : kind) : bool :=
  match find_arg p k with
  | Some a => bool_decide (stored_kind a = kd) &&
              (required a || kind_of kd (default_value a) || (opt && bool_decide (default_value a = VNone)))
  | None => false
  end.

(** The choices the attribute is always among. *)
Definition chosen (p : parser) (k : string) (l : list value) : bool :=
  match find_arg p k with
  | Some a => match act a with
              | Store _ (Some l') => bool_decide (l' = l) && (required a || bool_decide (default_value a ∈ l))
              | _ => false
              end
  | None => false
  end.

Lemma value_of_kind a v : value_of a v → kind_of (stored_kind a) v = true.
Proof.
  unfold value_of, stored_kind. destruct (act a) as [t c| |]; [|by intros [b ->]..].
  destruct t, v; by intros [H _].
Qed.

Section Attributes.
Variables (p : parser) (argv : list str) (ns : namespace).
Hypothesis ok : parser_ok p = true.
Hypothesis parsed : parse_args p argv = Ok ns.

(** The words cannot make it a value of its type and choices, unless it is the
    empty list. *)
Lemma attr_stored k a :
  find_arg p k = Some a →
  ∃ v, attr ns k = Ok v ∧ (v = VEmptyList ∨ value_of a v ∨ (v = default_value a ∧ required a = false)).
Proof.
  unfold find_arg. destruct (list_find _ p) as [[i a']|] eqn:E; [|done]. intros [= <-].
  apply list_find_Some in E as (Hl & Hd & _).
  destruct (namespace_typed p argv ns a' ok parsed) as (v & Ev & Hv); [by eapply list_elem_of_lookup_2|].
  exists v. split; [|done]. unfold attr. rewrite <-Hd. by rewrite Ev.
Qed.

(** Choices, and float attributes. *)
Lemma attr_choice k l v : chosen p k l = true → attr ns k = Ok v → v = VEmptyList ∨ v ∈ l.
Proof.
  unfold chosen. destruct (find_arg p k) as [a|] eqn:E; [|done]. destruct (act a) as [t [l'|]| |] eqn:Ea; try done.
  intros [->%bool_decide_eq_true Hd]%andb_true_iff Ek. destruct (attr_stored k a E) as (v' & Ev & Hv).
  rewrite Ev in Ek. injection Ek as ->. destruct Hv as [Hv|[Hv|[-> Hr]]]; [by left|right..].
  - unfold value_of in Hv. rewrite Ea in Hv. by apply Hv.
  - rewrite Hr in Hd. by apply bool_decide_eq_true in Hd.
Qed.

(** A float attribute is a well-formed float. *)
Definition default_wf (p : parser) (k : string) : bool :=
  match find_arg p k with Some a => match default_value a with VFloat f => f_wf f | _ => true end | None => false end.

Lemma float_attr_wf k f : default_wf p k = true → float_attr ns k = Ok f → f_wf f = true.
Proof.
  unfold default_wf. destruct (find_arg p k) as [a|] eqn:E; [|done]. intros Hd.
  destruct (attr_stored k a E) as (v & Ev & Hv). unfold float_attr. rewrite Ev. cbn [mbind result_bind].
  destruct v; try done. intros [= ->]. destruct Hv as [Hv|[Hv|[Hv _]]]; [done| |by rewrite <-Hv in Hd].
  unfold value_of in Hv. destruct (act a) as [t c| |]; [|by destruct Hv..]. by destruct t, Hv as [Hv _].
Qed.

Hypothesis full : stores_no_list ns.

Lemma attr_found k a :
  find_arg p k = Some a →
  ∃ v, attr ns k = Ok v ∧ (value_of a v ∨ (v = default_value a ∧ required a = false)).
Proof.
  intros E. destruct (attr_stored k a E) as (v & Ev & [->|Hv]); [|eauto].
  unfold attr, of_option in Ev. destruct (dict_get ns (u k)) eqn:Ek; [|done]. injection Ev as ->. by apply full in Ek.
Qed.

Lemma attr_kind k opt kd :
  declares p k opt kd = true → ∃ v, attr ns k = Ok v ∧ (kind_of kd v = true ∨ (opt = true ∧ v = VNone)).
Proof.
  unfold declares. destruct (find_arg p k) as [a|] eqn:E; [|done]. intros [Hk%bool_decide_eq_true Hd]%andb_true_iff.
  destruct (attr_found k a E) as (v & Ev & Hv). exists v. split; [done|]. subst kd.
  destruct Hv as [Hv|[-> Hr]]; [left; by apply value_of_kind|]. rewrite Hr in Hd. cbn [orb] in Hd.
  apply orb_true_iff in Hd as [Hd|[Ho Hn%bool_decide_eq_true]%andb_true_iff]; eauto.
Qed.

(** The attributes read without an exception. *)
#[local] Ltac read_as Ev v := unfold int_attr, float_attr, str_attr, path_attr, bool_attr; rewrite Ev; destruct v; try done; eauto.
#[local] Ltac typed H := destruct (attr_kind _ _ _ H) as (v & Ev & [Hv|[[=] _]]); read_as Ev v.
Lemma int_attr_Ok k : declares p k false KInt = true → ∃ z, int_attr ns k = Ok z.
Proof. intros H. typed H. Qed.
Lemma float_attr_Ok k : declares p k false KFloat = true → ∃ f, float_attr ns k = Ok f.
Proof. intros H. typed H. Qed.
Lemma str_attr_Ok k : declares p k false KStr = true → ∃ s, str_attr ns k = Ok s.
Proof. intros H. typed H. Qed.
Lemma path_attr_Ok k : declares p k false KPath = true → ∃ q, path_attr ns k = Ok q.
Proof. intros H. typed H. Qed.
Lemma bool_attr_Ok k : declares p k false KBool = true → ∃ b, bool_attr ns k = Ok b.
Proof. intros H. typed H. Qed.
Lemma opt_attr_Ok {A} (get : namespace → string → result A) k kd :
  declares p k true kd = true → (∀ v, attr ns k = Ok v → kind_of kd v = true → ∃ a, get ns k = Ok a) →
  ∃ o, opt_attr get ns k = Ok o.
Proof.
  intros H Hg. destruct (attr_kind k true kd H) as (v & Ev & [Hv|[_ ->]]); unfold opt_attr; rewrite Ev; cbn [mbind result_bind]; [|eauto].
  destruct (Hg v Ev Hv) as [a ->]. destruct v; try (by destruct kd); cbn; eauto.
Qed.
Lemma opt_int_attr_Ok k : declares p k true KInt = true → ∃ o, opt_attr int_attr ns k = Ok o.
Proof. intros H. apply (opt_attr_Ok _ k KInt H). intros v Ev Hv. read_as Ev v. Qed.
Lemma opt_str_attr_Ok k : declares p k true KStr = true → ∃ o, opt_attr str_attr ns k = Ok o.
Proof. intros H. apply (opt_attr_Ok _ k KStr H). intros v Ev Hv. read_as Ev v. Qed.
Lemma opt_path_attr_Ok k : declares p k true KPath = true → ∃ o, opt_attr path_attr ns k = Ok o.
Proof. intros H. apply (opt_attr_Ok _ k KPath H). intros v Ev Hv. read_as Ev v. Qed.
End Attributes.

(** [attribute ok parsed full]: the attributes a script reads, one by one. *)
Ltac attribute ok parsed full :=
  match goal with
  | |- context [int_attr ?ns ?k] => destruct (int_attr_Ok _ _ ns ok parsed full k eq_refl) as [? ->]
  | |- context [float_attr ?ns ?k] => destruct (float_attr_Ok _ _ ns ok parsed full k eq_refl) as [? ->]
  | |- context [str_attr ?ns ?k] => destruct (str_attr_Ok _ _ ns ok parsed full k eq_refl) as [? ->]
  | |- context [path_attr ?ns ?k] => destruct (path_attr_Ok _ _ ns ok parsed full k eq_refl) as [? ->]
  | |- context [bool_attr ?ns ?k] => destruct (bool_attr_Ok _ _ ns ok parsed full k eq_refl) as [? ->]
  | |- context [opt_attr int_attr ?ns ?k] => destruct (opt_int_attr_Ok _ _ ns ok parsed full k eq_refl) as [? ->]
  | |- context [opt_attr str_attr ?ns ?k] => destruct (opt_str_attr_Ok _ _ ns ok parsed full k eq_refl) as [? ->]
  | |- context [opt_attr path_attr ?ns ?k] => destruct (opt_path_attr_Ok _ _ ns ok parsed full k eq_refl) as [? ->]
  end; cbn [mbind result_bind].
