(* ===== verification/NdArray.v ===== *)
(** Integer arrays with a shape, as the trace tools use NumPy's [ndarray].

    An array is its shape and its elements in row-major order.  Indexing and
    slicing along the first axis are definitions; conversions from Python
    values are an interface ([AsArray]), as NumPy decides them. *)

From S2P Require Import Prelude PyFloat PyText NumPy Json.

Record ndarray := NdArray { shape : list Z; data : list Z }.

Definition prod (sh : list Z) : Z := foldr Z.mul 1 sh.
Definition ndim (a : ndarray) : Z := zlen (shape a).

(** An array NumPy can hold: its shape counts its elements. *)
Definition nd_wf (a : ndarray) : Prop :=
  Forall (λ n, 0 ≤ n) (shape a) ∧ zlen (data a) = prod (shape a).

(** [a.shape[k]]. *)
Definition shape_at (a : ndarray) (k : Z) : result Z := py_index (shape a) k.

(** [a[i].reshape(-1)]. *)
Definition nd_row (a : ndarray) (i : Z) : result (list Z) :=
  match shape a with
  | [] => Err IndexError
  | n :: rest =>
      let j := if i <? 0 then i + n else i in
      if (0 <=? j) && (j <? n)
      then Ok (py_slice (data a) (j * prod rest) ((j + 1) * prod rest))
      else Err IndexError
  end.

(** [a[lo:hi].reshape(-1)]. *)
Definition nd_rows (a : ndarray) (lo hi : Z) : result (list Z) :=
  match shape a with
  | [] => Err IndexError
  | n :: rest =>
      let lo := slice_bound n lo in let hi := slice_bound n hi in
      Ok (py_slice (data a) (lo * prod rest) (hi * prod rest))
  end.

(** [a.astype(np.uint64)]. *)
Definition nd_astype_uint64 (a : ndarray) : ndarray := NdArray (shape a) (astype_uint64 (data a)).

(** [np.arange(start, stop, step)] for a positive step. *)
Definition arange (start stop step : Z) : list Z :=
  (λ k, start + k * step) <$> seqZ 0 (cdiv (stop - start) step).

(** Rows of the same width, as a matrix. *)
Definition nd_matrix (w : Z) (rows : list (list Z)) : ndarray :=
  NdArray [zlen rows; w] (concat rows).

Definition rectangular (w : Z) (rows : list (list Z)) : Prop := Forall (λ r, zlen r = w) rows.

(** ** Conversions *)

Definition json_row (l : list Z) : json := JList (JInt <$> l).

Class AsArray := {
  (** [np.asarray(v, dtype=np.uint64)] of a decoded JSON value. *)
  np_asarray_json : json → result ndarray;
  np_asarray_json_vector l :
    all_u64 l → np_asarray_json (json_row l) = Ok (NdArray [zlen l] l);
  np_asarray_json_matrix w rows :
    rows ≠ [] → rectangular w rows → Forall all_u64 rows →
    np_asarray_json (JList (json_row <$> rows)) = Ok (nd_matrix w rows);
  (** [np.asarray(rows, dtype)] of a list of lists of ints, for an unsigned
      dtype of the given width. *)
  np_asarray_rows : Z → list (list Z) → result ndarray;
  np_asarray_rows_matrix bits w rows :
    rows ≠ [] → rectangular w rows → Forall (Forall (in_width bits)) rows →
    np_asarray_rows bits rows = Ok (nd_matrix w rows);
  (** [np.asarray(l, dtype)] of a list of ints, unsigned or [int8]. *)
  np_asarray_uint : Z → list Z → result (list Z);
  np_asarray_uint_small bits l : Forall (in_width bits) l → np_asarray_uint bits l = Ok l;
  np_asarray_int8 : list Z → result (list Z);
  np_asarray_int8_small l : Forall (λ x, -128 ≤ x < 128) l → np_asarray_int8 l = Ok l;
  (** [np.arange(start, stop, step, dtype=np.uint64)]. *)
  np_arange : Z → Z → Z → result (list Z);
  np_arange_pos start stop step :
    0 < step → 0 ≤ start → stop ≤ 2 ^ 64 → np_arange start stop step = Ok (arange start stop step);
}.

(** ** Lemmas *)

Lemma prod_nonneg sh : Forall (λ n, 0 ≤ n) sh → 0 ≤ prod sh.
Proof. induction 1; simpl; [lia|nia]. Qed.
#[export] Hint Resolve prod_nonneg : memtier.

(** ** Rows of one width *)

Lemma take_concat_rows w rows k :
  rectangular w rows → 0 ≤ w → take (k * Z.to_nat w) (concat rows) = concat (take k rows) ∧ drop (k * Z.to_nat w) (concat rows) = concat (drop k rows).
Proof.
  intros H Hw. revert k; induction H as [|r rows Hr _ IH]; intros k; [cbn; by rewrite !take_nil, !drop_nil|].
  destruct k as [|k]; [done|]. cbn [take drop concat]. destruct (IH k) as [IH1 IH2].
  replace (S k * Z.to_nat w)%nat with (length r + k * Z.to_nat w)%nat by lia.
  by rewrite take_app_add, drop_app_add, IH1, IH2.
Qed.

Lemma py_slice_rows w rows i j :
  rectangular w rows → 0 ≤ w → 0 ≤ i → 0 ≤ j → py_slice (concat rows) (i * w) (j * w) = concat (py_slice rows i j).
Proof.
  intros H Hw Hi Hj. rewrite !py_slice_nonneg by nia.
  replace (Z.to_nat (i * w)) with (Z.to_nat i * Z.to_nat w)%nat by nia.
  replace (Z.to_nat (j * w - i * w)) with (Z.to_nat (j - i) * Z.to_nat w)%nat by (destruct (Z.le_gt_cases i j); nia).
  rewrite (proj2 (take_concat_rows w rows _ H Hw)). apply take_concat_rows; [|done]. by apply Forall_drop.
Qed.

Lemma length_rows w rows : rectangular w rows → zlen (concat rows) = zlen rows * w.
Proof. induction 1 as [|r rows Hr _ IH]; cbn [concat length]; [done|]. rewrite length_app. lia. Qed.

(** Batches of rows, cut in the rows or in the flat array. *)
Lemma batches_of_rows w b rows :
  rectangular w rows → 0 < w → 0 < b → batches_of (b * w) (concat rows) = (λ rs, concat rs) <$> batches_of b rows.
Proof.
  intros H Hw Hb. unfold batches_of. rewrite (length_rows w rows H).
  assert (cdiv (zlen rows * w) (b * w) = cdiv (zlen rows) b) as ->.
  { apply cdiv_unique; [nia|]. pose proof (cdiv_spec (zlen rows) b Hb). nia. }
  rewrite <-list_fmap_compose. apply list_fmap_ext. intros i k Hk.
  apply list_elem_of_lookup_2, elem_of_seqZ in Hk. cbn. rewrite <-(py_slice_rows w) by (done || lia || nia).
  f_equal; [lia|]. rewrite <-Z.mul_min_distr_nonneg_r by lia. f_equal. lia.
Qed.

Lemma nd_matrix_wf w rows : 0 ≤ w → rectangular w rows → nd_wf (nd_matrix w rows).
Proof.
  intros Hw H. split; [repeat constructor; lia|]. unfold nd_matrix, prod; simpl.
  induction H as [|r rows Hr _ IH]; simpl; [lia|]. rewrite length_app. nia.
Qed.

Lemma nd_row_Ok a n rest i :
  shape a = n :: rest → 0 ≤ i < n →
  nd_row a i = Ok (py_slice (data a) (i * prod rest) ((i + 1) * prod rest)).
Proof.
  intros E Hi. unfold nd_row. rewrite E. destruct (Z.ltb_spec i 0); [lia|].
  by rewrite (proj2 (andb_true_iff _ _)) by lia.
Qed.

Lemma length_nd_row a n rest i l :
  nd_wf a → shape a = n :: rest → 0 ≤ i < n → nd_row a i = Ok l → zlen l = prod rest.
Proof.
  intros [Hp Hl] E Hi. rewrite (nd_row_Ok a n rest i E Hi). intros [= <-].
  rewrite E in Hp, Hl. apply Forall_cons in Hp as [Hn Hp]. simpl in Hl.
  pose proof (prod_nonneg rest Hp). rewrite length_py_slice by nia. nia.
Qed.

Lemma nd_rows_Ok a n rest lo hi :
  shape a = n :: rest → 0 ≤ lo ≤ hi → hi ≤ n →
  nd_rows a lo hi = Ok (py_slice (data a) (lo * prod rest) (hi * prod rest)).
Proof.
  intros E Hlo Hhi. unfold nd_rows. rewrite E.
  rewrite !slice_bound_nonneg by lia. by rewrite !Z.min_r by lia.
Qed.

Lemma astype_py_slice l i j : astype_uint64 (py_slice l i j) = py_slice (astype_uint64 l) i j.
Proof. unfold astype_uint64, py_slice. rewrite length_fmap, fmap_take, fmap_drop. done. Qed.

Lemma py_slice_fmap {A B} (f : A → B) l i j : f <$> py_slice l i j = py_slice (f <$> l) i j.
Proof. unfold py_slice. rewrite length_fmap, fmap_take, fmap_drop. done. Qed.

Lemma length_arange start stop step : 0 < step → start ≤ stop → zlen (arange start stop step) = cdiv (stop - start) step.
Proof.
  intros Hs Hle. unfold arange. rewrite length_fmap, length_seqZ.
  rewrite Z2Nat.id; [done|]. apply cdiv_nonneg; lia.
Qed.

Lemma plain_json_row l : plain_json (json_row l).
Proof. apply plain_json_list, Forall_fmap. by apply Forall_true. Qed.
#[export] Hint Resolve plain_json_row : memtier.

(** ** A reference conversion *)

Definition json_uint (v : json) : option Z :=
  match v with JInt z => if decide (in_width 64 z) then Some z else None | _ => None end.
Definition json_uints (v : json) : option (list Z) :=
  match v with JList l => mapM json_uint l | _ => None end.

Definition asarray_rows_ref (ok : list Z → bool) (rows : list (list Z)) : result ndarray :=
  match rows with
  | [] => Ok (NdArray [0] [])
  | r :: _ =>
      if decide (Forall (λ r', zlen r' = zlen r) rows)
      then if forallb ok rows then Ok (nd_matrix (zlen r) rows) else Err OverflowError
      else Err ValueError
  end.

Definition asarray_json_ref (v : json) : result ndarray :=
  match json_uints v with
  | Some l => Ok (NdArray [zlen l] l)
  | None =>
      match v with
      | JList rows => match mapM json_uints rows with
                      | Some rows => asarray_rows_ref (λ _, true) rows
                      | None => Err ValueError
                      end
      | _ => Err TypeError
      end
  end.

Definition check_all (p : Z → bool) (l : list Z) : result (list Z) :=
  if forallb p l then Ok l else Err OverflowError.

Definition width_ok (bits z : Z) : bool := bool_decide (in_width bits z).

Lemma forallb_width bits l : Forall (in_width bits) l → forallb (width_ok bits) l = true.
Proof.
  intros H. apply forallb_forall. intros x Hx. apply bool_decide_eq_true.
  rewrite Forall_forall in H. apply H. by apply list_elem_of_In.
Qed.

Lemma mapM_Some_id {A B} (f : B → option A) (g : A → B) l :
  Forall (λ x, f (g x) = Some x) l → mapM f (g <$> l) = Some l.
Proof.
  intros H. apply mapM_Some. rewrite Forall2_fmap_l. induction H; constructor; done.
Qed.

Lemma json_uints_row l : all_u64 l → json_uints (json_row l) = Some l.
Proof.
  intros H. apply mapM_Some_id. refine (Forall_impl _ _ _ H _). intros z Hz.
  simpl. by rewrite decide_True.
Qed.

Lemma asarray_rows_ref_matrix ok w rows :
  rows ≠ [] → rectangular w rows → forallb ok rows = true → asarray_rows_ref ok rows = Ok (nd_matrix w rows).
Proof.
  intros Hne Hr Hok. unfold asarray_rows_ref. destruct rows as [|r rows]; [done|].
  assert (zlen r = w) as -> by (by apply Forall_cons in Hr as [? _]).
  rewrite decide_True by done. by rewrite Hok.
Qed.

#[program] Definition reference_asarray : AsArray := {|
  np_asarray_json := asarray_json_ref;
  np_asarray_rows bits := asarray_rows_ref (forallb (width_ok bits));
  np_asarray_uint bits := check_all (width_ok bits);
  np_asarray_int8 := check_all (λ x, (-128 <=? x) && (x <? 128));
  np_arange start stop step := if step =? 0 then Err ZeroDivisionError else Ok (arange start stop step);
|}.
Next Obligation. intros l Hl. unfold asarray_json_ref. by rewrite json_uints_row. Qed.
Next Obligation.
  intros w rows Hne Hr Hu. unfold asarray_json_ref.
  assert (json_uints (JList (json_row <$> rows)) = None) as ->.
  { destruct rows as [|r rows]; [done|]. done. }
  assert (mapM json_uints (json_row <$> rows) = Some rows) as ->.
  { apply mapM_Some_id. refine (Forall_impl _ _ _ Hu _). intros r. apply json_uints_row. }
  apply asarray_rows_ref_matrix; [done|done|]. clear. by induction rows.
Qed.
Next Obligation.
  intros bits w rows Hne Hr Hu. apply asarray_rows_ref_matrix; [done|done|].
  apply forallb_forall. intros r Hin. apply forallb_width. rewrite Forall_forall in Hu.
  apply Hu. by apply list_elem_of_In.
Qed.
Next Obligation. intros bits l Hl. unfold check_all. by rewrite forallb_width. Qed.
Next Obligation.
  intros l Hl. unfold check_all.
  assert (forallb (λ x, (-128 <=? x) && (x <? 128)) l = true) as ->; [|done].
  induction Hl as [|x l Hx _ IH]; simpl; [done|]. rewrite IH. lia.
Qed.
Next Obligation. intros start stop step Hs _ _. cbv beta. by rewrite (proj2 (Z.eqb_neq step 0)) by lia. Qed.
