(* ===== verification/Blake2b.v ===== *)
(** BLAKE2b (RFC 7693), as [hashlib.blake2b] computes it: unkeyed, sequential
    mode, with a digest size and a personalization string.  Words are 64-bit
    unsigned integers in [Z], byte strings are lists of [0..255]. *)

From S2P Require Import Prelude NumPy.

(** ** Bytes and words *)

Definition is_byte (b : Z) : Prop := in_width 8 b.

(** [int.from_bytes(bs, "little")]. *)
Fixpoint of_bytes_le (bs : list Z) : Z :=
  match bs with
  | [] => 0
  | b :: bs => b + 256 * of_bytes_le bs
  end.

(** The [n] low bytes of [z], little-endian. *)
Fixpoint to_bytes_le_n (n : nat) (z : Z) : list Z :=
  match n with
  | O => []
  | S n => z `mod` 256 :: to_bytes_le_n n (z `div` 256)
  end.

(** [z.to_bytes(n, "little", signed=False)]. *)
Definition to_bytes_le (n : Z) (z : Z) : result (list Z) :=
  if (0 <=? z) && (z <? 256 ^ n) then Ok (to_bytes_le_n (Z.to_nat n) z) else Err OverflowError.

Definition add64 (x y : Z) : Z := wrap 64 (x + y).
Definition rotr64 (x n : Z) : Z := Z.lor (Z.shiftr x n) (wrap 64 (Z.shiftl x (64 - n))).

(** ** The compression function *)

Definition blake2b_iv : list Z :=
  [0x6a09e667f3bcc908; 0xbb67ae8584caa73b; 0x3c6ef372fe94f82b; 0xa54ff53a5f1d36f1;
   0x510e527fade682d1; 0x9b05688c2b3e6c1f; 0x1f83d9abfb41bd6b; 0x5be0cd19137e2179].

Definition blake2b_sigma : list (list nat) :=
  ([[ 0; 1; 2; 3; 4; 5; 6; 7; 8; 9; 10; 11; 12; 13; 14; 15];
    [14; 10; 4; 8; 9; 15; 13; 6; 1; 12; 0; 2; 11; 7; 5; 3];
    [11; 8; 12; 0; 5; 2; 15; 13; 10; 14; 3; 6; 7; 1; 9; 4];
    [ 7; 9; 3; 1; 13; 12; 11; 14; 2; 6; 5; 10; 4; 0; 15; 8];
    [ 9; 0; 5; 7; 2; 4; 10; 15; 14; 1; 11; 12; 6; 8; 3; 13];
    [ 2; 12; 6; 10; 0; 11; 8; 3; 4; 13; 7; 5; 15; 14; 1; 9];
    [12; 5; 1; 15; 14; 13; 4; 10; 0; 7; 6; 3; 9; 2; 8; 11];
    [13; 11; 7; 14; 12; 1; 3; 9; 5; 0; 15; 4; 8; 6; 2; 10];
    [ 6; 15; 14; 9; 11; 3; 0; 8; 12; 2; 13; 7; 1; 4; 10; 5];
    [10; 2; 8; 4; 7; 6; 1; 5; 15; 11; 9; 14; 3; 12; 13; 0];
    [ 0; 1; 2; 3; 4; 5; 6; 7; 8; 9; 10; 11; 12; 13; 14; 15];
    [14; 10; 4; 8; 9; 15; 13; 6; 1; 12; 0; 2; 11; 7; 5; 3]])%nat.

Definition word (v : list Z) (i : nat) : Z := nth i v 0.

(** The mixing function G on the work vector. *)
Definition mix (v : list Z) (a b c d : nat) (x y : Z) : list Z :=
  let va := add64 (add64 (word v a) (word v b)) x in
  let vd := rotr64 (Z.lxor (word v d) va) 32 in
  let vc := add64 (word v c) vd in
  let vb := rotr64 (Z.lxor (word v b) vc) 24 in
  let va := add64 (add64 va vb) y in
  let vd := rotr64 (Z.lxor vd va) 16 in
  let vc := add64 vc vd in
  let vb := rotr64 (Z.lxor vb vc) 63 in
  <[a := va]> (<[b := vb]> (<[c := vc]> (<[d := vd]> v))).

Definition blake2b_round (m : list Z) (v : list Z) (s : list nat) : list Z :=
  let k i := word m (nth i s O) in
  let v := mix v 0 4 8 12 (k 0%nat) (k 1%nat) in
  let v := mix v 1 5 9 13 (k 2%nat) (k 3%nat) in
  let v := mix v 2 6 10 14 (k 4%nat) (k 5%nat) in
  let v := mix v 3 7 11 15 (k 6%nat) (k 7%nat) in
  let v := mix v 0 5 10 15 (k 8%nat) (k 9%nat) in
  let v := mix v 1 6 11 12 (k 10%nat) (k 11%nat) in
  let v := mix v 2 7 8 13 (k 12%nat) (k 13%nat) in
  mix v 3 4 9 14 (k 14%nat) (k 15%nat).

(** The 16 message words of a 128-byte block. *)
Definition block_words (b : list Z) : list Z :=
  (λ i, of_bytes_le (take 8 (drop (8 * i) b))) <$> seq 0 16.

(** [h]: chain value; [t]: bytes hashed so far, this block included. *)
Definition compress (h : list Z) (block : list Z) (t : Z) (last : bool) : list Z :=
  let v := h ++ blake2b_iv in
  let v := <[12%nat := Z.lxor (word v 12) (wrap 64 t)]> v in
  let v := <[13%nat := Z.lxor (word v 13) (wrap 64 (Z.shiftr t 64))]> v in
  let v := if last then <[14%nat := Z.lxor (word v 14) (2 ^ 64 - 1)]> v else v in
  let v := foldl (blake2b_round (block_words block)) v blake2b_sigma in
  (λ i, Z.lxor (Z.lxor (word h i) (word v i)) (word v (i + 8)%nat)) <$> seq 0 8.

(** ** The hash *)

Definition pad_to (n : nat) (bs : list Z) : list Z := bs ++ replicate (n - length bs) 0.

(** The parameter block: digest length, key length 0, fanout 1, depth 1, and
    the personalization in the last 16 bytes. *)
Definition param_block (digest_size : Z) (person : list Z) : list Z :=
  [digest_size; 0; 1; 1] ++ replicate 44 0 ++ pad_to 16 person.

Definition blake2b_init (digest_size : Z) (person : list Z) : list Z :=
  (λ i, Z.lxor (word blake2b_iv i) (of_bytes_le (take 8 (drop (8 * i) (param_block digest_size person)))))
    <$> seq 0 8.

(** All blocks but the last; the empty message is one zero block.  [fuel]
    bounds the number of blocks. *)
Fixpoint blake2b_blocks (fuel : nat) (h : list Z) (t : Z) (data : list Z) : list Z :=
  if (Nat.leb (length data) 128) then compress h (pad_to 128 data) (t + zlen data) true
  else match fuel with
       | O => h
       | S fuel => blake2b_blocks fuel (compress h (take 128 data) (t + 128) false) (t + 128) (drop 128 data)
       end.

Definition blake2b_state (digest_size : Z) (person data : list Z) : list Z :=
  blake2b_blocks (length data) (blake2b_init digest_size person) 0 data.

(** [hashlib.blake2b(data, digest_size=digest_size, person=person).digest()]. *)
Definition blake2b (digest_size : Z) (person data : list Z) : list Z :=
  take (Z.to_nat digest_size) (concat (to_bytes_le_n 8 <$> blake2b_state digest_size person data)).

(** ** Lemmas *)

Lemma length_to_bytes_le_n n z : length (to_bytes_le_n n z) = n.
Proof. revert z; induction n as [|n IH]; intros z; simpl; [done|]. by rewrite IH. Qed.

Lemma to_bytes_le_n_bytes n z : Forall is_byte (to_bytes_le_n n z).
Proof.
  revert z; induction n as [|n IH]; intros z; simpl; constructor; [|apply IH].
  apply (Z.mod_pos_bound z 256). lia.
Qed.

Lemma of_bytes_le_bound bs : Forall is_byte bs → 0 ≤ of_bytes_le bs < 256 ^ zlen bs.
Proof.
  induction 1 as [|b bs Hb _ IH]; simpl length; simpl of_bytes_le; [done|].
  rewrite Nat2Z.inj_succ, Z.pow_succ_r by lia. unfold is_byte, in_width in Hb.
  change (2 ^ 8) with 256 in Hb. lia.
Qed.

(** Little-endian encoding round-trips. *)
Lemma of_to_bytes_le n z : 0 ≤ z < 256 ^ Z.of_nat n → of_bytes_le (to_bytes_le_n n z) = z.
Proof.
  revert z; induction n as [|n IH]; intros z Hz; simpl to_bytes_le_n; simpl of_bytes_le.
  - simpl in Hz. lia.
  - rewrite Nat2Z.inj_succ, Z.pow_succ_r in Hz by lia. pose proof (Z.div_mod z 256 ltac:(lia)).
    pose proof (Z.mod_pos_bound z 256 ltac:(lia)).
    rewrite IH by (split; [apply Z.div_pos; lia|apply Z.div_lt_upper_bound; lia]). lia.
Qed.

Lemma length_compress h b t l : length (compress h b t l) = 8%nat.
Proof. unfold compress. by rewrite length_fmap, length_seq. Qed.

Lemma length_blake2b_blocks fuel h t data :
  length h = 8%nat → length (blake2b_blocks fuel h t data) = 8%nat.
Proof.
  revert h t data; induction fuel as [|fuel IH]; intros h t data Hh; simpl.
  - destruct (Nat.leb _ _); [apply length_compress|done].
  - destruct (Nat.leb _ _); [apply length_compress|]. apply IH, length_compress.
Qed.

(** The digest: [digest_size] bytes, for the sizes the algorithm allows. *)
Lemma blake2b_digest ds person data :
  0 ≤ ds ≤ 64 → zlen (blake2b ds person data) = ds ∧ Forall is_byte (blake2b ds person data).
Proof.
  intros Hds. unfold blake2b. set (w := blake2b_state ds person data).
  assert (length w = 8%nat) as Hw by
    (apply length_blake2b_blocks; unfold blake2b_init; by rewrite length_fmap, length_seq).
  split.
  - rewrite length_take.
    assert (length (concat (to_bytes_le_n 8 <$> w)) = 64%nat) as ->; [|lia].
    clearbody w. do 8 (destruct w as [|? w]; [done|]). by destruct w.
  - apply Forall_take, Forall_concat, Forall_fmap, Forall_true. intros x. apply to_bytes_le_n_bytes.
Qed.

(** Enough fuel: every block of the message is absorbed, so one more unit of
    fuel never changes the result. *)
Lemma blake2b_blocks_fuel fuel fuel' h t data :
  (length data ≤ 128 * S fuel)%nat → (length data ≤ 128 * S fuel')%nat →
  blake2b_blocks fuel h t data = blake2b_blocks fuel' h t data.
Proof.
  revert fuel' h t data; induction fuel as [|fuel IH]; intros fuel' h t data H1 H2.
  - destruct fuel'; simpl; destruct (Nat.leb_spec (length data) 128); [done|lia|done|lia].
  - destruct fuel'; simpl; destruct (Nat.leb_spec (length data) 128); [done|lia|done|].
    apply IH; rewrite length_drop; lia.
Qed.
