(* ===== verification/Criteo.v ===== *)
(** Criteo rows and hashed embedding ids
    (memtier_embedding_bench/python/criteo_trace_dataset.py).

    [parse_criteo_line] splits a row into a label and its categorical columns,
    [parse_hash_sizes] and [field_offsets_from_hash_sizes] lay the hash ranges
    of the fields out in one id space, and [categorical_to_ids] maps a row to
    ids in it with the stable hash. *)

From S2P Require Import Prelude PyText NumPy Blake2b.

Definition DEFAULT_NUM_DENSE : Z := 13.
Definition DEFAULT_NUM_FIELDS : Z := 26.

(** ** The stable hash *)

Inductive hash_value : Type :=
| HStr (s : str)
| HBytes (bs : list Z).

Definition stable_hash64 (value : hash_value) (seed : Z) : result Z :=
  let data := match value with HStr s => utf8 s | HBytes bs => bs end in
  person ← to_bytes_le 8 seed;
  Ok (of_bytes_le (blake2b 8 person data)).

(** ** Rows *)

(** [int(parts[0])], with [ValueError] caught. *)
Definition parse_label (s : str) : option Z :=
  match py_int s with Ok z => Some z | Err _ => None end.

Definition parse_criteo_line (line : str) (num_fields : Z) : result (option Z * list str) :=
  let line := rstrip (Z.eqb 10) line in
  let parts := if contains_char 9 line then split_char 9 line else split_ws line in
  match parts with
  | [] => Err ValueError
  | p0 :: _ =>
      let label := parse_label p0 in
      let cat_start := 1 + DEFAULT_NUM_DENSE in
      let cats := py_slice parts cat_start (cat_start + num_fields) in
      let cats := if zlen cats <? num_fields
                  then cats ++ py_repeat (num_fields - zlen cats) [] else cats in
      Ok (label, py_slice cats 0 num_fields)
  end.

(** The generator: one element per non-blank line of the files in turn; a
    file that cannot be opened raises when it is reached.  A file is given by
    its decoded lines. *)
Definition iter_criteo_rows (paths : list (result (list str))) (num_fields : Z)
  : list (result (option Z * list str)) :=
  concat ((λ file, match file with
                   | Ok lines => (λ line, parse_criteo_line line num_fields) <$>
                                   filter (λ line, strip line ≠ []) lines
                   | Err e => [Err e]
                   end) <$> paths).

(** ** Hash ranges *)

Definition parse_hash_sizes (value : str) (num_fields : Z) : result (list Z) :=
  let pieces := filter (λ x, x ≠ []) (strip <$> split_char 44 value) in
  match pieces with
  | [p] =>
      size ← py_int p;
      if size <=? 0 then Err ValueError else Ok (py_repeat num_fields size)
  | _ =>
      if negb (zlen pieces =? num_fields) then Err ValueError else
      sizes ← mapM py_int pieces;
      if existsb (λ x, x <=? 0) sizes then Err ValueError else Ok sizes
  end.

(** The loop of [field_offsets_from_hash_sizes], [total] being its accumulator. *)
Fixpoint offsets_from (total : Z) (hash_sizes : list Z) : list Z :=
  match hash_sizes with
  | [] => []
  | size :: rest => total :: offsets_from (total + size) rest
  end.
Definition field_offsets_from_hash_sizes (hash_sizes : list Z) : list Z := offsets_from 0 hash_sizes.

(** ** Ids *)

Definition py_mod (a b : Z) : result Z := if b =? 0 then Err ZeroDivisionError else Ok (a `mod` b).

(** [f"__EMPTY_FIELD_{field}__"]. *)
Definition empty_sentinel (field : Z) : str := u "__EMPTY_FIELD_" ++ dec field ++ u "__".
(** [f"{field}:{value}"]. *)
Definition hash_key (field : Z) (value : str) : str := dec field ++ [58] ++ value.

(** One iteration of the loop of [categorical_to_ids]. *)
Definition category_id (hash_sizes field_offsets : list Z) (global_id_mode : str) (drop_empty : bool)
    (seed : Z) (ids : list Z) (field_raw : Z * str) : result (list Z) :=
  let '(field, raw) := field_raw in
  let value := if decide (raw = []) then empty_sentinel field else raw in
  if bool_decide (raw = []) && drop_empty then Ok ids
  else if decide (global_id_mode = u "per_field_offset") then
    h ← stable_hash64 (HStr (hash_key field value)) seed;
    size ← py_index hash_sizes field;
    local ← py_mod h size;
    off ← py_index field_offsets field;
    Ok (ids ++ [off + local])
  else if decide (global_id_mode = u "shared_hash") then
    h ← stable_hash64 (HStr (hash_key field value)) seed;
    id ← py_mod h (zsum hash_sizes);
    Ok (ids ++ [id])
  else Err ValueError.

Definition categorical_to_ids (cats : list str) (hash_sizes field_offsets : list Z)
    (global_id_mode : str) (drop_empty : bool) (seed : Z) : result (list Z) :=
  foldM (category_id hash_sizes field_offsets global_id_mode drop_empty seed) [] (enumerate cats).

(** ** Lemmas: hashing *)

Definition seed_ok (seed : Z) : bool := (0 <=? seed) && (seed <? 256 ^ 8).

Lemma stable_hash64_Ok v seed :
  seed_ok seed = true → ∃ h, stable_hash64 v seed = Ok h ∧ in_width 64 h.
Proof.
  intros Hs. unfold stable_hash64, to_bytes_le. unfold seed_ok in Hs. rewrite Hs. simpl mbind.
  eexists; split; [reflexivity|].
  match goal with |- context [blake2b 8 ?p ?d] => destruct (blake2b_digest 8 p d ltac:(lia)) as [Hl Hb] end.
  pose proof (of_bytes_le_bound _ Hb) as Hbound. rewrite Hl in Hbound. exact Hbound.
Qed.

Lemma hash_key_inj f1 v1 f2 v2 :
  0 ≤ f1 → 0 ≤ f2 → hash_key f1 v1 = hash_key f2 v2 → f1 = f2 ∧ v1 = v2.
Proof.
  intros H1 H2. unfold hash_key.
  assert (∀ f, 0 ≤ f → Forall (λ c, c ≠ 58) (dec f)) as ND.
  { intros f Hf. unfold dec. destruct (Z.ltb_spec f 0); [lia|].
    eapply Forall_impl; [by apply dec_nonneg_digits|]. unfold is_digit. intros; lia. }
  assert (∀ (a b : str) v w, Forall (λ c, c ≠ 58) a → Forall (λ c, c ≠ 58) b →
    a ++ 58 :: v = b ++ 58 :: w → a = b ∧ v = w) as Split.
  { intros a b v w Ha; revert b; induction Ha as [|x a Hx Ha IH]; intros b Hb E.
    - destruct Hb as [|y b Hy Hb]; simpl in E; [by injection E as ->|]. by injection E as <- E.
    - destruct Hb as [|y b Hy Hb]; simpl in E; [by injection E as -> E|].
      injection E as -> E. by destruct (IH b Hb E) as [-> ->]. }
  intros E. destruct (Split _ _ _ _ (ND f1 H1) (ND f2 H2) E) as [Ed ->].
  split; [by apply dec_inj|done].
Qed.

(** ** Lemmas: hash ranges *)

Lemma length_offsets_from t sizes : length (offsets_from t sizes) = length sizes.
Proof. revert t; induction sizes as [|s sizes IH]; intros t; simpl; [done|]. by rewrite IH. Qed.

Lemma offsets_from_lookup t sizes (i : nat) :
  (i < length sizes)%nat → offsets_from t sizes !! i = Some (t + zsum (take i sizes)).
Proof.
  revert t i; induction sizes as [|s sizes IH]; intros t i Hi; simpl in *; [lia|].
  destruct i as [|i]; simpl; [f_equal; lia|]. rewrite IH by lia. f_equal. lia.
Qed.

Lemma zsum_take_drop n l : zsum l = zsum (take n l) + zsum (drop n l).
Proof. rewrite <-zsum_app. by rewrite take_drop. Qed.

Lemma zsum_take_S (i : nat) l x : l !! i = Some x → zsum (take (S i) l) = zsum (take i l) + x.
Proof. intros H. rewrite (take_S_r _ _ _ H), zsum_app. simpl. lia. Qed.

Lemma zsum_take_mono (i j : nat) l : Forall (λ x, 0 ≤ x) l → (i ≤ j)%nat → zsum (take i l) ≤ zsum (take j l).
Proof.
  intros Hl Hij. rewrite (zsum_take_drop i (take j l)), take_take, Nat.min_l by done.
  assert (0 ≤ zsum (drop i (take j l))) by (by apply zsum_nonneg, Forall_drop, Forall_take). lia.
Qed.

(** [id] lies in the range of field [field]: the ranges follow each other, each
    as long as the hash size of its field. *)
Definition in_field_range (hash_sizes : list Z) (field id : Z) : Prop :=
  (Z.to_nat field < length hash_sizes)%nat ∧
  zsum (take (Z.to_nat field) hash_sizes) ≤ id < zsum (take (S (Z.to_nat field)) hash_sizes).

(** The offsets are where the ranges start. *)
Lemma in_field_range_spec sizes field id :
  in_field_range sizes field id ↔
  ∃ off size, field_offsets_from_hash_sizes sizes !! Z.to_nat field = Some off ∧
    sizes !! Z.to_nat field = Some size ∧ off ≤ id < off + size.
Proof.
  unfold in_field_range, field_offsets_from_hash_sizes. split.
  - intros [Hl Hid]. destruct (lookup_lt_is_Some_2 _ _ Hl) as [size Hs].
    rewrite (zsum_take_S _ _ _ Hs) in Hid. rewrite offsets_from_lookup by done.
    eexists _, size. split_and!; [done|done|lia..].
  - intros (off & size & Ho & Hs & Hid). pose proof (lookup_lt_Some _ _ _ Hs) as Hl.
    rewrite offsets_from_lookup in Ho by done. injection Ho as <-.
    rewrite (zsum_take_S _ _ _ Hs). split; [done|lia].
Qed.

Lemma in_field_range_total sizes field id :
  Forall (λ x, 0 < x) sizes → in_field_range sizes field id → 0 ≤ id < zsum sizes.
Proof.
  intros Hp [Hl Hid].
  assert (Forall (λ x, 0 ≤ x) sizes) as Hn by forall_lia.
  split.
  - pose proof (zsum_take_mono 0 (Z.to_nat field) sizes Hn ltac:(lia)). simpl in *. lia.
  - pose proof (zsum_take_mono (S (Z.to_nat field)) (length sizes) sizes Hn ltac:(lia)) as H.
    rewrite firstn_all in H. lia.
Qed.

(** Positive sizes that sum below [2^64] fit, and so do their offsets. *)
Lemma sizes_in_width sizes :
  Forall (λ x, 0 < x) sizes → zsum sizes < 2 ^ 64 →
  Forall (in_width 64) (field_offsets_from_hash_sizes sizes) ∧ Forall (in_width 64) sizes.
Proof.
  intros Hp Hz. assert (Forall (λ x, 0 ≤ x) sizes) as Hn by forall_lia.
  assert (∀ k, (k ≤ length sizes)%nat → 0 ≤ zsum (take k sizes) ≤ zsum sizes) as Hk.
  { intros k Hk. pose proof (zsum_take_mono 0 k sizes Hn ltac:(lia)) as H0.
    pose proof (zsum_take_mono k (length sizes) sizes Hn Hk) as H1. rewrite firstn_all in H1. simpl in H0. lia. }
  unfold in_width. split; apply Forall_lookup; intros k x Hx; pose proof (lookup_lt_Some _ _ _ Hx) as Hl.
  - unfold field_offsets_from_hash_sizes in *. rewrite length_offsets_from in Hl.
    rewrite offsets_from_lookup in Hx by done. injection Hx as <-. pose proof (Hk k ltac:(lia)). lia.
  - pose proof (zsum_take_S _ _ _ Hx) as E. pose proof (Hk k ltac:(lia)). pose proof (Hk (S k) ltac:(lia)).
    pose proof (Forall_lookup_1 _ _ _ _ Hn Hx) as Hx0. cbv beta in Hx0. lia.
Qed.

(** The id ranges of two different fields are disjoint, so an id
    determines the field it came from. *)
Lemma field_ranges_disjoint sizes f g id :
  Forall (λ x, 0 < x) sizes → 0 ≤ f → 0 ≤ g →
  in_field_range sizes f id → in_field_range sizes g id → f = g.
Proof.
  intros Hp Hf Hg [Lf Rf] [Lg Rg].
  assert (Forall (λ x, 0 ≤ x) sizes) as Hn by forall_lia.
  destruct (Z.lt_total f g) as [Hlt|[->|Hlt]]; [exfalso|done|exfalso].
  - pose proof (zsum_take_mono (S (Z.to_nat f)) (Z.to_nat g) sizes Hn ltac:(lia)). lia.
  - pose proof (zsum_take_mono (S (Z.to_nat g)) (Z.to_nat f) sizes Hn ltac:(lia)). lia.
Qed.

(** The categories that get an id. *)
Definition kept (drop_empty : bool) (cats : list (Z * str)) : list (Z * str) :=
  filter (λ fr, negb (bool_decide (fr.2 = []) && drop_empty) = true) cats.

(** Loop rule for [categorical_to_ids]: when every kept category yields an id
    related to it by [R], the loop returns one related id per kept category. *)
Lemma category_loop sizes offs mode drop seed (R : Z * str → Z → Prop) cats ids0 :
  (∀ fr ids, fr ∈ cats → bool_decide (fr.2 = []) && drop = false →
     ∃ id, category_id sizes offs mode drop seed ids fr = Ok (ids ++ [id]) ∧ R fr id) →
  ∃ ids, foldM (category_id sizes offs mode drop seed) ids0 cats = Ok (ids0 ++ ids) ∧
    Forall2 R (kept drop cats) ids.
Proof.
  revert ids0; induction cats as [|[f raw] cats IH]; intros ids0 H; cbn [foldM].
  - exists []. rewrite app_nil_r. split; [done|constructor].
  - unfold kept. rewrite filter_cons. fold (kept drop cats). cbn [snd].
    destruct (bool_decide (raw = []) && drop) eqn:E; cbn [negb].
    + rewrite decide_False by done.
      assert (category_id sizes offs mode drop seed ids0 (f, raw) = Ok ids0) as ->
        by (unfold category_id; by rewrite E). cbn [mbind result_bind].
      destruct (IH ids0) as (ids & Hids & HR); [intros; apply H; [by right|done]|].
      exists ids. done.
    + rewrite decide_True by done.
      destruct (H (f, raw) ids0) as (id & -> & Hid); [left|done|]. cbn [mbind result_bind].
      destruct (IH (ids0 ++ [id])) as (ids & -> & HR); [intros; apply H; [by right|done]|].
      exists (id :: ids). rewrite <-app_assoc. split; [done|]. by constructor.
Qed.

(** The text that is hashed for a category. *)
Definition field_text (fr : Z * str) : str := hash_key fr.1 (if decide (fr.2 = []) then empty_sentinel fr.1 else fr.2).

(** The id of a category: the start of the range of its field, and the hash of
    the field and the value, modulo the size of the range. *)
Definition field_id (sizes : list Z) (seed : Z) (fr : Z * str) (id : Z) : Prop :=
  ∃ h size, stable_hash64 (HStr (field_text fr)) seed = Ok h ∧ sizes !! Z.to_nat fr.1 = Some size ∧
    id = zsum (take (Z.to_nat fr.1) sizes) + h `mod` size.

Lemma field_id_in_range sizes seed fr id : Forall (λ x, 0 < x) sizes → field_id sizes seed fr id → in_field_range sizes fr.1 id.
Proof.
  intros Hp (h & size & _ & Hs & ->). pose proof (Forall_lookup_1 _ _ _ _ Hp Hs) as Hpos. cbv beta in Hpos.
  pose proof (Z.mod_pos_bound h size Hpos). split; [by eapply lookup_lt_Some|]. rewrite (zsum_take_S _ _ _ Hs). lia.
Qed.

Lemma category_id_per_field sizes drop seed f raw ids :
  seed_ok seed = true → Forall (λ x, 0 < x) sizes → 0 ≤ f < zlen sizes →
  bool_decide (raw = []) && drop = false →
  ∃ id, category_id sizes (field_offsets_from_hash_sizes sizes) (u "per_field_offset") drop seed ids (f, raw)
        = Ok (ids ++ [id]) ∧ field_id sizes seed (f, raw) id.
Proof.
  intros Hs Hp Hf E. unfold category_id. rewrite E.
  rewrite decide_True by done.
  destruct (stable_hash64_Ok (HStr (field_text (f, raw))) seed Hs) as (h & Eh & Hh).
  unfold field_text in Eh. cbn [fst snd] in Eh. rewrite Eh. simpl.
  destruct (lookup_lt_is_Some_2 sizes (Z.to_nat f)) as [size Hsz]; [lia|].
  rewrite (py_index_nonneg sizes f size ltac:(lia) Hsz). simpl.
  pose proof (Forall_lookup_1 _ _ _ _ Hp Hsz) as Hpos. simpl in Hpos.
  unfold py_mod. destruct (Z.eqb_spec size 0); [lia|]. simpl.
  assert (field_offsets_from_hash_sizes sizes !! Z.to_nat f = Some (zsum (take (Z.to_nat f) sizes))) as Ho
    by (unfold field_offsets_from_hash_sizes; rewrite offsets_from_lookup by lia; f_equal; lia).
  rewrite (py_index_nonneg _ f _ ltac:(lia) Ho). simpl.
  eexists; split; [reflexivity|]. by exists h, size.
Qed.

Lemma category_id_shared sizes offs drop seed f raw ids :
  seed_ok seed = true → 0 < zsum sizes → bool_decide (raw = []) && drop = false →
  ∃ id, category_id sizes offs (u "shared_hash") drop seed ids (f, raw) = Ok (ids ++ [id]) ∧
    0 ≤ id < zsum sizes.
Proof.
  intros Hs Hp E. unfold category_id. rewrite E.
  rewrite decide_False by done. rewrite decide_True by done.
  edestruct (stable_hash64_Ok (HStr (hash_key f (if decide (raw = []) then empty_sentinel f else raw)))
    seed Hs) as (h & -> & Hh). simpl.
  unfold py_mod. destruct (Z.eqb_spec (zsum sizes) 0); [lia|]. simpl.
  eexists; split; [reflexivity|]. by apply Z.mod_pos_bound.
Qed.

(** ** Lemmas: rows *)

(** Cut to [n] columns, or fill with empty columns. *)
Definition fit (n : Z) (cats : list str) : list str :=
  take (Z.to_nat n) (cats ++ replicate (Z.to_nat n - length cats) []).

Lemma length_fit n cats : 0 ≤ n → zlen (fit n cats) = n.
Proof. intros. unfold fit. rewrite length_take, length_app, length_replicate. lia. Qed.

Lemma fit_exact n cats : zlen cats = n → fit n cats = cats.
Proof. intros. unfold fit. rewrite take_app_le by lia. rewrite take_ge by lia. done. Qed.

(** The columns of a split row. *)
Definition row_cats (parts : list str) (num_fields : Z) : list str :=
  fit num_fields (drop (Z.to_nat (1 + DEFAULT_NUM_DENSE)) parts).

Lemma parse_criteo_line_parts line num_fields p0 parts
    (s := rstrip (Z.eqb 10) line) :
  0 ≤ num_fields →
  (if contains_char 9 s then split_char 9 s else split_ws s) = p0 :: parts →
  parse_criteo_line line num_fields = Ok (parse_label p0, row_cats (p0 :: parts) num_fields).
Proof.
  intros Hn E. unfold parse_criteo_line. fold s. rewrite E. do 2 f_equal. unfold row_cats, fit.
  set (l := p0 :: parts) in *. clearbody l. clear E.
  rewrite (py_slice_nonneg l) by (unfold DEFAULT_NUM_DENSE; lia).
  replace (1 + DEFAULT_NUM_DENSE + num_fields - (1 + DEFAULT_NUM_DENSE)) with num_fields by lia.
  set (c := drop _ l). clearbody c. clear l.
  assert (zlen (take (Z.to_nat num_fields) c) = Z.min num_fields (zlen c)) as L
    by (rewrite length_take; lia).
  destruct (Z.ltb_spec (zlen (take (Z.to_nat num_fields) c)) num_fields) as [Hlt|Hge].
  - rewrite (take_ge c) by lia. rewrite py_slice_nonneg by lia. rewrite Z.sub_0_r. simpl drop.
    unfold py_repeat.
    by replace (Z.to_nat (num_fields - zlen c)) with (Z.to_nat num_fields - length c)%nat by lia.
  - rewrite py_slice_nonneg by lia. rewrite Z.sub_0_r. change (Z.to_nat 0) with 0%nat.
    rewrite drop_0, take_take, Nat.min_id. by rewrite take_app_le by lia.
Qed.

Lemma contains_strip_split line (s := rstrip (Z.eqb 10) line) :
  strip line ≠ [] → ∃ p0 parts, (if contains_char 9 s then split_char 9 s else split_ws s) = p0 :: parts.
Proof.
  intros (c & Hc & Hsp)%strip_nonempty.
  assert (c ∈ s) as Hs.
  { assert (c ≠ 10) as Hn by (by intros ->). unfold s, rstrip.
    apply list_elem_of_In, in_rev. rewrite rev_involutive.
    assert (c ∈ rev line) as Hr by (apply list_elem_of_In; rewrite <-in_rev; by apply list_elem_of_In).
    apply list_elem_of_In. clear -Hr Hn. induction (rev line) as [|d r IH]; [done|].
    cbn [drop_while]. destruct (Z.eqb_spec 10 d) as [<-|]; [|done].
    apply elem_of_cons in Hr as [->|Hr]; [done|]. by apply IH. }
  destruct (contains_char 9 s).
  - pose proof (split_char_nonempty 9 s). destruct (split_char 9 s); [done|eauto].
  - pose proof (split_ws_nonempty s c Hs Hsp). destruct (split_ws s); [done|eauto].
Qed.

(** ** Properties *)

Lemma per_field_ids cats sizes drop seed :
  seed_ok seed = true → Forall (λ x, 0 < x) sizes → zlen cats ≤ zlen sizes →
  ∃ ids, categorical_to_ids cats sizes (field_offsets_from_hash_sizes sizes)
           (u "per_field_offset") drop seed = Ok ids ∧
    Forall2 (field_id sizes seed) (kept drop (enumerate cats)) ids ∧
    Forall (λ id, 0 ≤ id < zsum sizes) ids.
Proof.
  intros Hs Hp Hl.
  destruct (category_loop sizes (field_offsets_from_hash_sizes sizes) (u "per_field_offset") drop seed
    (field_id sizes seed) (enumerate cats) []) as (ids & E & HF).
  { intros [f raw] ids0 [Hf _]%enumerate_elem Hk. apply category_id_per_field; [done|done|simpl; lia|done]. }
  exists ids. split_and!; [exact E|done|].
  clear E. induction HF; constructor; [|done]. eapply in_field_range_total; [done|]. by eapply field_id_in_range.
Qed.

(** Ids of different fields differ. *)
Lemma field_ids_NoDup sizes seed frs ids :
  Forall (λ x, 0 < x) sizes → Forall (λ fr, 0 ≤ fr.1) frs → NoDup frs.*1 → Forall2 (field_id sizes seed) frs ids → NoDup ids.
Proof.
  intros Hp Hf ND HF. induction HF as [|fr id frs ids Hid HF IH]; [constructor|].
  apply Forall_cons in Hf as [Hf0 Hf]. cbn [fmap list_fmap] in ND. apply NoDup_cons in ND as [Hn ND].
  apply NoDup_cons. split; [|by apply IH]. intros Hin. apply Hn. apply list_elem_of_lookup in Hin as (i & Hi).
  destruct (Forall2_lookup_r _ _ _ _ _ HF Hi) as (fr' & Ei & Hid'). apply list_elem_of_fmap. exists fr'.
  split; [|by eapply list_elem_of_lookup_2]. rewrite Forall_forall in Hf.
  apply (field_ranges_disjoint sizes _ _ id Hp); [done|by eapply Hf, list_elem_of_lookup_2|by eapply field_id_in_range..].
Qed.

(** C25: with per-field offsets, positive hash sizes covering the columns and a
    seed that fits eight bytes, the mapping never raises and produces exactly
    one id per category that is not dropped, in column order.  The id of a
    category of field f is the stable hash of the field and the value, modulo
    the hash size of f, in a range that starts where those of the fields before
    it end: so the ids of a row are all different, an id lies in the range of
    its field and of no other, and all are below the total number of
    embeddings. *)
Theorem per_field_ids_in_range cats sizes drop seed :
  seed_ok seed = true → Forall (λ x, 0 < x) sizes → zlen cats ≤ zlen sizes →
  ∃ ids, categorical_to_ids cats sizes (field_offsets_from_hash_sizes sizes)
           (u "per_field_offset") drop seed = Ok ids ∧
    Forall2 (field_id sizes seed) (kept drop (enumerate cats)) ids ∧
    Forall2 (λ fr id, ∀ f, 0 ≤ f → in_field_range sizes f id ↔ f = fr.1) (kept drop (enumerate cats)) ids ∧
    NoDup ids ∧ Forall (λ id, 0 ≤ id < zsum sizes) ids.
Proof.
  intros Hs Hp Hl. destruct (per_field_ids cats sizes drop seed Hs Hp Hl) as (ids & E & HF & HB). exists ids.
  assert (Forall (λ fr : Z * str, 0 ≤ fr.1) (kept drop (enumerate cats))) as Hf.
  { apply Forall_forall. intros [f raw] [_ [Hf _]%enumerate_elem]%list_elem_of_filter. cbn. lia. }
  split_and!; [exact E|exact HF| | |exact HB].
  - clear E HB. induction HF as [|fr id frs ids Hid HF IH]; [constructor|]. apply Forall_cons in Hf as [Hf0 Hf].
    constructor; [|by apply IH]. intros f Hf1. apply (field_id_in_range _ _ _ _ Hp) in Hid. split; [|by intros ->].
    intros H. by apply (field_ranges_disjoint sizes _ _ id Hp).
  - apply (field_ids_NoDup sizes seed (kept drop (enumerate cats))); [done|done| |done].
    apply (sublist_NoDup _ (enumerate cats).*1).
    + unfold enumerate. rewrite fst_zip by (rewrite length_seqZ; lia). apply NoDup_seqZ.
    + apply fmap_sublist, sublist_filter.
Qed.

Lemma per_field_ids_in_range_witness :
  ∃ ids, categorical_to_ids [u "ab"; []; u "c"] [10; 20; 30] [0; 10; 30] (u "per_field_offset") true 7 = Ok ids ∧
    Forall2 (field_id [10; 20; 30] 7) (kept true (enumerate [u "ab"; []; u "c"])) ids ∧ NoDup ids ∧
    Forall (λ id, 0 ≤ id < 60) ids.
Proof.
  destruct (per_field_ids_in_range [u "ab"; []; u "c"] [10; 20; 30] true 7) as (ids & E & HF & _ & ND & HB);
    [reflexivity|repeat constructor|simpl; lia|].
  exists ids. split; [exact E|]. split; [exact HF|]. split; [exact ND|exact HB].
Defined.

Lemma shared_ids cats sizes offs drop seed :
  seed_ok seed = true → 0 < zsum sizes →
  ∃ ids, categorical_to_ids cats sizes offs (u "shared_hash") drop seed = Ok ids ∧
    zlen ids = zlen (kept drop (enumerate cats)) ∧ Forall (λ id, 0 ≤ id < zsum sizes) ids.
Proof.
  intros Hs Hp.
  destruct (category_loop sizes offs (u "shared_hash") drop seed
    (λ _ id, 0 ≤ id < zsum sizes) (enumerate cats) []) as (ids & E & HF).
  { intros [f raw] ids0 _ Hk. by apply category_id_shared. }
  exists ids. split_and!; [exact E| |].
  - by rewrite (Forall2_length _ _ _ HF).
  - clear E. induction HF; by constructor.
Qed.

(** With the shared hash, every id is below the sum of the hash sizes. *)
Lemma shared_ids_in_range cats sizes offs drop seed :
  seed_ok seed = true → 0 < zsum sizes →
  ∃ ids, categorical_to_ids cats sizes offs (u "shared_hash") drop seed = Ok ids ∧
    zlen ids = zlen (kept drop (enumerate cats)) ∧ Forall (λ id, 0 ≤ id < zsum sizes) ids.
Proof. apply shared_ids. Qed.

Lemma shared_ids_in_range_witness :
  ∃ ids, categorical_to_ids [u "ab"; []] [10; 20] [] (u "shared_hash") false 0 = Ok ids ∧
    zlen ids = 2 ∧ Forall (λ id, 0 ≤ id < 30) ids.
Proof. apply (shared_ids_in_range [u "ab"; []] [10; 20] [] false 0); [reflexivity|simpl; lia]. Defined.

Lemma field_ranges_disjoint_witness : in_field_range [10; 20; 30] 1 15 ∧ 1 = 1.
Proof.
  assert (in_field_range [10; 20; 30] 1 15) as H by (split; [cbn; lia|by vm_compute]).
  split; [exact H|].
  apply (field_ranges_disjoint [10; 20; 30] 1 1 15); [repeat constructor|lia|lia|exact H|exact H].
Defined.

(** The bytes that are hashed determine the field and the value: two
    categories are only given the same hash when they are equal or the hash
    itself collides. *)
Lemma hash_input_unambiguous f1 v1 f2 v2 :
  0 ≤ f1 → 0 ≤ f2 → Forall code_point v1 → Forall code_point v2 →
  utf8 (hash_key f1 v1) = utf8 (hash_key f2 v2) → f1 = f2 ∧ v1 = v2.
Proof.
  intros Hf1 Hf2 Hv1 Hv2 E.
  assert (∀ f v, Forall code_point v → Forall code_point (hash_key f v)) as HC.
  { intros f v Hv. unfold hash_key. rewrite !Forall_app. split_and!; [|repeat constructor; done|done].
    eapply Forall_impl; [apply dec_chars|]. unfold is_digit, code_point. intros c [->|]; lia. }
  apply hash_key_inj; [done..|]. apply utf8_inj; auto.
Qed.

Lemma hash_input_unambiguous_witness :
  utf8 (hash_key 3 (u "a")) = utf8 (hash_key 3 (u "a")) ∧ 3 = 3 ∧ u "a" = u "a".
Proof.
  split; [reflexivity|].
  apply (hash_input_unambiguous 3 (u "a") 3 (u "a")); [lia|lia| | |reflexivity];
    repeat constructor; vm_compute; discriminate.
Defined.

(** The stable hash is defined exactly for the seeds that fit eight
    unsigned bytes, and is then a 64-bit value. *)
Lemma stable_hash64_range v seed :
  (∀ h, stable_hash64 v seed = Ok h → in_width 64 h) ∧
  (is_ok (stable_hash64 v seed) = seed_ok seed).
Proof.
  destruct (seed_ok seed) eqn:E.
  - destruct (stable_hash64_Ok v seed E) as (h & -> & Hh). split; [by intros ? [= <-]|done].
  - unfold seed_ok in E. unfold stable_hash64, to_bytes_le. rewrite E. done.
Qed.

(** A row written with tab separators parses back: the label is read as an
    int when it is one, and the categorical columns come back in order, cut to
    the requested number or filled with empty columns. *)
Lemma parse_criteo_row_roundtrip label dense cats num_fields :
  0 ≤ num_fields → zlen dense = DEFAULT_NUM_DENSE →
  Forall (Forall (λ c, c ≠ 9 ∧ c ≠ 10)) (label :: dense ++ cats) →
  parse_criteo_line (join [9] (label :: dense ++ cats) ++ [10]) num_fields =
    Ok (parse_label label, fit num_fields cats).
Proof.
  intros Hn Hd HF. set (row := label :: dense ++ cats) in *.
  assert (Forall (Forall (λ c, c ≠ 9)) row) as H9
    by (eapply Forall_impl; [exact HF|]; intros w Hw; eapply Forall_impl; [exact Hw|]; cbv beta; tauto).
  assert (Forall (λ c, c ≠ 10) (join [9] row)) as H10.
  { apply join_Forall; [by constructor|].
    eapply Forall_impl; [exact HF|]; intros w Hw; eapply Forall_impl; [exact Hw|]; cbv beta; tauto. }
  assert (row_cats row num_fields = fit num_fields cats) as <-.
  { unfold row_cats, row. f_equal.
    replace (Z.to_nat (1 + DEFAULT_NUM_DENSE)) with (S (length dense)) by (unfold DEFAULT_NUM_DENSE in *; lia).
    simpl. by rewrite drop_app_length. }
  apply parse_criteo_line_parts; [done|]. rewrite rstrip_char_app by done.
  assert (contains_char 9 (join [9] row) = true) as ->.
  { apply contains_char_spec. unfold row. destruct dense as [|d dense]; [done|].
    simpl. rewrite elem_of_app. right. left. }
  by apply split_char_join.
Qed.

Lemma parse_criteo_row_roundtrip_witness :
  parse_criteo_line (join [9] (u "1" :: (replicate 13 (u "5")) ++ [u "x"; []]) ++ [10]) 3 =
    Ok (Some 1, [u "x"; []; []]).
Proof.
  rewrite (parse_criteo_row_roundtrip (u "1") (replicate 13 (u "5")) [u "x"; []] 3);
    [reflexivity|lia|reflexivity|].
  repeat constructor; vm_compute; discriminate.
Defined.

Lemma iter_criteo_rows_Ok files num_fields :
  0 ≤ num_fields →
  Forall (λ r, ∃ label cats, r = Ok (label, cats) ∧ zlen cats = num_fields)
    (iter_criteo_rows (Ok <$> files) num_fields) ∧
  length (iter_criteo_rows (Ok <$> files) num_fields) =
    length (filter (λ line, strip line ≠ []) (concat files)).
Proof.
  intros Hn. unfold iter_criteo_rows. rewrite <-list_fmap_compose.
  induction files as [|lines files [IH1 IH2]]; [by split|].
  rewrite fmap_cons. cbn [concat compose]. split.
  - apply Forall_app. split; [|exact IH1]. apply Forall_fmap, Forall_forall.
    intros line [Hl _]%list_elem_of_filter. destruct (contains_strip_split line Hl) as (p0 & parts & E).
    cbn [compose]. eexists _, _. split; [by apply (parse_criteo_line_parts _ _ _ _ Hn E)|].
    by apply length_fit.
  - rewrite length_app, IH2, length_fmap, filter_app, length_app. done.
Qed.

(** The row generator never raises on readable files and yields, for every
    non-blank line, exactly the requested number of columns. *)
Lemma iter_criteo_rows_total files num_fields :
  0 ≤ num_fields →
  Forall (λ r, ∃ label cats, r = Ok (label, cats) ∧ zlen cats = num_fields)
    (iter_criteo_rows (Ok <$> files) num_fields) ∧
  length (iter_criteo_rows (Ok <$> files) num_fields) =
    length (filter (λ line, strip line ≠ []) (concat files)).
Proof. apply iter_criteo_rows_Ok. Qed.

Lemma iter_criteo_rows_total_witness :
  length (iter_criteo_rows (Ok <$> [[u "1 2"; u " "]; [u "x"]]) 26) = 2%nat.
Proof.
  destruct (iter_criteo_rows_total [[u "1 2"; u " "]; [u "x"]] 26) as [_ ->]; [lia|reflexivity].
Defined.

Lemma parse_hash_sizes_Ok value num_fields sizes :
  0 ≤ num_fields → parse_hash_sizes value num_fields = Ok sizes →
  zlen sizes = num_fields ∧ Forall (λ x, 0 < x) sizes.
Proof.
  intros Hn. unfold parse_hash_sizes. set (pieces := filter _ _). clearbody pieces.
  assert (∀ ps, (if negb (zlen ps =? num_fields) then Err ValueError else
      (sizes ← mapM py_int ps; if existsb (λ x, x <=? 0) sizes then Err ValueError else Ok sizes)) = Ok sizes →
      zlen sizes = num_fields ∧ Forall (λ x, 0 < x) sizes) as Hmany.
  { intros ps. destruct (Z.eqb_spec (zlen ps) num_fields) as [Hl|]; simpl; [|done].
    intros H. inv_res. destruct (existsb _ _) eqn:E; [done|]. injection H as <-.
    match goal with H : mapM _ _ = Ok _ |- _ => apply mapM_Ok in H; rename H into HM end.
    split; [by rewrite <-(Forall2_length _ _ _ HM)|].
    apply Forall_forall. intros y Hy. apply Z.nle_gt. intros Hle.
    assert (existsb (λ x0, x0 <=? 0) x = true) as C; [|congruence].
    apply existsb_exists. exists y. by rewrite <-list_elem_of_In, Z.leb_le. }
  destruct pieces as [|p [|p' ps]]; [apply (Hmany [])| |apply (Hmany (p :: p' :: ps))].
  intros H. inv_res. destruct (Z.leb_spec x 0); [done|]. injection H as <-.
  unfold py_repeat. rewrite length_replicate. split; [lia|]. by apply Forall_replicate.
Qed.

(** Hash sizes that parse are positive and there is one per field. *)
Lemma parse_hash_sizes_spec value num_fields sizes :
  0 ≤ num_fields → parse_hash_sizes value num_fields = Ok sizes →
  zlen sizes = num_fields ∧ Forall (λ x, 0 < x) sizes.
Proof. apply parse_hash_sizes_Ok. Qed.

Lemma parse_hash_sizes_spec_witness : zlen [10; 20] = 2 ∧ Forall (λ x, 0 < x) [10; 20].
Proof. apply (parse_hash_sizes_spec (u " 10,, 2_0 ") 2); [lia|vm_compute; reflexivity]. Defined.
