(* ===== verification/Workload.v ===== *)
(** Synthetic id traces and block reuse
    (memtier_embedding_bench/python/embedding_workload.py).

    [generate_ids] draws a trace of batches, each reusing a prefix of the
    previous one; [ids_to_blocks] maps the ids of a batch to the blocks of the
    embedding file; [estimate_block_reuse] measures the overlap of consecutive
    batches.  The random generator and the elementary functions of NumPy and
    of the C library are an interface. *)

From S2P Require Import Prelude PyFloat PyText NumPy.

(** ** Blocks *)

Section Blocks.
  Context {NP : NumPy}.

  (** [np.unique(ids.astype(np.uint64) // np.uint64(rows_per_block))]. *)
Definition ids_to_blocks (ids : list Z) (rows_per_block : Z) : result (list Z) :=
    rpb ← np_uint64 rows_per_block;
    Ok (np_unique ((λ x, np_floordiv x rpb) <$> astype_uint64 ids)).

  (** [set(int(x) for x in xs)]. *)
Definition int_set (xs : list Z) : gset Z := list_to_set xs.

  (** [len(a & b) / max(len(a), 1)]. *)
Definition reuse_ratio (blocks previous : gset Z) : result f64 :=
    truediv (Z.of_nat (size (blocks ∩ previous))) (Z.max (Z.of_nat (size blocks)) 1).

  (** The loop of [estimate_block_reuse]: previous blocks, reuse rates, unique
      counts. *)
Definition reuse_step (rows_per_block : Z) (st : gset Z * list f64 * list Z) (batch : list Z)
    : result (gset Z * list f64 * list Z) :=
    let '(previous, reuse_rates, unique_counts) := st in
    bs ← ids_to_blocks batch rows_per_block;
    let blocks := int_set bs in
    let unique_counts := unique_counts ++ [Z.of_nat (size blocks)] in
    if decide (previous = ∅) then Ok (blocks, reuse_rates, unique_counts)
    else r ← reuse_ratio blocks previous; Ok (blocks, reuse_rates ++ [r], unique_counts).

Record reuse_summary := {
    avg_unique_blocks_per_batch : f64;
    avg_inter_batch_block_reuse : f64;
    num_batches : Z;
  }.

  (** [np_mean_int] and [np_mean] stand for [np.mean] on ints and on floats. *)
Definition estimate_block_reuse (np_mean_int : list Z → f64) (np_mean : list f64 → f64)
    (trace : list (list Z)) (rows_per_block : Z) : result reuse_summary :=
    st ← foldM (reuse_step rows_per_block) (∅, [], []) trace;
    let '(_, reuse_rates, unique_counts) := st in
    Ok {| avg_unique_blocks_per_batch :=
            if decide (unique_counts = []) then f_zero else np_mean_int unique_counts;
          avg_inter_batch_block_reuse :=
            if decide (reuse_rates = []) then f_zero else np_mean reuse_rates;
          num_batches := zlen trace |}.

  (** *** Lemmas *)

  (** The mathematical content of [ids_to_blocks]. *)
Definition block_of (rows_per_block id : Z) : Z := id `div` rows_per_block.

Lemma ids_to_blocks_Ok ids rpb :
    all_u64 ids → in_width 64 rpb → 0 < rpb →
    ids_to_blocks ids rpb = Ok (unique_ref (block_of rpb <$> ids)).
Proof.
    intros Hids Hw Hp. unfold ids_to_blocks. rewrite np_uint64_small by done. simpl.
    rewrite astype_uint64_id by done. rewrite np_unique_ref. do 2 f_equal.
    apply list_fmap_ext. intros i x Hx. apply np_floordiv_pos; [|done].
    by apply (Forall_lookup_1 _ _ _ _ Hids Hx).
  Qed.

Lemma size_int_set_NoDup l : NoDup l → size (int_set l) = length l.
Proof. intros. by apply size_list_to_set. Qed.

Lemma reuse_ratio_Ok a b : ∃ r, reuse_ratio a b = Ok r ∧ in_unit r = true.
Proof.
    unfold reuse_ratio. apply truediv_unit; [|lia].
    assert (size (a ∩ b) ≤ size a)%nat by apply subseteq_size, intersection_subseteq_l. lia.
  Qed.

(** On valid ids the summary never fails, and counts the batches. *)
Lemma estimate_block_reuse_Ok np_mean_int np_mean trace rpb :
    Forall all_u64 trace → in_width 64 rpb → 0 < rpb →
    ∃ s, estimate_block_reuse np_mean_int np_mean trace rpb = Ok s ∧ num_batches s = zlen trace.
Proof.
    intros HF Hw Hp. unfold estimate_block_reuse.
    destruct (foldM_total (λ _, True) all_u64 (reuse_step rpb) (∅, [], []) trace) as ([[prev rates] counts] & -> & _);
      [|done|done|by eexists].
    intros [[prev rates] counts] batch Hb _. unfold reuse_step. rewrite (ids_to_blocks_Ok batch rpb Hb Hw Hp).
    cbn [mbind result_bind]. case_decide; [by eexists|].
    destruct (reuse_ratio_Ok (int_set (unique_ref (block_of rpb <$> batch))) prev) as (r & -> & _). by eexists.
  Qed.
End Blocks.
#[export] Hint Resolve reuse_ratio_Ok : memtier.

(** ** The random trace *)

Class Rng := {
  rng_state : Type;
  (** [np.random.default_rng(seed)]. *)
  default_rng : Z → result rng_state;
  default_rng_Ok seed : 0 ≤ seed → is_ok (default_rng seed) = true;
  (** [rng.integers(low, high, size=size, dtype=np.uint64)]. *)
  rng_integers : rng_state → Z → Z → Z → result (list Z * rng_state);
  rng_integers_Ok s low high size :
    0 ≤ low < high → high ≤ 2 ^ 64 → 0 ≤ size →
    ∃ l s', rng_integers s low high size = Ok (l, s') ∧ zlen l = size ∧ Forall (λ x, low ≤ x < high) l;
  (** [rng.random(size)]: floats in [0, 1). *)
  rng_random : rng_state → Z → result (list f64 * rng_state);
  rng_random_Ok s size :
    0 ≤ size →
    ∃ l s', rng_random s size = Ok (l, s') ∧ zlen l = size ∧
      Forall (λ x, in_unit x = true ∧ flt x f_one = true) l;
  (** [np.exp], [np.log], [x ** y] on floats (Python and NumPy), [np.floor],
      and the cast of a float to [uint64]. *)
  np_exp : f64 → f64;
  np_log : f64 → f64;
  py_pow : f64 → f64 → result f64;
  np_pow : f64 → f64 → f64;
  np_floor : f64 → f64;
  np_f64_to_u64 : f64 → Z;
  np_f64_to_u64_width x : in_width 64 (np_f64_to_u64 x);
}.

Section Generate.
  Context {NP : NumPy} {RG : Rng}.

Definition f_abs (x : f64) : f64 :=
    match x with Fin _ m e => Fin false m e | Inf _ => Inf false | NaN => NaN end.

  (** The rank of a sample [v] before the upper clip. *)
Definition zipf_rank (zipf_alpha n : f64) (v : f64) : result f64 :=
    if flt (f_abs (fsub zipf_alpha f_one)) (lit 1 100000000)
    then Ok (np_floor (np_exp (fmul v (np_log n))))
    else
      let exponent := fsub f_one zipf_alpha in
      p ← py_pow n exponent;
      inv ← fdiv f_one exponent;
      Ok (np_floor (np_pow (fadd (fmul v (fsub p f_one)) f_one) inv)).

  (** The fresh ids of one batch. *)
Definition sample_ids (dist : list Z) (num_embeddings : Z) (zipf_alpha : f64) (fresh_count : Z)
    (rng : rng_state) : result (list Z * rng_state) :=
    if decide (dist = u "uniform") then rng_integers rng 0 num_embeddings fresh_count
    else if decide (dist = u "zipf") then
      '(us, rng) ← rng_random rng fresh_count;
      n ← of_Z num_embeddings;
      ranks ← mapM (zipf_rank zipf_alpha n) us;
      top ← np_uint64 (num_embeddings - 1);
      Ok ((λ r, Z.min (np_f64_to_u64 r) top) <$> ranks, rng)
    else Err ValueError.

  (** One iteration of the batch loop: the rows so far and the generator. *)
Definition generate_step (dist : list Z) (num_embeddings : Z) (zipf_alpha : f64)
    (total_per_batch overlap : Z) (st : list (list Z) * rng_state) (b : Z)
    : result (list (list Z) * rng_state) :=
    let '(trace, rng) := st in
    let fresh_count := total_per_batch - (if 0 <? b then overlap else 0) in
    '(fresh, rng) ← sample_ids dist num_embeddings zipf_alpha fresh_count rng;
    if (0 <? b) && (0 <? overlap) then
      prev ← py_index trace (b - 1);
      Ok (trace ++ [py_slice prev 0 overlap ++ fresh], rng)
    else Ok (trace ++ [fresh], rng).

Definition generate_ids (num_embeddings batch_size bag_size num_batches : Z) (dist : list Z)
    (zipf_alpha overlap_ratio : f64) (seed : Z) : result (list (list Z)) :=
    if negb (fle f_zero overlap_ratio && flt overlap_ratio f_one) then Err ValueError else
    let total_per_batch := batch_size * bag_size in
    rng ← default_rng seed;
    if (num_batches <? 0) || (total_per_batch <? 0) then Err ValueError else
    t ← of_Z total_per_batch;
    overlap ← f_int (fmul t overlap_ratio);
    st ← foldM (generate_step dist num_embeddings zipf_alpha total_per_batch overlap)
           ([], rng) (seqZ 0 num_batches);
    Ok st.1.
End Generate.

(** ** Lemmas: generation *)

Section GenerateLemmas.
Context {NP : NumPy} {RG : Rng}.

(** The samplings that cannot raise: uniform, or Zipf with the parameters of
    the inverse distribution defined. *)
Definition zipf_defined (num_embeddings : Z) (zipf_alpha : f64) : Prop :=
  ∃ n, of_Z num_embeddings = Ok n ∧ ∀ v, is_ok (zipf_rank zipf_alpha n v) = true.

Definition dist_defined (dist : list Z) (num_embeddings : Z) (zipf_alpha : f64) : Prop :=
  dist = u "uniform" ∨ (dist = u "zipf" ∧ zipf_defined num_embeddings zipf_alpha).

Lemma mapM_total {A B} (f : A → result B) l :
  (∀ x, is_ok (f x) = true) → ∃ k, mapM f l = Ok k ∧ length k = length l.
Proof.
  intros Hf. induction l as [|x l (k & IH & Hk)]; [by exists []|].
  specialize (Hf x). destruct (f x) as [y|] eqn:E; [|done].
  exists (y :: k). split; [|by simpl; rewrite Hk]. simpl. by rewrite E; simpl; rewrite IH.
Qed.

Lemma sample_ids_Ok dist n alpha count rng :
  dist_defined dist n alpha → 0 < n ≤ 2 ^ 64 → 0 ≤ count →
  ∃ l rng', sample_ids dist n alpha count rng = Ok (l, rng') ∧ zlen l = count ∧
    Forall (λ x, 0 ≤ x < n) l.
Proof.
  intros Hd Hn Hc. unfold sample_ids. destruct Hd as [->|[-> (nf & En & Hz)]].
  - rewrite decide_True by done. apply rng_integers_Ok; lia.
  - rewrite decide_False by done. rewrite decide_True by done.
    destruct (rng_random_Ok rng count Hc) as (us & rng' & -> & Hl & _). simpl.
    rewrite En. simpl. destruct (mapM_total (zipf_rank alpha nf) us Hz) as (rk & -> & Hk). simpl.
    rewrite np_uint64_small by (split; lia). simpl. eexists _, _. split; [reflexivity|].
    split; [rewrite length_fmap; lia|]. apply Forall_fmap, Forall_true. intros x. cbn [compose].
    destruct (np_f64_to_u64_width x). lia.
Qed.

(** The shape of a generated trace: full batches of valid ids, each starting
    with the first [overlap] ids of the batch before. *)
Definition trace_shape (n total overlap : Z) (trace : list (list Z)) : Prop :=
  Forall (λ row, zlen row = total ∧ Forall (λ x, 0 ≤ x < n) row) trace ∧
  ∀ (b : nat) prev row, trace !! b = Some prev → trace !! S b = Some row →
    take (Z.to_nat overlap) row = take (Z.to_nat overlap) prev.

Lemma trace_shape_snoc n total overlap trace row :
  trace_shape n total overlap trace → zlen row = total → Forall (λ x, 0 ≤ x < n) row →
  (∀ prev, last trace = Some prev → take (Z.to_nat overlap) row = take (Z.to_nat overlap) prev) →
  trace_shape n total overlap (trace ++ [row]).
Proof.
  intros [HF Hov] Hl Hr Hlast. split; [apply Forall_app; split; [done|by constructor]|].
  intros b prev row' Hp Hr'. apply lookup_lt_Some in Hr' as Hlt. rewrite length_app in Hlt; simpl in Hlt.
  rewrite (lookup_app_l trace [row] b) in Hp by lia.
  destruct (decide (S b < length trace)%nat).
  - rewrite lookup_app_l in Hr' by done. eauto.
  - rewrite lookup_app_r in Hr' by lia. replace (S b - length trace)%nat with 0%nat in Hr' by lia.
    injection Hr' as <-. apply Hlast. rewrite last_lookup. by replace (pred (length trace)) with b by lia.
Qed.

Lemma generate_step_Ok dist n alpha total overlap trace rng b :
  dist_defined dist n alpha → 0 < n ≤ 2 ^ 64 → 0 ≤ overlap ≤ total → 0 ≤ b →
  zlen trace = b → trace_shape n total overlap trace →
  ∃ trace' rng', generate_step dist n alpha total overlap (trace, rng) b = Ok (trace', rng') ∧
    zlen trace' = b + 1 ∧ trace_shape n total overlap trace'.
Proof.
  intros Hd Hn Ho Hb Hl HS. unfold generate_step.
  set (count := total - (if 0 <? b then overlap else 0)).
  assert (0 ≤ count) as Hc by (unfold count; destruct (0 <? b); lia).
  destruct (sample_ids_Ok dist n alpha count rng Hd Hn Hc) as (fresh & rng' & -> & Hfl & HfF). simpl.
  destruct (Z.ltb_spec 0 b) as [Hb0|Hb0]; cbn [andb].
  - destruct (lookup_lt_is_Some_2 trace (Z.to_nat (b - 1))) as [prev Hprev]; [lia|].
    assert (last trace = Some prev) as Hlast
      by (rewrite last_lookup; rewrite <-Hprev; f_equal; lia).
    pose proof (Forall_lookup_1 _ _ _ _ (proj1 HS) Hprev) as [Hpl HpF].
    destruct (Z.ltb_spec 0 overlap) as [Hov|Hov].
    + rewrite (py_index_nonneg trace (b - 1) prev) by (done || lia). simpl.
      rewrite py_slice_nonneg by lia. rewrite Z.sub_0_r, drop_0.
      eexists _, rng'. split; [reflexivity|]. split; [rewrite length_app; simpl; lia|].
      apply trace_shape_snoc; [done| | |].
      * rewrite length_app, length_take. unfold count in Hfl. lia.
      * apply Forall_app. split; [by apply Forall_take|done].
      * intros p. rewrite Hlast. intros [= <-].
        rewrite take_app_le by (rewrite length_take; lia). by rewrite take_take, Nat.min_id.
    + eexists _, rng'. split; [reflexivity|]. split; [rewrite length_app; simpl; lia|].
      apply trace_shape_snoc; [done|unfold count in Hfl; lia|done|].
      intros p _. by replace (Z.to_nat overlap) with 0%nat by lia.
  - eexists _, rng'. split; [reflexivity|]. split; [rewrite length_app; simpl; lia|].
    apply trace_shape_snoc; [done|unfold count in Hfl; lia|done|].
    intros p. destruct trace; [done|]. simpl in Hl. lia.
Qed.

(** ** Properties *)

(** For a positive number of embeddings, a trace size below 2^53 and an
    overlap ratio in [0, 1), [generate_ids] returns [num_batches] batches of
    [batch_size * bag_size] ids, all of them valid, and every batch starts with
    the first [int(total * overlap_ratio)] ids of the batch before it; the
    overlap never exceeds a batch. *)
Lemma generate_ids_shape n batch_size bag_size nb dist alpha ratio seed :
  dist_defined dist n alpha → 0 < n ≤ 2 ^ 64 → 0 ≤ nb → 0 ≤ seed →
  0 ≤ batch_size * bag_size ≤ two53 →
  f_wf ratio = true → fle f_zero ratio && flt ratio f_one = true →
  ∃ trace overlap, generate_ids n batch_size bag_size nb dist alpha ratio seed = Ok trace ∧
    (t ← of_Z (batch_size * bag_size); f_int (fmul t ratio)) = Ok overlap ∧
    0 ≤ overlap ≤ batch_size * bag_size ∧
    zlen trace = nb ∧ trace_shape n (batch_size * bag_size) overlap trace.
Proof.
  intros Hd Hn Hnb Hseed Ht Hwf Hr. unfold generate_ids. rewrite Hr. cbn [negb].
  apply andb_true_iff in Hr as [Hr0 [Hr1 _]%andb_true_iff].
  destruct (int_fraction (batch_size * bag_size) ratio Ht) as (t & ov & Et & Eo & Ho).
  { unfold in_unit. by rewrite Hwf, Hr0, Hr1. }
  pose proof (default_rng_Ok seed Hseed) as Hrng. destruct (default_rng seed) as [rng|]; [|done]. simpl.
  destruct (Z.ltb_spec nb 0); [lia|]. destruct (Z.ltb_spec (batch_size * bag_size) 0); [lia|]. cbn [orb].
  rewrite Et. simpl. rewrite Eo. simpl.
  destruct (foldM_range_total (λ b st, zlen st.1 = b ∧ trace_shape n (batch_size * bag_size) ov st.1)
    (generate_step dist n alpha (batch_size * bag_size) ov) nb ([], rng) Hnb) as ([tr rng'] & -> & Hl & HS).
  - intros b [tr rng0] Hb [Hl HS].
    destruct (generate_step_Ok dist n alpha (batch_size * bag_size) ov tr rng0 b) as (tr' & rng' & E & H1 & H2);
      [done|done|lia|lia|done|done|]. by exists (tr', rng').
  - split; [done|]. split; [constructor|]. by intros b0 prev row Hp.
  - exists tr, ov. done.
Qed.

(** The blocks of a batch are exactly the blocks that hold one of its ids,
    in increasing order and without duplicates. *)
Lemma ids_to_blocks_spec ids rpb :
  all_u64 ids → in_width 64 rpb → 0 < rpb →
  ∃ blocks, ids_to_blocks ids rpb = Ok blocks ∧ StronglySorted Z.lt blocks ∧
    (∀ b, b ∈ blocks ↔ ∃ id, id ∈ ids ∧ b * rpb ≤ id < (b + 1) * rpb).
Proof.
  intros Hids Hw Hp. eexists. split; [by apply ids_to_blocks_Ok|]. split; [apply unique_ref_sorted|].
  intros b. rewrite unique_ref_elem, list_elem_of_fmap. unfold block_of. split.
  - intros (id & -> & Hid). exists id. split; [done|].
    pose proof (Z.div_mod id rpb ltac:(lia)). pose proof (Z.mod_pos_bound id rpb Hp). nia.
  - intros (id & Hid & Hb). exists id. split; [|done].
    apply (Z.div_unique id rpb b (id - b * rpb)); nia.
Qed.
End GenerateLemmas.

(** ** A concrete generator *)

(** A counter, enough to run the code: the laws hold, the distribution is not
    random. *)
Definition counter_ints (s low high size : Z) : list Z :=
  (λ i, low + (s + i) `mod` (high - low)) <$> seqZ 0 size.

#[program] Definition reference_rng : Rng := {|
  rng_state := Z;
  default_rng seed := if 0 <=? seed then Ok seed else Err ValueError;
  rng_integers s low high size := Ok (counter_ints s low high size, s + size);
  rng_random s size := Ok ((λ _, lit 1 2) <$> seqZ 0 size, s + size);
  np_exp x := f_one;
  np_log x := f_one;
  py_pow x y := Ok f_one;
  np_pow x y := f_one;
  np_floor x := f_one;
  np_f64_to_u64 x := match f_int x with Ok z => wrap 64 z | Err _ => 0 end;
|}.
Next Obligation. intros seed Hs. cbv beta. destruct (Z.leb_spec 0 seed); [done|lia]. Qed.
Next Obligation.
  intros s low high size Hlh _ Hs. eexists _, _. split; [reflexivity|]. unfold counter_ints.
  rewrite length_fmap, length_seqZ. split; [lia|]. apply Forall_fmap, Forall_true. intros i.
  cbn [compose]. pose proof (Z.mod_pos_bound (s + i) (high - low) ltac:(lia)). lia.
Qed.
Next Obligation.
  intros s size Hs. eexists _, _. split; [reflexivity|].
  rewrite length_fmap, length_seqZ. split; [lia|]. apply Forall_fmap, Forall_true. by intros i.
Qed.
Next Obligation.
  intros x. cbv beta. destruct (f_int x); [by apply wrap_in_width|]. unfold in_width. lia.
Qed.

(** ** Witnesses *)

Lemma generate_ids_shape_witness :
  ∃ trace overlap, @generate_ids reference_numpy reference_rng 10 2 3 4 (u "uniform") f_one (lit 1 2) 5 = Ok trace ∧
    (t ← of_Z 6; f_int (fmul t (lit 1 2))) = Ok overlap ∧ 0 ≤ overlap ≤ 6 ∧
    zlen trace = 4 ∧ trace_shape 10 6 overlap trace.
Proof.
  apply (@generate_ids_shape reference_numpy reference_rng 10 2 3 4 (u "uniform") f_one (lit 1 2) 5);
    [by left|lia|lia|lia|unfold two53; lia|reflexivity|reflexivity].
Defined.

Lemma ids_to_blocks_spec_witness :
  ∃ blocks, @ids_to_blocks reference_numpy [5; 17; 4; 16] 8 = Ok blocks ∧ StronglySorted Z.lt blocks ∧
    (∀ b, b ∈ blocks ↔ ∃ id, id ∈ [5; 17; 4; 16] ∧ b * 8 ≤ id < (b + 1) * 8).
Proof.
  apply (@ids_to_blocks_spec reference_numpy [5; 17; 4; 16] 8); [|split; lia|lia].
  repeat constructor; lia.
Defined.
