(* ===== verification/TraceReader.v ===== *)
(** The unified trace reader (memtier_embedding_bench/python/trace_reader.py).

    [EmbeddingTrace] holds an opened trace: the arrays of an [.npz] or [.npy]
    file, or the text of a [.jsonl] file with the offsets of its lines.  A file
    is given by what its suffix makes the constructor read from it
    ([trace_file]). *)

From S2P Require Import Prelude PyFloat PyText NumPy Json NdArray.

(** ** Python values of the metadata dictionary *)

(** [d.get(k)] on a decoded JSON value. *)
Definition meta_get (v : json) (k : str) : result json :=
  match v with JObj d => Ok (default JNull (dict_get d k)) | _ => Err AttributeError end.

(** [bool(v)]. *)
Definition truthy (v : json) : bool :=
  match v with
  | JNull => false
  | JBool b => b
  | JInt z => negb (z =? 0)
  | JFloat (Fin _ m _) => negb (m =? 0)
  | JFloat _ => true
  | JStr s => bool_decide (s ≠ [])
  | JList [] | JObj [] => false
  | _ => true
  end.

(** [a or b]. *)
Definition py_or (a b : json) : json := if truthy a then a else b.

(** [int(v)]. *)
Definition py_int_json (v : json) : result Z :=
  match v with
  | JBool b => Ok (if b then 1 else 0)
  | JInt z => Ok z
  | JFloat f => f_int f
  | JStr s => py_int s
  | _ => Err TypeError
  end.

(** [int(v) if v is not None else None]. *)
Definition opt_int_json (v : json) : result (option Z) :=
  match v with JNull => Ok None | v => Some <$> py_int_json v end.

Definition is_str (v : json) (s : str) : bool :=
  match v with JStr s' => bool_decide (s' = s) | _ => false end.

(** The truth of an [int | None]. *)
Definition opt_truthy (o : option Z) : bool := match o with Some z => negb (z =? 0) | None => false end.

(** ** Files *)

Inductive trace_file : Type :=
| Npz (metadata_json : option str) (ids block_ids : option ndarray)
| Npy (ids : ndarray) (meta : option str)
| Jsonl (text : str)
| OtherSuffix.

(** What [EmbeddingTrace(path)] reads once [np.savez(path, ...)] has written
    [file]: NumPy writes to [path] only when it ends in [.npz] and to
    [path + ".npz"] otherwise, which leaves at [path] what was there [before]. *)
Definition opened_after_savez (suffix : str) (before : result trace_file) (file : trace_file) : result trace_file :=
  if decide (suffix = u ".npz") then Ok file else before.

(** [for line in f], the line ends kept. *)
Fixpoint lines_keepends (s : str) : list str :=
  match s with
  | [] => []
  | c :: s' =>
      if c =? 10 then [10] :: lines_keepends s'
      else match lines_keepends s' with
           | w :: ws => (c :: w) :: ws
           | [] => [[c]]
           end
  end.

(** ASCII white space, what [bytes.strip] removes. *)
Definition byte_space (c : Z) : bool := (c =? 32) || ((9 <=? c) && (c <=? 13)).

(** What is left of a text after skipping some bytes (the offsets used are
    those of line starts). *)
Fixpoint seek_text (offset : Z) (s : str) : str :=
  if offset <=? 0 then s
  else match s with c :: s' => seek_text (offset - zlen (utf8_char c)) s' | [] => [] end.

(** [f.readline()] in text mode: any line end, read as a line feed. *)
Fixpoint readline (s : str) : str :=
  match s with
  | [] => []
  | c :: s' => if (c =? 10) || (c =? 13) then [10] else c :: readline s'
  end.

Module EmbeddingTrace.
Section Reader.
  Context {NP : NumPy} {AA : AsArray}.

Record t := Mk {
    rows_per_block : option Z;
    metadata : json;
    jsonl : option (str * list Z);   (* the file, [_jsonl_offsets] *)
    ids : option ndarray;
    block_ids : option ndarray;
  }.

  (** One line of [_index_jsonl]: the offsets so far and the next offset. *)
Definition index_line (st : list Z * Z) (line : str) : list Z * Z :=
    let '(offsets, offset) := st in
    let bytes := utf8 line in
    (if bool_decide (strip_by byte_space bytes = []) then offsets else offsets ++ [offset],
     offset + zlen bytes).

Definition index_jsonl (text : str) : list Z :=
    (foldl index_line ([], 0) (lines_keepends text)).1.

  (** The part of [__init__] that reads the file. *)
Definition load (file : trace_file) : result t :=
    match file with
    | Npz meta_raw ids block_ids =>
        metadata ← match meta_raw with Some s => json_loads s | None => Ok (JObj []) end;
        Ok (Mk None metadata None ids block_ids)
    | Npy ids meta =>
        metadata ← match meta with Some s => json_loads s | None => Ok (JObj []) end;
        Ok (Mk None metadata None (Some ids) None)
    | Jsonl text => Ok (Mk None (JObj []) (Some (text, index_jsonl text)) None None)
    | OtherSuffix => Err ValueError
    end.

  (** [int(self.metadata.get("rows_per_block", 0) or 0) or None]. *)
Definition default_rows_per_block (metadata : json) : result (option Z) :=
    v ← meta_get metadata (u "rows_per_block");
    z ← py_int_json (py_or v (JInt 0));
    Ok (if z =? 0 then None else Some z).

Definition init (file : trace_file) (rpb : option Z) : result t :=
    tr ← load file;
    rpb' ← match rpb with Some _ => Ok rpb | None => default_rows_per_block (metadata tr) end;
    Ok (Mk rpb' (metadata tr) (jsonl tr) (ids tr) (block_ids tr)).

Definition batch_size (tr : t) : result (option Z) :=
    v ← meta_get (metadata tr) (u "batch_size"); opt_int_json v.

Definition bag_size (tr : t) : result (option Z) :=
    v ← meta_get (metadata tr) (u "bag_size");
    w ← if truthy v then Ok v else meta_get (metadata tr) (u "num_fields");
    opt_int_json w.

  (** [array.ndim == 2 and self.bag_size and array.shape[1] == self.bag_size
      and self.batch_size]: the batch size when it holds. *)
Definition sample_batches (tr : t) (array : ndarray) : result (option Z) :=
    if negb (ndim array =? 2) then Ok None else
    bag ← bag_size tr;
    if negb (opt_truthy bag) then Ok None else
    w ← shape_at array 1;
    if negb (bool_decide (Some w = bag)) then Ok None else
    b ← batch_size tr;
    Ok (if opt_truthy b then b else None).

  (** [self.metadata.get("trace_layout") == "samples_by_fields" and
      self.batch_size]. *)
Definition layout_batches (tr : t) : result (option Z) :=
    layout ← meta_get (metadata tr) (u "trace_layout");
    if negb (is_str layout (u "samples_by_fields")) then Ok None else
    b ← batch_size tr;
    Ok (if opt_truthy b then b else None).

Definition num_batches (tr : t) : result Z :=
    match jsonl tr with
    | Some (_, offsets) => Ok (zlen offsets)
    | None =>
        match ids tr with
        | None => Ok 0
        | Some array =>
            if ndim array =? 1 then Ok 1 else
            layout ← layout_batches tr;
            match layout with
            | Some b => n ← shape_at array 0; Ok ((n + b - 1) `div` b)
            | None =>
                if ndim array =? 3 then shape_at array 0 else
                sample ← sample_batches tr array;
                match sample with
                | Some b => n ← shape_at array 0; Ok ((n + b - 1) `div` b)
                | None => shape_at array 0
                end
            end
        end
    end.

Definition batch_from_array (tr : t) (array : ndarray) (batch_idx : Z) : result (list Z) :=
    if ndim array =? 1 then
      if negb (batch_idx =? 0) then Err IndexError else Ok (data array)
    else if ndim array =? 3 then nd_row array batch_idx
    else
      sample ← sample_batches tr array;
      match sample with
      | Some b =>
          let start := batch_idx * b in
          n ← shape_at array 0;
          let stop := Z.min n (start + b) in
          nd_rows array start stop
      | None => nd_row array batch_idx
      end.

Definition get_batch_ids (tr : t) (batch_idx : Z) : result (list Z) :=
    nb ← num_batches tr;
    if (batch_idx <? 0) || (batch_idx >=? nb) then Err IndexError else
    match jsonl tr with
    | Some (text, offsets) =>
        offset ← py_index offsets batch_idx;
        row ← json_loads (readline (seek_text offset text));
        v ← meta_get row (u "sparse_ids");
        w ← if truthy v then Ok v else meta_get row (u "ids");
        a ← np_asarray_json w;
        Ok (data a)
    | None =>
        match ids tr with
        | None => Err ValueError
        | Some array => astype_uint64 <$> batch_from_array tr array batch_idx
        end
    end.

Definition get_batch_block_ids (tr : t) (batch_idx : Z) : result (list Z) :=
    match block_ids tr with
    | Some array => b ← batch_from_array tr array batch_idx; Ok (np_unique (astype_uint64 b))
    | None =>
        match rows_per_block tr with
        | Some rpb =>
            if rpb =? 0 then Err ValueError else
            xs ← get_batch_ids tr batch_idx;
            y ← np_uint64 rpb;
            Ok (np_unique ((λ x, np_floordiv x y) <$> xs))
        | None => Err ValueError
        end
    end.

  (** The generator [iter_batches]: each batch, or what reading it raises. *)
Definition batch_stream (tr : t) : result (list (result (list Z))) :=
    nb ← num_batches tr; Ok (get_batch_ids tr <$> seqZ 0 nb).

  (** The lists of what the generators yield, when they are exhausted. *)
Definition iter_batches (tr : t) : result (list (list Z)) :=
    nb ← num_batches tr; mapM (get_batch_ids tr) (seqZ 0 nb).
Definition iter_block_batches (tr : t) : result (list (list Z)) :=
    nb ← num_batches tr; mapM (get_batch_block_ids tr) (seqZ 0 nb).

  (** *** Lemmas *)

Lemma batch_stream_Ok tr batches : iter_batches tr = Ok batches → batch_stream tr = Ok (Ok <$> batches).
  Proof.
    unfold iter_batches, batch_stream. intros H. inv_res. match goal with E : num_batches tr = Ok _ |- _ => rewrite E end.
    cbn [mbind result_bind]. f_equal. apply mapM_Ok in H.
    induction H as [|i l idx ls E _ IH]; [done|]. by rewrite !fmap_cons, E, IH.
  Qed.

  (** A trace of [n] samples of [w] ids each, read in batches of [b] samples. *)
Definition sample_trace (tr : t) (array : ndarray) (n w b : Z) : Prop :=
    jsonl tr = None ∧ ids tr = Some array ∧ shape array = [n; w] ∧ nd_wf array ∧ 0 < w ∧
    bag_size tr = Ok (Some w) ∧ batch_size tr = Ok (Some b) ∧ 0 < b.

Lemma layout_batches_cases tr b :
    batch_size tr = Ok (Some b) → b ≠ 0 → layout_batches tr = Ok None ∨ layout_batches tr = Ok (Some b).
  Proof.
    intros Hb Hnz. unfold layout_batches.
    destruct (metadata tr) as [| | | | | |d] eqn:E; try (unfold batch_size in Hb; rewrite E in Hb; discriminate).
    cbn [meta_get mbind result_bind]. case_match; [by left|]. rewrite Hb. cbn.
    rewrite (proj2 (Z.eqb_neq b 0)) by done. by right.
  Qed.

Lemma sample_batches_Ok tr array n w b :
    sample_trace tr array n w b → sample_batches tr array = Ok (Some b).
  Proof.
    intros (_ & _ & Hs & _ & Hw & Hbag & Hbs & Hb). unfold sample_batches, ndim, shape_at. rewrite Hs.
    change (zlen [n; w]) with 2. change (negb (2 =? 2)) with false. cbv iota. rewrite Hbag. cbn [mbind result_bind].
    cbn [opt_truthy]. rewrite (proj2 (Z.eqb_neq w 0)) by lia. cbn [negb].
    change (py_index [n; w] 1) with (Ok w). cbn [mbind result_bind]. rewrite bool_decide_true by done.
    cbn [negb]. rewrite Hbs. cbn. by rewrite (proj2 (Z.eqb_neq b 0)) by lia.
  Qed.

Lemma sample_batches_ext tr tr' a a' :
    metadata tr = metadata tr' → shape a = shape a' → sample_batches tr a = sample_batches tr' a'.
  Proof.
    intros Em Es. unfold sample_batches, ndim, shape_at, bag_size, batch_size. by rewrite Em, Es.
  Qed.

Lemma num_batches_samples tr array n w b :
    sample_trace tr array n w b → num_batches tr = Ok (cdiv n b).
  Proof.
    intros H. pose proof (sample_batches_Ok _ _ _ _ _ H) as Hsb.
    destruct H as (Hj & Hi & Hs & _ & Hw & Hbag & Hbs & Hb).
    unfold num_batches. rewrite Hj, Hi. unfold ndim, shape_at in *. rewrite Hs.
    change (zlen [n; w]) with 2. change (2 =? 1) with false. change (2 =? 3) with false. cbv iota.
    destruct (layout_batches_cases tr b Hbs) as [-> | ->]; [lia|..]; cbn [mbind result_bind]; [|done].
    rewrite Hsb. done.
  Qed.

Lemma batch_from_array_samples tr array n w b i :
    shape array = [n; w] → sample_batches tr array = Ok (Some b) → 0 ≤ w → 0 < b → 0 ≤ i < cdiv n b →
    batch_from_array tr array i =
      Ok (py_slice (data array) (i * (b * w)) (Z.min (n * w) (i * (b * w) + b * w))).
  Proof.
    intros Hs Hsb Hw Hb Hi. unfold batch_from_array, ndim. rewrite Hs. change (zlen [n; w]) with 2.
    change (2 =? 1) with false. change (2 =? 3) with false. cbv iota.
    rewrite Hsb. cbn [mbind result_bind]. unfold shape_at. rewrite Hs.
    change (py_index [n; w] 0) with (Ok n). cbn [mbind result_bind].
    pose proof (cdiv_spec n b Hb).
    rewrite (nd_rows_Ok array n [w]); [|done|nia|lia]. simpl. do 2 f_equal; nia.
  Qed.

Lemma get_batch_ids_samples tr array n w b i :
    sample_trace tr array n w b → all_u64 (data array) → 0 ≤ i < cdiv n b →
    get_batch_ids tr i = Ok (py_slice (data array) (i * (b * w)) (Z.min (n * w) (i * (b * w) + b * w))).
  Proof.
    intros H Hu Hi. unfold get_batch_ids. rewrite (num_batches_samples _ _ _ _ _ H). cbn [mbind result_bind].
    assert ((i <? 0) || (i >=? cdiv n b) = false) as -> by lia.
    pose proof (sample_batches_Ok _ _ _ _ _ H) as Hsb.
    destruct H as (-> & -> & Hs & _ & Hw & _ & _ & Hb).
    rewrite (batch_from_array_samples tr array n w b i); [|done|done|lia|done|done].
    cbn [fmap result_fmap]. by rewrite astype_py_slice, astype_uint64_id.
  Qed.

  (** Opening an archive with metadata. *)
Lemma init_npz fields array blocks rpb :
    plain_json (JObj fields) →
    init (Npz (Some (json_dumps (JObj fields))) array blocks) (Some rpb) =
      Ok (Mk (Some rpb) (JObj fields) None array blocks).
  Proof. intros Hp. unfold init, load. by rewrite loads_dumps. Qed.

  (** Opening an archive whose metadata describe its samples. *)
Lemma init_sample_trace fields array blocks n w b rpb :
    plain_json (JObj fields) →
    dict_get fields (u "batch_size") = Some (JInt b) → dict_get fields (u "bag_size") = Some (JInt w) →
    shape array = [n; w] → nd_wf array → 0 < w → 0 < b →
    ∃ tr, init (Npz (Some (json_dumps (JObj fields))) (Some array) blocks) (Some rpb) = Ok tr ∧
      sample_trace tr array n w b ∧ rows_per_block tr = Some rpb ∧ block_ids tr = blocks.
  Proof.
    intros Hp Hbs Hbag Hs Hwf Hw Hb. exists (Mk (Some rpb) (JObj fields) None (Some array) blocks).
    split_and!; try done.
    - by apply init_npz.
    - unfold sample_trace. cbn [jsonl ids]. split_and!; try done.
      + assert (truthy (JInt w) = true) as Ht by (apply negb_true_iff, Z.eqb_neq; lia).
        unfold bag_size, meta_get. cbn [metadata]. rewrite Hbag. change (default JNull (Some (JInt w))) with (JInt w).
        cbn [mbind result_bind]. by rewrite Ht.
      + unfold batch_size, meta_get. cbn [metadata]. by rewrite Hbs.
  Qed.

Lemma iter_batches_samples tr array n w b :
    sample_trace tr array n w b → all_u64 (data array) →
    iter_batches tr = Ok (batches_of (b * w) (data array)).
  Proof.
    intros H Hu. pose proof H as (_ & _ & Hs & [Hp Hl] & Hw & _ & _ & Hb).
    rewrite Hs in Hl, Hp. simpl in Hl. rewrite Z.mul_1_r in Hl. apply Forall_cons in Hp as [Hn _].
    assert (cdiv (zlen (data array)) (b * w) = cdiv n b) as Ec.
    { apply cdiv_unique; [nia|]. pose proof (cdiv_spec n b Hb). nia. }
    unfold iter_batches. rewrite (num_batches_samples _ _ _ _ _ H).
    cbn [mbind result_bind]. apply mapM_Ok. unfold batches_of. rewrite Ec, Hl.
    apply Forall2_fmap_r, Forall_Forall2_diag, Forall_seqZ. intros i Hi.
    apply (get_batch_ids_samples _ _ _ _ _ _ H); [done|lia].
  Qed.
End Reader.
End EmbeddingTrace.

(** *** Line indexes *)

(** A line of a text file: a line feed at the end and nowhere else. *)
Definition is_line (l : str) : Prop := ∃ w, l = w ++ [10] ∧ Forall (λ c, c ≠ 10) w.

(** A line [_index_jsonl] counts. *)
Definition non_blank (l : str) : Prop := strip_by byte_space (utf8 l) ≠ [].
#[export] Instance non_blank_dec l : Decision (non_blank l).
Proof. unfold non_blank. apply _. Defined.

Lemma lines_keepends_app l s : is_line l → lines_keepends (l ++ s) = l :: lines_keepends s.
Proof.
  intros (w & -> & Hw). rewrite <-app_assoc. induction Hw as [|c w Hc _ IH]; simpl; [done|].
  rewrite (proj2 (Z.eqb_neq c 10)) by done. simpl in IH. by rewrite IH.
Qed.

Lemma lines_keepends_concat ls : Forall is_line ls → lines_keepends (concat ls) = ls.
Proof. induction 1 as [|l ls Hl _ IH]; [done|]. cbn [concat]. by rewrite lines_keepends_app, IH. Qed.

Lemma seek_text_app s r : seek_text (zlen (utf8 s)) (s ++ r) = r.
Proof.
  induction s as [|c s IH]; [by destruct r|]. cbn [app seek_text].
  change (utf8 (c :: s)) with (utf8_char c ++ utf8 s). rewrite length_app.
  assert (0 < zlen (utf8_char c)) by (unfold utf8_char; repeat case_match; simpl; lia).
  rewrite (proj2 (Z.leb_gt _ 0)) by lia. rewrite <-IH at 2. f_equal. lia.
Qed.

Lemma readline_app w r :
  Forall (λ c, c ≠ 10 ∧ c ≠ 13) w → readline (w ++ 10 :: r) = w ++ [10].
Proof.
  induction 1 as [|c w [H1 H2] _ IH]; [done|]. simpl.
  rewrite (proj2 (Z.eqb_neq c 10)), (proj2 (Z.eqb_neq c 13)) by done. simpl. by rewrite IH.
Qed.

(** The offsets of the counted lines, from offset [o] on. *)
Fixpoint offsets_of (o : Z) (ls : list str) : list Z :=
  match ls with
  | [] => []
  | l :: ls => (if decide (non_blank l) then [o] else []) ++ offsets_of (o + zlen (utf8 l)) ls
  end.

Lemma index_lines ls acc o :
  (foldl EmbeddingTrace.index_line (acc, o) ls).1 = acc ++ offsets_of o ls.
Proof.
  revert acc o; induction ls as [|l ls IH]; intros acc o; cbn [foldl offsets_of]; [by rewrite app_nil_r|].
  cbn [EmbeddingTrace.index_line]. rewrite IH. unfold non_blank.
  destruct (decide (strip_by byte_space (utf8 l) = [])) as [E|E].
  - rewrite bool_decide_true by done. by rewrite decide_False by (by intros []).
  - rewrite bool_decide_false by done. rewrite decide_True by done. by rewrite <-app_assoc.
Qed.

Lemma offsets_of_spec pre0 ls :
  Forall2 (λ off l, ∃ pre post, pre0 ++ ls = pre ++ l :: post ∧ off = zlen (utf8 (concat pre)))
    (offsets_of (zlen (utf8 (concat pre0))) ls) (filter non_blank ls).
Proof.
  revert pre0; induction ls as [|l ls IH]; intros pre0; cbn [offsets_of]; [constructor|].
  specialize (IH (pre0 ++ [l])). rewrite concat_app, utf8_app in IH. cbn [concat] in IH.
  rewrite app_nil_r, length_app, Nat2Z.inj_add in IH. rewrite <-app_assoc in IH. cbn [app] in IH.
  destruct (decide (non_blank l)) as [Hl|Hl].
  - rewrite filter_cons_True by done. cbn [app]. constructor; [|done]. exists pre0, ls. done.
  - rewrite filter_cons_False by done. done.
Qed.

(** A JSONL record, as [json.dumps] writes it. *)
Definition record_line (ids : list Z) : str :=
  json_dumps (JObj [(u "sparse_ids", json_row ids)]) ++ [10].

Lemma plain_record ids : plain_json (JObj [(u "sparse_ids", json_row ids)]).
Proof.
  apply plain_json_obj. split; [apply NoDup_singleton|]. repeat constructor; try (simpl; unfold plain_char; lia).
  apply plain_json_list. apply Forall_fmap. by apply Forall_true.
Qed.

Lemma record_line_readline ids r : readline (record_line ids ++ r) = record_line ids.
Proof.
  unfold record_line. rewrite <-app_assoc. apply readline_app.
  eapply Forall_impl; [apply dumps_printable, plain_record|]. unfold printable. intros; simpl; lia.
Qed.

Section Properties.
Context {NP : NumPy} {AA : AsArray}.

(** C21: reading a trace of samples batch by batch loses nothing: with a batch
    size and a bag size equal to the width of the array, [iter_batches] yields
    ceil(n/b) batches, each of at least one and at most [b] samples, and their
    concatenation is the array. *)
Theorem iter_batches_partition tr array n w b :
  EmbeddingTrace.sample_trace tr array n w b → all_u64 (data array) →
  ∃ batches, EmbeddingTrace.iter_batches tr = Ok batches ∧ concat batches = data array ∧
    zlen batches = cdiv n b ∧ Forall (λ l, 0 < zlen l ≤ b * w) batches.
Proof.
  intros H Hu. pose proof H as (_ & _ & Hs & [Hp Hl] & Hw & _ & _ & Hb).
  rewrite Hs in Hl, Hp. simpl in Hl. rewrite Z.mul_1_r in Hl. apply Forall_cons in Hp as [Hn _].
  assert (cdiv (zlen (data array)) (b * w) = cdiv n b) as Ec.
  { apply cdiv_unique; [nia|]. pose proof (cdiv_spec n b Hb). nia. }
  exists (batches_of (b * w) (data array)). split; [|split; [apply batches_of_concat; nia|split]].
  - by apply (EmbeddingTrace.iter_batches_samples _ _ n).
  - unfold batches_of. rewrite length_fmap, length_seqZ, Ec. pose proof (cdiv_nonneg n b). lia.
  - unfold batches_of. rewrite Ec, Hl. apply Forall_fmap, Forall_seqZ. intros i Hi.
    pose proof (cdiv_spec n b Hb). simpl. rewrite length_py_slice, Hl by nia. nia.
Qed.

(** On an array trace every batch index is either served or refused: inside
    [0, num_batches) [get_batch_ids] returns 64-bit ids, outside it raises
    IndexError, whatever the layout (one, two, three or more dimensions). *)
Lemma get_batch_ids_total tr array lb sb :
  EmbeddingTrace.jsonl tr = None → EmbeddingTrace.ids tr = Some array →
  nd_wf array → shape array ≠ [] →
  EmbeddingTrace.layout_batches tr = Ok lb → EmbeddingTrace.sample_batches tr array = Ok sb →
  (∀ b, lb = Some b ∨ sb = Some b → 0 < b) →
  ∃ nb, EmbeddingTrace.num_batches tr = Ok nb ∧
    ∀ i, (0 ≤ i < nb → ∃ l, EmbeddingTrace.get_batch_ids tr i = Ok l ∧ all_u64 l) ∧
         (¬ 0 ≤ i < nb → EmbeddingTrace.get_batch_ids tr i = Err IndexError).
Proof.
  intros Hj Hi [Hp Hl] Hne Hlb Hsb Hpos.
  destruct (shape array) as [|n rest] eqn:Es; [done|]. apply Forall_cons in Hp as [Hn Hp].
  assert (shape_at array 0 = Ok n) as Hs0 by (unfold shape_at; rewrite Es; done).
  set (nb := if ndim array =? 1 then 1 else
             match lb with Some b => cdiv n b | None =>
               if ndim array =? 3 then n else match sb with Some b => cdiv n b | None => n end end).
  assert (EmbeddingTrace.num_batches tr = Ok nb) as Enb.
  { unfold EmbeddingTrace.num_batches, nb. rewrite Hj, Hi, Hlb, Hsb, Hs0.
    repeat case_match; done. }
  assert (∀ b, 0 < b → cdiv n b ≤ n) as Hle.
  { intros b Hb. pose proof (cdiv_spec n b Hb). nia. }
  assert (ndim array ≠ 1 → nb ≤ n) as Hnb.
  { intros Hd. unfold nb. rewrite (proj2 (Z.eqb_neq _ _) Hd). destruct lb; [eauto|].
    case_match; [lia|]. destruct sb; [eauto|lia]. }
  assert (ndim array = 1 → nb = 1) as Hnb1 by (intros Hd; unfold nb; by rewrite (proj2 (Z.eqb_eq _ _) Hd)).
  clearbody nb. exists nb. split; [done|]. intros i.
  unfold EmbeddingTrace.get_batch_ids. rewrite Enb. cbn [mbind result_bind]. split; intros Hin.
  - assert ((i <? 0) || (i >=? nb) = false) as -> by lia. rewrite Hj, Hi.
    enough (∃ l, EmbeddingTrace.batch_from_array tr array i = Ok l) as [l ->].
    { exists (astype_uint64 l). split; [done|auto with memtier]. }
    unfold EmbeddingTrace.batch_from_array.
    destruct (Z.eqb_spec (ndim array) 1) as [E1|E1].
    { assert (i = 0) as -> by (specialize (Hnb1 E1); lia). simpl. eauto. }
    specialize (Hnb E1).
    assert (∃ l, nd_row array i = Ok l) as Hrow by (erewrite nd_row_Ok; [eauto|done|lia]).
    case_match; [done|]. rewrite Hsb. cbn [mbind result_bind]. destruct sb; [|done].
    rewrite Hs0. cbn [mbind result_bind]. unfold nd_rows. rewrite Es. eauto.
  - assert ((i <? 0) || (i >=? nb) = true) as -> by lia. done.
Qed.

Lemma mismatched_bag_batches tr array n w b :
  EmbeddingTrace.jsonl tr = None → EmbeddingTrace.ids tr = Some array →
  nd_wf array → shape array = [n; w] → all_u64 (data array) → 0 < b →
  EmbeddingTrace.layout_batches tr = Ok (Some b) → EmbeddingTrace.sample_batches tr array = Ok None →
  ∃ batches, EmbeddingTrace.iter_batches tr = Ok batches ∧ zlen batches = cdiv n b ∧
    concat batches = py_slice (data array) 0 (cdiv n b * w).
Proof.
  intros Hj Hi [Hp Hl] Es Hu Hb Hlb Hsb. rewrite Es in Hp, Hl. simpl in Hl. rewrite Z.mul_1_r in Hl.
  apply Forall_cons in Hp as [Hn Hp]. apply Forall_cons in Hp as [Hw _].
  assert (EmbeddingTrace.num_batches tr = Ok (cdiv n b)) as Enb.
  { unfold EmbeddingTrace.num_batches. rewrite Hj, Hi. unfold ndim. rewrite Es.
    change (zlen [n; w]) with 2. change (2 =? 1) with false. cbv iota. rewrite Hlb.
    cbn [mbind result_bind]. unfold shape_at. by rewrite Es. }
  pose proof (cdiv_spec n b Hb) as Hc. pose proof (cdiv_nonneg n b Hn Hb).
  exists ((λ k, py_slice (data array) (k * w) ((k + 1) * w)) <$> seqZ 0 (cdiv n b)). split; [|split].
  - unfold EmbeddingTrace.iter_batches. rewrite Enb. cbn [mbind result_bind]. apply mapM_Ok.
    apply Forall2_fmap_r, Forall_Forall2_diag, Forall_seqZ. intros i Hi'.
    unfold EmbeddingTrace.get_batch_ids. rewrite Enb. cbn [mbind result_bind].
    assert ((i <? 0) || (i >=? cdiv n b) = false) as -> by lia. rewrite Hj, Hi.
    unfold EmbeddingTrace.batch_from_array, ndim. rewrite Es.
    change (zlen [n; w]) with 2. change (2 =? 1) with false. change (2 =? 3) with false. cbv iota.
    rewrite Hsb. cbn [mbind result_bind]. rewrite (nd_row_Ok array n [w]); [|done|nia].
    simpl. rewrite Z.mul_1_r, astype_py_slice, astype_uint64_id by done. done.
  - rewrite length_fmap, length_seqZ. lia.
  - rewrite py_slice_nonneg by nia. simpl. rewrite Z.sub_0_r, drop_0, Z2Nat.inj_mul by lia.
    rewrite <-take_drop_batches. unfold seqZ. rewrite <-list_fmap_compose. f_equal.
    apply list_fmap_ext. intros k x _. simpl. rewrite Z.add_0_r, py_slice_nonneg by nia.
    f_equal; [lia|]. f_equal. lia.
Qed.

(** When a two-dimensional trace says "samples_by_fields" but its bag size
    is not the width of the array, the reader still announces ceil(n/b)
    batches but each batch is one sample: only the first ceil(n/b) of the [n]
    samples are read. *)
Lemma mismatched_bag_truncates tr array n w b :
  EmbeddingTrace.jsonl tr = None → EmbeddingTrace.ids tr = Some array →
  nd_wf array → shape array = [n; w] → all_u64 (data array) → 0 < b →
  EmbeddingTrace.layout_batches tr = Ok (Some b) → EmbeddingTrace.sample_batches tr array = Ok None →
  ∃ batches, EmbeddingTrace.iter_batches tr = Ok batches ∧ zlen batches = cdiv n b ∧
    concat batches = py_slice (data array) 0 (cdiv n b * w).
Proof. apply mismatched_bag_batches. Qed.

(** The block ids saved beside the ids and the block ids computed from the
    ids agree: for an array of blocks that holds [id // rows_per_block] for
    each id, [get_batch_block_ids] returns the same blocks with and without
    it. *)
Lemma stored_blocks_agree tr array blocks n w b r i :
  EmbeddingTrace.sample_trace tr array n w b → all_u64 (data array) → in_width 64 r → 0 < r →
  EmbeddingTrace.rows_per_block tr = Some r → EmbeddingTrace.block_ids tr = None →
  shape blocks = [n; w] → data blocks = (λ x, x `div` r) <$> data array → 0 ≤ i < cdiv n b →
  EmbeddingTrace.get_batch_block_ids tr i =
  EmbeddingTrace.get_batch_block_ids
    (EmbeddingTrace.Mk (EmbeddingTrace.rows_per_block tr) (EmbeddingTrace.metadata tr)
       (EmbeddingTrace.jsonl tr) (EmbeddingTrace.ids tr) (Some blocks)) i.
Proof.
  intros H Hu Hr Hr0 Erpb Enone Es Ed Hi.
  assert (all_u64 (data blocks)) as Hub.
  { rewrite Ed. apply Forall_fmap. refine (Forall_impl _ _ _ Hu _). intros x Hx. simpl.
    unfold in_width in *. pose proof (Z.div_pos x r). split; [lia|].
    apply Z.le_lt_trans with x; [|lia]. apply Z.div_le_upper_bound; nia. }
  set (tr' := EmbeddingTrace.Mk _ _ _ _ (Some blocks)).
  pose proof H as (_ & _ & Es' & _ & Hw & _ & _ & Hb).
  assert (EmbeddingTrace.sample_batches tr' blocks = Ok (Some b)) as Hsb.
  { rewrite <-(EmbeddingTrace.sample_batches_Ok _ _ _ _ _ H).
    apply EmbeddingTrace.sample_batches_ext; [done|congruence]. }
  unfold EmbeddingTrace.get_batch_block_ids. rewrite Enone, Erpb. cbn [EmbeddingTrace.block_ids tr'].
  rewrite (proj2 (Z.eqb_neq r 0)) by lia.
  rewrite (EmbeddingTrace.get_batch_ids_samples _ _ _ _ _ i H Hu Hi). cbn [mbind result_bind].
  rewrite np_uint64_small by done. cbn [mbind result_bind].
  rewrite (EmbeddingTrace.batch_from_array_samples tr' blocks n w b i); [|done..|lia|done|done].
  cbn [mbind result_bind]. rewrite astype_py_slice, astype_uint64_id by done.
  rewrite Ed, <-py_slice_fmap. do 2 f_equal. apply list_fmap_ext. intros k x Hx.
  apply np_floordiv_pos; [|done]. unfold all_u64 in Hu. rewrite Forall_forall in Hu. apply Hu.
  eapply py_slice_elem. by eapply list_elem_of_lookup_2.
Qed.

(** A JSONL trace written one [{"sparse_ids": [...]}] record per line reads
    back: the byte offsets indexed from the binary file lead the text reader to
    each record, blank lines are skipped, and the batches are the records'
    ids. *)
Lemma jsonl_roundtrip ls batches rpb :
  Forall is_line ls → filter non_blank ls = record_line <$> batches →
  Forall (λ ids, ids ≠ [] ∧ all_u64 ids) batches →
  (tr ← EmbeddingTrace.init (Jsonl (concat ls)) rpb; EmbeddingTrace.iter_batches tr) = Ok batches.
Proof.
  intros Hls Hf Hb.
  set (offs := offsets_of 0 ls).
  assert (∃ rpb', EmbeddingTrace.init (Jsonl (concat ls)) rpb =
            Ok (EmbeddingTrace.Mk rpb' (JObj []) (Some (concat ls, offs)) None None)) as [rpb' ->].
  { unfold EmbeddingTrace.init, EmbeddingTrace.load, EmbeddingTrace.index_jsonl.
    rewrite lines_keepends_concat, index_lines by done. destruct rpb; eexists; reflexivity. }
  cbn [mbind result_bind].
  pose proof (offsets_of_spec [] ls) as Ho. change (zlen (utf8 (concat []))) with 0 in Ho. fold offs in Ho.
  rewrite Hf in Ho. apply Forall2_fmap_r in Ho. cbn [app] in Ho.
  pose proof (Forall2_length _ _ _ Ho) as Elen.
  unfold EmbeddingTrace.iter_batches.
  change (EmbeddingTrace.num_batches _) with (Ok (zlen offs)). cbn [mbind result_bind].
  apply mapM_Ok, Forall2_same_length_lookup_2; [rewrite length_seqZ; lia|].
  intros k i ids Hk Hids. apply lookup_seqZ in Hk as [-> Hk]. rewrite Z.add_0_l.
  assert (ids ≠ [] ∧ all_u64 ids) as [Hne Hu] by (rewrite Forall_forall in Hb; eapply Hb, list_elem_of_lookup_2; eauto).
  destruct (Forall2_lookup_r _ _ _ _ _ Ho Hids) as (off & Hoff & pre & post & Els & ->).
  unfold EmbeddingTrace.get_batch_ids.
  change (EmbeddingTrace.num_batches _) with (Ok (zlen offs)). cbn [mbind result_bind EmbeddingTrace.jsonl].
  assert ((Z.of_nat k <? 0) || (Z.of_nat k >=? zlen offs) = false) as -> by lia.
  rewrite (py_index_nonneg offs _ (zlen (utf8 (concat pre)))); [|lia|by rewrite Nat2Z.id].
  cbn [mbind result_bind]. rewrite Els, concat_app, seek_text_app. cbn [concat].
  rewrite record_line_readline. unfold record_line.
  rewrite loads_dumps_ws; [|apply plain_record|by repeat constructor]. cbn [mbind result_bind].
  change (meta_get _ (u "sparse_ids")) with (Ok (json_row ids)). cbn [mbind result_bind].
  assert (truthy (json_row ids) = true) as -> by (by destruct ids). cbn [mbind result_bind].
  by rewrite np_asarray_json_vector.
Qed.

End Properties.

(** *** The properties at concrete traces *)

Section Witnesses.
#[local] Existing Instance reference_numpy.
#[local] Existing Instance reference_asarray.

Definition example_metadata (bag : Z) : json :=
  JObj [(u "batch_size", JInt 2); (u "bag_size", JInt bag); (u "rows_per_block", JInt 4);
        (u "trace_layout", JStr (u "samples_by_fields"))].
Definition example_ids : ndarray := nd_matrix 3 [[1; 2; 3]; [4; 5; 6]; [7; 8; 9]; [1; 2; 9]; [0; 0; 7]].
Definition example_trace (bag : Z) : EmbeddingTrace.t :=
  EmbeddingTrace.Mk (Some 4) (example_metadata bag) None (Some example_ids) None.

Lemma example_u64 : all_u64 (data example_ids).
Proof. apply (bool_decide_unpack _). vm_compute. exact I. Qed.

Lemma example_wf : nd_wf example_ids.
Proof. apply nd_matrix_wf; [lia|repeat constructor]. Qed.

Lemma example_samples : EmbeddingTrace.sample_trace (example_trace 3) example_ids 5 3 2.
Proof. repeat split; try lia; try (vm_compute; reflexivity). apply example_wf. Qed.

Lemma iter_batches_partition_witness :
  ∃ batches, EmbeddingTrace.iter_batches (example_trace 3) = Ok batches ∧
    concat batches = data example_ids ∧ zlen batches = cdiv 5 2 ∧ Forall (λ l, 0 < zlen l ≤ 2 * 3) batches.
Proof. apply (iter_batches_partition _ _ 5 3 2); [apply example_samples|apply example_u64]. Defined.

Lemma get_batch_ids_total_witness :
  ∃ nb, EmbeddingTrace.num_batches (example_trace 3) = Ok nb ∧
    ∀ i, (0 ≤ i < nb → ∃ l, EmbeddingTrace.get_batch_ids (example_trace 3) i = Ok l ∧ all_u64 l) ∧
         (¬ 0 ≤ i < nb → EmbeddingTrace.get_batch_ids (example_trace 3) i = Err IndexError).
Proof.
  apply (get_batch_ids_total _ example_ids (Some 2) (Some 2)); try (vm_compute; reflexivity).
  - apply example_wf.
  - done.
  - intros b [[= <-]|[= <-]]; lia.
Defined.

Lemma mismatched_bag_truncates_witness :
  ∃ batches, EmbeddingTrace.iter_batches (example_trace 4) = Ok batches ∧ zlen batches = cdiv 5 2 ∧
    concat batches = py_slice (data example_ids) 0 (cdiv 5 2 * 3).
Proof.
  apply (mismatched_bag_truncates (example_trace 4) example_ids 5 3 2); try reflexivity.
  - apply example_wf.
  - apply example_u64.
Defined.

Definition example_blocks : ndarray := NdArray [5; 3] ((λ x, x `div` 4) <$> data example_ids).

Lemma stored_blocks_agree_witness :
  EmbeddingTrace.get_batch_block_ids (example_trace 3) 1 =
  EmbeddingTrace.get_batch_block_ids
    (EmbeddingTrace.Mk (EmbeddingTrace.rows_per_block (example_trace 3))
       (EmbeddingTrace.metadata (example_trace 3)) (EmbeddingTrace.jsonl (example_trace 3))
       (EmbeddingTrace.ids (example_trace 3)) (Some example_blocks)) 1.
Proof.
  apply (stored_blocks_agree (example_trace 3) example_ids example_blocks 5 3 2 4 1); try reflexivity.
  - apply example_samples.
  - apply example_u64.
  - unfold in_width. lia.
  - split; [lia|reflexivity].
Defined.

Lemma is_line_check w : forallb (λ c, negb (c =? 10)) w = true → is_line (w ++ [10]).
Proof.
  intros H. exists w. split; [done|]. apply Forall_forall. intros c Hc. rewrite forallb_forall in H.
  rewrite list_elem_of_In in Hc. specialize (H c Hc). lia.
Qed.

Lemma jsonl_roundtrip_witness :
  (tr ← EmbeddingTrace.init (Jsonl (concat [record_line [5; 6]; u "  " ++ [10]; record_line [7]])) None;
   EmbeddingTrace.iter_batches tr) = Ok [[5; 6]; [7]].
Proof.
  apply (jsonl_roundtrip _ [[5; 6]; [7]]).
  - apply Forall_cons_2; [apply is_line_check; vm_compute; reflexivity|].
    apply Forall_cons_2; [apply is_line_check; vm_compute; reflexivity|].
    apply Forall_cons_2; [apply is_line_check; vm_compute; reflexivity|apply Forall_nil_2].
  - vm_compute. reflexivity.
  - repeat constructor; try done; unfold in_width; lia.
Defined.
End Witnesses.
