(* ===== verification/SyntheticTrace.v ===== *)
(** The program of memtier_embedding_bench/python/embedding_workload.py: its
    command line, [main], and the trace it writes as the trace reader sees it.

    [np.save] writes to its path with [.npy] added when it is missing; the
    metadata go to the path with [.json] added, where the trace reader looks
    for the metadata of an [.npy] trace. *)

From S2P Require Import Prelude PyFloat PyText PyPath NumPy Json Argparse Namespace NdArray Workload TraceReader.

Definition workload_parser : parser :=
  [opt_in "--trace-source" TStr [VStr (u "synthetic"); VStr (u "criteo"); VStr (u "dlrm")] (VStr (u "synthetic"));
   opt "--trace-file" TPath VNone;
   opt "--criteo-input" TPath VNone;
   opt "--criteo-input-glob" TStr VNone;
   opt "--dlrm-input" TPath VNone;
   req "--output" TPath;
   opt_in "--dist" TStr [VStr (u "uniform"); VStr (u "zipf")] (VStr (u "uniform"));
   opt "--zipf-alpha" TFloat (VFloat f_one);
   req "--batch-size" TInt;
   req "--bag-size" TInt;
   req "--num-batches" TInt;
   req "--num-embeddings" TInt;
   opt "--overlap-ratio" TFloat (VFloat f_zero);
   opt "--rows-per-block" TInt (VInt 2048);
   opt "--seed" TInt (VInt 1234)].

Record workload_args := {
  wa_trace_source : str;
  wa_trace_file : option path;
  wa_output : path;
  wa_dist : str;
  wa_zipf_alpha : f64;
  wa_batch_size : Z;
  wa_bag_size : Z;
  wa_num_batches : Z;
  wa_num_embeddings : Z;
  wa_overlap_ratio : f64;
  wa_rows_per_block : Z;
  wa_seed : Z;
}.

Definition workload_args_of (ns : namespace) : result workload_args :=
    trace_source ← str_attr ns "trace_source";
    trace_file ← opt_attr path_attr ns "trace_file";
    output ← path_attr ns "output";
    dist ← str_attr ns "dist";
    zipf_alpha ← float_attr ns "zipf_alpha";
    batch_size ← int_attr ns "batch_size";
    bag_size ← int_attr ns "bag_size";
    num_batches ← int_attr ns "num_batches";
    num_embeddings ← int_attr ns "num_embeddings";
    overlap_ratio ← float_attr ns "overlap_ratio";
    rows_per_block ← int_attr ns "rows_per_block";
    seed ← int_attr ns "seed";
    Ok {| wa_trace_source := trace_source; wa_trace_file := trace_file; wa_output := output; wa_dist := dist;
          wa_zipf_alpha := zipf_alpha; wa_batch_size := batch_size; wa_bag_size := bag_size;
          wa_num_batches := num_batches; wa_num_embeddings := num_embeddings; wa_overlap_ratio := overlap_ratio;
          wa_rows_per_block := rows_per_block; wa_seed := seed |}.

(** ** Files *)

(** [np.save(p, ...)]: the name of the file. *)
Definition ends_with (suffix s : str) : bool := starts_with (rev suffix) (rev s).
Definition np_save_name (p : path) : str :=
  let file := path_str p in if ends_with (u ".npy") file then file else file ++ u ".npy".

(** [p.with_suffix(p.suffix + ".json")]. *)
Definition metadata_path (p : path) : result path :=
  match last (path_parts p) with
  | Some name => Ok {| path_root := path_root p; path_parts := removelast (path_parts p) ++ [name ++ u ".json"] |}
  | None => Err ValueError
  end.

(** [json.dumps(v, default=str)] writes an attribute as this value. *)
Definition json_of (v : value) : json :=
  match v with
  | VNone => JNull
  | VBool b => JBool b
  | VInt z => JInt z
  | VFloat f => JFloat f
  | VStr s => JStr s
  | VPath p => JStr (path_str p)
  | VEmptyList => JList []
  end.

(** What [main] writes: the trace, if it makes one, and the metadata. *)
Record workload_files := {
  wf_trace : option (str * ndarray);
  wf_metadata_path : path;
  wf_metadata : list (str * json);
}.

Section Main.
  Context {NP : NumPy} {AA : AsArray} {RG : Rng}.
  (** [np.mean] of ints and of floats, and what [EmbeddingTrace] reads at a path. *)
  Variables (np_mean_int : list Z → f64) (np_mean : list f64 → f64) (read_trace : path → result trace_file).

Definition inspect_metadata (args : workload_args) (trace_file : path) (num_batches : Z) (metadata : json)
    : list (str * json) :=
    [(u "trace_source", JStr (wa_trace_source args)); (u "trace_file", JStr (path_str trace_file));
     (u "num_batches", JInt num_batches); (u "metadata", metadata)].

(** [{**vars(args), **summary, "trace_shape": ..., "dtype": ...}]. *)
Definition synthetic_metadata (ns : namespace) (summary : reuse_summary) (shape : list Z) : list (str * json) :=
    foldl (λ d kv, dict_set d kv.1 kv.2) ((λ kv : str * value, (kv.1, json_of kv.2)) <$> ns)
      [(u "avg_unique_blocks_per_batch", JFloat (avg_unique_blocks_per_batch summary));
       (u "avg_inter_batch_block_reuse", JFloat (avg_inter_batch_block_reuse summary));
       (u "num_batches", JInt (num_batches summary));
       (u "trace_shape", json_row shape); (u "dtype", JStr (u "uint64"))].

Definition write_workload (ns : namespace) (args : workload_args) : result workload_files :=
    if negb (bool_decide (wa_trace_source args = u "synthetic")) then
      match wa_trace_file args with
      | Some p =>
          file ← read_trace p;
          trace_obj ← EmbeddingTrace.init file (Some (wa_rows_per_block args));
          n ← EmbeddingTrace.num_batches trace_obj;
          meta_path ← metadata_path (wa_output args);
          Ok {| wf_trace := None; wf_metadata_path := meta_path;
                wf_metadata := inspect_metadata args p n (EmbeddingTrace.metadata trace_obj) |}
      | None => Err SystemExit
      end
    else
      trace ← generate_ids (wa_num_embeddings args) (wa_batch_size args) (wa_bag_size args) (wa_num_batches args)
                (wa_dist args) (wa_zipf_alpha args) (wa_overlap_ratio args) (wa_seed args);
      let array := nd_matrix (wa_batch_size args * wa_bag_size args) trace in
      summary ← estimate_block_reuse np_mean_int np_mean trace (wa_rows_per_block args);
      meta_path ← metadata_path (wa_output args);
      Ok {| wf_trace := Some (np_save_name (wa_output args), array); wf_metadata_path := meta_path;
            wf_metadata := synthetic_metadata ns summary (shape array) |}.

Definition workload_main (argv : list str) : result workload_files :=
    ns ← parse_args workload_parser argv;
    args ← workload_args_of ns;
    write_workload ns args.
End Main.

(** ** Lemmas *)

Lemma workload_parser_ok : parser_ok workload_parser = true.
Proof. by vm_compute. Qed.

Lemma workload_args_total argv ns :
  parse_args workload_parser argv = Ok ns → stores_no_list ns → ∃ args, workload_args_of ns = Ok args.
Proof.
  intros H Hn. pose proof workload_parser_ok as ok. unfold workload_args_of. repeat attribute ok H Hn. eauto.
Qed.

(** *** Names *)

Lemma join_snoc sep (l : list str) x : l ≠ [] → join sep (l ++ [x]) = join sep l ++ sep ++ x.
Proof.
  induction l as [|y l IH]; [done|]. intros _. destruct l as [|z l]; [done|].
  rewrite <-app_comm_cons, !join_cons by (done || by destruct l). rewrite IH by done. by rewrite <-!app_assoc.
Qed.

(** The metadata are next to the path given. *)
Lemma metadata_path_name p m : metadata_path p = Ok m → path_str p ≠ u "." → path_str m = path_str p ++ u ".json".
Proof.
  unfold metadata_path. destruct (last (path_parts p)) as [name|] eqn:E; [|done]. intros [= <-] Hp.
  apply last_Some in E as [l El]. destruct p as [root parts]. cbn [path_parts path_root] in *. subst parts.
  rewrite List.removelast_last. unfold path_str in *. cbn [path_parts path_root] in *.
  assert (∀ x, join [47] (l ++ [x ++ u ".json"]) = join [47] (l ++ [x]) ++ u ".json") as Hj.
  { intros x. destruct (decide (l = [])) as [->|Hl]; [done|]. by rewrite !join_snoc, <-!app_assoc by done. }
  rewrite Hj. destruct (root ++ join [47] (l ++ [name])) as [|c r] eqn:Er; [done|].
  rewrite app_assoc, Er. done.
Qed.

(** An [.npy] trace finds its metadata only when the path given had the suffix:
    [np.save] adds it to the trace and not to the metadata. *)
Lemma metadata_found_iff p m :
  metadata_path p = Ok m → path_str p ≠ u "." →
  path_str m = np_save_name p ++ u ".json" ↔ ends_with (u ".npy") (path_str p) = true.
Proof.
  intros Hm Hp. rewrite (metadata_path_name p m Hm Hp). unfold np_save_name. destruct (ends_with _ _); [done|].
  split; [|done]. intros E. apply (f_equal length) in E. rewrite !length_app in E. cbn in E. lia.
Qed.

(** A trace file is not looked at unless a source is named too. *)
Lemma trace_file_ignored `{NP : NumPy, AA : AsArray, RG : Rng} np_mean_int np_mean read_trace read_trace' ns args :
  wa_trace_source args = u "synthetic" →
  write_workload np_mean_int np_mean read_trace ns args = write_workload np_mean_int np_mean read_trace' ns args.
Proof. intros E. unfold write_workload. by rewrite E. Qed.

(** *** The trace as it is read *)

Section ReadBack.
Context {NP : NumPy} {AA : AsArray} {RG : Rng}.

Lemma concat_row (w : Z) (rows : list (list Z)) (k : nat) row :
  rectangular w rows → 0 ≤ w → rows !! k = Some row →
  py_slice (concat rows) (Z.of_nat k * w) ((Z.of_nat k + 1) * w) = row.
Proof.
  intros HF Hw Hk. rewrite py_slice_nonneg by nia.
  replace ((Z.of_nat k + 1) * w - Z.of_nat k * w) with w by lia.
  rewrite <-(take_drop_middle rows k row Hk) in HF |- *.
  apply Forall_app in HF as [HF1 HF2]. inversion HF2 as [|? ? Hrow _]; subst.
  assert (zlen (concat (take k rows)) = Z.of_nat k * zlen row) as Hl.
  { assert (length (take k rows) = k) as Elk by (rewrite length_take; apply lookup_lt_Some in Hk; lia).
    rewrite <-Elk at 2. clear Hk Elk HF2. induction HF1 as [|r l Hr _ IH]; [done|]. cbn [concat]. rewrite length_app. cbn [length]. lia. }
  rewrite concat_app. cbn [concat]. rewrite drop_app_ge by lia.
  replace (Z.to_nat (Z.of_nat k * zlen row) - length (concat (take k rows)))%nat with 0%nat by lia.
  rewrite drop_0. rewrite take_app_le by lia. apply take_ge. lia.
Qed.

(** A matrix that is not a table of samples is read row by row. *)
Lemma iter_batches_rows tr w rows :
  EmbeddingTrace.jsonl tr = None → EmbeddingTrace.ids tr = Some (nd_matrix w rows) → 0 ≤ w → rectangular w rows →
  Forall all_u64 rows → EmbeddingTrace.layout_batches tr = Ok None →
  EmbeddingTrace.sample_batches tr (nd_matrix w rows) ∈ [Ok None; Ok (Some 1)] →
  EmbeddingTrace.iter_batches tr = Ok rows.
Proof.
  intros Hj Hi Hw HF Hu Hl Hs.
  assert (EmbeddingTrace.num_batches tr = Ok (zlen rows)) as Enb.
  { unfold EmbeddingTrace.num_batches. rewrite Hj, Hi. change (ndim (nd_matrix w rows)) with 2.
    change (2 =? 1) with false. change (2 =? 3) with false. cbv iota. rewrite Hl. cbn [mbind result_bind].
    change (shape_at (nd_matrix w rows) 0) with (Ok (zlen rows)).
    apply elem_of_cons in Hs as [-> | ->%list_elem_of_singleton]; cbn [mbind result_bind]; [done|].
    f_equal. rewrite Z.div_1_r. lia. }
  unfold EmbeddingTrace.iter_batches. rewrite Enb. cbn [mbind result_bind]. apply mapM_Ok.
  apply Forall2_same_length_lookup_2; [rewrite length_seqZ; lia|]. intros k i row Hk Hrow.
  apply lookup_seqZ in Hk as [-> Hk]. rewrite Z.add_0_l.
  unfold EmbeddingTrace.get_batch_ids. rewrite Enb. cbn [mbind result_bind].
  assert ((Z.of_nat k <? 0) || (Z.of_nat k >=? zlen rows) = false) as -> by lia. rewrite Hj, Hi.
  assert (EmbeddingTrace.batch_from_array tr (nd_matrix w rows) (Z.of_nat k) = Ok row) as ->.
  { unfold EmbeddingTrace.batch_from_array. change (ndim (nd_matrix w rows)) with 2.
    change (2 =? 1) with false. change (2 =? 3) with false. cbv iota.
    pose proof (concat_row w rows k row HF Hw Hrow) as Hrw.
    apply elem_of_cons in Hs as [-> | ->%list_elem_of_singleton]; cbn [mbind result_bind].
    - rewrite (nd_row_Ok _ (zlen rows) [w]) by (done || lia). cbn [prod foldr data nd_matrix]. rewrite Z.mul_1_r.
      by rewrite Hrw.
    - change (shape_at (nd_matrix w rows) 0) with (Ok (zlen rows)). cbn [mbind result_bind].
      rewrite (nd_rows_Ok _ (zlen rows) [w]) by (done || lia). cbn [prod foldr data nd_matrix]. rewrite !Z.mul_1_r.
      rewrite Z.min_r by lia. by rewrite Hrw. }
  cbn [fmap result_fmap]. f_equal. apply astype_uint64_id. by apply (Forall_lookup_1 _ _ _ _ Hu Hrow).
Qed.

(** *** The metadata *)

Lemma dict_get_fmap {A B} (f : A → B) (d : list (str * A)) k :
  dict_get ((λ kv : str * A, (kv.1, f kv.2)) <$> d) k = f <$> dict_get d k.
Proof. induction d as [|[k' v] d IH]; [done|]. rewrite fmap_cons. cbn [dict_get fst snd]. by case_decide. Qed.

(** The attributes that the summary does not shadow. *)
Lemma synthetic_metadata_get ns summary shape k :
  forallb (λ k', negb (bool_decide (k = k')))
    [u "avg_unique_blocks_per_batch"; u "avg_inter_batch_block_reuse"; u "num_batches"; u "trace_shape"; u "dtype"] = true →
  dict_get (synthetic_metadata ns summary shape) k = json_of <$> dict_get ns k.
Proof.
  cbn [forallb]. intros H. repeat (apply andb_true_iff in H as [?%negb_true_iff%bool_decide_eq_false H]).
  unfold synthetic_metadata. cbn [foldl fst snd]. rewrite !dict_get_set, !decide_False by done. apply dict_get_fmap.
Qed.

Lemma int_attr_get ns k z : int_attr ns k = Ok z → dict_get ns (u k) = Some (VInt z).
Proof.
  unfold int_attr, attr. intros H. apply bind_Ok in H as (v & Hv%of_option_Ok & H). destruct v; try done.
  injection H as <-. done.
Qed.

(** What the reader makes of the metadata: no sample layout, and rows of
    [batch_size * bag_size] ids. *)
Lemma synthetic_layout argv ns b g summary sh raw rows rpb :
  parse_args workload_parser argv = Ok ns → int_attr ns "batch_size" = Ok b → int_attr ns "bag_size" = Ok g →
  json_loads raw = Ok (JObj (synthetic_metadata ns summary sh)) →
  ∃ tr, EmbeddingTrace.init (Npy (nd_matrix (b * g) rows) (Some raw)) (Some rpb) = Ok tr ∧
    EmbeddingTrace.jsonl tr = None ∧ EmbeddingTrace.ids tr = Some (nd_matrix (b * g) rows) ∧
    EmbeddingTrace.layout_batches tr = Ok None ∧
    EmbeddingTrace.sample_batches tr (nd_matrix (b * g) rows) ∈ [Ok None; Ok (Some 1)].
Proof.
  intros Hns Hb Hg Hraw. unfold EmbeddingTrace.init, EmbeddingTrace.load. rewrite Hraw. cbn [mbind result_bind].
  eexists. split; [reflexivity|]. split; [done|]. split; [done|]. cbn [EmbeddingTrace.metadata].
  set (tr := EmbeddingTrace.Mk _ _ _ _ _). set (m := JObj (synthetic_metadata ns summary sh)) in *.
  assert (∀ k, k ∉ dest <$> workload_parser → forallb (λ k', negb (bool_decide (k = k')))
    [u "avg_unique_blocks_per_batch"; u "avg_inter_batch_block_reuse"; u "num_batches"; u "trace_shape"; u "dtype"] = true →
    meta_get m k = Ok JNull) as Habs.
  { intros k Hk Hn. unfold m. cbn [meta_get]. rewrite synthetic_metadata_get by done.
    by rewrite (namespace_absent workload_parser argv ns k workload_parser_ok Hns Hk). }
  assert (meta_get m (u "batch_size") = Ok (JInt b)) as Eb.
  { unfold m. cbn [meta_get]. rewrite synthetic_metadata_get by done. by rewrite (int_attr_get _ _ _ Hb). }
  assert (meta_get m (u "bag_size") = Ok (JInt g)) as Eg.
  { unfold m. cbn [meta_get]. rewrite synthetic_metadata_get by done. by rewrite (int_attr_get _ _ _ Hg). }
  split.
  - unfold EmbeddingTrace.layout_batches. cbn [EmbeddingTrace.metadata tr].
    rewrite Habs; [done|by apply (bool_decide_unpack _)|done].
  - unfold EmbeddingTrace.sample_batches. change (negb (ndim _ =? 2)) with false. cbv iota.
    unfold EmbeddingTrace.bag_size. cbn [EmbeddingTrace.metadata tr]. rewrite Eg. cbn [mbind result_bind truthy].
    destruct (Z.eqb_spec g 0) as [->|Hg0]; cbn [negb].
    { rewrite Habs; [by left|by apply (bool_decide_unpack _)|done]. }
    cbn [mbind result_bind opt_int_json py_int_json fmap result_fmap opt_truthy].
    rewrite (proj2 (Z.eqb_neq g 0)) by done. cbn [negb].
    change (shape_at (nd_matrix (b * g) rows) 1) with (Ok (b * g)). cbn [mbind result_bind].
    destruct (decide (Some (b * g) = Some g)) as [[= E]|Hne]; [|rewrite bool_decide_false by done; by left].
    rewrite bool_decide_true by congruence. cbn [negb]. assert (b = 1) as -> by nia.
    unfold EmbeddingTrace.batch_size. cbn [EmbeddingTrace.metadata tr]. rewrite Eb. right. by left.
Qed.
End ReadBack.

(** ** The property *)

(** The parameters of a synthetic trace that the generator accepts. *)
Record valid_workload `{NP : NumPy, RG : Rng} (args : workload_args) : Prop := {
  vw_source : wa_trace_source args = u "synthetic";
  vw_dist : dist_defined (wa_dist args) (wa_num_embeddings args) (wa_zipf_alpha args);
  vw_embeddings : 0 < wa_num_embeddings args ≤ 2 ^ 64;
  vw_batches : 0 ≤ wa_num_batches args;
  vw_seed : 0 ≤ wa_seed args;
  vw_total : 0 ≤ wa_batch_size args * wa_bag_size args ≤ two53;
  vw_ratio : f_wf (wa_overlap_ratio args) = true;
  vw_ratio_unit : fle f_zero (wa_overlap_ratio args) && flt (wa_overlap_ratio args) f_one = true;
  vw_rpb : in_width 64 (wa_rows_per_block args);
  vw_rpb_pos : 0 < wa_rows_per_block args;
  vw_output : path_parts (wa_output args) ≠ [];
}.

(** C33: a synthetic trace reads back batch by batch. A command line with valid
    parameters makes the program return; the array it saves holds the
    num_batches batches of [generate_ids], each of batch_size * bag_size ids
    below num_embeddings, and the trace reader, opening that array with any text
    that decodes to the metadata written, yields exactly these batches, one
    row each: the [batch_size] and [bag_size] among the metadata never make it
    take the rows for samples. *)
Theorem synthetic_trace_reads_back `{NP : NumPy, AA : AsArray, RG : Rng} np_mean_int np_mean read_trace argv ns args :
  parse_args workload_parser argv = Ok ns → workload_args_of ns = Ok args → valid_workload args →
  ∃ trace out,
    generate_ids (wa_num_embeddings args) (wa_batch_size args) (wa_bag_size args) (wa_num_batches args)
      (wa_dist args) (wa_zipf_alpha args) (wa_overlap_ratio args) (wa_seed args) = Ok trace ∧
    zlen trace = wa_num_batches args ∧
    Forall (λ row, zlen row = wa_batch_size args * wa_bag_size args ∧ Forall (λ id, 0 ≤ id < wa_num_embeddings args) row) trace ∧
    workload_main np_mean_int np_mean read_trace argv = Ok out ∧
    let array := nd_matrix (wa_batch_size args * wa_bag_size args) trace in
    wf_trace out = Some (np_save_name (wa_output args), array) ∧
    ∀ raw rpb, json_loads raw = Ok (JObj (wf_metadata out)) →
      ∃ tr, EmbeddingTrace.init (Npy array (Some raw)) (Some rpb) = Ok tr ∧ EmbeddingTrace.iter_batches tr = Ok trace.
Proof.
  intros Hns Hargs V. destruct V as [Hs Hd Hn Hnb Hseed Ht Hwf Hr Hrpb Hrpb0 Hout].
  destruct (generate_ids_shape _ _ _ _ _ _ _ _ Hd Hn Hnb Hseed Ht Hwf Hr) as (trace & ov & Eg & _ & _ & Hl & HF & _).
  assert (Forall all_u64 trace) as Hu.
  { eapply Forall_impl; [exact HF|]. intros row [_ H]. eapply Forall_impl; [exact H|]. unfold in_width. lia. }
  assert (rectangular (wa_batch_size args * wa_bag_size args) trace) as Hrect.
  { eapply Forall_impl; [exact HF|]. by intros row [H _]. }
  destruct (estimate_block_reuse_Ok np_mean_int np_mean trace _ Hu Hrpb Hrpb0) as (summary & Es & _).
  assert (∃ m, metadata_path (wa_output args) = Ok m) as [m Em].
  { unfold metadata_path. destruct (last (path_parts (wa_output args))) eqn:E; [by eexists|]. by apply last_None in E. }
  eexists trace, _. split; [done|]. split; [done|]. split; [done|]. split.
  { unfold workload_main. run_step ltac:(exact Hns). run_step ltac:(exact Hargs). unfold write_workload.
    rewrite bool_decide_true by done. cbn [negb]. run_step ltac:(exact Eg). run_step ltac:(exact Es).
    run_step ltac:(exact Em). reflexivity. }
  split; [done|]. intros raw rpb Hraw. cbn [wf_metadata] in Hraw.
  assert (int_attr ns "batch_size" = Ok (wa_batch_size args) ∧ int_attr ns "bag_size" = Ok (wa_bag_size args)) as [Hb Hg].
  { unfold workload_args_of in Hargs. inv_run Hargs. by simplify_eq. }
  destruct (synthetic_layout argv ns _ _ _ _ raw trace rpb Hns Hb Hg Hraw) as (tr & Ei & Hj & Hi & Hlay & Hsb).
  exists tr. split; [done|]. apply (iter_batches_rows tr (wa_batch_size args * wa_bag_size args)); try done. lia.
Qed.

(** *** At a concrete command line *)

Section Witnesses.
#[local] Existing Instance reference_numpy.
#[local] Existing Instance reference_asarray.
#[local] Existing Instance reference_rng.

Definition example_command : list str :=
  [u "--output"; u "out/t.npy"; u "--batch-size"; u "1"; u "--bag-size=3"; u "--num-b"; u "4"; u "--num-embeddings"; u "10";
   u "--overlap-ratio"; u "0.5"].
Definition example_namespace : namespace :=
  match parse_args workload_parser example_command with Ok ns => ns | Err _ => [] end.
Definition example_workload : workload_args :=
  {| wa_trace_source := u "synthetic"; wa_trace_file := None; wa_output := path_of (u "out/t.npy"); wa_dist := u "uniform";
     wa_zipf_alpha := f_one; wa_batch_size := 1; wa_bag_size := 3; wa_num_batches := 4; wa_num_embeddings := 10;
     wa_overlap_ratio := lit 1 2; wa_rows_per_block := 2048; wa_seed := 1234 |}.
Definition example_main : result workload_files :=
  workload_main (λ _, f_one) (λ _, f_one) (λ _, Err OSError) example_command.

Lemma example_workload_valid : valid_workload example_workload.
Proof.
  constructor; first [done | by left | cbn; lia | split; vm_compute; congruence].
Qed.

Lemma synthetic_trace_reads_back_witness :
  ∃ trace out,
    generate_ids 10 1 3 4 (u "uniform") f_one (lit 1 2) 1234 = Ok trace ∧
    zlen trace = 4 ∧ Forall (λ row, zlen row = 3 ∧ Forall (λ id, 0 ≤ id < 10) row) trace ∧ example_main = Ok out ∧
    let array := nd_matrix 3 trace in
    wf_trace out = Some (u "out/t.npy", array) ∧
    ∀ raw rpb, json_loads raw = Ok (JObj (wf_metadata out)) →
      ∃ tr, EmbeddingTrace.init (Npy array (Some raw)) (Some rpb) = Ok tr ∧ EmbeddingTrace.iter_batches tr = Ok trace.
Proof.
  apply (synthetic_trace_reads_back (λ _, f_one) (λ _, f_one) (λ _, Err OSError) example_command example_namespace
    example_workload); [vm_compute; reflexivity|vm_compute; reflexivity|apply example_workload_valid].
Defined.

(** There is such a text: the metadata with their floats written out. *)
Definition member_text (kv : str * json) : str :=
  dumps_str kv.1 ++ u ": " ++
  match kv.2 with JFloat f => if decide (f = lit 1 2) then u "0.5" else u "1.0" | v => json_dumps v end.

Example metadata_text :
  match example_main with
  | Ok out => json_loads ([123] ++ join (u ", ") (member_text <$> wf_metadata out) ++ [125]) = Ok (JObj (wf_metadata out)) ∧
              (∃ rows, wf_trace out = Some (u "out/t.npy", rows) ∧ shape rows = [4; 3]) ∧
              path_str (wf_metadata_path out) = u "out/t.npy.json"
  | Err _ => False
  end.
Proof. vm_compute. split_and!; [done|by eexists|done]. Qed.

(** An error of the command line, a missing file of a named source, and a trace
    named without its suffix, whose metadata the reader does not find. *)
Example workload_errors :
  workload_main (λ _, f_one) (λ _, f_one) (λ _, Err OSError) [u "--output"; u "t"] = Err SystemExit ∧
  workload_main (λ _, f_one) (λ _, f_one) (λ _, Err OSError) (example_command ++ [u "--trace-source=dlrm"]) = Err SystemExit ∧
  np_save_name (path_of (u "out/t")) = u "out/t.npy" ∧
  (path_str <$> metadata_path (path_of (u "out/t"))) = Ok (u "out/t.json").
Proof. by vm_compute. Qed.
End Witnesses.
