(* ===== verification/Stats.v ===== *)
(** Counters, order statistics and coverage
    (memtier_embedding_bench/scripts/analyze_trace.py: [percentile],
    [coverage], [estimate_zipf_slope]; the same [percentile] is repeated in
    python/memtier_embedding.py, python/baseline_cpu_staging.py and
    python/baseline_torch_embedding.py). *)

From S2P Require Import Prelude PyFloat PyText NumPy.

(** ** [percentile] *)

(** [min(len - 1, max(0, int(round((pct / 100.0) * (len - 1)))))]. *)
Definition percentile_index (pct : f64) (n : Z) : result Z :=
  q ← fdiv pct (lit 100 1);
  last ← of_Z (n - 1);
  k ← f_round (fmul q last);
  Ok (Z.min (n - 1) (Z.max 0 k)).

(** The selected value; [None] is the literal [0.0] of the empty case. *)
Definition percentile {A} (R : relation A) `{!RelDecision R} (values : list A) (pct : f64) : result (option A) :=
  if decide (values = []) then Ok None
  else
    let ordered := merge_sort R values in
    idx ← percentile_index pct (zlen ordered);
    Some <$> py_index ordered idx.

(** analyze_trace.py wraps the value in [float]. *)
Definition percentile_float (values : list Z) (pct : f64) : result f64 :=
  v ← percentile Z.le values pct;
  match v with None => Ok f_zero | Some z => of_Z z end.

(** ** [collections.Counter] *)

(** A counter is its items, in insertion order. *)
Abbreviation counter := (list (Z * Z)).

Fixpoint counter_add (c : counter) (x : Z) : counter :=
  match c with
  | [] => [(x, 1)]
  | (y, n) :: c => if y =? x then (y, n + 1) :: c else (y, n) :: counter_add c x
  end.

(** [counter.update(xs)]. *)
Definition counter_update (c : counter) (xs : list Z) : counter := foldl counter_add c xs.

(** [sorted(items, key=count, reverse=True)]: stable, largest counts first. *)
Fixpoint insert_item (x : Z * Z) (l : counter) : counter :=
  match l with
  | [] => [x]
  | y :: l' => if y.2 <=? x.2 then x :: l else y :: insert_item x l'
  end.
Definition most_common (c : counter) : counter := foldr insert_item [] c.

(** ** [coverage] *)

Definition fractions : list f64 := [lit 1 100; lit 5 100; lit 10 100].

(** [max(1, int(n_unique * frac)) if n_unique else 0]. *)
Definition top_count (n_unique : Z) (frac : f64) : result Z :=
  if n_unique =? 0 then Ok 0 else
  n ← of_Z n_unique;
  k ← f_int (fmul n frac);
  Ok (Z.max 1 k).

(** One iteration: the percentage of the key and the coverage. *)
Definition coverage_at (c : counter) (frac : f64) : result (Z * f64) :=
  let total := zsum c.*2 in
  n ← top_count (zlen c) frac;
  let covered := if n =? 0 then 0 else zsum (py_slice (most_common c) 0 n).*2 in
  key ← f_int (fmul frac (lit 100 1));
  r ← truediv covered (Z.max total 1);
  Ok (key, r).

Record coverage_stats := { cov_topk : counter; cov_top : list (Z * f64) }.

Definition coverage (c : counter) (topk : Z) : result coverage_stats :=
  tops ← mapM (coverage_at c) fractions;
  Ok {| cov_topk := py_slice (most_common c) 0 topk; cov_top := tops |}.

(** [polyfit_loglog freqs]: the slope NumPy fits to the logarithms. *)
Definition estimate_zipf_slope (polyfit_loglog : list Z → f64) (c : counter) (topn : Z) : f64 :=
  let freqs := (py_slice (most_common c) 0 topn).*2 in
  if zlen freqs <? 2 then f_zero else fopp (polyfit_loglog freqs).

(** ** Lemmas: counters *)

(** How often [x] is counted. *)
Definition count_of (c : counter) (x : Z) : Z := zsum ((λ p : Z * Z, if p.1 =? x then p.2 else 0) <$> c).
Definition occurrences (xs : list Z) (x : Z) : Z := zlen (filter (λ y, y = x) xs).

Definition counter_wf (c : counter) : Prop := NoDup c.*1 ∧ Forall (λ p : Z * Z, 0 < p.2) c.

Lemma sum_counts_cons (p : Z * Z) (c : counter) : zsum (p :: c).*2 = p.2 + zsum c.*2.
Proof. done. Qed.

Lemma count_of_cons p c x : count_of (p :: c) x = (if p.1 =? x then p.2 else 0) + count_of c x.
Proof. done. Qed.

Lemma counter_add_sum c x : zsum (counter_add c x).*2 = zsum c.*2 + 1.
Proof.
  induction c as [|[y n] c IH]; [done|]. cbn [counter_add].
  case_match; rewrite !sum_counts_cons; cbn [snd]; lia.
Qed.

Lemma counter_add_keys c x k : k ∈ (counter_add c x).*1 ↔ k = x ∨ k ∈ c.*1.
Proof.
  induction c as [|[y n] c IH]; [set_solver|]. simpl.
  destruct (Z.eqb_spec y x) as [->|Hn]; rewrite !fmap_cons, !elem_of_cons; simpl; [tauto|]. rewrite IH. tauto.
Qed.

Lemma counter_add_wf c x : counter_wf c → counter_wf (counter_add c x).
Proof.
  intros [ND HF]. induction c as [|[y n] c IH]; simpl.
  - split; [apply NoDup_singleton|by repeat constructor].
  - rewrite fmap_cons in ND. apply NoDup_cons in ND as [Hn ND]. apply Forall_cons in HF as [Hp HF]. simpl in *.
    destruct (IH ND HF) as [ND' HF'].
    destruct (Z.eqb_spec y x) as [->|Hyx].
    + split; [by constructor|]. constructor; [simpl; lia|done].
    + split; [|by constructor]. rewrite fmap_cons. constructor; [|done].
      simpl. rewrite counter_add_keys. intros [?|?]; done.
Qed.

Lemma count_of_add c x k : count_of (counter_add c x) k = count_of c k + (if x =? k then 1 else 0).
Proof.
  induction c as [|[y n] c IH]; cbn [counter_add].
  - rewrite count_of_cons. cbn [fst snd]. change (count_of [] k) with 0. case_match; lia.
  - destruct (Z.eqb_spec y x) as [->|Hyx]; rewrite !count_of_cons; cbn [fst snd]; [case_match; lia|].
    rewrite IH. lia.
Qed.

Lemma occurrences_cons x xs k : occurrences (x :: xs) k = (if x =? k then 1 else 0) + occurrences xs k.
Proof.
  unfold occurrences. destruct (Z.eqb_spec x k).
  - rewrite filter_cons_True by done. cbn [length]. lia.
  - rewrite filter_cons_False by done. lia.
Qed.

Lemma counter_update_spec c xs :
  counter_wf c →
  counter_wf (counter_update c xs) ∧
  zsum (counter_update c xs).*2 = zsum c.*2 + zlen xs ∧
  ∀ k, count_of (counter_update c xs) k = count_of c k + occurrences xs k.
Proof.
  unfold counter_update. revert c; induction xs as [|x xs IH]; intros c W; cbn [foldl].
  - split_and!; [done|cbn [length]; lia|intros k; unfold occurrences; simpl; lia].
  - destruct (IH (counter_add c x)) as (W' & S' & C'); [by apply counter_add_wf|].
    split_and!; [done|rewrite S', counter_add_sum; cbn [length]; lia|].
    intros k. rewrite C', count_of_add, occurrences_cons. lia.
Qed.

Lemma counter_nil_wf : counter_wf [].
Proof. split; constructor. Qed.
#[export] Hint Resolve counter_nil_wf : memtier.

Lemma counter_keys_update c xs k : k ∈ (counter_update c xs).*1 ↔ k ∈ c.*1 ∨ k ∈ xs.
Proof.
  unfold counter_update. revert c; induction xs as [|x xs IH]; intros c; cbn [foldl]; [rewrite elem_of_nil; tauto|].
  rewrite IH, counter_add_keys, elem_of_cons. tauto.
Qed.

(** ** Lemmas: the sort *)

Lemma insert_item_perm x l : insert_item x l ≡ₚ x :: l.
Proof. induction l as [|y l IH]; simpl; [done|]. case_match; [done|]. rewrite IH. constructor. Qed.

Lemma most_common_perm c : most_common c ≡ₚ c.
Proof. induction c as [|x c IH]; simpl; [done|]. by rewrite insert_item_perm, IH. Qed.

Definition count_ge (x y : Z * Z) : Prop := y.2 ≤ x.2.

Lemma insert_item_sorted x l : StronglySorted count_ge l → StronglySorted count_ge (insert_item x l).
Proof.
  induction 1 as [|y l Hl IH Hy]; simpl; [repeat constructor|].
  destruct (Z.leb_spec y.2 x.2).
  - constructor; [by constructor|]. constructor; [done|].
    refine (Forall_impl _ _ _ Hy _). unfold count_ge. intros; lia.
  - constructor; [done|]. rewrite insert_item_perm. constructor; [unfold count_ge; lia|done].
Qed.

Lemma most_common_sorted c : StronglySorted count_ge (most_common c).
Proof. induction c; simpl; [constructor|by apply insert_item_sorted]. Qed.

(** A prefix of a list sorted by decreasing count outweighs any other choice of
    as many items. *)
Lemma prefix_optimal (l k rest : counter) :
  StronglySorted count_ge l → k ++ rest ≡ₚ l → zsum k.*2 ≤ zsum (take (length k) l).*2.
Proof.
  intros Hs; revert k rest; induction Hs as [|y l Hs IH Hy]; intros k rest Hk.
  { apply Permutation_nil_r, app_eq_nil in Hk as [-> _]. done. }
  assert (y ∈ k ++ rest) as Hin by (rewrite Hk; left).
  apply elem_of_app in Hin as [(k' & Ek)%elem_of_Permutation|(rest' & Er)%elem_of_Permutation].
  - rewrite Ek in Hk. apply Permutation_cons_inv in Hk. specialize (IH k' rest Hk).
    rewrite (Permutation_length Ek). cbn [length take]. rewrite sum_counts_cons.
    assert (zsum k.*2 = zsum (y :: k').*2) as -> by (apply zsum_Permutation; by rewrite Ek).
    rewrite sum_counts_cons. lia.
  - rewrite Er, <-Permutation_middle in Hk. apply Permutation_cons_inv in Hk.
    destruct k as [|x k]; [done|]. cbn [length take]. rewrite !sum_counts_cons.
    assert (count_ge y x) as Hx.
    { rewrite Forall_forall in Hy. apply Hy. rewrite <-Hk. left. }
    assert (k ++ x :: rest' ≡ₚ l) as Hk' by (by rewrite <-Permutation_middle).
    specialize (IH k _ Hk'). unfold count_ge in Hx. lia.
Qed.

Lemma most_common_sum c : zsum (most_common c).*2 = zsum c.*2.
Proof. apply zsum_Permutation. by rewrite most_common_perm. Qed.

Lemma counts_nonneg c : counter_wf c → Forall (λ x, 0 ≤ x) c.*2.
Proof. intros [_ H]. apply Forall_fmap. refine (Forall_impl _ _ _ H _). simpl. intros; lia. Qed.

Lemma zsum_take_le n l : Forall (λ x, 0 ≤ x) l → 0 ≤ zsum (take n l) ≤ zsum l.
Proof.
  intros H. assert (zsum l = zsum (take n l) + zsum (drop n l)) by (by rewrite <-zsum_app, take_drop).
  pose proof (zsum_nonneg _ (Forall_take _ n _ H)). pose proof (zsum_nonneg _ (Forall_drop _ n _ H)). lia.
Qed.

(** ** [coverage] *)

Lemma top_count_Ok n frac :
  0 ≤ n ≤ two53 → in_unit frac = true →
  ∃ k, top_count n frac = Ok k ∧ (n = 0 → k = 0) ∧ (0 < n → 1 ≤ k ≤ n).
Proof.
  intros Hn Hf. unfold top_count. destruct (Z.eqb_spec n 0); [exists 0; split_and!; [done|done|lia]|].
  destruct (int_fraction n frac Hn Hf) as (f & k & -> & E & Hk). cbn [mbind result_bind]. rewrite E.
  cbn [mbind result_bind]. exists (Z.max 1 k). split_and!; [done|lia|lia].
Qed.

(** Each coverage of a counter of at most 2^53 keys is a ratio in [0, 1],
    the share of the occurrences that the n most frequent keys hold, for
    n = max(1, int(n_unique * frac)); no other choice of n keys holds more. *)
Lemma coverage_optimal c frac :
  counter_wf c → zlen c ≤ two53 → frac ∈ fractions → c ≠ [] →
  ∃ key n r covered,
    coverage_at c frac = Ok (key, r) ∧ top_count (zlen c) frac = Ok n ∧ 1 ≤ n ≤ zlen c ∧
    truediv covered (zsum c.*2) = Ok r ∧ in_unit r = true ∧
    (∀ k rest, k ++ rest ≡ₚ c → zlen k = n → zsum k.*2 ≤ covered) ∧
    (∃ k rest, k ++ rest ≡ₚ c ∧ zlen k = n ∧ zsum k.*2 = covered).
Proof.
  intros W Hlen Hf Hc.
  assert (in_unit frac = true ∧ ∃ key, f_int (fmul frac (lit 100 1)) = Ok key) as [U [key Ekey]].
  { unfold fractions in Hf. rewrite !elem_of_cons, elem_of_nil in Hf.
    destruct Hf as [-> | [-> | [-> | []]]]; (split; [vm_compute; reflexivity|eexists; vm_compute; reflexivity]). }
  destruct (top_count_Ok (zlen c) frac ltac:(lia) U) as (n & En & _ & Hn).
  assert (0 < zlen c) as Hpos by (destruct c; [done|cbn [length]; lia]). specialize (Hn Hpos).
  set (covered := zsum (take (Z.to_nat n) (most_common c)).*2).
  assert (0 ≤ covered ≤ zsum c.*2) as Hcov.
  { subst covered. rewrite fmap_take, <-most_common_sum. apply zsum_take_le.
    apply counts_nonneg in W. by rewrite most_common_perm. }
  assert (0 < zsum c.*2) as Htot.
  { destruct c as [|p c]; [done|]. rewrite sum_counts_cons. pose proof (counts_nonneg _ W) as Hnn.
    destruct W as [_ [Hp _]%Forall_cons]. rewrite fmap_cons in Hnn. apply Forall_cons in Hnn as [_ Hnn].
    pose proof (zsum_nonneg _ Hnn). simpl in Hp. lia. }
  destruct (truediv_unit covered (zsum c.*2) Hcov Htot) as (r & Er & Ur).
  exists key, n, r, covered. split_and!; [|done|lia|lia|done|done|..].
  - unfold coverage_at. rewrite En. cbn [mbind result_bind]. rewrite (proj2 (Z.eqb_neq n 0)) by lia.
    rewrite Ekey. cbn [mbind result_bind]. rewrite py_slice_nonneg by lia. change (Z.to_nat 0) with O.
    rewrite drop_0, Z.sub_0_r. fold covered. rewrite Z.max_l by lia. by rewrite Er.
  - intros k rest Hk Hl. subst covered. replace (Z.to_nat n) with (length k) by lia.
    apply (prefix_optimal _ _ rest); [apply most_common_sorted|]. by rewrite most_common_perm.
  - exists (take (Z.to_nat n) (most_common c)), (drop (Z.to_nat n) (most_common c)).
    rewrite take_drop. split_and!; [apply most_common_perm| |done].
    rewrite length_take, (Permutation_length (most_common_perm c)). lia.
Qed.

(** [Counter.update] counts: each key once, its count the number of its
    occurrences, the counts adding up to the number of items. *)
Lemma counter_counts xs :
  let c := counter_update [] xs in
  NoDup c.*1 ∧ (∀ k, k ∈ c.*1 ↔ k ∈ xs) ∧ (∀ k, count_of c k = occurrences xs k) ∧ zsum c.*2 = zlen xs.
Proof.
  destruct (counter_update_spec [] xs counter_nil_wf) as ([ND _] & S & C).
  split_and!; [done| |done|done]. intros k. rewrite counter_keys_update, elem_of_nil. tauto.
Qed.

(** ** [percentile] *)

Lemma percentile_index_Ok pct n :
  percentage pct → 1 ≤ n ≤ two53 → ∃ k, percentile_index pct n = Ok k ∧ 0 ≤ k < n.
Proof.
  intros P Hn. destruct (percentage_ratio pct P) as (q & Eq & U & _).
  destruct (round_fraction (n - 1) q) as (f & k & Ef & Ek & Hk); [lia|done|].
  unfold percentile_index. rewrite Eq. cbn [mbind result_bind]. rewrite Ef. cbn [mbind result_bind].
  rewrite fmul_comm, Ek. cbn [mbind result_bind]. eexists. split; [done|lia].
Qed.

Lemma f_round_Fin s m e : f_round (Fin s m e) = Ok (div_rne (fnum (Fin s m e)) (fden (Fin s m e))).
Proof. done. Qed.

Lemma percentile_index_mono p1 p2 n k1 k2 :
  percentage p1 → percentage p2 → fle p1 p2 = true → 1 ≤ n ≤ two53 →
  percentile_index p1 n = Ok k1 → percentile_index p2 n = Ok k2 → k1 ≤ k2.
Proof.
  intros P1 P2 Hle Hn E1 E2. unfold percentile_index in *.
  destruct (percentage_ratio p1 P1) as (q1 & Eq1 & U1 & _). destruct (percentage_ratio p2 P2) as (q2 & Eq2 & U2 & _).
  pose proof (percentage_ratio_mono _ _ _ _ P1 P2 Hle Eq1 Eq2) as Hq.
  destruct (scale_unit (n - 1) q1 ltac:(lia) U1) as (f & s1 & m1 & e1 & Ef & Em1 & H1).
  destruct (scale_unit (n - 1) q2 ltac:(lia) U2) as (f' & s2 & m2 & e2 & Ef' & Em2 & H2).
  rewrite Ef in Ef'. injection Ef' as <-.
  pose proof (scale_unit_mono (n - 1) q1 q2 f ltac:(lia) U1 U2 Hq Ef) as Hm. rewrite Em1, Em2 in Hm.
  apply fle_rat in Hm.
  rewrite Eq1, Ef in E1. cbn [mbind result_bind] in E1. rewrite fmul_comm, Em1, f_round_Fin in E1.
  rewrite Eq2, Ef in E2. cbn [mbind result_bind] in E2. rewrite fmul_comm, Em2, f_round_Fin in E2.
  cbn [mbind result_bind] in E1, E2. apply Ok_inj in E1, E2. subst k1 k2.
  pose proof (div_rne_mono (fnum (Fin s1 m1 e1)) (fden (Fin s1 m1 e1)) (fnum (Fin s2 m2 e2)) (fden (Fin s2 m2 e2))
    (fden_pos _) (fden_pos _) Hm). lia.
Qed.

Lemma percentile_Ok {A} (R : relation A) `{!RelDecision R} values pct k :
  values ≠ [] → percentile_index pct (zlen values) = Ok k → 0 ≤ k < zlen values →
  ∃ v, percentile R values pct = Ok (Some v) ∧ merge_sort R values !! Z.to_nat k = Some v ∧ v ∈ values.
Proof.
  intros Hne Ek Hk. unfold percentile. rewrite decide_False by done.
  rewrite (Permutation_length (merge_sort_Permutation R values)), Ek. cbn [mbind result_bind].
  destruct (lookup_lt_is_Some_2 (merge_sort R values) (Z.to_nat k)) as [v Hv].
  { rewrite (Permutation_length (merge_sort_Permutation R values)). lia. }
  exists v. rewrite (py_index_nonneg _ _ v) by (done || lia). split_and!; [done|done|].
  rewrite <-(merge_sort_Permutation R values). by eapply list_elem_of_lookup_2.
Qed.

(** For a percentage between 0 and 100 and at most 2^53 values, [percentile]
    never raises and returns one of the values. *)
Lemma percentile_total {A} (R : relation A) `{!RelDecision R} values pct :
  percentage pct → values ≠ [] → zlen values ≤ two53 →
  ∃ v, percentile R values pct = Ok (Some v) ∧ v ∈ values.
Proof.
  intros P Hne Hl. assert (1 ≤ zlen values) by (destruct values; [done|cbn [length]; lia]).
  destruct (percentile_index_Ok pct (zlen values) P) as (k & Ek & Hk); [lia|].
  destruct (percentile_Ok R values pct k Hne Ek Hk) as (v & ? & _ & ?). eauto.
Qed.

(** Percentiles are monotone: the p-th percentile of some data is at most
    the q-th for p <= q (p50 <= p95), for any total order. *)
Lemma percentile_monotone {A} (R : relation A) `{!RelDecision R, !Total R, !Transitive R} values p1 p2 v1 v2 :
  percentage p1 → percentage p2 → fle p1 p2 = true → zlen values ≤ two53 →
  percentile R values p1 = Ok (Some v1) → percentile R values p2 = Ok (Some v2) → R v1 v2 ∨ v1 = v2.
Proof.
  intros P1 P2 Hle Hl E1 E2.
  destruct (decide (values = [])) as [->|Hne]; [done|].
  assert (1 ≤ zlen values) by (destruct values; [done|cbn [length]; lia]).
  destruct (percentile_index_Ok p1 (zlen values) P1) as (k1 & Ek1 & Hk1); [lia|].
  destruct (percentile_index_Ok p2 (zlen values) P2) as (k2 & Ek2 & Hk2); [lia|].
  pose proof (percentile_index_mono _ _ _ _ _ P1 P2 Hle (conj H Hl) Ek1 Ek2) as Hk.
  destruct (percentile_Ok R values p1 k1 Hne Ek1 Hk1) as (v1' & E1' & L1 & _).
  destruct (percentile_Ok R values p2 k2 Hne Ek2 Hk2) as (v2' & E2' & L2 & _).
  rewrite E1 in E1'. rewrite E2 in E2'. injection E1' as <-. injection E2' as <-.
  destruct (decide (k1 = k2)) as [->|Hneq]; [right; congruence|left].
  pose proof (StronglySorted_merge_sort R values) as Hs.
  apply (StronglySorted_app_1_elem_of R (take (Z.to_nat k2) (merge_sort R values)) (drop (Z.to_nat k2) (merge_sort R values))).
  - by rewrite take_drop.
  - apply (list_elem_of_lookup_2 _ (Z.to_nat k1)). rewrite lookup_take_lt by lia. done.
  - eapply list_elem_of_lookup_2 with (i := O). rewrite lookup_drop, Nat.add_0_r. done.
Qed.

(** ** The properties at concrete data *)

Definition example_counter : counter := counter_update [] [3; 1; 3; 2; 3; 2].

Lemma percentage_50 : percentage (lit 50 1).
Proof. split; [reflexivity|]. do 2 eexists. split; reflexivity. Qed.
Lemma percentage_95 : percentage (lit 95 1).
Proof. split; [reflexivity|]. do 2 eexists. split; reflexivity. Qed.

Lemma coverage_optimal_witness :
  ∃ key n r covered,
    coverage_at example_counter (lit 5 100) = Ok (key, r) ∧ top_count (zlen example_counter) (lit 5 100) = Ok n ∧
    1 ≤ n ≤ zlen example_counter ∧
    truediv covered (zsum example_counter.*2) = Ok r ∧ in_unit r = true ∧
    (∀ k rest, k ++ rest ≡ₚ example_counter → zlen k = n → zsum k.*2 ≤ covered) ∧
    (∃ k rest, k ++ rest ≡ₚ example_counter ∧ zlen k = n ∧ zsum k.*2 = covered).
Proof.
  apply coverage_optimal; [apply counter_update_spec, counter_nil_wf|vm_compute; congruence| |done].
  right. left.
Defined.

Lemma percentile_total_witness :
  ∃ v, percentile Z.le [9; 4; 7; 4] (lit 95 1) = Ok (Some v) ∧ v ∈ [9; 4; 7; 4].
Proof. apply percentile_total; [apply percentage_95|done|vm_compute; congruence]. Defined.

Lemma percentile_monotone_witness : 7 ≤ 9 ∨ 7 = 9.
Proof.
  apply (percentile_monotone Z.le [9; 4; 7; 4; 8] (lit 50 1) (lit 95 1));
    [apply percentage_50|apply percentage_95|reflexivity|vm_compute; congruence|reflexivity|reflexivity].
Defined.

(** ** Order and bounds of [percentile_float] *)

Lemma percentile_Permutation l k pct : l ≡ₚ k → percentile Z.le l pct = percentile Z.le k pct.
Proof.
  intros H. assert (merge_sort Z.le l = merge_sort Z.le k) as E.
  { apply (StronglySorted_unique Z.le); [apply (StronglySorted_merge_sort Z.le)..|].
    by rewrite !merge_sort_Permutation. }
  unfold percentile. rewrite E. destruct (decide (l = [])) as [->|Hl].
  - apply Permutation_nil_l in H. by subst.
  - rewrite decide_False; [done|]. intros ->. by apply Permutation_nil_r in H.
Qed.

Lemma percentile_float_Ok values pct :
  percentage pct → zlen values ≤ two53 → Forall (λ x, 0 ≤ x ≤ two53) values →
  ∃ f, percentile_float values pct = Ok f.
Proof.
  intros P Hl Hv. unfold percentile_float. destruct (decide (values = [])) as [->|Hne]; [eexists; reflexivity|].
  assert (1 ≤ zlen values) by (destruct values; [done|cbn [length]; lia]).
  destruct (percentile_index_Ok pct (zlen values) P) as (k & Ek & Hk); [lia|].
  destruct (percentile_Ok Z.le values pct k Hne Ek Hk) as (v & -> & _ & Hin). cbn [mbind result_bind].
  apply of_Z_small. rewrite Forall_forall in Hv. by apply Hv.
Qed.

Lemma coverage_Ok c topk : counter_wf c → zlen c ≤ two53 → ∃ s, coverage c topk = Ok s.
Proof.
  intros W Hl.
  assert (∀ frac, frac ∈ fractions → ∃ r, coverage_at c frac = Ok r) as H.
  { intros frac Hf.
    assert (in_unit frac = true ∧ ∃ key, f_int (fmul frac (lit 100 1)) = Ok key) as [U [key Ekey]].
    { unfold fractions in Hf. rewrite !elem_of_cons, elem_of_nil in Hf.
      destruct Hf as [-> | [-> | [-> | []]]]; (split; [vm_compute; reflexivity|eexists; vm_compute; reflexivity]). }
    destruct (top_count_Ok (zlen c) frac ltac:(lia) U) as (n & En & Hn0 & Hn).
    unfold coverage_at. rewrite En. cbn [mbind result_bind]. rewrite Ekey. cbn [mbind result_bind].
    set (covered := if n =? 0 then 0 else _).
    assert (0 ≤ covered ≤ Z.max (zsum c.*2) 1) as Hc.
    { subst covered. case_match; [lia|]. rewrite py_slice_nonneg by lia. change (Z.to_nat 0) with O.
      rewrite drop_0, Z.sub_0_r, fmap_take.
      assert (Forall (λ x, 0 ≤ x) (most_common c).*2) as Hnn
        by (rewrite most_common_perm; by apply counts_nonneg).
      pose proof (zsum_take_le (Z.to_nat n) _ Hnn) as Ht. rewrite most_common_sum in Ht. lia. }
    destruct (truediv_unit covered (Z.max (zsum c.*2) 1)) as (r & -> & _); [lia|lia|]. eexists; reflexivity. }
  unfold coverage. cbn [mapM fractions].
  destruct (H (lit 1 100)) as [r1 E1]; [left|]. destruct (H (lit 5 100)) as [r2 E2]; [right; left|].
  destruct (H (lit 10 100)) as [r3 E3]; [right; right; left|].
  unfold fractions. cbn [mapM]. rewrite E1. cbn [mbind result_bind]. rewrite E2. cbn [mbind result_bind].
  rewrite E3. eexists. reflexivity.
Qed.

Lemma counter_distinct xs : zlen (counter_update [] xs) = Z.of_nat (size (list_to_set xs : gset Z)).
Proof.
  destruct (counter_update_spec [] xs counter_nil_wf) as ([ND _] & _ & _).
  assert (length (counter_update [] xs) = length (counter_update [] xs).*1) as -> by (by rewrite length_fmap).
  rewrite <-(size_list_to_set (C := gset Z) _ ND). do 2 f_equal. apply set_eq. intros k.
  rewrite !elem_of_list_to_set, counter_keys_update, elem_of_nil. tauto.
Qed.
