(* ===== verification/LruSim.v ===== *)
(** The LRU cache simulation of the trace analysis
    (memtier_embedding_bench/scripts/analyze_trace.py: [update_lru_sims]).

    The simulator keeps one [OrderedDict] of blocks per capacity and counts the
    hits of each.  The specification is the recency list of the accesses: a
    cache of capacity [cap] holds the [cap] most recently used distinct blocks,
    so an access hits exactly when fewer than [cap] distinct blocks were
    accessed since the last access to the same block. *)

From S2P Require Import Prelude.

(** ** The simulator *)

(** An [OrderedDict] whose values are [None] is the list of its keys, oldest
    first. *)
Definition od_move_to_end (cache : list Z) (block : Z) : list Z :=
  filter (λ b, b ≠ block) cache ++ [block].

(** One access: whether it hits and the cache after it. *)
Definition cache_access (cap : Z) (cache : list Z) (block : Z) : bool * list Z :=
  if decide (block ∈ cache) then (true, od_move_to_end cache block)
  else
    let cache := cache ++ [block] in
    (false, if cap <? zlen cache then tail cache else cache).

(** [for cap, cache in sims.items()]: the caches and the hits after [block]. *)
Fixpoint access_all (sims : list (Z * list Z)) (hits : gmap Z Z) (block : Z)
    : result (list (Z * list Z) * gmap Z Z) :=
  match sims with
  | [] => Ok ([], hits)
  | (cap, cache) :: sims =>
      let '(hit, cache) := cache_access cap cache block in
      hits ← (if (hit : bool) then h ← of_option KeyError (hits !! cap); Ok (<[cap := h + 1]> hits) else Ok hits);
      '(sims, hits) ← access_all sims hits block;
      Ok ((cap, cache) :: sims, hits)
  end.

Definition lru_step (st : Z * list (Z * list Z) * gmap Z Z) (block : Z)
    : result (Z * list (Z * list Z) * gmap Z Z) :=
  let '(total, sims, hits) := st in
  '(sims, hits) ← access_all sims hits block;
  Ok (total + 1, sims, hits).

(** The total, and the simulators and hits it leaves. *)
Definition update_lru_sims (blocks : list Z) (sims : list (Z * list Z)) (hits : gmap Z Z)
    : result (Z * list (Z * list Z) * gmap Z Z) :=
  foldM lru_step (0, sims, hits) blocks.

(** ** The specification *)

(** The distinct blocks of a trace by their last access, oldest first. *)
Definition recency (trace : list Z) : list Z := foldl od_move_to_end [] trace.

(** The last [n] elements. *)
Definition lastn (n : Z) (l : list Z) : list Z := drop (Z.to_nat (zlen l - n)) l.

Definition lru_content (cap : Z) (trace : list Z) : list Z := lastn cap (recency trace).

(** The hits of the accesses [trace] made after [past]. *)
Fixpoint lru_hits (cap : Z) (past trace : list Z) : Z :=
  match trace with
  | [] => 0
  | b :: trace =>
      (if decide (b ∈ lru_content cap past) then 1 else 0) + lru_hits cap (past ++ [b]) trace
  end.

(** ** Lemmas: recency *)

Lemma recency_snoc past b : recency (past ++ [b]) = od_move_to_end (recency past) b.
Proof. unfold recency. by rewrite foldl_app. Qed.

Lemma recency_elem past b : b ∈ recency past ↔ b ∈ past.
Proof.
  induction past as [|x past IH] using rev_ind; [done|].
  rewrite recency_snoc. unfold od_move_to_end.
  rewrite !elem_of_app, !list_elem_of_singleton, list_elem_of_filter, IH.
  destruct (decide (b = x)); tauto.
Qed.

Lemma recency_NoDup past : NoDup (recency past).
Proof.
  induction past as [|x past IH] using rev_ind; [constructor|].
  rewrite recency_snoc. unfold od_move_to_end. apply NoDup_app. split_and!.
  - by apply NoDup_filter.
  - intros b [Hb _]%list_elem_of_filter. by rewrite list_elem_of_singleton.
  - apply NoDup_singleton.
Qed.

(** The accesses of [l2] push the other blocks of [l1] back. *)
Lemma recency_app l1 l2 : recency (l1 ++ l2) = filter (λ b, b ∉ l2) (recency l1) ++ recency l2.
Proof.
  induction l2 as [|x l2 IH] using rev_ind.
  - rewrite !app_nil_r. symmetry. apply filter_all, Forall_true. intros b. apply not_elem_of_nil.
  - rewrite app_assoc, !recency_snoc, IH. unfold od_move_to_end.
    rewrite filter_app, <-app_assoc. f_equal.
    rewrite list_filter_filter. apply list_filter_iff. intros b.
    rewrite elem_of_app, list_elem_of_singleton. tauto.
Qed.

Lemma recency_length past : zlen (recency past) = Z.of_nat (size (list_to_set past : gset Z)).
Proof.
  f_equal. rewrite <-(size_list_to_set (C := gset Z) (recency past)) by apply recency_NoDup.
  f_equal. apply set_eq. intros b. by rewrite !elem_of_list_to_set, recency_elem.
Qed.

Lemma lastn_elem n l b : b ∈ lastn n l → b ∈ l.
Proof. unfold lastn. intros H. rewrite <-(take_drop (Z.to_nat (zlen l - n)) l). apply elem_of_app. by right. Qed.

Lemma lastn_mono n m l b : n ≤ m → b ∈ lastn n l → b ∈ lastn m l.
Proof.
  intros Hnm. unfold lastn. intros H.
  replace (Z.to_nat (zlen l - n)) with (Z.to_nat (zlen l - m) + (Z.to_nat (zlen l - n) - Z.to_nat (zlen l - m)))%nat in H by lia.
  rewrite <-drop_drop in H.
  rewrite <-(take_drop (Z.to_nat (zlen l - n) - Z.to_nat (zlen l - m))%nat (drop (Z.to_nat (zlen l - m)) l)).
  apply elem_of_app. by right.
Qed.

Lemma lastn_split n l : l = take (Z.to_nat (zlen l - n)) l ++ lastn n l.
Proof. unfold lastn. by rewrite take_drop. Qed.

Lemma length_lastn n l : 0 ≤ n → zlen (lastn n l) = Z.min n (zlen l).
Proof. intros. unfold lastn. rewrite length_drop. lia. Qed.

Lemma lastn_app n l k : 0 ≤ n → lastn n (l ++ k) = lastn (n - zlen k) l ++ lastn n k.
Proof. intros. unfold lastn. rewrite drop_app, length_app. f_equal; f_equal; lia. Qed.

Lemma lastn_all n l : zlen l ≤ n → lastn n l = l.
Proof. intros. unfold lastn. by replace (Z.to_nat (zlen l - n)) with O by lia. Qed.

Lemma lastn_none n l : n ≤ 0 → lastn n l = [].
Proof. intros. unfold lastn. apply drop_ge. lia. Qed.

Lemma filter_ne_notin (l : list Z) b : b ∉ l → filter (λ x, x ≠ b) l = l.
Proof. intros H. apply filter_all, Forall_forall. by intros x Hx ->. Qed.

Lemma filter_ne_split (l1 l2 : list Z) b : b ∉ l1 → b ∉ l2 → filter (λ x, x ≠ b) (l1 ++ b :: l2) = l1 ++ l2.
Proof.
  intros H1 H2. rewrite filter_app, filter_cons_False by (intros H; by apply H).
  by rewrite !filter_ne_notin.
Qed.

(** An element is among the last [cap] exactly when fewer than [cap] follow. *)
Lemma lastn_split_elem cap (l1 l2 : list Z) b :
  0 ≤ cap → b ∉ l1 → b ∉ l2 → b ∈ lastn cap (l1 ++ b :: l2) ↔ zlen l2 < cap.
Proof.
  intros Hc H1 H2. rewrite lastn_app by done. cbn [length]. rewrite elem_of_app. split.
  - intros [H%lastn_elem|H]; [done|]. destruct (Z.lt_ge_cases (zlen l2) cap); [done|].
    change (b :: l2) with ([b] ++ l2) in H. rewrite lastn_app, lastn_none in H by (cbn [length]; lia).
    by apply lastn_elem in H.
  - intros H. right. rewrite lastn_all by (cbn [length]; lia). left.
Qed.

(** Adding a new block and evicting the oldest one over capacity. *)
Lemma evict_lastn cap l b :
  0 ≤ cap →
  (let c := lastn cap l ++ [b] in if cap <? zlen c then tail c else c) = lastn (cap - 1) l ++ lastn cap [b].
Proof.
  intros Hc. cbv zeta. rewrite length_app, Nat2Z.inj_add, length_lastn by done.
  change (zlen [b]) with 1. destruct (Z.ltb_spec cap (Z.min cap (zlen l) + 1)).
  - destruct (Z.eq_dec cap 0) as [->|]; [by rewrite !lastn_none by lia|].
    rewrite (lastn_all cap [b]) by (cbn [length]; lia).
    assert (∀ k : list Z, tail k = drop 1 k) as Htl by (by intros []).
    replace (lastn (cap - 1) l) with (tail (lastn cap l)).
    + destruct (lastn cap l) eqn:E; [|done]. apply (f_equal length) in E. unfold lastn in E.
      rewrite length_drop in E. cbn [length] in E. lia.
    + rewrite Htl. unfold lastn. rewrite drop_drop. f_equal. lia.
  - rewrite !lastn_all by (cbn [length]; lia). done.
Qed.

(** The refinement step: an access to the cache of the past is the cache of the
    past with the access. *)
Lemma cache_access_spec cap past b :
  0 ≤ cap →
  cache_access cap (lru_content cap past) b =
    (bool_decide (b ∈ lru_content cap past), lru_content cap (past ++ [b])).
Proof.
  intros Hcap. unfold cache_access, lru_content. rewrite recency_snoc. unfold od_move_to_end.
  rewrite (lastn_app cap (filter _ _)) by done. change (zlen [b]) with 1.
  pose proof (recency_NoDup past) as ND. set (r := recency past) in *.
  destruct (decide (b ∈ r)) as [Hr|Hr].
  - destruct (NoDup_split r b ND Hr) as (l1 & l2 & -> & H1 & H2). rewrite filter_ne_split by done.
    destruct (decide (b ∈ lastn cap (l1 ++ b :: l2))) as [Hin|Hin].
    + rewrite bool_decide_true by done. f_equal. apply lastn_split_elem in Hin; [|done..].
      rewrite (lastn_all cap [b]) by (cbn [length]; lia). f_equal.
      rewrite lastn_app by done. rewrite (lastn_all _ (b :: l2)) by (cbn [length]; lia).
      rewrite filter_ne_split; [|intros H; by apply lastn_elem in H|done].
      rewrite lastn_app by lia. rewrite (lastn_all _ l2) by lia. f_equal. f_equal. cbn [length]. lia.
    + rewrite bool_decide_false by done. f_equal. rewrite evict_lastn by done. f_equal.
      rewrite lastn_split_elem in Hin by done.
      destruct (Z.eq_dec cap 0) as [->|]; [by rewrite !lastn_none by lia|].
      rewrite !lastn_app by lia. rewrite !(lastn_none _ l1) by (cbn [length]; lia).
      change (b :: l2) with ([b] ++ l2). rewrite lastn_app by lia. by rewrite (lastn_none _ [b]) by lia.
  - assert (b ∉ lastn cap r) as Hin by (intros H; by apply lastn_elem in H).
    rewrite decide_False, bool_decide_false by done. f_equal.
    rewrite filter_ne_notin by done. by apply evict_lastn.
Qed.

Lemma lru_content_nil cap : lru_content cap [] = [].
Proof. unfold lru_content, lastn. apply drop_nil. Qed.

(** *** Hits *)

Lemma lru_hits_snoc cap past trace b :
  lru_hits cap past (trace ++ [b]) =
  lru_hits cap past trace + (if decide (b ∈ lru_content cap (past ++ trace)) then 1 else 0).
Proof.
  revert past; induction trace as [|x trace IH]; intros past; cbn [app lru_hits].
  - rewrite app_nil_r. lia.
  - rewrite IH, <-app_assoc. cbn [app]. lia.
Qed.

Lemma lru_hits_mono c1 c2 past trace : c1 ≤ c2 → lru_hits c1 past trace ≤ lru_hits c2 past trace.
Proof.
  intros Hc. revert past; induction trace as [|x trace IH]; intros past; cbn [lru_hits]; [done|].
  specialize (IH (past ++ [x])). unfold lru_content.
  destruct (decide (x ∈ lastn c1 (recency past))) as [H|H]; [|case_decide; lia].
  rewrite decide_True by (by eapply lastn_mono). lia.
Qed.

(** An access that hits is not the first of its block. *)
Lemma lru_hits_bound cap past trace :
  0 ≤ lru_hits cap past trace ≤
  zlen trace - (Z.of_nat (size (list_to_set (past ++ trace) : gset Z)) - Z.of_nat (size (list_to_set past : gset Z))).
Proof.
  revert past; induction trace as [|x trace IH]; intros past; cbn [lru_hits length].
  { rewrite app_nil_r. lia. }
  specialize (IH (past ++ [x])). rewrite <-app_assoc in IH. cbn [app] in IH.
  rewrite (list_to_set_app_L past [x]) in IH. cbn [list_to_set] in IH. rewrite union_empty_r_L in IH.
  assert (list_to_set past ⊆@{gset Z} list_to_set past ∪ {[x]}) as Hsub by apply union_subseteq_l.
  apply subseteq_size in Hsub.
  assert (size (list_to_set past ∪ {[x]} : gset Z) ≤ size (list_to_set past : gset Z) + 1)%nat as Hle.
  { rewrite size_union_alt. rewrite <-(size_singleton (C := gset Z) x).
    apply Nat.add_le_mono_l, subseteq_size. intros b Hb. by apply elem_of_difference in Hb as [? _]. }
  case_decide as Hx; [|lia].
  assert (list_to_set past ∪ {[x]} =@{gset Z} list_to_set past) as E.
  { apply set_eq. intros b. rewrite elem_of_union, elem_of_singleton, !elem_of_list_to_set.
    unfold lru_content in Hx. apply lastn_elem in Hx. rewrite recency_elem in Hx.
    split; [by intros [?| ->]|by left]. }
  rewrite E in IH. lia.
Qed.

(** *** The simulator refines the specification *)

Definition lru_state (caps : list Z) (past : list Z) (hits : gmap Z Z) : Prop :=
  ∀ cap, cap ∈ caps → hits !! cap = Some (lru_hits cap [] past).

Lemma access_all_spec caps past hits b :
  NoDup caps → Forall (λ c, 0 ≤ c) caps → lru_state caps past hits →
  ∃ hits', access_all ((λ c, (c, lru_content c past)) <$> caps) hits b =
             Ok ((λ c, (c, lru_content c (past ++ [b]))) <$> caps, hits') ∧
    lru_state caps (past ++ [b]) hits' ∧ (∀ c, c ∉ caps → hits' !! c = hits !! c).
Proof.
  revert hits; induction caps as [|c caps IH]; intros hits ND Hp Hst.
  { exists hits. split_and!; [done| |done]. intros c []%elem_of_nil. }
  apply NoDup_cons in ND as [Hn ND]. apply Forall_cons in Hp as [Hc Hp].
  rewrite !fmap_cons. cbn [access_all]. rewrite cache_access_spec by done.
  pose proof (Hst c ltac:(left)) as Hhc.
  set (hit := bool_decide (b ∈ lru_content c past)).
  set (hits1 := if hit then <[c := lru_hits c [] past + 1]> hits else hits).
  assert ((if hit then h ← of_option KeyError (hits !! c); Ok (<[c:=h + 1]> hits) else Ok hits) = Ok hits1) as ->
    by (subst hits1; rewrite Hhc; by destruct hit).
  cbn [mbind result_bind].
  assert (hits1 !! c = Some (lru_hits c [] (past ++ [b]))) as Hh1.
  { rewrite lru_hits_snoc. cbn [app]. subst hits1 hit.
    destruct (decide (b ∈ lru_content c past)).
    - rewrite bool_decide_true by done. by rewrite lookup_insert_eq.
    - rewrite bool_decide_false by done. by rewrite Z.add_0_r. }
  assert (∀ c', c' ≠ c → hits1 !! c' = hits !! c') as Hne.
  { intros c' Hc'. subst hits1. destruct hit; [|done]. by rewrite lookup_insert_ne. }
  destruct (IH hits1 ND Hp) as (hits' & -> & Hst' & Hout).
  { intros c' Hc'. rewrite Hne by (by intros ->). apply Hst. by right. }
  exists hits'. cbn [mbind result_bind]. split_and!; [done| |].
  - intros c' [-> |Hc']%elem_of_cons; [by rewrite Hout|by apply Hst'].
  - intros c' [Hc1 Hc2]%not_elem_of_cons. by rewrite Hout, Hne.
Qed.

Lemma update_lru_sims_spec caps past hits blocks :
  NoDup caps → Forall (λ c, 0 ≤ c) caps → lru_state caps past hits →
  ∃ hits', update_lru_sims blocks ((λ c, (c, lru_content c past)) <$> caps) hits =
             Ok (zlen blocks, (λ c, (c, lru_content c (past ++ blocks))) <$> caps, hits') ∧
    lru_state caps (past ++ blocks) hits'.
Proof.
  intros ND Hp Hst. unfold update_lru_sims.
  assert (∀ total, ∃ hits', foldM lru_step (total, (λ c, (c, lru_content c past)) <$> caps, hits) blocks =
    Ok (total + zlen blocks, (λ c, (c, lru_content c (past ++ blocks))) <$> caps, hits') ∧
    lru_state caps (past ++ blocks) hits') as Main; [|exact (Main 0)].
  revert past hits Hst; induction blocks as [|b blocks IH]; intros past hits Hst total; cbn [foldM].
  { exists hits. rewrite app_nil_r, Z.add_0_r. done. }
  destruct (access_all_spec caps past hits b ND Hp Hst) as (hits1 & E & Hst1 & _).
  cbn [lru_step]. rewrite E. cbn [mbind result_bind].
  destruct (IH (past ++ [b]) hits1 Hst1 (total + 1)) as (hits' & -> & H').
  exists hits'. rewrite <-app_assoc in H' |- *. split; [|done]. do 3 f_equal. cbn [length]. lia.
Qed.

(** Freshly created simulators and counters. *)
Definition fresh_sims (caps : list Z) : list (Z * list Z) := (λ c, (c, [])) <$> caps.
Definition fresh_hits (caps : list Z) : gmap Z Z := list_to_map ((λ c, (c, 0)) <$> caps).

Lemma fresh_sims_content caps : fresh_sims caps = (λ c, (c, lru_content c [])) <$> caps.
Proof. apply list_fmap_ext. intros i c _. by rewrite lru_content_nil. Qed.

Lemma fresh_hits_state caps : lru_state caps [] (fresh_hits caps).
Proof.
  intros c Hc. unfold fresh_hits. cbn [lru_hits]. induction caps as [|x caps IH]; [by apply elem_of_nil in Hc|].
  rewrite fmap_cons. cbn [list_to_map fst snd uncurry]. simpl.
  destruct (decide (x = c)) as [->|Hne]; [by rewrite lookup_insert_eq|].
  rewrite lookup_insert_ne by done. apply IH. apply elem_of_cons in Hc as [->|?]; done.
Qed.

(** C12: the simulator refines the recency specification.  From caches that
    hold the most recently used distinct blocks of the accesses so far, with
    the hits they had, [update_lru_sims] never raises, counts every access, and
    leaves the caches and the hits of the longer trace. *)
Theorem update_lru_sims_refines caps past hits blocks :
  NoDup caps → Forall (λ c, 0 ≤ c) caps → lru_state caps past hits →
  ∃ hits', update_lru_sims blocks ((λ c, (c, lru_content c past)) <$> caps) hits =
             Ok (zlen blocks, (λ c, (c, lru_content c (past ++ blocks))) <$> caps, hits') ∧
    lru_state caps (past ++ blocks) hits'.
Proof. apply update_lru_sims_spec. Qed.

(** The block [b] was accessed before, and fewer than [cap] distinct blocks since. *)
Definition reused_within (cap : Z) (past : list Z) (b : Z) : Prop :=
  ∃ p1 p2, past = p1 ++ b :: p2 ∧ b ∉ p2 ∧ Z.of_nat (size (list_to_set p2 : gset Z)) < cap.

Lemma lru_content_reused cap past b : 0 ≤ cap → b ∈ lru_content cap past ↔ reused_within cap past b.
Proof.
  intros Hc.
  assert (∀ p1 p2, b ∉ p2 → b ∈ lru_content cap (p1 ++ b :: p2) ↔ Z.of_nat (size (list_to_set p2 : gset Z)) < cap) as Key.
  { intros p1 p2 Hb. unfold lru_content. change (b :: p2) with ([b] ++ p2).
    rewrite app_assoc, recency_app, recency_snoc. unfold od_move_to_end.
    rewrite filter_app, (filter_cons_True (λ b0, b0 ∉ p2) b []) by done. change (filter (λ b0, b0 ∉ p2) []) with (@nil Z).
    rewrite <-app_assoc. cbn [app]. rewrite lastn_split_elem; [by rewrite recency_length|done| |by rewrite recency_elem].
    rewrite list_elem_of_filter. intros [_ [Hn _]%list_elem_of_filter]. by apply Hn. }
  split.
  - intros Hin. assert (b ∈ past) as Hp by (apply recency_elem; by eapply lastn_elem).
    destruct (list_elem_of_split_r past b Hp) as (p1 & p2 & -> & Hb).
    exists p1, p2. split_and!; [done|done|]. by apply (Key p1 p2 Hb).
  - intros (p1 & p2 & -> & Hb & Hs). by apply Key.
Qed.

(** C30: the hits that the simulator reports are the accesses with a stack
    distance below the capacity. Run from empty caches over any trace and over
    the trace with one more access, [update_lru_sims] returns both times, and
    the last access adds one hit to a capacity exactly when its block was
    accessed before and fewer than [cap] distinct blocks were accessed since; no
    hit is reported for no access. *)
Theorem lru_hit_stack_distance caps trace b :
  NoDup caps → Forall (λ c, 0 ≤ c) caps →
  ∃ sims hits sims' hits',
    update_lru_sims trace (fresh_sims caps) (fresh_hits caps) = Ok (zlen trace, sims, hits) ∧
    update_lru_sims (trace ++ [b]) (fresh_sims caps) (fresh_hits caps) = Ok (zlen trace + 1, sims', hits') ∧
    ∀ cap, cap ∈ caps → ∃ h, hits !! cap = Some h ∧ (trace = [] → h = 0) ∧
      (reused_within cap trace b → hits' !! cap = Some (h + 1)) ∧
      (¬ reused_within cap trace b → hits' !! cap = Some h).
Proof.
  intros ND Hp. rewrite fresh_sims_content.
  destruct (update_lru_sims_spec caps [] (fresh_hits caps) trace ND Hp (fresh_hits_state caps)) as (hits & E & H).
  destruct (update_lru_sims_spec caps [] (fresh_hits caps) (trace ++ [b]) ND Hp (fresh_hits_state caps)) as (hits' & E' & H').
  rewrite length_app, Nat2Z.inj_add in E'. eexists _, hits, _, hits'. split_and!; [exact E|exact E'|].
  intros cap Hc. exists (lru_hits cap [] trace). pose proof (H cap Hc) as Hh. pose proof (H' cap Hc) as Hh'.
  cbn [app] in Hh, Hh'. rewrite lru_hits_snoc in Hh'. cbn [app] in Hh'.
  assert (b ∈ lru_content cap trace ↔ reused_within cap trace b) as Hr
    by (apply lru_content_reused; by eapply Forall_forall in Hp).
  split_and!; [done|by intros ->|..]; intros Hd; rewrite Hh'.
  - by rewrite decide_True by (by apply Hr).
  - rewrite decide_False by (by rewrite Hr). by rewrite Z.add_0_r.
Qed.

(** A larger simulated cache never has fewer hits, and no cache hits on the
    first access to a block: simulated from scratch over any blocks,
    hits(c1) <= hits(c2) <= accesses - distinct blocks for c1 <= c2. *)
Lemma lru_hits_monotone_bounded caps blocks :
  NoDup caps → Forall (λ c, 0 ≤ c) caps →
  ∃ sims hits, update_lru_sims blocks (fresh_sims caps) (fresh_hits caps) = Ok (zlen blocks, sims, hits) ∧
    ∀ c1 c2, c1 ∈ caps → c2 ∈ caps → c1 ≤ c2 →
    ∃ h1 h2, hits !! c1 = Some h1 ∧ hits !! c2 = Some h2 ∧
      0 ≤ h1 ≤ h2 ∧ h2 ≤ zlen blocks - Z.of_nat (size (list_to_set blocks : gset Z)).
Proof.
  intros ND Hp. rewrite fresh_sims_content.
  destruct (update_lru_sims_spec caps [] (fresh_hits caps) blocks ND Hp (fresh_hits_state caps)) as (hits' & E & H).
  eexists _, _. split; [exact E|]. intros c1 c2 H1 H2 Hc.
  exists (lru_hits c1 [] blocks), (lru_hits c2 [] blocks). split_and!; [by apply H|by apply H|..].
  - apply lru_hits_bound.
  - by apply lru_hits_mono.
  - pose proof (lru_hits_bound c2 [] blocks) as B. cbn [app list_to_set] in B. rewrite size_empty in B. lia.
Qed.

(** *** The properties at concrete data *)

Lemma update_lru_sims_refines_witness :
  ∃ hits', update_lru_sims [7; 2; 7] ((λ c, (c, lru_content c [])) <$> [1; 2]) (fresh_hits [1; 2]) =
             Ok (3, (λ c, (c, lru_content c ([] ++ [7; 2; 7]))) <$> [1; 2], hits') ∧
    lru_state [1; 2] ([] ++ [7; 2; 7]) hits'.
Proof.
  apply (update_lru_sims_refines [1; 2] [] (fresh_hits [1; 2]) [7; 2; 7]);
    [apply (bool_decide_unpack _); vm_compute; exact I|repeat constructor; lia|apply fresh_hits_state].
Defined.

Lemma lru_hit_stack_distance_witness :
  ∃ sims hits sims' hits',
    update_lru_sims [4; 9; 9] (fresh_sims [1; 2]) (fresh_hits [1; 2]) = Ok (3, sims, hits) ∧
    update_lru_sims ([4; 9; 9] ++ [4]) (fresh_sims [1; 2]) (fresh_hits [1; 2]) = Ok (3 + 1, sims', hits') ∧
    ∀ cap, cap ∈ [1; 2] → ∃ h, hits !! cap = Some h ∧ ([4; 9; 9] = [] → h = 0) ∧
      (reused_within cap [4; 9; 9] 4 → hits' !! cap = Some (h + 1)) ∧
      (¬ reused_within cap [4; 9; 9] 4 → hits' !! cap = Some h).
Proof.
  apply (lru_hit_stack_distance [1; 2] [4; 9; 9] 4); [apply (bool_decide_unpack _); vm_compute; exact I|repeat constructor; lia].
Defined.

Lemma lru_hits_monotone_bounded_witness :
  ∃ sims hits, update_lru_sims [1; 2; 1; 3; 2] (fresh_sims [1; 2; 4]) (fresh_hits [1; 2; 4]) = Ok (5, sims, hits) ∧
    ∀ c1 c2, c1 ∈ [1; 2; 4] → c2 ∈ [1; 2; 4] → c1 ≤ c2 →
    ∃ h1 h2, hits !! c1 = Some h1 ∧ hits !! c2 = Some h2 ∧
      0 ≤ h1 ≤ h2 ∧ h2 ≤ 5 - Z.of_nat (size (list_to_set [1; 2; 1; 3; 2] : gset Z)).
Proof.
  apply (lru_hits_monotone_bounded [1; 2; 4] [1; 2; 1; 3; 2]);
    [apply (bool_decide_unpack _); vm_compute; exact I|repeat constructor; lia].
Defined.
