(* ===== verification/SlotCache.v ===== *)
(** The slot caches of the embedding runtime
    (memtier_embedding_bench/src/dram_cache.cpp: [DramCache]; memtier_api.cpp:
    [HbmCache]).

    Both classes keep the same state: a stack of free slots, the list of the
    cached blocks with the most recently used one in front, and the slot of
    each block.  A pointer is given by its slot.  [None] is undefined behaviour
    ([back] of an empty container); the invariant [cache_wf] excludes it.

    The cache is compared with the simulator of the trace analysis: fed with
    the same accesses, it takes the same decisions. *)

From S2P Require Import Prelude LruSim.

Definition UINT64_MAX : Z := Eval compute in 2 ^ 64 - 1.

Record slot_cache := {
  capacity : Z;
  free_slots : list Z;     (* a stack: the back is the last element *)
  lru : list Z;            (* the most recently used block first *)
  entries : gmap Z Z;      (* the slot of each cached block *)
}.

(** The constructors, given the sizes in bytes. *)
Definition new_cache (cache_bytes block_bytes : Z) : slot_cache :=
  let capacity := Z.max 1 (cache_bytes `div` block_bytes) in
  {| capacity := capacity; free_slots := (λ i, capacity - 1 - i) <$> seqZ 0 capacity; lru := []; entries := ∅ |}.

(** Moving a cached block to the front: [lru.erase(it); lru.push_front(id)]. *)
Definition touch (block : Z) (c : slot_cache) : slot_cache :=
  {| capacity := capacity c; free_slots := free_slots c; lru := block :: filter (λ b, b ≠ block) (lru c);
     entries := entries c |}.

(** [get]: the slot of a cached block, or nothing. *)
Definition get (block : Z) (c : slot_cache) : option Z * slot_cache :=
  match entries c !! block with
  | Some slot => (Some slot, touch block c)
  | None => (None, c)
  end.

(** The eviction of the least recently used block, returned with the cache. *)
Definition evict (c : slot_cache) : option (Z * slot_cache) :=
  victim ← last (lru c);
  let c := match entries c !! victim with
           | Some slot => {| capacity := capacity c; free_slots := free_slots c ++ [slot]; lru := lru c;
                             entries := delete victim (entries c) |}
           | None => c
           end in
  Some (victim, {| capacity := capacity c; free_slots := free_slots c; lru := removelast (lru c);
                   entries := entries c |}).

(** [evict_if_needed]: whether a block was evicted, and the cache after it. *)
Definition evict_if_needed (c : slot_cache) : option (bool * slot_cache) :=
  if decide (free_slots c ≠ [] ∨ entries c = ∅) then Some (false, c)
  else '(_, c) ← evict c; Some (true, c).

(** [allocate], [allocate_slot_for_load]: the slot, the block evicted for it. *)
Definition allocate (block : Z) (c : slot_cache) : option (Z * option Z * slot_cache) :=
  match entries c !! block with
  | Some slot => Some (slot, None, touch block c)
  | None =>
      '(evicted, c) ← (if decide (free_slots c = []) then '(v, c) ← evict c; Some (Some v, c) else Some (None, c));
      slot ← last (free_slots c);
      Some (slot, evicted, {| capacity := capacity c; free_slots := removelast (free_slots c);
                              lru := block :: lru c; entries := <[block := slot]> (entries c) |})
  end.

(** One access of the runtime: [get], and [allocate] on a miss. *)
Definition access (block : Z) (c : slot_cache) : option (bool * slot_cache) :=
  match get block c with
  | (Some _, c) => Some (true, c)
  | (None, c) => '(_, _, c) ← allocate block c; Some (false, c)
  end.

(** ** The invariant *)

(** The list holds the cached blocks, and every slot is free or used, once. *)
Record cache_wf (c : slot_cache) : Prop := {
  wf_capacity : 0 < capacity c;
  wf_lru : lru c ≡ₚ (map_to_list (entries c)).*1;
  wf_slots : free_slots c ++ (map_to_list (entries c)).*2 ≡ₚ seqZ 0 (capacity c);
}.

Section Wf.
Variable c : slot_cache.
Hypothesis W : cache_wf c.

Lemma lru_NoDup : NoDup (lru c).
Proof. rewrite (wf_lru c W). apply NoDup_fst_map_to_list. Qed.

Lemma lru_elem b : b ∈ lru c ↔ is_Some (entries c !! b).
Proof.
  rewrite (wf_lru c W), list_elem_of_fmap. split.
  - intros ([x s] & -> & H%elem_of_map_to_list). by exists s.
  - intros [s H]. exists (b, s). split; [done|]. by apply elem_of_map_to_list.
Qed.

Lemma slots_NoDup : NoDup (free_slots c ++ (map_to_list (entries c)).*2).
Proof. rewrite (wf_slots c W). apply NoDup_seqZ. Qed.

Lemma entry_slot b s : entries c !! b = Some s → 0 ≤ s < capacity c ∧ s ∉ free_slots c.
Proof.
  intros H. assert (s ∈ (map_to_list (entries c)).*2) as Hs.
  { apply list_elem_of_fmap. exists (b, s). split; [done|]. by apply elem_of_map_to_list. }
  split.
  - assert (s ∈ seqZ 0 (capacity c)) as Hq by (rewrite <-(wf_slots c W); apply elem_of_app; by right).
    apply elem_of_seqZ in Hq. lia.
  - intros Hf. pose proof slots_NoDup as (_ & Hd & _)%NoDup_app. by apply (Hd s).
Qed.

Lemma free_slot s : s ∈ free_slots c → 0 ≤ s < capacity c ∧ ∀ b, entries c !! b ≠ Some s.
Proof.
  intros Hf. split.
  - assert (s ∈ seqZ 0 (capacity c)) as Hq by (rewrite <-(wf_slots c W); apply elem_of_app; by left).
    apply elem_of_seqZ in Hq. lia.
  - intros b [_ H]%entry_slot. done.
Qed.

Lemma entries_inj b1 b2 s : entries c !! b1 = Some s → entries c !! b2 = Some s → b1 = b2.
Proof.
  intros H1 H2. destruct (decide (b1 = b2)) as [|Hne]; [done|].
  pose proof slots_NoDup as (_ & _ & ND)%NoDup_app.
  assert ((map_to_list (entries c)).*2 ≡ₚ s :: s :: (map_to_list (delete b2 (delete b1 (entries c)))).*2) as E.
  { rewrite <-(map_to_list_delete (entries c) b1 s H1). cbn. apply perm_skip.
    rewrite <-(map_to_list_delete (delete b1 (entries c)) b2 s); [done|]. by rewrite lookup_delete_ne. }
  rewrite E in ND. apply NoDup_cons in ND as [Hn _]. destruct Hn. by left.
Qed.

Lemma count_slots : zlen (free_slots c) + zlen (lru c) = capacity c.
Proof.
  pose proof (Permutation_length (wf_slots c W)) as H. rewrite length_app, length_fmap, length_seqZ in H.
  pose proof (Permutation_length (wf_lru c W)) as H2. rewrite length_fmap in H2.
  pose proof (wf_capacity c W). lia.
Qed.
End Wf.

Lemma new_cache_wf cache_bytes block_bytes : cache_wf (new_cache cache_bytes block_bytes).
Proof.
  unfold new_cache. split; cbn [capacity free_slots lru entries]; [lia| |].
  - by rewrite map_to_list_empty.
  - rewrite map_to_list_empty, app_nil_r. set (n := Z.max 1 _). assert (0 ≤ n) as Hn by lia. clearbody n.
    apply NoDup_Permutation; [|apply NoDup_seqZ|].
    + apply NoDup_fmap_2_strong; [|apply NoDup_seqZ]. intros; lia.
    + intros x. rewrite list_elem_of_fmap, elem_of_seqZ. split.
      * intros (i & -> & Hi%elem_of_seqZ). lia.
      * intros Hx. exists (n - 1 - x). rewrite elem_of_seqZ. lia.
Qed.

Lemma touch_wf b c : cache_wf c → is_Some (entries c !! b) → cache_wf (touch b c).
Proof.
  intros W Hb. pose proof W as [Hc Hl Hs]. split; [done| |done]. cbn [lru entries touch]. rewrite <-Hl.
  apply (lru_elem c W) in Hb. destruct (NoDup_split _ _ (lru_NoDup c W) Hb) as (l1 & l2 & E & H1 & H2).
  rewrite E, filter_ne_split by done. by rewrite Permutation_middle.
Qed.

Lemma get_wf b c : cache_wf c → cache_wf (get b c).2.
Proof. intros W. unfold get. destruct (entries c !! b) eqn:E; [|done]. apply touch_wf; [done|]. by eexists. Qed.

(** An eviction frees the slot of the last block of the list. *)
Lemma evict_Ok c :
  cache_wf c → lru c ≠ [] →
  ∃ victim rest slot, lru c = rest ++ [victim] ∧ entries c !! victim = Some slot ∧
    evict c = Some (victim, {| capacity := capacity c; free_slots := free_slots c ++ [slot]; lru := rest;
                               entries := delete victim (entries c) |}) ∧
    cache_wf {| capacity := capacity c; free_slots := free_slots c ++ [slot]; lru := rest;
                entries := delete victim (entries c) |}.
Proof.
  intros W Hne. destruct (exists_last Hne) as (rest & victim & E). exists victim, rest.
  destruct (proj1 (lru_elem c W victim)) as [slot Hs]; [rewrite E; apply elem_of_app; right; left|].
  exists slot. split_and!; [done|done| |].
  - unfold evict. rewrite E, last_snoc. cbn [mbind option_bind]. rewrite Hs. cbn [lru capacity free_slots entries].
    by rewrite removelast_last.
  - destruct W as [Hc Hl Hsl]. split; cbn [capacity free_slots lru entries]; [done| |].
    + pose proof (map_to_list_delete (entries c) victim slot Hs) as Ed.
      rewrite <-Ed in Hl. cbn in Hl. rewrite E in Hl. rewrite Permutation_app_comm in Hl. cbn in Hl.
      by apply Permutation_cons_inv in Hl.
    + rewrite <-Hsl, <-(map_to_list_delete (entries c) victim slot Hs). cbn. by rewrite <-app_assoc.
Qed.

(** Placing a new block in the free slot on top of the stack. *)
Lemma place_wf b slot free c :
  cache_wf c → entries c !! b = None → free_slots c = free ++ [slot] →
  cache_wf {| capacity := capacity c; free_slots := free; lru := b :: lru c; entries := <[b := slot]> (entries c) |}.
Proof.
  intros [Hc Hl Hs] Hb Ef. split; cbn [capacity free_slots lru entries]; [done| |].
  - rewrite (map_to_list_insert _ _ _ Hb). cbn. by rewrite Hl.
  - rewrite <-Hs, Ef, (map_to_list_insert _ _ _ Hb). cbn. by rewrite <-app_assoc.
Qed.

(** What [allocate] does to a well-formed cache. *)
Inductive allocated (b : Z) (c : slot_cache) : Z → option Z → slot_cache → Prop :=
| allocated_hit slot :
    entries c !! b = Some slot → allocated b c slot None (touch b c)
| allocated_free free slot :
    entries c !! b = None → free_slots c = free ++ [slot] →
    allocated b c slot None
      {| capacity := capacity c; free_slots := free; lru := b :: lru c; entries := <[b := slot]> (entries c) |}
| allocated_evict victim rest slot :
    entries c !! b = None → free_slots c = [] → lru c = rest ++ [victim] → entries c !! victim = Some slot →
    allocated b c slot (Some victim)
      {| capacity := capacity c; free_slots := []; lru := b :: rest;
         entries := <[b := slot]> (delete victim (entries c)) |}.

Lemma allocate_Ok b c :
  cache_wf c → ∃ slot evicted c', allocate b c = Some (slot, evicted, c') ∧ allocated b c slot evicted c' ∧ cache_wf c'.
Proof.
  intros W. unfold allocate. destruct (entries c !! b) as [slot|] eqn:E.
  - exists slot, None, (touch b c). split_and!; [done|by constructor|]. apply touch_wf; [done|by eexists].
  - case_decide as Hf.
    + assert (lru c ≠ []) as Hne.
      { intros El. pose proof (count_slots c W) as H. pose proof (wf_capacity c W). rewrite Hf, El in H. simpl in H. lia. }
      destruct (evict_Ok c W Hne) as (victim & rest & slot & El & Ev & Ee & W'). rewrite Ee.
      cbn [mbind option_bind capacity free_slots lru entries]. rewrite Hf. cbn [app last mbind option_bind removelast].
      eexists _, _, _. split_and!; [done|by eapply allocated_evict|].
      apply (place_wf b slot [] _ W'); cbn [entries free_slots]; [|by rewrite Hf].
      rewrite lookup_delete_ne; [done|]. intros <-. congruence.
    + destruct (exists_last Hf) as (free & slot & El). cbn [mbind option_bind]. rewrite El, last_snoc, removelast_last.
      cbn [mbind option_bind]. eexists _, _, _. split_and!; [done|by apply allocated_free|by eapply place_wf].
Qed.

(** ** The runtime's accesses are the simulator's *)

Lemma filter_rev (P : Z → Prop) `{!∀ x, Decision (P x)} l : filter P (rev l) = rev (filter P l).
Proof.
  induction l as [|x l IH]; [done|]. cbn [rev]. rewrite filter_app, IH, !filter_cons.
  case_decide; cbn [rev]; [done|]. by rewrite app_nil_r.
Qed.

Lemma elem_of_rev (l : list Z) x : x ∈ rev l ↔ x ∈ l.
Proof. by rewrite !list_elem_of_In, <-in_rev. Qed.

Lemma access_simulated b c :
  cache_wf c →
  ∃ hit c', access b c = Some (hit, c') ∧ cache_wf c' ∧ capacity c' = capacity c ∧
    cache_access (capacity c) (rev (lru c)) b = (hit, rev (lru c')).
Proof.
  intros W. unfold access, get, cache_access. destruct (entries c !! b) as [slot|] eqn:E.
  - exists true, (touch b c). split_and!; [done|apply touch_wf; [done|by eexists]|done|].
    rewrite decide_True by (apply elem_of_rev, (lru_elem c W); by eexists).
    unfold od_move_to_end. cbn [lru touch rev]. by rewrite filter_rev.
  - destruct (allocate_Ok b c W) as (slot & ev & c' & Ea & A & W'). rewrite Ea. cbn [mbind option_bind].
    exists false, c'. split; [done|]. split; [done|].
    rewrite decide_False by (rewrite elem_of_rev, (lru_elem c W), E; by intros [? [=]]).
    pose proof (count_slots c W) as Hn. rewrite length_app, length_rev.
    destruct A as [slot' E'|free slot' _ Ef|victim rest slot' _ Ef El _]; [congruence|..]; cbn [capacity lru]; split; try done.
    + rewrite Ef, length_app in Hn. cbn [length] in Hn. rewrite (proj2 (Z.ltb_ge _ _)) by (cbn [length]; lia). done.
    + rewrite Ef in Hn. cbn [length] in Hn. rewrite (proj2 (Z.ltb_lt _ _)) by (cbn [length]; lia).
      by rewrite El, rev_app_distr.
Qed.

(** The accesses of a list of blocks: how many hit, and the cache after them. *)
Definition access_blocks (blocks : list Z) (c : slot_cache) : option (Z * slot_cache) :=
  foldr (λ b k (st : Z * slot_cache), '(hit, c) ← access b st.2; k (st.1 + (if hit : bool then 1 else 0), c))
    Some blocks (0, c).

(** C15: the DRAM cache of the runtime is the cache the trace analysis
    simulates. From a new cache, any sequence of accesses (get, then allocate
    on a miss) runs without undefined behaviour, hits exactly as often as the
    simulator with the cache's capacity counts, and leaves the cache with the
    simulator's blocks in the simulator's order. *)
Theorem runtime_cache_refines_simulator cache_bytes block_bytes blocks :
  let c := new_cache cache_bytes block_bytes in
  ∃ c', access_blocks blocks c = Some (lru_hits (capacity c) [] blocks, c') ∧ cache_wf c' ∧
    rev (lru c') = lru_content (capacity c) blocks.
Proof.
  intros c. set (cap := capacity c).
  assert (∀ past n c1, cache_wf c1 → capacity c1 = cap → rev (lru c1) = lru_content cap past →
    ∃ c', foldr (λ b k (st : Z * slot_cache), '(hit, c) ← access b st.2; k (st.1 + (if hit : bool then 1 else 0), c))
        Some blocks (n, c1) = Some (n + lru_hits cap past blocks, c') ∧ cache_wf c' ∧
      rev (lru c') = lru_content cap (past ++ blocks)) as H.
  { induction blocks as [|b blocks IH]; intros past n c1 W1 Ec El.
    - exists c1. cbn [foldr lru_hits]. by rewrite Z.add_0_r, app_nil_r.
    - cbn [foldr lru_hits fst snd]. destruct (access_simulated b c1 W1) as (hit & c2 & -> & W2 & Ec2 & Es).
      cbn [mbind option_bind fst snd]. pose proof (wf_capacity c1 W1) as Hc1. rewrite Ec in *.
      rewrite El, cache_access_spec in Es by lia. injection Es as <- El2.
      destruct (IH (past ++ [b]) (n + (if bool_decide (b ∈ lru_content cap past) then 1 else 0)) c2) as (c' & -> & W' & E');
        [done|congruence|done|].
      exists c'. rewrite E', <-app_assoc. split_and!; [|done|done]. do 2 f_equal.
      destruct (decide (b ∈ lru_content cap past));
        [rewrite bool_decide_true by done|rewrite bool_decide_false by done]; lia. }
  destruct (H [] 0 c) as (c' & E & W' & El'); [apply new_cache_wf|done|by rewrite lru_content_nil|].
  exists c'. split; [exact E|done].
Qed.

(** C16: the slot cache is always well-formed. Every operation on a well-formed
    cache runs without undefined behaviour and leaves it well-formed: the list
    holds exactly the cached blocks, every slot is free or holds one block, and
    the capacity never changes; the block allocated is cached in the slot
    returned, and every other block keeps its slot or is the one evicted. *)
Theorem slot_cache_invariant c b :
  cache_wf c →
  cache_wf (get b c).2 ∧ capacity (get b c).2 = capacity c ∧
  (∃ e c', evict_if_needed c = Some (e, c') ∧ cache_wf c' ∧ capacity c' = capacity c ∧ free_slots c' ≠ []) ∧
  (∃ slot evicted c', allocate b c = Some (slot, evicted, c') ∧ cache_wf c' ∧ capacity c' = capacity c ∧
     entries c' !! b = Some slot ∧ 0 ≤ slot < capacity c ∧
     ∀ b', b' ≠ b → entries c' !! b' = if decide (Some b' = evicted) then None else entries c !! b').
Proof.
  intros W. split; [by apply get_wf|]. split; [unfold get; by destruct (entries c !! b)|]. split.
  - unfold evict_if_needed. case_decide as H.
    + exists false, c. split_and!; [done..|]. destruct H as [H|H]; [done|]. intros Hf.
      pose proof (wf_slots c W) as Hs. rewrite Hf, H, map_to_list_empty in Hs. apply Permutation_length in Hs.
      rewrite length_seqZ in Hs. pose proof (wf_capacity c W). simpl in Hs. lia.
    + apply Decidable.not_or in H as [Hf%dec_stable Hne].
      assert (lru c ≠ []) as Hl.
      { intros El. pose proof (count_slots c W) as Hn. pose proof (wf_capacity c W). rewrite Hf, El in Hn. simpl in Hn. lia. }
      destruct (evict_Ok c W Hl) as (v & rest & slot & _ & _ & -> & W'). eexists true, _. split_and!; [done|done|done|].
      cbn [free_slots]. by destruct (free_slots c).
  - destruct (allocate_Ok b c W) as (slot & ev & c' & E & A & W'). exists slot, ev, c'. split; [done|]. split; [done|].
    assert (capacity c' = capacity c) as Ec by (by destruct A). split; [done|].
    assert (entries c' !! b = Some slot) as Eb by (destruct A; cbn [entries touch]; [done|apply lookup_insert_eq..]).
    split; [done|]. split; [rewrite <-Ec; by apply (entry_slot c' W' b)|].
    intros b' Hne. destruct A as [s E'|free s E' Ef|v rest s E' Ef El Ev]; cbn [entries touch].
    + by rewrite decide_False.
    + rewrite lookup_insert_ne by done. by rewrite decide_False.
    + rewrite lookup_insert_ne by done. case_decide as H; [injection H as ->; apply lookup_delete_eq|].
      rewrite lookup_delete_ne; [done|congruence].
Qed.

(** *** The property at concrete data: two slots *)

Lemma slot_cache_invariant_witness :
  (∃ e c', evict_if_needed (new_cache 40 16) = Some (e, c') ∧ cache_wf c' ∧ capacity c' = 2 ∧ free_slots c' ≠ []) ∧
  zlen (free_slots (new_cache 40 16)) = 2.
Proof. split; [apply (slot_cache_invariant (new_cache 40 16) 7 (new_cache_wf 40 16))|vm_compute; reflexivity]. Defined.
