(* ===== verification/Posix.v ===== *)
(** Reading from files with [pread] (the loops of
    memtier_pytorch/csrc/memtier_uvm.cu: [pread_exact], and of
    memtier_embedding_bench/src/posix_loader.cpp: [PosixLoader::load_block]).

    The operating system is an interface: a [pread] may return fewer bytes than
    asked for, be interrupted, or fail. *)

From S2P Require Import Prelude PyText.

Inductive read_outcome : Type :=
| Got (k : Z)
| Eintr
| ReadError.

#[export] Instance read_outcome_eq_dec : EqDecision read_outcome.
Proof. solve_decision. Defined.

Class Posix := {
  (** The contents of a path, when [open] succeeds. *)
  file_at : str → option (list Z);
  (** The outcome of the n-th [pread] of [len] bytes at [off] of a regular
      file of [size] bytes. *)
  os_pread : nat → Z → Z → Z → read_outcome;
  os_pread_inside n size off len k :
    0 ≤ off < size → 0 < len → os_pread n size off len = Got k → 0 < k ≤ Z.min len (size - off);
  os_pread_eof n size off len k : size ≤ off → 0 < len → os_pread n size off len = Got k → k = 0;
  os_pread_negative n size off len : off < 0 → os_pread n size off len = ReadError;
  (** [close] succeeds, after the n-th [pread]. *)
  os_close : nat → bool;
}.

(** Why a read loop stops. *)
Inductive stop : Type :=
| Complete
| EndOfFile
| ReadFailed.

(** [static_cast<off_t>] of a 64-bit unsigned integer. *)
Definition to_off_t (x : Z) : Z := if x <? 2 ^ 63 then x else x - 2 ^ 64.

Lemma to_off_t_small x : x < 2 ^ 63 → to_off_t x = x.
Proof. intros H. unfold to_off_t. by rewrite (proj2 (Z.ltb_lt x _)). Qed.

Section Loop.
  Context {PX : Posix}.

  (** The read loop: [acc] is what has been read, [calls] the system calls. *)
Fixpoint pread_loop (fuel : nat) (file : list Z) (offset bytes : Z) (acc : list Z) (calls : nat)
    : option (list Z * stop * nat) :=
    let total := zlen acc in
    if bytes <=? total then Some (acc, Complete, calls) else
    match fuel with
    | O => None
    | S fuel =>
        match os_pread calls (zlen file) (offset + total) (bytes - total) with
        | Eintr => pread_loop fuel file offset bytes acc (S calls)
        | ReadError => Some (acc, ReadFailed, S calls)
        | Got k =>
            if k =? 0 then Some (acc, EndOfFile, S calls)
            else pread_loop fuel file offset bytes
                   (acc ++ py_slice file (offset + total) (offset + total + k)) (S calls)
        end
    end.

  (** [throw std::runtime_error] unless everything was read. *)
Definition require_complete (r : stop) : result unit :=
    match r with Complete => Ok () | EndOfFile | ReadFailed => Err RuntimeError end.
End Loop.

(** ** Lemmas: reading *)

(** The operating system interrupts fewer than [B] calls in a row. *)
Definition os_progress `{PX : Posix} (B : nat) : Prop :=
  ∀ n, ∃ m, (n ≤ m < n + B)%nat ∧ ∀ size off len, os_pread m size off len ≠ Eintr.

(** It also reports no read error, but for a negative offset. *)
Definition os_reliable `{PX : Posix} (B : nat) : Prop :=
  (∀ n size off len, 0 ≤ off → os_pread n size off len ≠ ReadError) ∧ os_progress B.

(** What has been read, and whether the file had all of it. *)
Definition read_outcome_of (file : list Z) (offset bytes : Z) : list Z * stop :=
  (py_slice file offset (offset + bytes), if offset + bytes <=? zlen file then Complete else EndOfFile).

Lemma py_slice_app {A} (l : list A) i j k :
  0 ≤ i ≤ j → j ≤ k → py_slice l i j ++ py_slice l j k = py_slice l i k.
Proof.
  intros Hi Hj. rewrite !py_slice_nonneg by lia.
  replace (drop (Z.to_nat j) l) with (drop (Z.to_nat (j - i)) (drop (Z.to_nat i) l))
    by (rewrite drop_drop; f_equal; lia).
  rewrite <-(take_drop (Z.to_nat (j - i)) (take (Z.to_nat (k - i)) (drop (Z.to_nat i) l))).
  rewrite take_take, skipn_firstn_comm. f_equal; [f_equal; lia|]. f_equal. lia.
Qed.

(** A call that reads something extends what has been read, within bounds. *)
Lemma os_pread_step `{PX : Posix} (file : list Z) offset bytes (acc : list Z) calls k :
  zlen acc < bytes → (acc = [] ∨ 0 ≤ offset) → k ≠ 0 →
  os_pread calls (zlen file) (offset + zlen acc) (bytes - zlen acc) = Got k →
  0 ≤ offset ∧ 0 < k ∧ zlen acc + k ≤ bytes ∧
  zlen (acc ++ py_slice file (offset + zlen acc) (offset + zlen acc + k)) = zlen acc + k.
Proof.
  intros Hlt Hoff Hk E. destruct (Z.lt_ge_cases (offset + zlen acc) 0) as [Hneg|Hpos]; [by rewrite os_pread_negative in E|].
  destruct (Z.lt_ge_cases (offset + zlen acc) (zlen file)) as [Hin|Hout]; [|by apply os_pread_eof in E; [|lia..]].
  apply os_pread_inside in E; [|lia..]. rewrite length_app, Nat2Z.inj_add, length_py_slice by lia.
  split_and!; [|lia..]. destruct Hoff as [->|]; [cbn [length] in Hpos; lia|done].
Qed.

(** What a complete read returns has the size asked for. *)
Lemma pread_loop_length `{PX : Posix} fuel file offset bytes acc calls content calls' :
  zlen acc ≤ bytes → (acc = [] ∨ 0 ≤ offset) →
  pread_loop fuel file offset bytes acc calls = Some (content, Complete, calls') → zlen content = bytes.
Proof.
  revert acc calls; induction fuel as [|fuel IH]; intros acc calls Hle Hoff; cbn [pread_loop].
  - destruct (Z.leb_spec bytes (zlen acc)); [|done]. intros [= <- _]. lia.
  - destruct (Z.leb_spec bytes (zlen acc)) as [|Hlt]; [intros [= <- _]; lia|].
    destruct (os_pread calls _ _ _) as [k| |] eqn:E; [|by apply IH|done].
    destruct (Z.eqb_spec k 0) as [|Hk]; [done|].
    destruct (os_pread_step file offset bytes acc calls k Hlt Hoff Hk E) as (Ho & _ & Hle' & El).
    apply IH; [lia|by right].
Qed.

Section Stops.
Context {PX : Posix}.
Variables (B : nat) (file : list Z) (offset bytes : Z).
Hypothesis progress : os_progress B.

(** The loop stops after [B] calls for every byte, whatever the calls report. *)
Lemma pread_loop_stops_from fuel calls m acc :
  (calls ≤ m)%nat → (∀ size off len, os_pread m size off len ≠ Eintr) →
  zlen acc < bytes → (acc = [] ∨ 0 ≤ offset) →
  (bytes - zlen acc - 1) * Z.of_nat B + Z.of_nat (m - calls) + 1 ≤ Z.of_nat fuel →
  is_Some (pread_loop fuel file offset bytes acc calls).
Proof.
  revert calls m acc. induction fuel as [|fuel IH]; intros calls m acc Hm Hne Hlt Hoff Hf.
  { assert (0 ≤ (bytes - zlen acc - 1) * Z.of_nat B) by (apply Z.mul_nonneg_nonneg; lia). lia. }
  cbn [pread_loop]. destruct (Z.leb_spec bytes (zlen acc)); [lia|].
  destruct (os_pread calls (zlen file) (offset + zlen acc) (bytes - zlen acc)) as [k| |] eqn:E; [|..].
  - destruct (Z.eqb_spec k 0) as [|Hk]; [eauto|].
    destruct (os_pread_step file offset bytes acc calls k Hlt Hoff Hk E) as (Ho & Hk' & _ & El).
    destruct (decide (bytes ≤ zlen acc + k)) as [Hd|Hd].
    + destruct fuel; cbn [pread_loop]; rewrite El, (proj2 (Z.leb_le bytes _) Hd); eauto.
    + destruct (progress (S calls)) as (m' & Hm' & Hne').
      apply (IH (S calls) m'); [lia|done|lia|by right|nia].
  - assert (calls ≠ m) by (intros ->; by apply (Hne _ _ _ E)).
    apply (IH (S calls) m); [lia|done|done|done|lia].
  - eauto.
Qed.

Lemma pread_loop_stops fuel calls :
  0 < bytes → bytes * Z.of_nat B ≤ Z.of_nat fuel → is_Some (pread_loop fuel file offset bytes [] calls).
Proof.
  intros Hb Hf. destruct (progress calls) as (m & Hm & Hne).
  apply (pread_loop_stops_from fuel calls m); [lia|done|done|by left|cbn [length]; nia].
Qed.
End Stops.

Section Reading.
Context {PX : Posix}.
Variables (B : nat) (file : list Z) (offset bytes : Z).
Hypothesis reliable : os_reliable B.
Hypothesis offset_nonneg : 0 ≤ offset.

Lemma pread_loop_steps fuel calls m acc :
  (calls ≤ m)%nat → (∀ size off len, os_pread m size off len ≠ Eintr) →
  zlen acc < bytes → acc = py_slice file offset (offset + zlen acc) →
  (bytes - zlen acc - 1) * Z.of_nat B + Z.of_nat (m - calls) + 1 ≤ Z.of_nat fuel →
  ∃ calls', pread_loop fuel file offset bytes acc calls = Some (read_outcome_of file offset bytes, calls').
Proof.
  revert calls m acc. induction fuel as [|fuel IH]; intros calls m acc Hm Hne Hlt Hacc Hf.
  { assert (0 ≤ (bytes - zlen acc - 1) * Z.of_nat B) by (apply Z.mul_nonneg_nonneg; lia). lia. }
  cbn [pread_loop]. destruct (Z.leb_spec bytes (zlen acc)); [lia|].
  destruct (os_pread calls (zlen file) (offset + zlen acc) (bytes - zlen acc)) as [k| |] eqn:E.
  - destruct (Z.lt_ge_cases (offset + zlen acc) (zlen file)) as [Hin|Hout].
    + pose proof (os_pread_inside calls (zlen file) (offset + zlen acc) (bytes - zlen acc) k ltac:(lia) ltac:(lia) E) as Hk.
      rewrite (proj2 (Z.eqb_neq k 0)) by lia.
      set (acc' := acc ++ py_slice file (offset + zlen acc) (offset + zlen acc + k)).
      assert (acc' = py_slice file offset (offset + zlen acc + k)) as Ea.
      { unfold acc'. rewrite Hacc at 1. apply py_slice_app; lia. }
      assert (zlen acc' = zlen acc + k) as El by (rewrite Ea, length_py_slice; lia).
      destruct (decide (bytes ≤ zlen acc + k)) as [Hd|Hd].
      * exists (S calls). destruct fuel; cbn [pread_loop]; rewrite El, (proj2 (Z.leb_le bytes _) Hd);
          unfold read_outcome_of; rewrite (proj2 (Z.leb_le _ _)) by lia; rewrite Ea;
          replace (offset + zlen acc + k) with (offset + bytes) by lia; reflexivity.
      * destruct (proj2 reliable (S calls)) as (m' & Hm' & Hne').
        apply (IH (S calls) m'); [lia|done|lia| |].
        -- rewrite El. rewrite Ea. f_equal. lia.
        -- rewrite El. nia.
    + pose proof (os_pread_eof calls (zlen file) (offset + zlen acc) (bytes - zlen acc) k ltac:(lia) ltac:(lia) E) as ->. rewrite Z.eqb_refl. exists (S calls).
      unfold read_outcome_of. rewrite (proj2 (Z.leb_gt _ _)) by lia. rewrite Hacc, !py_slice_nonneg by lia.
      do 3 f_equal. rewrite !take_ge; [done|rewrite length_drop; lia..].
  - assert (calls ≠ m) by (intros ->; by apply (Hne _ _ _ E)).
    apply (IH (S calls) m); [lia|done|done|done|lia].
  - by apply (proj1 reliable) in E; [|lia].
Qed.

(** Enough fuel: [B] calls for every byte. *)
Lemma pread_loop_reads fuel calls :
  0 < bytes → bytes * Z.of_nat B ≤ Z.of_nat fuel →
  ∃ calls', pread_loop fuel file offset bytes [] calls = Some (read_outcome_of file offset bytes, calls').
Proof.
  intros Hb Hf. destruct (proj2 reliable calls) as (m & Hm & Hne).
  apply (pread_loop_steps fuel calls m); [lia|done|done| |cbn [length]; nia].
  rewrite Z.add_0_r. by rewrite py_slice_nonneg, Z.sub_diag by lia.
Qed.
End Reading.

(** ** A concrete system *)

(** A system that interrupts every third read and returns at most two bytes. *)
#[program] Definition reference_posix_on (files : str → option (list Z)) : Posix := {|
  file_at := files;
  os_pread n size off len :=
    if off <? 0 then ReadError else if (n `mod` 3 =? 2)%nat then Eintr else Got (Z.max 0 (Z.min 2 (Z.min len (size - off))));
  os_close _ := true;
|}.
Next Obligation. intros files n size off len k Ho Hl. cbv beta. repeat case_match; [done..|]. intros [= <-]. lia. Qed.
Next Obligation. intros files n size off len k Ho Hl. cbv beta. repeat case_match; [done..|]. intros [= <-]. lia. Qed.
Next Obligation. intros files n size off len Ho. cbv beta. by rewrite (proj2 (Z.ltb_lt off 0)). Qed.

Lemma reference_reliable_on files : @os_reliable (reference_posix_on files) 2.
Proof.
  assert (∀ n size off len, (n `mod` 3)%nat ≠ 2%nat →
    @os_pread (reference_posix_on files) n size off len ≠ Eintr) as Hne.
  { intros n size off len E. unfold os_pread, reference_posix_on. rewrite (proj2 (Nat.eqb_neq _ _) E). by case_match. }
  split.
  - intros n size off len Ho. unfold os_pread, reference_posix_on. rewrite (proj2 (Z.ltb_ge off 0)) by done. by case_match.
  - intros n. pose proof (Nat.div_mod_eq n 3). pose proof (Nat.div_mod_eq (S n) 3).
    destruct (decide ((n `mod` 3)%nat = 2%nat)).
    + exists (S n). split; [lia|]. intros. apply Hne. lia.
    + exists n. split; [lia|]. intros. by apply Hne.
Qed.

(** With one file of forty bytes. *)
Definition reference_posix : Posix :=
  reference_posix_on (λ path, if decide (path = u "emb.bin") then Some (py_repeat 40 1) else None).

Lemma reference_reliable : @os_reliable reference_posix 2.
Proof. apply reference_reliable_on. Qed.
