(* ===== verification/LibTypes.v ===== *)
(** The option, code and counter types of libmemtier (include/memtier/types.h). *)

From S2P Require Import Prelude.

Definition MEMTIER_OK : Z := 0.
Definition MEMTIER_ERR_INVALID : Z := -1.
Definition MEMTIER_ERR_IO : Z := -2.
Definition MEMTIER_ERR_NOMEM : Z := -3.
Definition MEMTIER_ERR_UNSUPPORTED : Z := -4.
Definition MEMTIER_ERR_GDS : Z := -6.
Definition MEMTIER_ERR_CUDA : Z := -7.

Definition HINT_REUSE : Z := 1.
Definition HINT_SMALL_IO : Z := 2.
Definition HINT_RANDOM : Z := 4.
Definition HINT_STREAMING : Z := 8.
Definition HINT_CHECKPOINT : Z := 16.
Definition HINT_SEQUENTIAL : Z := 32.

(** [memtier_options_t] without the CUDA stream. *)
Record options := {
  o_chunk_size : Z;
  o_dram_cache_size : Z;
  enable_dram_cache : bool;
  cache_admit : bool;
  bypass_cache : bool;
  force_gds : bool;
  force_posix : bool;
  enable_gds : bool;
  gds_stub_success : bool;
  gds_min_size : Z;
  gds_alignment : Z;
  o_hints : Z;
  async_mode : bool;
  num_workers : Z;
  coalesce_gap : Z;
  max_coalesce_size : Z;
  preferred_device_id : Z;
}.

Inductive lib_path : Type :=
| PATH_DRAM_HIT
| PATH_POSIX_READ
| PATH_POSIX_READ_THEN_CACHE
| PATH_GDS_READ
| PATH_GDS_STUB_FALLBACK.

Definition lib_path_code (p : lib_path) : Z :=
  match p with
  | PATH_DRAM_HIT => 0 | PATH_POSIX_READ => 1 | PATH_POSIX_READ_THEN_CACHE => 2 | PATH_GDS_READ => 3
  | PATH_GDS_STUB_FALLBACK => 4
  end.

(** The counters of [memtier_stats_t]. *)
Inductive stat : Type :=
| total_requests | dram_hits | dram_misses | posix_reads | gds_reads | gds_fallbacks | ssd_bytes_read
| dram_bytes_served | selected_gds | selected_posix | selected_cache | prefetch_requests | prefetch_bytes
| readv_requests | original_ranges | coalesced_ranges | coalesced_bytes.

#[export] Instance stat_eq_dec : EqDecision stat.
Proof. solve_decision. Defined.

