(* ===== verification/GdsBackend.v ===== *)
(** The GPUDirect Storage backend over cuFile (src/gds_backend.cpp), which the
    build links in place of the stub when it finds the library.

    The backend opens the driver once, keeps one registered handle per path and
    registers the destination for the time of a read.  cuFile is an interface:
    each of its calls may fail, and a read may be short.  A descriptor is the
    number of the call of [open] that made it. *)

From S2P Require Import Prelude PyText Posix LibTypes.

Class CuFile := {
  (** [cuFileDriverOpen] succeeds. *)
  cuFileDriverOpen : bool;
  (** The file system of this path takes [O_DIRECT]. *)
  o_direct : str → bool;
  (** The n-th registration of a handle, and of a buffer, succeeds. *)
  cuFileHandleRegister : nat → bool;
  cuFileBufRegister : nat → bool;
  (** What the n-th read of [size] bytes at [offset] of a file of this size
      returns: the bytes read, or a negative error. *)
  cuFileRead : nat → Z → Z → Z → Z;
  cuFileRead_inside n file_size size offset :
    0 ≤ offset → 0 < size → 0 < cuFileRead n file_size size offset →
    cuFileRead n file_size size offset ≤ size ∧ offset + cuFileRead n file_size size offset ≤ file_size;
}.

(** A handle: its descriptor, and the file this is open on. *)
Record HandleEntry := { fd : Z; he_file : list Z }.

Record gds_state := {
  g_inited : bool;
  g_ok : bool;
  g_handles : gmap str HandleEntry;
  open_fds : gset Z;
  opens : Z;                   (* calls of [open] that returned a descriptor *)
  driver_opens : nat;          (* calls of [cuFileDriverOpen] *)
  handle_calls : nat;          (* calls of [cuFileHandleRegister] *)
  buf_calls : nat;             (* calls of [cuFileBufRegister] *)
  read_calls : nat;            (* calls of [cuFileRead] *)
  registered : nat;            (* buffers registered now *)
}.

Abbreviation GM := (SM gds_state).

Definition gds_initial : gds_state :=
  {| g_inited := false; g_ok := false; g_handles := ∅; open_fds := ∅; opens := 0; driver_opens := 0; handle_calls := 0;
     buf_calls := 0; read_calls := 0; registered := 0 |}.

Section Backend.
  Context {PX : Posix} {CF : CuFile}.

Definition init_driver : GM bool := λ g,
    if g_inited g then Some (Ok (g_ok g), g) else
    Some (Ok cuFileDriverOpen,
      {| g_inited := true; g_ok := cuFileDriverOpen; g_handles := g_handles g; open_fds := open_fds g; opens := opens g;
         driver_opens := S (driver_opens g); handle_calls := handle_calls g; buf_calls := buf_calls g;
         read_calls := read_calls g; registered := registered g |}).

Definition memtier_gds_available : GM bool := init_driver.

  (** [open(path, O_RDONLY | O_DIRECT)]. *)
Definition open_direct (path : str) : GM (option HandleEntry) := λ g,
    match file_at path with
    | Some file =>
        if o_direct path then
          Some (Ok (Some {| fd := opens g; he_file := file |}),
            {| g_inited := g_inited g; g_ok := g_ok g; g_handles := g_handles g; open_fds := {[opens g]} ∪ open_fds g;
               opens := opens g + 1; driver_opens := driver_opens g; handle_calls := handle_calls g;
               buf_calls := buf_calls g; read_calls := read_calls g; registered := registered g |})
        else Some (Ok None, g)
    | None => Some (Ok None, g)
    end.

Definition register_handle : GM bool := λ g,
    Some (Ok (cuFileHandleRegister (handle_calls g)),
      {| g_inited := g_inited g; g_ok := g_ok g; g_handles := g_handles g; open_fds := open_fds g; opens := opens g;
         driver_opens := driver_opens g; handle_calls := S (handle_calls g); buf_calls := buf_calls g;
         read_calls := read_calls g; registered := registered g |}).

Definition close (f : Z) (g : gds_state) : gds_state :=
    {| g_inited := g_inited g; g_ok := g_ok g; g_handles := g_handles g; open_fds := open_fds g ∖ {[f]}; opens := opens g;
       driver_opens := driver_opens g; handle_calls := handle_calls g; buf_calls := buf_calls g;
       read_calls := read_calls g; registered := registered g |}.

Definition set_handle (path : str) (e : HandleEntry) (g : gds_state) : gds_state :=
    {| g_inited := g_inited g; g_ok := g_ok g; g_handles := <[path := e]> (g_handles g); open_fds := open_fds g;
       opens := opens g; driver_opens := driver_opens g; handle_calls := handle_calls g; buf_calls := buf_calls g;
       read_calls := read_calls g; registered := registered g |}.

Definition get_handle (path : str) : GM (option HandleEntry) :=
    known ← gets (λ g, g_handles g !! path);
    match known with
    | Some e => mret (Some e)
    | None =>
        opened ← open_direct path;
        match opened with
        | None => mret None
        | Some e =>
            ok ← register_handle;
            if negb ok then (_ ← modify (close (fd e)); mret None) else
            _ ← modify (set_handle path e);
            mret (Some e)
        end
    end.

  (** [cuFileBufRegister], [cuFileRead] and [cuFileBufDeregister]. *)
Definition register_buffer : GM bool := λ g,
    let ok := cuFileBufRegister (buf_calls g) in
    Some (Ok ok,
      {| g_inited := g_inited g; g_ok := g_ok g; g_handles := g_handles g; open_fds := open_fds g; opens := opens g;
         driver_opens := driver_opens g; handle_calls := handle_calls g; buf_calls := S (buf_calls g);
         read_calls := read_calls g; registered := if ok then S (registered g) else registered g |}).

Definition read_handle (e : HandleEntry) (size offset : Z) : GM Z := λ g,
    Some (Ok (cuFileRead (read_calls g) (zlen (he_file e)) size offset),
      {| g_inited := g_inited g; g_ok := g_ok g; g_handles := g_handles g; open_fds := open_fds g; opens := opens g;
         driver_opens := driver_opens g; handle_calls := handle_calls g; buf_calls := buf_calls g;
         read_calls := S (read_calls g); registered := registered g |}).

Definition deregister_buffer (g : gds_state) : gds_state :=
    {| g_inited := g_inited g; g_ok := g_ok g; g_handles := g_handles g; open_fds := open_fds g; opens := opens g;
       driver_opens := driver_opens g; handle_calls := handle_calls g; buf_calls := buf_calls g;
       read_calls := read_calls g; registered := pred (registered g) |}.

  (** [memtier_gds_read]: the code, and the bytes at the destination. *)
Definition cufile_gds_read (opt : options) (path : str) (offset size : Z) : GM (Z * list Z) :=
    if negb (enable_gds opt) then mret (MEMTIER_ERR_UNSUPPORTED, []) else
    if gds_alignment opt =? 0 then λ _, None else            (* division by zero *)
    if negb (offset `mod` gds_alignment opt =? 0) || negb (size `mod` gds_alignment opt =? 0)
    then mret (MEMTIER_ERR_GDS, []) else
    ok ← init_driver;
    if negb ok then mret (MEMTIER_ERR_GDS, []) else
    he ← get_handle path;
    match he with
    | None => mret (MEMTIER_ERR_GDS, [])
    | Some he =>
        ok ← register_buffer;
        if negb ok then mret (MEMTIER_ERR_GDS, []) else
        n ← read_handle he size offset;
        _ ← modify deregister_buffer;
        if (n <? 0) || negb (n =? size) then mret (MEMTIER_ERR_GDS, []) else
        mret (MEMTIER_OK, py_slice (he_file he) offset (offset + n))
    end.
End Backend.

(** ** The invariant *)

Record gds_wf `{PX : Posix} (g : gds_state) : Prop := {
  gw_open f : f ∈ open_fds g ↔ ∃ p e, g_handles g !! p = Some e ∧ fd e = f;
  gw_distinct p q e e' : g_handles g !! p = Some e → g_handles g !! q = Some e' → fd e = fd e' → p = q;
  gw_fresh f : f ∈ open_fds g → f < opens g;
  gw_files p e : g_handles g !! p = Some e → file_at p = Some (he_file e);
  gw_driver : driver_opens g = if g_inited g then 1%nat else 0%nat;
  gw_buffers : registered g = 0%nat;
}.

Lemma gds_initial_wf `{PX : Posix} : gds_wf gds_initial.
Proof.
  split; cbn [gds_initial g_handles open_fds].
  - intros f. split; [by intros ?%not_elem_of_empty|]. by intros (p & e & E%lookup_empty_Some & _).
  - by intros p q e e' E%lookup_empty_Some.
  - by intros f ?%not_elem_of_empty.
  - by intros p e E%lookup_empty_Some.
  - done.
  - done.
Qed.

(** One descriptor per path. *)
Lemma open_fds_count `{PX : Posix} g : gds_wf g → size (open_fds g) = size (g_handles g).
Proof.
  intros W. set (l := (λ pe : str * HandleEntry, fd pe.2) <$> map_to_list (g_handles g)).
  assert (NoDup l) as ND.
  { apply NoDup_fmap_2_strong; [|apply NoDup_map_to_list]. intros [p e] [q e'] Hp%elem_of_map_to_list Hq%elem_of_map_to_list Hf.
    cbn in Hf. pose proof (gw_distinct g W _ _ _ _ Hp Hq Hf) as ->. congruence. }
  assert (open_fds g = list_to_set l) as ->.
  { apply set_eq. intros f. rewrite elem_of_list_to_set, (gw_open g W). unfold l. rewrite list_elem_of_fmap. split.
    - intros (p & e & E & <-). exists (p, e). by rewrite elem_of_map_to_list.
    - intros ([p e] & -> & E%elem_of_map_to_list). by exists p, e. }
  rewrite size_list_to_set by done. unfold l. rewrite length_fmap. apply length_map_to_list.
Qed.

Section Correct.
Context {PX : Posix} {CF : CuFile}.

Lemma init_driver_wf g :
  gds_wf g → ∃ ok g', init_driver g = Some (Ok ok, g') ∧ gds_wf g' ∧ g_handles g' = g_handles g ∧ opens g' = opens g.
Proof.
  intros W. unfold init_driver. destruct (g_inited g) eqn:E; [by exists (g_ok g), g|].
  eexists _, _. split_and!; [reflexivity| |done|done]. destruct W. rewrite E in gw_driver0.
  split; cbn; try done. by rewrite gw_driver0.
Qed.

(** A handle found or made, or a failure that leaves nothing open. *)
Lemma get_handle_wf path g :
  gds_wf g → ∃ r g', get_handle path g = Some (Ok r, g') ∧ gds_wf g' ∧ g_handles g ⊆ g_handles g' ∧
    match r with
    | Some e => g_handles g' !! path = Some e ∧ file_at path = Some (he_file e)
    | None => g_handles g' = g_handles g
    end ∧
    (is_Some (g_handles g !! path) → g' = g).
Proof.
  intros W. unfold get_handle, gets, mbind, sm_bind. cbv beta iota.
  destruct (g_handles g !! path) as [e|] eqn:E.
  { exists (Some e), g. split_and!; [done..| |done]. by apply (gw_files g W). }
  unfold open_direct. destruct (file_at path) as [file|] eqn:Ef; [|exists None, g; split_and!; try done; by intros [? ?]].
  destruct (o_direct path); [|exists None, g; split_and!; try done; by intros [? ?]].
  pose proof W as [W1 W2 W3 W4 W5 W6].
  unfold register_handle. cbv beta iota. destruct (cuFileHandleRegister _); cbn [negb].
  - eexists (Some _), _. split; [reflexivity|]. cbn [g_handles set_handle]. split_and!; [|by apply insert_subseteq|apply lookup_insert_eq|done|by intros [? ?]].
    split; cbn [g_handles set_handle open_fds opens fd he_file driver_opens g_inited registered].
    + intros f. rewrite elem_of_union, elem_of_singleton, W1. split.
      * intros [->|(p & e & Hp & <-)]; [eexists path, _; split; [apply lookup_insert_eq|done]|].
        exists p, e. split; [|done]. rewrite lookup_insert_ne by congruence. done.
      * intros (p & e & [[<- <-]|[Hne Hp]]%lookup_insert_Some & <-); [by left|right; eauto].
    + assert (∀ p e, g_handles g !! p = Some e → fd e < opens g) as Hlt by (intros p e Hp; apply W3, W1; eauto).
      intros p q e e' [[<- <-]|[Hne Hp]]%lookup_insert_Some [[<- <-]|[Hne' Hq]]%lookup_insert_Some Hf; cbn in Hf; [done| | |by eapply W2].
      * apply Hlt in Hq. lia.
      * apply Hlt in Hp. lia.
    + intros f [->%elem_of_singleton|Hf%W3]%elem_of_union; lia.
    + intros p e [[<- <-]|[Hne Hp]]%lookup_insert_Some; [done|by apply W4].
    + done.
    + done.
  - eexists None, _. split; [reflexivity|]. cbn [g_handles close fd]. split_and!; [|done|done|by intros [? ?]].
    assert (opens g ∉ open_fds g) as Hn by (intros ?%W3; lia).
    split; cbn [g_handles close open_fds opens fd driver_opens g_inited registered]; try done.
    + intros f. rewrite <-W1. set_solver.
    + intros f Hf. assert (f ∈ open_fds g) as ?%W3; [set_solver|lia].
Qed.

(** What a read gives: exactly the bytes asked for, or an error. *)
Definition gds_answer (opt : options) (path : str) (offset size : Z) (r : Z * list Z) : Prop :=
  r.1 = MEMTIER_OK ∧ enable_gds opt = true ∧
    (∃ file, file_at path = Some file ∧ r.2 = py_slice file offset (offset + size) ∧ zlen r.2 = size) ∨
  r = (MEMTIER_ERR_UNSUPPORTED, []) ∧ enable_gds opt = false ∨
  r = (MEMTIER_ERR_GDS, []) ∧ enable_gds opt = true.

Lemma cufile_read_spec opt path offset size g :
  gds_wf g → gds_alignment opt ≠ 0 → 0 ≤ offset → 0 ≤ size →
  ∃ r g', cufile_gds_read opt path offset size g = Some (Ok r, g') ∧ gds_wf g' ∧ g_handles g ⊆ g_handles g' ∧
    (is_Some (g_handles g !! path) → g_handles g' = g_handles g ∧ opens g' = opens g) ∧
    gds_answer opt path offset size r.
Proof.
  intros W Ha Ho Hs. unfold cufile_gds_read, gds_answer. destruct (enable_gds opt); cbn [negb]; [|eexists _, g; split_and!; [done..|by right; left]].
  rewrite (proj2 (Z.eqb_neq _ _) Ha). case_match; [eexists _, g; split_and!; [done..|by right; right]|].
  destruct (init_driver_wf g W) as (ok & g1 & E1 & W1 & H1 & O1). unfold mbind at 1, sm_bind at 1. rewrite E1.
  destruct ok; cbn [negb]; [|eexists _, g1; split_and!; [done|done|by rewrite H1|done|by right; right]].
  destruct (get_handle_wf path g1 W1) as (he & g2 & E2 & W2 & Hsub & Hhe & Hold). rewrite H1 in Hsub, Hold.
  unfold mbind at 1, sm_bind at 1. rewrite E2.
  assert (is_Some (g_handles g !! path) → g_handles g2 = g_handles g ∧ opens g2 = opens g) as Hsame
    by (intros ?%Hold; subst; by rewrite H1, O1).
  destruct he as [he|]; [|eexists _, g2; split_and!; [done|done|done|exact Hsame|by right; right]]. destruct Hhe as [_ Hf].
  unfold register_buffer, read_handle, modify, mbind, sm_bind. cbv beta iota.
  destruct (cuFileBufRegister (buf_calls g2)); cbn [negb]; cbv beta iota.
  2:{ eexists _, _. split; [reflexivity|]. destruct W2. split_and!; [by split|done|exact Hsame|by right; right]. }
  cbn [read_calls]. set (n := cuFileRead (read_calls g2) (zlen (he_file he)) size offset).
  destruct ((n <? 0) || negb (n =? size)) eqn:En.
  { eexists _, _. split; [reflexivity|]. destruct W2. split_and!; [by split|done|exact Hsame|by right; right]. }
  apply orb_false_iff in En as [Hn0%Z.ltb_ge Hn%negb_false_iff%Z.eqb_eq].
  eexists _, _. split; [reflexivity|]. destruct W2. split_and!; [by split|done|exact Hsame|]. left.
  split; [done|]. split; [done|]. exists (he_file he). cbn [snd]. split_and!; [done|by rewrite Hn|].
  rewrite length_py_slice by lia. destruct (Z.eq_dec size 0) as [->|Hne]; [rewrite Hn; lia|].
  pose proof (cuFileRead_inside (read_calls g2) (zlen (he_file he)) size offset) as [_ Hin]; [lia..|]. fold n in Hin. lia.
Qed.

(** No exception leaves the backend. *)
Lemma cufile_gds_read_returns opt path offset size g r g' :
  cufile_gds_read opt path offset size g = Some (r, g') → ∃ a, r = Ok a.
Proof.
  unfold cufile_gds_read, get_handle, open_direct, init_driver, register_handle, register_buffer, read_handle, modify, gets,
    mbind, sm_bind, mret, sm_ret. intros H. by repeat (case_match; simplify_eq; eauto).
Qed.

(** The states the backend reaches. *)
Inductive gds_reachable : gds_state → Prop :=
| gds_start : gds_reachable gds_initial
| gds_available g ok g' : gds_reachable g → memtier_gds_available g = Some (Ok ok, g') → gds_reachable g'
| gds_read g opt path offset size r g' :
    gds_reachable g → gds_alignment opt ≠ 0 → 0 ≤ offset → 0 ≤ size →
    cufile_gds_read opt path offset size g = Some (Ok r, g') → gds_reachable g'.

Lemma gds_reachable_wf g : gds_reachable g → gds_wf g.
Proof.
  induction 1 as [|g ok g' _ IH E|g opt path offset size r g' _ IH Ha Ho Hs E]; [apply gds_initial_wf| |].
  - destruct (init_driver_wf g IH) as (ok' & g1 & E1 & W & _). unfold memtier_gds_available in E. congruence.
  - destruct (cufile_read_spec opt path offset size g IH Ha Ho Hs) as (r1 & g1 & E1 & W & _). congruence.
Qed.

(** C9: the cuFile backend reads exactly and leaks nothing. Whatever its calls
    to cuFile return, in every state the backend reaches it has opened the
    driver at most once, no buffer is registered and one descriptor is open per
    handle kept, on that path's file; a read returns, keeps the handles there
    are, opens nothing for a path that has one, and either succeeds with exactly
    the bytes asked for or reports that GDS is off or failed. *)
Theorem cufile_backend_sound g opt path offset bytes :
  gds_reachable g → gds_alignment opt ≠ 0 → 0 ≤ offset → 0 ≤ bytes →
  (driver_opens g ≤ 1)%nat ∧ registered g = 0%nat ∧ size (open_fds g) = size (g_handles g) ∧
  (∀ p e, g_handles g !! p = Some e → fd e ∈ open_fds g ∧ file_at p = Some (he_file e)) ∧
  ∃ r g', cufile_gds_read opt path offset bytes g = Some (Ok r, g') ∧ gds_reachable g' ∧ g_handles g ⊆ g_handles g' ∧
    (is_Some (g_handles g !! path) → opens g' = opens g) ∧ gds_answer opt path offset bytes r.
Proof.
  intros R Ha Ho Hs. pose proof (gds_reachable_wf g R) as W. split_and!.
  - rewrite (gw_driver g W). destruct (g_inited g); lia.
  - apply (gw_buffers g W).
  - apply (open_fds_count g W).
  - intros p e Hp. split; [apply (gw_open g W); eauto|by apply (gw_files g W)].
  - destruct (cufile_read_spec opt path offset bytes g W Ha Ho Hs) as (r & g' & E & _ & Hsub & Hsame & HA).
    exists r, g'. split_and!; [done|by apply (gds_read g opt path offset bytes r)|done|by intros [_ ?]%Hsame|done].
Qed.
End Correct.

(** ** A concrete cuFile *)

(** A library that refuses its first handle and its first buffer and reads what
    there is. *)
#[program] Definition reference_cufile : CuFile := {|
  cuFileDriverOpen := true; o_direct _ := true; cuFileHandleRegister n := negb (n =? 0)%nat;
  cuFileBufRegister n := negb (n =? 0)%nat;
  cuFileRead n file_size size offset := if offset <? file_size then Z.min size (file_size - offset) else 0;
|}.
Next Obligation. intros n fs size offset Ho Hs. cbv beta. destruct (Z.ltb_spec offset fs); lia. Qed.

Definition gds_options : options :=
  {| o_chunk_size := 4; o_dram_cache_size := 12; enable_dram_cache := true; cache_admit := true; bypass_cache := false;
     force_gds := true; force_posix := false; enable_gds := true; gds_stub_success := true; gds_min_size := 1;
     gds_alignment := 2; o_hints := 0; async_mode := false; num_workers := 1; coalesce_gap := 0; max_coalesce_size := 0;
     preferred_device_id := 0 |}.

Section Witnesses.
#[local] Existing Instance reference_posix.
#[local] Existing Instance reference_cufile.

(** The reads of a client: the codes, the bytes, and the state they leave. *)
Fixpoint gds_session (reads : list (str * Z * Z)) (g : gds_state) : option (list (Z * list Z) * gds_state) :=
  match reads with
  | [] => Some ([], g)
  | (path, offset, size) :: reads =>
      match cufile_gds_read gds_options path offset size g with
      | Some (Ok r, g) => p ← gds_session reads g; Some (r :: p.1, p.2)
      | _ => None
      end
  end.

(** The refused handle is closed again, the descriptor that stays open is the
    second one, and neither a read that is not aligned nor one past the end of
    the file succeeds. *)
Lemma gds_session_runs :
  option_map (λ p : list (Z * list Z) * gds_state, (p.1, elements (open_fds p.2), opens p.2, driver_opens p.2))
    (gds_session [(u "emb.bin", 0, 2); (u "emb.bin", 0, 2); (u "emb.bin", 2, 2); (u "emb.bin", 1, 2); (u "emb.bin", 38, 4);
                  (u "missing", 0, 2)] gds_initial) =
  Some ([(MEMTIER_ERR_GDS, []); (MEMTIER_ERR_GDS, []); (MEMTIER_OK, [1; 1]); (MEMTIER_ERR_GDS, []); (MEMTIER_ERR_GDS, []);
         (MEMTIER_ERR_GDS, [])], [1], 2, 1%nat).
Proof. vm_compute. reflexivity. Qed.

Lemma cufile_backend_sound_witness :
  ∃ r g', cufile_gds_read gds_options (u "emb.bin") 2 2 gds_initial = Some (Ok r, g') ∧ gds_reachable g'.
Proof.
  destruct (cufile_backend_sound gds_initial gds_options (u "emb.bin") 2 2 gds_start) as (_ & _ & _ & _ & r & g' & E & R & _);
    [done|done|done|].
  exists r, g'. split; [exact E|exact R].
Defined.
End Witnesses.
