(* ===== verification/ChunkCache.v ===== *)
(** The chunk cache of libmemtier (src/cache_directory.cpp, src/cache_directory.h).

    The list of keys and the iterators into it are kept as they are: a list
    node has an identity, and an entry remembers its node.  A node can outlive
    its entry, because [insert] does not look for the key first. *)

From S2P Require Import Prelude.

(** [CacheKey]: the file and the chunk. *)
Abbreviation key := (Z * Z)%type.

(** [Node]: the entry and the iterator of its list node.  [pinned], which is
    never read, is left out. *)
Record node := {
  data : list Z;
  valid_size : Z;
  last_access : Z;
  access_count : Z;
  lru_it : nat;
}.

Record directory := {
  chunk_size : Z;
  cache_size : Z;
  used_bytes : Z;
  ticks : Z;
  evictions : Z;
  order : list (nat * key);   (* lru_: the most recently used first *)
  next_node : nat;
  table : gmap key node;
}.

Definition new_directory (chunk cache : Z) : directory :=
  {| chunk_size := chunk; cache_size := cache; used_bytes := 0; ticks := 0; evictions := 0; order := [];
     next_node := 0; table := ∅ |}.

(** [touch]: the node is erased from the list through its iterator, and a new
    node is made at the front. *)
Definition touch (n : node) (k : key) (d : directory) : node * directory :=
  let n' := {| data := data n; valid_size := valid_size n; last_access := wrap 64 (ticks d + 1);
               access_count := wrap 64 (access_count n + 1); lru_it := next_node d |} in
  (n', {| chunk_size := chunk_size d; cache_size := cache_size d; used_bytes := used_bytes d;
          ticks := wrap 64 (ticks d + 1); evictions := evictions d;
          order := (next_node d, k) :: filter (λ p, p.1 ≠ lru_it n) (order d); next_node := S (next_node d);
          table := <[k := n']> (table d) |}).

(** [lookup]: a copy of the entry. *)
Definition lookup (k : key) (d : directory) : option node * directory :=
  match table d !! k with
  | Some n => let '(n, d) := touch n k d in (Some n, d)
  | None => (None, d)
  end.

(** One turn of the eviction loop, for the node at the back. *)
Definition evict_back (d : directory) (victim : key) : directory :=
  match table d !! victim with
  | Some n => {| chunk_size := chunk_size d; cache_size := cache_size d;
                 used_bytes := wrap 64 (used_bytes d - zlen (data n)); ticks := ticks d;
                 evictions := wrap 64 (evictions d + 1); order := removelast (order d); next_node := next_node d;
                 table := delete victim (table d) |}
  | None => {| chunk_size := chunk_size d; cache_size := cache_size d; used_bytes := used_bytes d; ticks := ticks d;
               evictions := evictions d; order := removelast (order d); next_node := next_node d; table := table d |}
  end.

(** [while (used_bytes_ + chunk_size_ > cache_size_bytes_ && !lru_.empty())]:
    every turn removes a node, so as many turns as nodes are enough. *)
Fixpoint evict_loop (turns : nat) (d : directory) : directory :=
  match turns with
  | O => d
  | S turns =>
      if wrap 64 (used_bytes d + chunk_size d) <=? cache_size d then d else
      match last (order d) with
      | Some (_, victim) => evict_loop turns (evict_back d victim)
      | None => d
      end
  end.

Definition add_node (k : key) (bytes : list Z) (valid : Z) (d : directory) : directory :=
  {| chunk_size := chunk_size d; cache_size := cache_size d; used_bytes := wrap 64 (used_bytes d + zlen bytes);
     ticks := wrap 64 (ticks d + 1); evictions := evictions d; order := (next_node d, k) :: order d;
     next_node := S (next_node d);
     table := <[k := {| data := bytes; valid_size := valid; last_access := wrap 64 (ticks d + 1); access_count := 1;
                        lru_it := next_node d |}]> (table d) |}.

(** [insert]: [bytes] are the [chunk_size] bytes of the buffer. *)
Definition insert (k : key) (bytes : list Z) (valid : Z) (d : directory) : bool * directory :=
  if (valid =? 0) || (chunk_size d <? valid) then (false, d) else
  if (cache_size d <? chunk_size d) || (cache_size d =? 0) then (false, d) else
  (true, add_node k bytes valid (evict_loop (length (order d)) d)).

Definition contains (k : key) (d : directory) : bool := bool_decide (is_Some (table d !! k)).

(** ** What the entries hold *)

(** Every entry satisfies [P], a property of its key, its bytes and how many of
    them are valid. *)
Definition holds (P : key → list Z → Z → Prop) (d : directory) : Prop :=
  ∀ k n, table d !! k = Some n → P k (data n) (valid_size n).

Lemma lookup_table k d n d' :
  lookup k d = (n, d') →
  match n with
  | Some n => ∃ n0, table d !! k = Some n0 ∧ data n = data n0 ∧ valid_size n = valid_size n0 ∧
                table d' = <[k := n]> (table d)
  | None => table d !! k = None ∧ d' = d
  end.
Proof.
  unfold lookup. destruct (table d !! k) as [n0|] eqn:E; cbn [touch]; intros [= <- <-]; [|done].
  by exists n0.
Qed.

Lemma lookup_holds P k d : holds P d → holds P (lookup k d).2.
Proof.
  intros H. destruct (lookup k d) as [n d'] eqn:E. apply lookup_table in E. cbn.
  destruct n as [n|]; [|by destruct E as [_ ->]]. destruct E as (n0 & E0 & Ed & Ev & ET).
  intros k' n'. rewrite ET. destruct (decide (k' = k)) as [->|Hk].
  - rewrite lookup_insert_eq. intros [= <-]. rewrite Ed, Ev. by apply H.
  - rewrite lookup_insert_ne by done. apply H.
Qed.

Lemma evict_back_table d v k n : table (evict_back d v) !! k = Some n → table d !! k = Some n.
Proof.
  unfold evict_back. destruct (table d !! v); cbn [table]; [|done]. rewrite lookup_delete_Some. by intros [_ ?].
Qed.

Lemma evict_loop_table turns d k n : table (evict_loop turns d) !! k = Some n → table d !! k = Some n.
Proof.
  revert d; induction turns as [|turns IH]; intros d; cbn [evict_loop]; [done|].
  destruct (_ <=? _); [done|]. destruct (last (order d)) as [[? v]|]; [|done]. intros H. by eapply evict_back_table, IH.
Qed.

Lemma insert_holds (P : key → list Z → Z → Prop) k bytes valid d :
  holds P d → (0 < valid ≤ chunk_size d → P k bytes valid) → 0 ≤ valid → holds P (insert k bytes valid d).2.
Proof.
  intros H HP Hv. unfold insert. destruct (Z.eqb_spec valid 0); [done|]. destruct (Z.ltb_spec (chunk_size d) valid); [done|].
  cbn [orb]. destruct (_ || _); [done|]. cbn [snd]. intros k' n'. cbn [add_node table].
  rewrite lookup_insert_Some. intros [[<- <-]|[_ Hn]]; cbn [data valid_size].
  - apply HP. lia.
  - by eapply H, evict_loop_table.
Qed.

(** The sizes never change. *)
Lemma lookup_sizes k d : chunk_size (lookup k d).2 = chunk_size d ∧ cache_size (lookup k d).2 = cache_size d.
Proof. unfold lookup. by destruct (table d !! k). Qed.

Lemma evict_loop_sizes turns d :
  chunk_size (evict_loop turns d) = chunk_size d ∧ cache_size (evict_loop turns d) = cache_size d.
Proof.
  revert d; induction turns as [|turns IH]; intros d; cbn [evict_loop]; [done|].
  destruct (_ <=? _); [done|]. destruct (last (order d)) as [[? v]|]; [|done].
  destruct (IH (evict_back d v)) as [-> ->]. unfold evict_back. by destruct (table d !! v).
Qed.

Lemma insert_sizes k bytes valid d :
  chunk_size (insert k bytes valid d).2 = chunk_size d ∧ cache_size (insert k bytes valid d).2 = cache_size d.
Proof. unfold insert. destruct (_ || _); [done|]. destruct (_ || _); [done|]. cbn. apply evict_loop_sizes. Qed.

(** ** The budget *)

(** Every list node belongs to an entry and every entry to a node, and the
    bytes counted are those of the entries, within the budget. *)
Record exact (d : directory) : Prop := {
  ex_chunk : 0 < chunk_size d ≤ cache_size d;
  ex_cache : cache_size d < 2 ^ 63;
  ex_nodes : order d ≡ₚ (λ p : key * node, (lru_it p.2, p.1)) <$> map_to_list (table d);
  ex_ids : NoDup (order d).*1;
  ex_fresh : Forall (λ p, (p.1 < next_node d)%nat) (order d);
  ex_data : map_Forall (λ _ n, zlen (data n) = chunk_size d) (table d);
  ex_used : used_bytes d = chunk_size d * zlen (order d);
  ex_budget : used_bytes d ≤ cache_size d;
}.

(** The number of chunks the budget allows. *)
Definition max_chunks (d : directory) : nat := Z.to_nat (cache_size d `div` chunk_size d).

Section Exact.
Variable d : directory.
Hypothesis X : exact d.

Lemma order_keys : (order d).*2 ≡ₚ (map_to_list (table d)).*1.
Proof. rewrite (ex_nodes d X), <-list_fmap_compose. done. Qed.

Lemma order_NoDup : NoDup (order d).*2.
Proof. rewrite order_keys. apply NoDup_fst_map_to_list. Qed.

Lemma order_table k : k ∈ (order d).*2 ↔ is_Some (table d !! k).
Proof.
  rewrite order_keys, list_elem_of_fmap. split.
  - intros ([x n] & -> & H%elem_of_map_to_list). by exists n.
  - intros [n H]. exists (k, n). split; [done|]. by apply elem_of_map_to_list.
Qed.

Lemma order_node id k n : (id, k) ∈ order d → table d !! k = Some n → id = lru_it n.
Proof.
  rewrite (ex_nodes d X). intros ([x m] & [= -> ->] & H%elem_of_map_to_list)%list_elem_of_fmap E.
  cbn in H. congruence.
Qed.

Lemma order_length : (length (order d) ≤ max_chunks d)%nat.
Proof.
  pose proof (ex_chunk d X). pose proof (ex_budget d X). rewrite (ex_used d X) in *. unfold max_chunks.
  pose proof (Z.div_mod (cache_size d) (chunk_size d) ltac:(lia)).
  pose proof (Z.mod_pos_bound (cache_size d) (chunk_size d) ltac:(lia)). nia.
Qed.

(** The node of an entry is its only one in the list. *)
Lemma order_split k n :
  table d !! k = Some n →
  ∃ l1 l2, order d = l1 ++ (lru_it n, k) :: l2 ∧ filter (λ p, p.1 ≠ lru_it n) (order d) = l1 ++ l2.
Proof.
  intros E. assert ((lru_it n, k) ∈ order d) as (l1 & l2 & EO)%list_elem_of_split.
  { rewrite (ex_nodes d X), list_elem_of_fmap. exists (k, n). split; [done|]. by apply elem_of_map_to_list. }
  exists l1, l2. split; [done|]. pose proof (ex_ids d X) as ND. rewrite EO in ND |- *. rewrite fmap_app, fmap_cons in ND.
  apply NoDup_app in ND as (_ & Hd & [Hn _]%NoDup_cons).
  rewrite filter_app, filter_cons_False by (intros H; by apply H).
  f_equal; apply filter_all, Forall_forall; intros p Hp%(list_elem_of_fmap_2 fst) Eid; rewrite Eid in Hp.
  - apply (Hd (lru_it n)); [done|by left].
  - by apply Hn.
Qed.
End Exact.

(** A hit moves the key to the front, and keeps the accounts. *)
Lemma lookup_exact k d : exact d → exact (lookup k d).2.
Proof.
  intros X. unfold lookup. destruct (table d !! k) as [n|] eqn:E; [|done]. cbn [touch snd].
  destruct (order_split d X k n E) as (l1 & l2 & EO & EF). rewrite EF.
  assert ((lru_it n, k) :: l1 ++ l2 ≡ₚ order d) as HP by (rewrite EO; apply Permutation_middle).
  destruct X as [Hc Hm Hn Hids Hf Hd Hu Hb]. constructor; cbn [chunk_size cache_size used_bytes order next_node table]; try done.
  - rewrite <-insert_delete_eq, map_to_list_insert by apply lookup_delete_eq. rewrite fmap_cons. cbn [fst snd lru_it].
    apply perm_skip. rewrite <-HP, <-(map_to_list_delete (table d) k n E) in Hn. rewrite fmap_cons in Hn.
    cbn [fst snd] in Hn. by apply Permutation_cons_inv in Hn.
  - rewrite fmap_cons. apply NoDup_cons. rewrite <-HP in Hids. apply NoDup_cons in Hids as [_ Hids]. split; [|done].
    rewrite <-HP in Hf. intros (p & Ep & Hp)%list_elem_of_fmap. apply Forall_cons in Hf as [_ Hf].
    apply (proj1 (Forall_forall _ _) Hf) in Hp. cbn in Ep. lia.
  - rewrite <-HP in Hf. apply Forall_cons in Hf as [_ Hf]. constructor; [cbn; lia|].
    eapply Forall_impl; [exact Hf|]. cbn. lia.
  - apply map_Forall_insert_2; [|done]. by apply (Hd k n).
  - rewrite Hu. f_equal. f_equal. apply Permutation_length in HP. cbn [length] in *. by rewrite <-HP.
Qed.

(** The eviction of the back of the list. *)
Lemma evict_back_exact l id v d :
  exact d → order d = l ++ [(id, v)] →
  exact (evict_back d v) ∧ order (evict_back d v) = l ∧ table (evict_back d v) = delete v (table d) ∧
  next_node (evict_back d v) = next_node d ∧ chunk_size (evict_back d v) = chunk_size d ∧
  cache_size (evict_back d v) = cache_size d.
Proof.
  intros X EO. assert (is_Some (table d !! v)) as [n E].
  { apply (order_table d X). rewrite EO, fmap_app. apply elem_of_app. right. left. }
  assert (id = lru_it n) as -> by (apply (order_node d X id v n); [rewrite EO; apply elem_of_app; right; left|done]).
  destruct X as [Hc Hm Hn Hids Hf Hd Hu Hb]. unfold evict_back. rewrite E.
  rewrite (Hd v n E). assert (used_bytes d - chunk_size d = chunk_size d * zlen l) as El.
  { rewrite Hu, EO, length_app. cbn. lia. }
  rewrite El, (wrap_small 64) by (unfold in_width; nia).
  split; [|by rewrite EO, removelast_last].
  constructor; cbn [chunk_size cache_size used_bytes order next_node table]; try done; rewrite EO in *.
  - rewrite removelast_last, <-(map_to_list_delete (table d) v n E), Permutation_app_comm in *. cbn in Hn.
    by apply Permutation_cons_inv in Hn.
  - rewrite removelast_last. rewrite fmap_app in Hids. by apply NoDup_app in Hids as (? & _).
  - rewrite removelast_last. by apply Forall_app in Hf as [? _].
  - by apply map_Forall_delete.
  - by rewrite removelast_last.
  - nia.
Qed.

(** The loop evicts at most the last chunk, and leaves room for one. *)
Lemma evict_loop_exact d :
  exact d →
  let d' := evict_loop (length (order d)) d in
  exact d' ∧ order d' = take (max_chunks d - 1) (order d) ∧ next_node d' = next_node d ∧
  chunk_size d' = chunk_size d ∧ cache_size d' = cache_size d ∧
  (∀ k, table d' !! k = if decide (k ∈ (order d').*2) then table d !! k else None).
Proof.
  intros X. pose proof (order_length d X) as HL. pose proof (ex_chunk d X). pose proof (ex_cache d X).
  assert (∀ d', exact d' → chunk_size d' = chunk_size d → cache_size d' = cache_size d → ∀ t,
    (length (order d') < max_chunks d)%nat → evict_loop t d' = d') as Hstop.
  { intros d' X' E1 E2 t Hlt. destruct t as [|t]; [done|]. cbn [evict_loop]. rewrite (ex_used d' X'), E1, E2.
    unfold max_chunks in Hlt. pose proof (Z.div_mod (cache_size d) (chunk_size d) ltac:(lia)).
    pose proof (Z.mod_pos_bound (cache_size d) (chunk_size d) ltac:(lia)).
    rewrite (wrap_small 64) by (unfold in_width; nia). by rewrite (proj2 (Z.leb_le _ _)) by nia. }
  assert (∀ d' : directory, exact d' → ∀ k, table d' !! k = if decide (k ∈ (order d').*2) then table d' !! k else None) as Hall.
  { intros d' X' k. destruct (decide _) as [|Hn]; [done|]. destruct (table d' !! k) eqn:E; [|done].
    destruct Hn. apply (order_table d' X'). by eexists. }
  destruct (decide (length (order d) < max_chunks d)%nat) as [Hlt|Hge]; cbv zeta.
  - rewrite Hstop by done. split_and!; [done| |done..|by apply Hall]. by rewrite take_ge by lia.
  - assert (order d ≠ []) as Hne.
    { intros E. rewrite E in Hge. cbn in Hge. apply Hge. unfold max_chunks.
      pose proof (Z.div_le_mono (chunk_size d) (cache_size d) (chunk_size d) ltac:(lia) ltac:(lia)).
      rewrite Z.div_same in * by lia. lia. }
    destruct (exists_last Hne) as (l & [id v] & EO). rewrite EO, length_app. cbn [length].
    rewrite Nat.add_1_r. cbn [evict_loop].
    rewrite (proj2 (Z.leb_gt _ _)).
    2:{ rewrite (ex_used d X). pose proof (ex_budget d X). rewrite (ex_used d X) in *. unfold max_chunks in *.
        pose proof (Z.div_mod (cache_size d) (chunk_size d) ltac:(lia)).
        pose proof (Z.mod_pos_bound (cache_size d) (chunk_size d) ltac:(lia)).
        rewrite (wrap_small 64) by (unfold in_width; nia). nia. }
    rewrite EO, last_snoc. destruct (evict_back_exact l id v d X EO) as (X' & EO' & ET & EN & E1 & E2).
    assert (length l < max_chunks d)%nat as Hl by (rewrite EO, length_app in HL; cbn in HL; lia).
    rewrite Hstop by (rewrite ?EO'; done). split_and!; [done| |done..|].
    + rewrite EO'. rewrite take_app_le by (rewrite EO, length_app in Hge; cbn in Hge; lia).
      rewrite take_ge; [done|lia].
    + intros k. rewrite (Hall _ X'), ET. destruct (decide _) as [Hk|]; [|done]. apply lookup_delete_ne. intros <-.
      rewrite EO' in Hk. pose proof (order_NoDup d X) as ND. rewrite EO, fmap_app in ND.
      apply NoDup_app in ND as (_ & Hd & _). apply (Hd v); [done|by left].
Qed.

(** The list of keys after a lookup that hits. *)
Lemma lookup_order k d :
  exact d → is_Some (table d !! k) → (order (lookup k d).2).*2 = k :: filter (λ x, x ≠ k) (order d).*2.
Proof.
  intros X [n E]. unfold lookup. rewrite E. cbn [touch snd order]. rewrite fmap_cons. cbn [snd]. f_equal.
  destruct (order_split d X k n E) as (l1 & l2 & EO & ->). pose proof (order_NoDup d X) as ND.
  rewrite EO in ND |- *. rewrite !fmap_app, fmap_cons in *. cbn [snd] in *.
  apply NoDup_app in ND as (_ & Hd & [Hn _]%NoDup_cons).
  rewrite filter_app, filter_cons_False by (intros H; by apply H).
  f_equal; symmetry; apply filter_all, Forall_forall; intros x Hx ->; [apply (Hd k); [done|by left]|done].
Qed.

Lemma insert_exact k bytes valid d :
  exact d → contains k d = false → zlen bytes = chunk_size d → 0 < valid ≤ chunk_size d →
  ∃ d', insert k bytes valid d = (true, d') ∧ exact d' ∧
    (order d').*2 = k :: take (max_chunks d - 1) (order d).*2 ∧
    (∀ k', option_map data (table d' !! k') =
       if decide (k' = k) then Some bytes
       else if decide (k' ∈ (order d').*2) then option_map data (table d !! k') else None).
Proof.
  intros X Hk Hb Hv. pose proof (ex_chunk d X) as Hc. pose proof (ex_cache d X) as Hm. apply bool_decide_eq_false in Hk.
  unfold insert. rewrite (proj2 (Z.eqb_neq valid 0)), (proj2 (Z.ltb_ge _ valid)), (proj2 (Z.ltb_ge (cache_size d) _)),
    (proj2 (Z.eqb_neq (cache_size d) 0)) by lia. cbn [orb]. eexists. split; [reflexivity|].
  destruct (evict_loop_exact d X) as (X1 & EO & EN & E1 & E2 & ET).
  set (d1 := evict_loop _ _) in *. destruct X1 as [Hc1 Hm1 Hn Hids Hf Hd Hu Hb1].
  assert (table d1 !! k = None) as Ek.
  { rewrite ET. destruct (decide _) as [_|]; [|done]. destruct (table d !! k) eqn:E; [|done]. destruct Hk. by eexists. }
  assert (zlen (order d1) + 1 ≤ Z.of_nat (max_chunks d)) as Hlen.
  { rewrite EO, length_take. unfold max_chunks. pose proof (Z.div_le_mono (chunk_size d) (cache_size d) (chunk_size d) ltac:(lia) ltac:(lia)).
    rewrite Z.div_same in * by lia. lia. }
  assert (used_bytes d1 + zlen bytes ≤ cache_size d) as Hroom.
  { rewrite Hu, E1, Hb. unfold max_chunks in Hlen. pose proof (Z.div_mod (cache_size d) (chunk_size d) ltac:(lia)).
    pose proof (Z.mod_pos_bound (cache_size d) (chunk_size d) ltac:(lia)). nia. }
  unfold add_node. rewrite (wrap_small 64 (used_bytes d1 + _)) by (unfold in_width; rewrite Hu in *; nia).
  split_and!; [constructor; cbn [chunk_size cache_size used_bytes order next_node table]| |].
  - by rewrite E1, E2.
  - by rewrite E2.
  - rewrite map_to_list_insert by done. rewrite fmap_cons. cbn [fst snd lru_it]. by apply perm_skip.
  - rewrite fmap_cons. apply NoDup_cons. split; [|done]. intros (p & Ep & Hp)%list_elem_of_fmap.
    apply (proj1 (Forall_forall _ _) Hf) in Hp. cbn in Ep. lia.
  - constructor; [cbn; lia|]. eapply Forall_impl; [exact Hf|]. cbn. lia.
  - apply map_Forall_insert_2; [|done]. cbn [data]. congruence.
  - rewrite Hu, Hb, E1. cbn [length]. lia.
  - by rewrite E2.
  - cbn [order]. by rewrite fmap_cons, EO, fmap_take.
  - intros k'. cbn [order table]. destruct (decide (k' = k)) as [->|Hne]; [by rewrite lookup_insert_eq|].
    rewrite lookup_insert_ne, ET by done. rewrite fmap_cons.
    destruct (decide (k' ∈ (order d1).*2)) as [H1|H1].
    + rewrite decide_True by by right. done.
    + rewrite decide_False; [done|]. intros [?|?]%elem_of_cons; [by cbn in *|done].
Qed.

Lemma insert_keeps k bytes valid d :
  exact d → contains k d = false → zlen bytes = chunk_size d → 0 < valid ≤ chunk_size d → exact (insert k bytes valid d).2.
Proof. intros X Hk Hb Hv. by destruct (insert_exact k bytes valid d X Hk Hb Hv) as (d' & -> & X' & _). Qed.

Lemma new_directory_exact chunk cache : 0 < chunk ≤ cache → cache < 2 ^ 63 → exact (new_directory chunk cache).
Proof.
  intros Hc Hm. constructor; cbn [new_directory chunk_size cache_size used_bytes order next_node table];
    [done|done|by rewrite map_to_list_empty|constructor|constructor|apply map_Forall_empty|cbn; lia|lia].
Qed.

(** The chunks a user of the cache sees, the most recently used first. *)
Definition contents (d : directory) : list (key * list Z) :=
  omap (λ k, n ← table d !! k; Some (k, data n)) (order d).*2.

(** C20: the cache keeps its accounts. On a cache whose nodes and bytes are
    counted right, a lookup returns the bytes stored under the key and leaves
    every key its bytes; it moves the key to the front of the list, the others
    keeping their order, or changes nothing when the key is not there.  An
    insertion of a new key stores its bytes at the front, evicts at most one
    chunk, the least recently used, and leaves the others their bytes and their
    order.  After both the bytes counted are those of the chunks held and within
    the budget. *)
Theorem chunk_cache_accounts k bytes valid d :
  exact d → contains k d = false → zlen bytes = chunk_size d → 0 < valid ≤ chunk_size d →
  (∀ k', exact (lookup k' d).2 ∧ option_map data (lookup k' d).1 = option_map data (table d !! k') ∧
     (∀ x, option_map data (table (lookup k' d).2 !! x) = option_map data (table d !! x)) ∧
     (is_Some (table d !! k') → (order (lookup k' d).2).*2 = k' :: filter (λ x, x ≠ k') (order d).*2) ∧
     (table d !! k' = None → (lookup k' d).2 = d)) ∧
  ∃ d', insert k bytes valid d = (true, d') ∧ exact d' ∧ used_bytes d' ≤ cache_size d' ∧
    (order d').*2 = k :: take (max_chunks d - 1) (order d).*2 ∧
    (length (order d) - length (take (max_chunks d - 1) (order d).*2) ≤ 1)%nat ∧
    (∀ x, option_map data (table d' !! x) =
       if decide (x = k) then Some bytes else if decide (x ∈ (order d').*2) then option_map data (table d !! x) else None) ∧
    option_map data (lookup k d').1 = Some bytes.
Proof.
  intros X Hk Hb Hv. split.
  - intros k'. split; [by apply lookup_exact|]. pose proof (lookup_order k' d X) as EO.
    destruct (lookup k' d) as [n d'] eqn:E. apply lookup_table in E. cbn [fst snd] in *.
    destruct n as [n|]; [|by destruct E as [-> ->]]. destruct E as (n0 & E0 & Ed & _ & ET). rewrite E0 in *. cbn.
    split_and!; [by rewrite Ed| |done|done]. intros x. rewrite ET. destruct (decide (x = k')) as [->|Hx].
    + rewrite lookup_insert_eq, E0. cbn. by rewrite Ed.
    + by rewrite lookup_insert_ne.
  - destruct (insert_exact k bytes valid d X Hk Hb Hv) as (d' & E & X' & EO & ET). exists d'.
    split_and!; [done|done|apply (ex_budget d' X')|done| |exact ET|].
    + rewrite length_take, length_fmap. pose proof (order_length d X). lia.
    + destruct (lookup k d') as [n d2] eqn:E2. apply lookup_table in E2. cbn [fst].
      specialize (ET k). rewrite decide_True in ET by done.
      destruct n as [n|].
      * destruct E2 as (n0 & E0 & Ed & _ & _). rewrite E0 in ET. cbn in *. by rewrite Ed.
      * destruct E2 as [E0 _]. by rewrite E0 in ET.
Qed.

(** Insertions of numbered chunks of two bytes, in a cache with room for four. *)
Definition insertions (ks : list Z) : directory :=
  foldl (λ d k, (insert (1, k) [k; k] 2 d).2) (new_directory 2 8) ks.

(** An insertion under a key that is already cached counts its bytes again, and
    the bytes are never given back: after two such insertions the cache holds
    two chunks instead of four, after three a single one. *)
Lemma reinsertion_shrinks :
  ((contents (insertions [0; 1; 2; 3; 4; 5])).*1 = [(1, 5); (1, 4); (1, 3); (1, 2)] ∧
   (contents (insertions [0; 1; 2; 3; 3; 3; 4; 5; 6; 7; 8])).*1 = [(1, 8); (1, 7)]) ∧
  (contents (insertions [0; 0; 0; 0; 1; 2; 3; 4])).*1 = [(1, 4)] ∧
  used_bytes (insertions [0; 0; 0; 0; 1; 2; 3; 4]) = 8 ∧ size (table (insertions [0; 0; 0; 0; 1; 2; 3; 4])) = 1%nat.
Proof. split_and!; by vm_compute. Qed.

(** The hypotheses at concrete data. *)
Lemma chunk_cache_accounts_witness :
  let d := insertions [0; 1; 2; 3] in
  exact d ∧ contains (1, 9) d = false ∧
  ∃ d', insert (1, 9) [7; 8] 2 d = (true, d') ∧ used_bytes d' = 8 ∧ (order d').*2 = [(1, 9); (1, 3); (1, 2); (1, 1)].
Proof.
  intros d. assert (exact d) as X.
  { apply insert_keeps; [apply insert_keeps; [apply insert_keeps; [apply insert_keeps; [by apply new_directory_exact|..]|..]|..]|..];
      by vm_compute. }
  split; [exact X|]. split; [by vm_compute|].
  destruct (chunk_cache_accounts (1, 9) [7; 8] 2 d X) as (_ & d' & E & _ & _ & EO & _); [by vm_compute|by vm_compute|by vm_compute|].
  exists d'. split; [exact E|]. split; [|rewrite EO; by vm_compute].
  assert (d' = (insert (1, 9) [7; 8] 2 d).2) as -> by by rewrite E. by vm_compute.
Defined.
