(* ===== verification/LibMemtier.v ===== *)
(** The data-supply library libmemtier (src/api.cpp, src/path_selector.cpp,
    src/posix_backend.cpp, src/gds_backend_stub.cpp and src/cuda_backend.cpp).

    A context keeps the options, the chunk cache and the counters; a read goes
    chunk by chunk and picks a path for each.  This file has the calls of one
    thread; file Requests has the request queue and its worker threads.
    GPUDirect Storage is the stub or the backend of file GdsBackend, whichever
    the build links. *)

From S2P Require Import Prelude PyText Posix LibTypes GdsBackend ChunkCache.

(** ** Path selection (src/path_selector.cpp) *)

Definition is_gds_available (o : options) : bool := enable_gds o.

Definition has_hint (o : options) (mask : Z) : bool := negb (Z.land (o_hints o) mask =? 0).

Definition is_request_gds_suitable (offset size : Z) (o : options) : bool :=
  if size <? gds_min_size o then false else
  if gds_alignment o =? 0 then false else
  if negb (offset `mod` gds_alignment o =? 0) || negb (size `mod` gds_alignment o =? 0) then false else
  negb (has_hint o (Z.lor (Z.lor HINT_REUSE HINT_SMALL_IO) HINT_RANDOM)).

Definition select_path (dram_hit_candidate : bool) (offset size : Z) (o : options) : lib_path :=
  if dram_hit_candidate && negb (bypass_cache o) then PATH_DRAM_HIT else
  if force_posix o then PATH_POSIX_READ_THEN_CACHE else
  let gds_suitable := is_request_gds_suitable offset size o
                      || has_hint o (Z.lor (Z.lor HINT_STREAMING HINT_CHECKPOINT) HINT_SEQUENTIAL) in
  if force_gds o then (if is_gds_available o && gds_suitable then PATH_GDS_READ else PATH_GDS_STUB_FALLBACK) else
  if is_gds_available o && gds_suitable then PATH_GDS_READ else
  if bypass_cache o || negb (enable_dram_cache o) then PATH_POSIX_READ else PATH_POSIX_READ_THEN_CACHE.

(** ** The context *)

(** [memtier_ctx_s]; [c_preads] and [c_cuda] count the calls of the system and
    of CUDA, and [c_gds] is what the GDS backend keeps. *)
Record ctx := {
  opts : options;
  cache : directory;
  stats : stat → Z;
  last_selected_path : Z;
  c_preads : nat;
  c_cuda : nat;
  c_gds : gds_state;
}.

Abbreviation CM := (SM ctx).

Definition set_cache (d : directory) (c : ctx) : ctx :=
  {| opts := opts c; cache := d; stats := stats c; last_selected_path := last_selected_path c; c_preads := c_preads c;
     c_cuda := c_cuda c; c_gds := c_gds c |}.

(** [ctx->stats.s += d]. *)
Definition add_stat (s : stat) (d : Z) (c : ctx) : ctx :=
  {| opts := opts c; cache := cache c; stats := λ s', if decide (s' = s) then wrap 64 (stats c s + d) else stats c s';
     last_selected_path := last_selected_path c; c_preads := c_preads c; c_cuda := c_cuda c;
     c_gds := c_gds c |}.

Definition set_preads (n : nat) (c : ctx) : ctx :=
  {| opts := opts c; cache := cache c; stats := stats c; last_selected_path := last_selected_path c; c_preads := n;
     c_cuda := c_cuda c; c_gds := c_gds c |}.

Definition tick_cuda (c : ctx) : ctx :=
  {| opts := opts c; cache := cache c; stats := stats c; last_selected_path := last_selected_path c;
     c_preads := c_preads c; c_cuda := S (c_cuda c); c_gds := c_gds c |}.

Definition set_gds (g : gds_state) (c : ctx) : ctx :=
  {| opts := opts c; cache := cache c; stats := stats c; last_selected_path := last_selected_path c;
     c_preads := c_preads c; c_cuda := c_cuda c; c_gds := g |}.

Definition on_selected (p : lib_path) (c : ctx) : ctx :=
  let c := {| opts := opts c; cache := cache c; stats := stats c; last_selected_path := lib_path_code p;
              c_preads := c_preads c; c_cuda := c_cuda c;
     c_gds := c_gds c |} in
  match p with
  | PATH_GDS_READ | PATH_GDS_STUB_FALLBACK => add_stat selected_gds 1 c
  | PATH_DRAM_HIT | PATH_POSIX_READ_THEN_CACHE => add_stat selected_cache 1 c
  | PATH_POSIX_READ => add_stat selected_posix 1 c
  end.

(** What the library gets from the platform: the hash of a canonical path, the
    CUDA runtime, and cuFile where the build found it.  [std::filesystem::weakly_canonical]
    looks the path up in the file system at every read; its answers are those of
    a file system whose names do not change meanwhile, and what it asks of the
    system is not counted in [c_preads]. *)
Class Platform := {
  file_id_from_path : str → Z;
  memtier_cuda_available : bool;
  cuda_success : nat → bool;
  (** [new (std::nothrow) memtier_ctx_s] returned memory. *)
  context_allocated : bool;
  gds_library : option CuFile;
}.

(** Two paths with one hash have the same contents: no collision of
    [std::hash], and a path names one file. *)
Definition ids_sound `{PX : Posix, PF : Platform} : Prop :=
  ∀ p q, file_id_from_path p = file_id_from_path q → file_at p = file_at q.

(** [std::vector<uint8_t> buf(n)], filled from the front. *)
Definition buffer (n : Z) (bytes : list Z) : list Z := bytes ++ py_repeat (n - zlen bytes) 0.

Section Api.
  Context {PX : Posix} {PF : Platform}.

  (** [fuel] bounds the system calls of one read. *)
Definition posix_pread_full (fuel : nat) (path : str) (offset size : Z) : CM (Z * list Z) := λ c,
    match file_at path with
    | None => Some (Ok (MEMTIER_ERR_IO, []), c)
    | Some file =>
        match pread_loop fuel file (to_off_t offset) size [] (c_preads c) with
        | Some (_, ReadFailed, calls) => Some (Ok (MEMTIER_ERR_IO, []), set_preads calls c)
        | Some (content, _, calls) => Some (Ok (MEMTIER_OK, content), set_preads calls c)
        | None => None
        end
    end.

  (** src/gds_backend_stub.cpp. *)
Definition stub_gds_read (fuel : nat) (path : str) (offset size : Z) : CM (Z * list Z) :=
    o ← gets opts;
    if negb (enable_gds o) then mret (MEMTIER_ERR_UNSUPPORTED, []) else
    if negb (gds_stub_success o) then mret (MEMTIER_ERR_GDS, []) else
    posix_pread_full fuel path offset size.

  (** An operation of the cuFile backend. *)
Definition on_gds {A} (m : GM A) : CM A := λ c,
    match m (c_gds c) with Some (r, g) => Some (r, set_gds g c) | None => None end.

  (** [memtier_gds_read] of the backend that is linked. *)
Definition memtier_gds_read (fuel : nat) (path : str) (offset size : Z) : CM (Z * list Z) :=
    match gds_library with
    | None => stub_gds_read fuel path offset size
    | Some cufile => o ← gets opts; on_gds (cufile_gds_read (CF := cufile) o path offset size)
    end.

  (** src/cuda_backend.cpp: the copy and the synchronisation. *)
Definition memtier_cuda_call : CM Z := λ c,
    Some (Ok (if cuda_success (c_cuda c) then MEMTIER_OK else MEMTIER_ERR_CUDA), tick_cuda c).

Definition cache_lookup (k : key) : CM (option node) := λ c,
    let '(n, d) := lookup k (cache c) in Some (Ok n, set_cache d c).

Definition cache_insert (k : key) (bytes : list Z) (valid : Z) : CM unit :=
    modify (λ c, set_cache (insert k bytes valid (cache c)).2 c).

  (** The closure [copy_target]. *)
Definition copy_target (gpu : bool) : CM Z :=
    if negb gpu then mret MEMTIER_OK else
    rc ← memtier_cuda_call;
    if negb (rc =? MEMTIER_OK) then mret MEMTIER_ERR_CUDA else
    o ← gets opts;
    if async_mode o then mret MEMTIER_OK else
    rc ← memtier_cuda_call;
    mret (if negb (rc =? MEMTIER_OK) then MEMTIER_ERR_CUDA else MEMTIER_OK).

  (** [copy_target(bytes)], then [rest] if it succeeded. *)
Definition deliver (gpu : bool) (bytes : list Z) (rest : CM unit) : CM (Z * list Z) :=
    rc ← copy_target gpu;
    if negb (rc =? MEMTIER_OK) then mret (rc, []) else
    _ ← rest;
    mret (MEMTIER_OK, bytes).

Definition serve_cached (ce : option node) (in_chunk need : Z) (gpu : bool) : CM (Z * list Z) :=
    match ce with
    | Some n =>
        deliver gpu (py_slice (data n) in_chunk (in_chunk + need))
          (modify (λ c, add_stat dram_bytes_served need (add_stat dram_hits 1 c)))
    | None => λ _, None
    end.

Definition read_gds (fuel : nat) (path : str) (cur need : Z) (gpu : bool) : CM (Z * list Z) :=
    '(rc, bytes) ← memtier_gds_read fuel path cur need;
    if rc =? MEMTIER_OK then deliver gpu (buffer need bytes) (modify (add_stat gds_reads 1)) else
    '(rc, bytes) ← posix_pread_full fuel path cur need;
    if negb (rc =? MEMTIER_OK) then mret (rc, []) else
    if zlen bytes <? need then mret (MEMTIER_ERR_IO, []) else
    deliver gpu bytes
      (modify (λ c, add_stat ssd_bytes_read (zlen bytes) (add_stat posix_reads 1 (add_stat gds_fallbacks 1 c)))).

Definition read_posix (fuel : nat) (path : str) (k : key) (chunk in_chunk cur need : Z) (caching gpu : bool)
    : CM (Z * list Z) :=
    let roff := if caching then wrap 64 (k.2 * chunk) else cur in
    let rsz := if caching then chunk else need in
    '(rc, bytes) ← posix_pread_full fuel path roff rsz;
    if negb (rc =? MEMTIER_OK) then mret (rc, []) else
    let src_off := if caching then in_chunk else 0 in
    if zlen bytes <? src_off + need then mret (MEMTIER_ERR_IO, []) else
    deliver gpu (py_slice bytes src_off (src_off + need))
      (o ← gets opts;
       _ ← (if caching && cache_admit o then cache_insert k (buffer rsz bytes) (zlen bytes) else mret ());
       modify (λ c, add_stat ssd_bytes_read (zlen bytes) (add_stat posix_reads 1 (add_stat dram_misses 1 c)))).

  (** The body of the loop of [do_read_impl]: the code, and the bytes copied. *)
Definition read_piece (fuel : nat) (path : str) (fid cur remaining : Z) (gpu : bool) : CM (Z * list Z) :=
    o ← gets opts;
    let chunk := o_chunk_size o in
    let in_chunk := cur `mod` chunk in
    let need := Z.min (chunk - in_chunk) remaining in
    let k := (fid, cur `div` chunk) in
    ce ← cache_lookup k;
    let hit := match ce with Some n => in_chunk + need <=? valid_size n | None => false end in
    let p := select_path hit cur need o in
    _ ← modify (on_selected p);
    match p with
    | PATH_DRAM_HIT => serve_cached ce in_chunk need gpu
    | PATH_GDS_READ | PATH_GDS_STUB_FALLBACK => read_gds fuel path cur need gpu
    | PATH_POSIX_READ_THEN_CACHE => read_posix fuel path k chunk in_chunk cur need true gpu
    | PATH_POSIX_READ => read_posix fuel path k chunk in_chunk cur need false gpu
    end.

  (** The loop; [out] is what has been copied to the destination. A turn copies
      at least one byte, so [size] turns are enough. *)
Fixpoint read_loop (turns fuel : nat) (path : str) (fid offset size : Z) (gpu : bool) (out : list Z) : CM (Z * list Z) :=
    if size <=? zlen out then (_ ← modify (add_stat total_requests 1); mret (MEMTIER_OK, out)) else
    match turns with
    | O => λ _, None
    | S turns =>
        '(rc, bytes) ← read_piece fuel path fid (wrap 64 (offset + zlen out)) (size - zlen out) gpu;
        if negb (rc =? MEMTIER_OK) then mret (rc, out) else
        read_loop turns fuel path fid offset size gpu (out ++ bytes)
    end.

Definition do_read_impl (fuel : nat) (path : str) (offset size : Z) (gpu : bool) : CM (Z * list Z) :=
    if size =? 0 then mret (MEMTIER_ERR_INVALID, []) else
    if gpu && negb memtier_cuda_available then mret (MEMTIER_ERR_UNSUPPORTED, []) else
    read_loop (Z.to_nat size) fuel path (file_id_from_path path) offset size gpu [].

Definition memtier_read (fuel : nat) (path : str) (offset size : Z) (gpu : bool) : CM (Z * list Z) :=
    do_read_impl fuel path offset size gpu.

  (** [memtier_prefetch] with the options' target and [async] flag. *)
Definition prefetch_chunk (fuel : nat) (path : str) (k : key) (chunk : Z) : CM Z :=
    present ← gets (λ c, contains k (cache c));
    if present : bool then mret MEMTIER_OK else
    '(rc, bytes) ← posix_pread_full fuel path (wrap 64 (k.2 * chunk)) chunk;
    if negb (rc =? MEMTIER_OK) then mret rc else
    _ ← cache_insert k (buffer chunk bytes) (zlen bytes);
    _ ← modify (λ c, add_stat ssd_bytes_read (zlen bytes) (add_stat posix_reads 1 (add_stat prefetch_bytes (zlen bytes) c)));
    mret MEMTIER_OK.

Fixpoint prefetch_loop (turns fuel : nat) (path : str) (fid offset size done : Z) : CM Z :=
    if size <=? done then (_ ← modify (add_stat prefetch_requests 1); mret MEMTIER_OK) else
    match turns with
    | O => λ _, None
    | S turns =>
        o ← gets opts;
        let chunk := o_chunk_size o in
        let cur := wrap 64 (offset + done) in
        rc ← prefetch_chunk fuel path (fid, cur `div` chunk) chunk;
        if negb (rc =? MEMTIER_OK) then mret rc else
        prefetch_loop turns fuel path fid offset size (done + Z.min (chunk - cur `mod` chunk) (size - done))
    end.

Definition memtier_prefetch (fuel : nat) (path : str) (offset size : Z) (to_hbm async : bool) : CM Z :=
    if size =? 0 then mret MEMTIER_ERR_INVALID else
    if to_hbm then mret MEMTIER_ERR_UNSUPPORTED else
    if async then mret MEMTIER_ERR_UNSUPPORTED else
    prefetch_loop (Z.to_nat size) fuel path (file_id_from_path path) offset size 0.
End Api.

(** *** memtier_init *)

Definition default_options : options :=
  {| o_chunk_size := 2 ^ 20; o_dram_cache_size := 2 ^ 26; enable_dram_cache := true; cache_admit := true;
     bypass_cache := false; force_gds := false; force_posix := false; enable_gds := false; gds_stub_success := true;
     gds_min_size := 2 ^ 20; gds_alignment := 4096; o_hints := 0; async_mode := false; num_workers := 4;
     coalesce_gap := 2 ^ 16; max_coalesce_size := 2 ^ 20; preferred_device_id := 0 |}.

Definition if_zero (x d : Z) : Z := if x =? 0 then d else x.

(** The zero fields replaced by their defaults. *)
Definition normalise (o : options) : options :=
  {| o_chunk_size := if_zero (o_chunk_size o) (2 ^ 20); o_dram_cache_size := if_zero (o_dram_cache_size o) (2 ^ 26);
     enable_dram_cache := enable_dram_cache o; cache_admit := cache_admit o; bypass_cache := bypass_cache o;
     force_gds := force_gds o; force_posix := force_posix o; enable_gds := enable_gds o;
     gds_stub_success := gds_stub_success o; gds_min_size := if_zero (gds_min_size o) (2 ^ 20);
     gds_alignment := if_zero (gds_alignment o) 4096; o_hints := o_hints o; async_mode := async_mode o;
     num_workers := if num_workers o <=? 0 then 4 else num_workers o; coalesce_gap := if_zero (coalesce_gap o) (2 ^ 16);
     max_coalesce_size := if_zero (max_coalesce_size o) (2 ^ 20); preferred_device_id := preferred_device_id o |}.

(** [memtier_init]: the context made, [None] being the null options. *)
Definition memtier_init (o : option options) : ctx :=
  let o := normalise (default default_options o) in
  {| opts := o; cache := new_directory (o_chunk_size o) (o_dram_cache_size o); stats := λ _, 0; last_selected_path := 0;
     c_preads := 0; c_cuda := 0; c_gds := gds_initial |}.

(** Its code and the context it stores. *)
Definition memtier_init_call `{PF : Platform} (o : option options) : Z * option ctx :=
  if context_allocated then (MEMTIER_OK, Some (memtier_init o)) else (MEMTIER_ERR_NOMEM, None).

(** [memtier_strerror]. *)
Definition memtier_strerror (e : Z) : str :=
  if e =? MEMTIER_OK then u "ok" else if e =? MEMTIER_ERR_INVALID then u "invalid" else
  if e =? MEMTIER_ERR_IO then u "io" else if e =? MEMTIER_ERR_NOMEM then u "nomem" else
  if e =? MEMTIER_ERR_UNSUPPORTED then u "unsupported" else if e =? MEMTIER_ERR_GDS then u "gds error" else
  if e =? MEMTIER_ERR_CUDA then u "cuda error" else u "internal".

(** ** The cache holds what the files hold *)

(** The entry of a chunk: the bytes of the file that fall in it, all valid. *)
Definition chunk_of `{PX : Posix, PF : Platform} (chunk : Z) (k : key) (bytes : list Z) (valid : Z) : Prop :=
  ∃ path file, file_id_from_path path = k.1 ∧ file_at path = Some file ∧ 0 ≤ k.2 ∧
    valid = Z.min chunk (zlen file - k.2 * chunk) ∧ 0 < valid ∧
    py_slice bytes 0 valid = py_slice file (k.2 * chunk) (k.2 * chunk + valid).

Record coherent `{PX : Posix, PF : Platform} (c : ctx) : Prop := {
  co_chunk : 0 < o_chunk_size (opts c);
  co_size : chunk_size (cache c) = o_chunk_size (opts c);
  co_holds : holds (chunk_of (o_chunk_size (opts c))) (cache c);
  co_align : gds_alignment (opts c) ≠ 0;
  co_gds : gds_wf (c_gds c);
}.

Lemma memtier_init_coherent `{PX : Posix, PF : Platform} o :
  0 ≤ o_chunk_size (default default_options o) → coherent (memtier_init o).
Proof.
  intros Ho. constructor; cbn [memtier_init opts cache normalise o_chunk_size new_directory chunk_size
    gds_alignment c_gds]; [|done|done| |apply gds_initial_wf]; unfold if_zero.
  - destruct (Z.eqb_spec (o_chunk_size (default default_options o)) 0); lia.
  - by destruct (Z.eqb_spec (gds_alignment (default default_options o)) 0).
Qed.

(** [buffer] keeps what was read. *)
Lemma buffer_slice n bytes v : v = zlen bytes → py_slice (buffer n bytes) 0 v = bytes.
Proof. intros ->. rewrite py_slice_nonneg by lia. unfold buffer. rewrite drop_0, take_app_le by lia. apply take_ge. lia. Qed.

(** The part of a request that falls in one chunk. *)
Lemma piece_bounds chunk cur remaining :
  0 < chunk → 0 ≤ cur → 0 < remaining →
  let in_chunk := cur `mod` chunk in let start := cur `div` chunk * chunk in
  0 ≤ in_chunk < chunk ∧ 0 < Z.min (chunk - in_chunk) remaining ≤ chunk ∧ cur = start + in_chunk ∧ 0 ≤ start ∧
  0 ≤ cur `div` chunk.
Proof.
  intros Hp Hc Hr. pose proof (Z.mod_pos_bound cur chunk Hp). pose proof (Z.div_mod cur chunk ltac:(lia)).
  pose proof (Z.div_pos cur chunk Hc Hp). cbv zeta. nia.
Qed.

Section Reading.
Context {PX : Posix} {PF : Platform}.
Variables (B fuel : nat) (path : str) (file : list Z) (o : options) (gpu : bool).
Hypothesis reliable : os_reliable B.
Hypothesis sound : ids_sound.
Hypothesis contents : file_at path = Some file.
Hypothesis chunk_pos : 0 < o_chunk_size o.
Hypothesis enough : o_chunk_size o * Z.of_nat B ≤ Z.of_nat fuel.
Hypothesis cuda : gpu = true → ∀ n, cuda_success n = true.

Abbreviation chunk := (o_chunk_size o).

(** The context between two steps of the read. *)
Definition steady (c : ctx) : Prop := opts c = o ∧ coherent c.

Abbreviation run m Q := (sm_spec steady m (λ r c, Q r ∧ steady c) (λ _, False)).

Lemma steady_frame c c' : opts c' = opts c → cache c' = cache c → c_gds c' = c_gds c → steady c → steady c'.
Proof. intros E1 E2 E3 [Eo [H1 H2 H3 H4 H5]]. split; [congruence|]. constructor; rewrite ?E1, ?E2, ?E3; done. Qed.

Lemma spec_bind_run {A C} (m : CM A) (f : A → CM C) (P : A → Prop) (Q : C → Prop) :
  run m P → (∀ a, P a → run (f a) Q) → run (m ≫= f) Q.
Proof.
  intros Hm Hf. eapply spec_bind; [exact Hm|]. intros a c [Ha Hc]. by apply Hf.
Qed.

Lemma spec_weaken {A} (m : CM A) (P Q : A → Prop) : run m P → (∀ a, P a → Q a) → run m Q.
Proof. intros Hm HPQ. eapply spec_conseq; [exact Hm|done| |done]. intros a c [Ha Hc]. auto. Qed.

Lemma spec_modify_run f (Q : unit → Prop) : Q () → (∀ c, steady c → steady (f c)) → run (modify f) Q.
Proof. intros HQ Hf. apply spec_modify. auto. Qed.

Lemma spec_ret_run {A} (a : A) (Q : A → Prop) : Q a → run (mret a) Q.
Proof. intros HQ. apply spec_ret. auto. Qed.

Lemma spec_gets_run {A} (f : ctx → A) (Q : A → Prop) : (∀ c, steady c → Q (f c)) → run (gets f) Q.
Proof. intros HQ. apply spec_gets. auto. Qed.

Lemma spec_opts : run (gets opts) (λ x, x = o).
Proof. apply spec_gets_run. by intros c [Hc _]. Qed.

Lemma spec_stat (f : ctx → ctx) :
  (∀ c, opts (f c) = opts c) → (∀ c, cache (f c) = cache c) → (∀ c, c_gds (f c) = c_gds c) → run (modify f) (λ _, True).
Proof. intros H1 H2 H3. apply spec_modify_run; [done|]. intros c. by apply steady_frame. Qed.

Lemma spec_pread off size :
  0 ≤ off < 2 ^ 63 → 0 < size ≤ chunk →
  run (posix_pread_full fuel path off size) (λ r, r = (MEMTIER_OK, py_slice file off (off + size))).
Proof.
  intros Ho Hs c Hc. unfold posix_pread_full. rewrite contents, to_off_t_small by lia.
  destruct (pread_loop_reads B file off size reliable ltac:(lia) fuel (c_preads c) ltac:(lia) ltac:(nia)) as (calls & ->).
  unfold read_outcome_of. cbv iota beta.
  destruct (_ <=? _); (eexists _, _; split; [reflexivity|]; split; [done|by apply (steady_frame c)]).
Qed.

Lemma spec_copy : run (copy_target gpu) (λ rc, rc = MEMTIER_OK).
Proof.
  unfold copy_target. destruct gpu eqn:Eg; cbn [negb]; [|by apply spec_ret_run].
  assert (run memtier_cuda_call (λ rc, rc = MEMTIER_OK)) as Hcall.
  { intros c Hc. unfold memtier_cuda_call. rewrite (cuda eq_refl). eexists _, _. split; [reflexivity|]. split; [done|].
    by apply (steady_frame c). }
  eapply spec_bind_run; [exact Hcall|]. intros rc ->. cbn.
  eapply spec_bind_run; [apply spec_opts|]. intros o' ->. destruct (async_mode o); [by apply spec_ret_run|].
  eapply spec_bind_run; [exact Hcall|]. intros rc ->. by apply spec_ret_run.
Qed.

Lemma spec_deliver bytes rest : run rest (λ _, True) → run (deliver gpu bytes rest) (λ r, r = (MEMTIER_OK, bytes)).
Proof.
  intros Hr. unfold deliver. eapply spec_bind_run; [apply spec_copy|]. intros rc ->. cbn.
  eapply spec_bind_run; [exact Hr|]. intros _ _. by apply spec_ret_run.
Qed.

Lemma spec_cache_lookup k :
  run (cache_lookup k) (λ ce, match ce with Some n => chunk_of chunk k (data n) (valid_size n) | None => True end).
Proof.
  intros c Hc. unfold cache_lookup. destruct (lookup k (cache c)) as [n d] eqn:E.
  eexists _, _. split; [reflexivity|]. destruct Hc as [Eo [H1 H2 H3 H4 H5]].
  pose proof (lookup_holds _ k _ H3) as Hh. pose proof (lookup_sizes k (cache c)) as [Es _]. rewrite E in Hh, Es. cbn [snd] in *.
  split.
  - destruct n as [n|]; [|done]. apply lookup_table in E as (n0 & E0 & _ & _ & ET). specialize (Hh k n).
    rewrite Eo in Hh. apply Hh. by rewrite ET, lookup_insert_eq.
  - split; [done|]. constructor; cbn [opts cache set_cache]; [done|congruence|done|done|done].
Qed.

Lemma spec_on_selected p : run (modify (on_selected p)) (λ _, True).
Proof. apply spec_modify_run; [done|]. intros c. by apply steady_frame; destruct p. Qed.

(** What a turn of the loop gives. *)
Definition piece_ok (cur need : Z) (r : Z * list Z) : Prop :=
  (cur + need ≤ zlen file → r = (MEMTIER_OK, py_slice file cur (cur + need))) ∧
  (zlen file < cur + need → enable_gds o = false → r = (MEMTIER_ERR_IO, [])).

Section Piece.
Variables (cur remaining : Z).
Hypothesis cur_nonneg : 0 ≤ cur.
Hypothesis remaining_pos : 0 < remaining.
Hypothesis inside : cur + remaining ≤ 2 ^ 63.

Abbreviation in_chunk := (cur `mod` chunk).
Abbreviation need := (Z.min (chunk - in_chunk) remaining).
Abbreviation start := (cur `div` chunk * chunk).
Abbreviation k := (file_id_from_path path, cur `div` chunk).

Lemma steady_insert bytes c :
  bytes = py_slice file start (start + chunk) → steady c →
  steady (set_cache (insert k (buffer chunk bytes) (zlen bytes) (cache c)).2 c).
Proof.
  destruct (piece_bounds chunk cur remaining chunk_pos cur_nonneg remaining_pos) as (Hi & Hn & Ec & Hs & Hd). intros Eb [Eo [H1 H2 H3 H4 H5]]. split; [done|].
  constructor; cbn [opts cache set_cache c_gds]; [done|by rewrite (proj1 (insert_sizes _ _ _ _))| |done|done].
  apply insert_holds; [done| |lia]. intros Hv. exists path, file.
  assert (zlen bytes = Z.max 0 (Z.min (start + chunk) (zlen file) - start)) as El by (rewrite Eb; apply length_py_slice; lia).
  split_and!; [done|done|done|cbn [snd]; rewrite Eo; lia|lia|].
  rewrite buffer_slice by done. cbn [snd]. rewrite Eo. destruct (decide (start + chunk ≤ zlen file)).
  - replace (zlen bytes) with chunk by lia. done.
  - rewrite Eb at 1. rewrite !py_slice_nonneg by lia. rewrite !take_ge; [done|rewrite length_drop; lia..].
Qed.

Lemma spec_read_posix caching :
  run (read_posix fuel path k chunk in_chunk cur need caching gpu) (piece_ok cur need).
Proof.
  destruct (piece_bounds chunk cur remaining chunk_pos cur_nonneg remaining_pos) as (Hi & Hn & Ec & Hs & Hd). unfold read_posix. cbv zeta. cbn [snd].
  assert (start < 2 ^ 63) by lia. rewrite (wrap_small 64) by (unfold in_width; lia).
  set (roff := if caching then start else cur). set (rsz := if caching then chunk else need).
  set (src := if caching then in_chunk else 0).
  assert (0 ≤ roff < 2 ^ 63 ∧ 0 < rsz ≤ chunk ∧ 0 ≤ src ∧ src + need ≤ rsz ∧ cur = roff + src) as (Hro & Hrs & Hsrc & Hsz & Ecur).
  { unfold roff, rsz, src. destruct caching; lia. }
  eapply spec_bind_run; [by apply spec_pread|]. intros r ->. cbn [negb Z.eqb MEMTIER_OK].
  set (bytes := py_slice file roff (roff + rsz)).
  assert (zlen bytes = Z.max 0 (Z.min (roff + rsz) (zlen file) - roff)) as El by (apply length_py_slice; lia).
  destruct (Z.ltb_spec (zlen bytes) (src + need)) as [Hshort|Hfull].
  - apply spec_ret_run. split; [lia|done].
  - eapply spec_weaken.
    + apply spec_deliver. eapply spec_bind_run; [apply spec_opts|]. intros o' ->.
      eapply spec_bind_run with (P := λ _, True); [|intros; by apply spec_stat].
      destruct caching; [|by apply spec_ret_run]. cbn [andb]. destruct (cache_admit o); [|by apply spec_ret_run].
      apply spec_modify_run; [done|]. intros c. by apply steady_insert.
    + intros r ->. split; [|lia]. intros _. f_equal. unfold bytes.
      rewrite py_slice_slice by lia. f_equal; lia.
Qed.

Lemma spec_gds_read off size :
  0 ≤ off < 2 ^ 63 → 0 < size ≤ chunk →
  run (memtier_gds_read fuel path off size)
    (λ r, r.1 ≠ MEMTIER_OK ∨ enable_gds o = true ∧ r = (MEMTIER_OK, py_slice file off (off + size))).
Proof.
  intros Ho Hs. unfold memtier_gds_read. destruct gds_library as [cufile|]; (eapply spec_bind_run; [apply spec_opts|]); intros o' ->.
  { intros c Hc. pose proof Hc as [Eo [H1 H2 H3 H4 H5]].
    destruct (cufile_read_spec o path off size (c_gds c) H5) as (r & g' & E & W & _ & _ & HA); [congruence|lia|lia|].
    exists (Ok r), (set_gds g' c). unfold on_gds. rewrite E. split; [done|]. split; [|split; [done|by constructor]].
    destruct r as [rc bytes]. destruct HA as [(Hrc & Hg & f & Ef & Hb & _)|[[[= -> ->] _]|[[= -> ->] _]]]; cbn [fst snd] in *; [|by left..].
    right. split; [done|]. by simplify_eq. }
  destruct (enable_gds o) eqn:Eg; cbn [negb]; [|by apply spec_ret_run; left].
  destruct (gds_stub_success o); cbn [negb]; [|by apply spec_ret_run; left].
  eapply spec_weaken; [by apply spec_pread|]. intros r ->. auto.
Qed.

Lemma spec_read_gds : run (read_gds fuel path cur need gpu) (piece_ok cur need).
Proof.
  destruct (piece_bounds chunk cur remaining chunk_pos cur_nonneg remaining_pos) as (Hi & Hn & Ec & Hs & Hd). unfold read_gds.
  assert (zlen (py_slice file cur (cur + need)) = Z.max 0 (Z.min (cur + need) (zlen file) - cur)) as El by (apply length_py_slice; lia).
  eapply spec_bind_run; [apply spec_gds_read; lia|].
  intros [rc bytes] [Hrc|[Eg [= -> ->]]]; cbn [fst] in *.
  - rewrite (proj2 (Z.eqb_neq rc _)) by done.
    eapply spec_bind_run; [apply spec_pread; lia|]. intros r ->. cbn [negb Z.eqb MEMTIER_OK].
    destruct (Z.ltb_spec (zlen (py_slice file cur (cur + need))) need).
    + apply spec_ret_run. split; [lia|done].
    + eapply spec_weaken; [apply spec_deliver; by apply spec_stat|]. intros r ->. split; [done|lia].
  - cbn [Z.eqb MEMTIER_OK]. eapply spec_weaken; [apply spec_deliver; by apply spec_stat|].
    intros r ->. split; [|congruence]. intros Hin. f_equal. unfold buffer.
    replace (need - _) with 0 by lia. by rewrite app_nil_r.
Qed.

(** A cached chunk holds the bytes of a piece it covers. *)
Lemma cached_bytes n :
  chunk_of chunk k (data n) (valid_size n) → in_chunk + need ≤ valid_size n →
  piece_ok cur need (MEMTIER_OK, py_slice (data n) in_chunk (in_chunk + need)).
Proof.
  destruct (piece_bounds chunk cur remaining chunk_pos cur_nonneg remaining_pos) as (Hi & Hn & Ec & Hs & Hd). intros (q & f & Eq & Ef & Hk & Ev & Hv & Eb) Hin.
  rewrite (sound q path) in Ef by done. assert (f = file) as -> by congruence. cbn [snd] in *.
  split; [|lia]. intros _. f_equal.
  pose proof (py_slice_slice (data n) 0 (valid_size n) in_chunk (in_chunk + need) ltac:(lia) ltac:(lia) ltac:(lia)) as Es.
  rewrite !Z.add_0_l, Eb, py_slice_slice in Es by lia. rewrite <-Es. f_equal; lia.
Qed.

Lemma spec_serve_cached n :
  chunk_of chunk k (data n) (valid_size n) → in_chunk + need ≤ valid_size n →
  run (serve_cached (Some n) in_chunk need gpu) (piece_ok cur need).
Proof.
  intros Hk Hin. eapply spec_weaken; [apply spec_deliver; by apply spec_stat|]. intros r ->. by apply cached_bytes.
Qed.

Lemma select_path_hit cur' need' : select_path false cur' need' o ≠ PATH_DRAM_HIT.
Proof. unfold select_path. cbn [andb]. by repeat case_match. Qed.

Lemma spec_read_piece : run (read_piece fuel path (file_id_from_path path) cur remaining gpu) (piece_ok cur need).
Proof.
  unfold read_piece. eapply spec_bind_run; [apply spec_opts|]. intros o' ->. cbv zeta.
  eapply spec_bind_run; [apply spec_cache_lookup|]. intros ce Hce. eapply spec_bind_run; [apply spec_on_selected|]. intros _ _.
  set (hit := match ce with Some n => _ | None => false end).
  destruct (select_path hit cur need o) eqn:E; [|apply spec_read_posix..|apply spec_read_gds|apply spec_read_gds].
  destruct hit eqn:Eh; [|by apply select_path_hit in E]. destruct ce as [n|]; [|done].
  apply spec_serve_cached; [done|by apply Z.leb_le].
Qed.
End Piece.

Lemma spec_read_loop offset size turns out :
  0 ≤ offset → 0 < size → offset + size ≤ 2 ^ 63 → (offset + size ≤ zlen file ∨ enable_gds o = false) →
  size - zlen out ≤ Z.of_nat turns → zlen out ≤ size → out = py_slice file offset (offset + zlen out) →
  run (read_loop turns fuel path (file_id_from_path path) offset size gpu out)
    (λ r, (offset + size ≤ zlen file → r = (MEMTIER_OK, py_slice file offset (offset + size))) ∧
          (zlen file < offset + size → r.1 = MEMTIER_ERR_IO)).
Proof.
  intros Ho Hs Hin Hgds. revert out; induction turns as [|turns IH]; intros out Ht Hle Eout; cbn [read_loop].
  all: assert (zlen out = Z.max 0 (Z.min (offset + zlen out) (zlen file) - offset)) as El
    by (rewrite Eout at 1; apply length_py_slice; lia).
  all: destruct (Z.leb_spec size (zlen out)) as [Hd|Hd]; [|try lia].
  1,2: eapply spec_bind_run; [by apply spec_stat|]; intros _ _; apply spec_ret_run;
    assert (zlen out = size) as Ez by lia; split; [intros _; by rewrite Eout, Ez|lia].
  rewrite (wrap_small 64) by (unfold in_width; lia).
  destruct (piece_bounds chunk (offset + zlen out) (size - zlen out) chunk_pos ltac:(lia) ltac:(lia)) as (Hi & Hn & Ec & Hst & Hdv).
  remember (offset + zlen out) as cur eqn:Ecur. remember (size - zlen out) as remaining eqn:Erem.
  eapply spec_bind_run; [apply (spec_read_piece cur remaining); lia|].
  set (need := Z.min (chunk - cur `mod` chunk) remaining) in *.
  intros r [Hok Herr]. destruct (Z.le_gt_cases (cur + need) (zlen file)) as [Hfit|Hout].
  - rewrite Hok by done. cbn [negb Z.eqb MEMTIER_OK].
    assert (out ++ py_slice file cur (cur + need) = py_slice file offset (cur + need)) as Eo.
    { rewrite Eout at 1. apply py_slice_app; lia. }
    assert (zlen (out ++ py_slice file cur (cur + need)) = zlen out + need) as Ez
      by (rewrite length_app, Nat2Z.inj_add, length_py_slice; lia).
    apply IH; [lia|lia|]. rewrite Ez, Eo. f_equal. lia.
  - rewrite Herr; [|done|by destruct Hgds; [lia|]]. cbn. apply spec_ret_run. split; [lia|done].
Qed.
End Reading.

(** *** A file that cannot be opened *)

Section Missing.
Context {PX : Posix} {PF : Platform}.
Variables (o : options) (fuel : nat) (path : str).
Hypothesis sound : ids_sound.
Hypothesis missing : file_at path = None.
Hypothesis chunk_pos : 0 < o_chunk_size o.

Abbreviation run m Q := (sm_spec (steady o) m (λ r c, Q r ∧ steady o c) (λ _, False)).

Lemma spec_missing_pread off size : run (posix_pread_full fuel path off size) (λ r, r = (MEMTIER_ERR_IO, [])).
Proof. intros c Hc. unfold posix_pread_full. rewrite missing. by eexists _, _. Qed.

Lemma missing_lookup cid c : coherent c → lookup (file_id_from_path path, cid) (cache c) = (None, cache c).
Proof.
  intros [_ _ H _ _]. unfold lookup. destruct (table (cache c) !! _) as [n|] eqn:E; [|done].
  destruct (H _ _ E) as (q & f & Eq & Ef & _). cbn in Eq. rewrite (sound q path) in Ef by done. congruence.
Qed.

Lemma spec_missing_lookup cid : run (cache_lookup (file_id_from_path path, cid)) (λ ce, ce = None).
Proof.
  intros c Hc. unfold cache_lookup. rewrite missing_lookup by apply Hc. eexists _, _. split; [reflexivity|]. split; [done|].
  by apply (steady_frame o c).
Qed.

Lemma spec_missing_gds off size : 0 ≤ off → 0 ≤ size → run (memtier_gds_read fuel path off size) (λ r, r.1 ≠ MEMTIER_OK).
Proof.
  intros Ho Hs. unfold memtier_gds_read. destruct gds_library as [cufile|];
    [|unfold stub_gds_read]; (eapply spec_bind_run; [apply spec_opts|]); intros o' ->.
  - intros c [Eo [H1 H2 H3 H4 H5]].
    destruct (cufile_read_spec o path off size (c_gds c) H5) as (r & g' & E & W & _ & _ & HA); [congruence|done..|].
    exists (Ok r), (set_gds g' c). unfold on_gds. rewrite E. split; [done|]. split; [|split; [done|by constructor]].
    destruct HA as [(_ & _ & f & Ef & _)|[[-> _]|[-> _]]]; [congruence|done..].
  - destruct (enable_gds o); cbn [negb]; [|by apply spec_ret_run]. destruct (gds_stub_success o); cbn [negb]; [|by apply spec_ret_run].
    eapply spec_weaken; [apply spec_missing_pread|]. by intros r ->.
Qed.

Lemma spec_missing_piece cur remaining gpu :
  0 ≤ cur → 0 < remaining →
  run (read_piece fuel path (file_id_from_path path) cur remaining gpu) (λ r, r = (MEMTIER_ERR_IO, [])).
Proof.
  intros Hc Hr. pose proof (Z.mod_pos_bound cur (o_chunk_size o) chunk_pos). unfold read_piece.
  eapply spec_bind_run; [apply spec_opts|]. intros o' ->. cbv zeta.
  eapply spec_bind_run; [apply spec_missing_lookup|]. intros ce ->. eapply spec_bind_run; [apply spec_on_selected|]. intros _ _.
  destruct (select_path false _ _ o) eqn:E; [by apply select_path_hit in E|..].
  1,2: unfold read_posix; cbv zeta; eapply spec_bind_run; [apply spec_missing_pread|]; intros r ->; by apply spec_ret_run.
  all: unfold read_gds; eapply spec_bind_run; [apply spec_missing_gds; lia|]; intros [rc bytes] Hrc; cbn [fst] in Hrc;
    rewrite (proj2 (Z.eqb_neq rc _)) by done; eapply spec_bind_run; [apply spec_missing_pread|]; intros r ->; by apply spec_ret_run.
Qed.
End Missing.

Lemma missing_read `{PX : Posix, PF : Platform} fuel path offset size c :
  ids_sound → file_at path = None → coherent c → 0 < size →
  ∃ c', memtier_read fuel path offset size false c = Some (Ok (MEMTIER_ERR_IO, []), c') ∧ coherent c' ∧ opts c' = opts c.
Proof.
  intros Hid Hf Hc Hs. unfold memtier_read, do_read_impl. rewrite (proj2 (Z.eqb_neq size 0)) by lia. cbn [andb].
  destruct (Z.to_nat size) as [|turns] eqn:Et; [lia|]. cbn [read_loop].
  rewrite (proj2 (Z.leb_gt size (zlen (@nil Z)))) by (cbn; lia). pose proof (wrap_in_width 64 (offset + zlen (@nil Z)) ltac:(lia)) as [Hw _].
  destruct (spec_missing_piece (opts c) fuel path Hid Hf (co_chunk c Hc) (wrap 64 (offset + zlen (@nil Z))) (size - zlen (@nil Z)) false
    Hw ltac:(cbn; lia) c) as ([r|e] & c' & E & H); [done| |done].
  destruct H as [-> [Eo Hc']]. exists c'. split; [|done]. eapply sm_step; [exact E|]. reflexivity.
Qed.

(** *** The read *)

Lemma read_spec `{PX : Posix, PF : Platform} B fuel path file offset size gpu c :
  coherent c → ids_sound → os_reliable B → file_at path = Some file →
  o_chunk_size (opts c) * Z.of_nat B ≤ Z.of_nat fuel →
  0 ≤ offset → 0 < size → offset + size ≤ 2 ^ 63 → (offset + size ≤ zlen file ∨ enable_gds (opts c) = false) →
  (gpu = true → memtier_cuda_available = true ∧ ∀ n, cuda_success n = true) →
  ∃ rc out c', memtier_read fuel path offset size gpu c = Some (Ok (rc, out), c') ∧ coherent c' ∧ opts c' = opts c ∧
    (offset + size ≤ zlen file → rc = MEMTIER_OK ∧ out = py_slice file offset (offset + size)) ∧
    (zlen file < offset + size → rc = MEMTIER_ERR_IO).
Proof.
  intros Hc Hid HB Hf Hfuel Ho Hs Hin Hg Hgpu. unfold memtier_read, do_read_impl. rewrite (proj2 (Z.eqb_neq size 0)) by lia.
  assert (gpu && negb memtier_cuda_available = false) as ->.
  { destruct gpu; [|done]. by destruct (Hgpu eq_refl) as [-> _]. }
  destruct (spec_read_loop B fuel path file (opts c) gpu HB Hid Hf (co_chunk c Hc) Hfuel ltac:(by intros E; apply Hgpu in E as [_ ?])
    offset size (Z.to_nat size) []) with (s := c) as (r & c' & E & H); [done|done|done|done|cbn; lia|cbn; lia| |done|].
  { rewrite py_slice_nonneg by (cbn; lia). by replace (Z.to_nat _) with 0%nat by (cbn; lia). }
  destruct r as [[rc out]|e]; [|done]. destruct H as [[Hok Herr] [Eo Hc']]. exists rc, out, c'. split_and!; [done..| |].
  - intros Hle. specialize (Hok Hle). by injection Hok as -> ->.
  - intros Hlt. by apply Herr in Hlt.
Qed.

(** C2: a read returns the bytes of the file. For any options, on a context
    whose cache agrees with the files (as the context [memtier_init] makes does,
    and every read leaves it), and with a system that only interrupts reads and
    cuts them short, a read inside the file succeeds and copies exactly the
    bytes asked for, whichever path each chunk takes, cache, POSIX or GDS, in
    CPU or GPU memory; without GDS a read past the end of the file fails with
    an I/O error, as does, with or without GDS, one of a file that does not
    open. *)
Theorem read_returns_file_bytes `{PX : Posix, PF : Platform} B fuel path offset size gpu c :
  coherent c → ids_sound → os_reliable B → o_chunk_size (opts c) * Z.of_nat B ≤ Z.of_nat fuel →
  0 ≤ offset → 0 < size → offset + size ≤ 2 ^ 63 →
  (gpu = true → memtier_cuda_available = true ∧ ∀ n, cuda_success n = true) →
  match file_at path with
  | Some file =>
      offset + size ≤ zlen file ∨ enable_gds (opts c) = false →
      ∃ rc out c', memtier_read fuel path offset size gpu c = Some (Ok (rc, out), c') ∧ coherent c' ∧
        if offset + size <=? zlen file then rc = MEMTIER_OK ∧ out = py_slice file offset (offset + size)
        else rc = MEMTIER_ERR_IO
  | None => gpu = false → ∃ c', memtier_read fuel path offset size gpu c = Some (Ok (MEMTIER_ERR_IO, []), c') ∧ coherent c'
  end.
Proof.
  intros Hc Hid HB Hfuel Ho Hs Hin Hgpu. destruct (file_at path) as [file|] eqn:Ef.
  - intros Hg. destruct (read_spec B fuel path file offset size gpu c) as (rc & out & c' & E & Hc' & _ & Hok & Herr); [done..|].
    exists rc, out, c'. split_and!; [done|done|]. destruct (Z.leb_spec (offset + size) (zlen file)); [by apply Hok|by apply Herr].
  - intros ->. destruct (missing_read fuel path offset size c Hid Ef Hc Hs) as (c' & E & Hc' & _). by exists c'.
Qed.

(** *** A concrete platform *)

(** A system with one file of ten bytes, read three bytes at a time. *)
#[program] Definition ten_bytes : Posix := {|
  file_at path := if decide (path = u "f") then Some (seqZ 0 10) else None;
  os_pread n size off len := if off <? 0 then ReadError else Got (Z.max 0 (Z.min 3 (Z.min len (size - off))));
  os_close _ := true;
|}.
Next Obligation. intros n size off len k Ho Hl. cbv beta. case_match; [done|]. intros [= <-]. lia. Qed.
Next Obligation. intros n size off len k Ho Hl. cbv beta. case_match; [done|]. intros [= <-]. lia. Qed.
Next Obligation. intros n size off len Ho. cbv beta. by rewrite (proj2 (Z.ltb_lt off 0)). Qed.

Lemma ten_bytes_reliable : @os_reliable ten_bytes 1.
Proof.
  split.
  - intros n size off len Ho. unfold os_pread, ten_bytes. by rewrite (proj2 (Z.ltb_ge off 0)).
  - intros n. exists n. split; [lia|]. intros size off len. unfold os_pread, ten_bytes. by case_match.
Qed.

Definition cpu_only : Platform :=
  {| file_id_from_path path := if decide (path = u "f") then 1 else 0; memtier_cuda_available := false;
     cuda_success _ := false; context_allocated := true; gds_library := None |}.

Lemma cpu_only_sound : @ids_sound ten_bytes cpu_only.
Proof.
  intros p q. unfold file_id_from_path, file_at, cpu_only, ten_bytes. by destruct (decide (p = u "f")), (decide (q = u "f")).
Qed.

(** Chunks of four bytes, in a cache of three. *)
Definition small_options (gds force bypass : bool) : options :=
  {| o_chunk_size := 4; o_dram_cache_size := 12; enable_dram_cache := true; cache_admit := true; bypass_cache := bypass;
     force_gds := false; force_posix := force; enable_gds := gds; gds_stub_success := true; gds_min_size := 1;
     gds_alignment := 1; o_hints := 0; async_mode := false; num_workers := 1; coalesce_gap := 0; max_coalesce_size := 0;
     preferred_device_id := 0 |}.

(** The GDS path does not look at the number of bytes the stub read: past the
    end of the file the destination gets zeros and the read succeeds, where the
    POSIX path reports an I/O error. *)
Lemma gds_read_past_end_succeeds :
  let _ := ten_bytes in let _ := cpu_only in
  option_map fst (memtier_read 9 (u "f") 8 4 false (memtier_init (Some (small_options true false false))))
    = Some (Ok (MEMTIER_OK, [8; 9; 0; 0])) ∧
  option_map fst (memtier_read 9 (u "f") 8 4 false (memtier_init (Some (small_options false false false))))
    = Some (Ok (MEMTIER_ERR_IO, [])).
Proof. split; by vm_compute. Qed.

(** The cuFile backend refuses a short read, and the fallback reports it. *)
Definition with_cufile : Platform :=
  {| file_id_from_path path := if decide (path = u "f") then 1 else 0; memtier_cuda_available := false;
     cuda_success _ := false; context_allocated := true; gds_library := Some reference_cufile |}.

Lemma cufile_read_past_end_fails :
  let _ := ten_bytes in let _ := with_cufile in
  option_map fst (memtier_read 9 (u "f") 8 4 false (memtier_init (Some (small_options true false false))))
    = Some (Ok (MEMTIER_ERR_IO, [])).
Proof. by vm_compute. Qed.

(** [force_posix] goes through the cache even when it is to be bypassed: the
    chunk is inserted again by every read, and counted every time. *)
Lemma bypassed_reads_fill_cache :
  let _ := ten_bytes in let _ := cpu_only in
  let c := memtier_init (Some (small_options false true true)) in
  (p ← memtier_read 9 (u "f") 0 4 false c; p ← memtier_read 9 (u "f") 0 4 false p.2;
   Some (used_bytes (cache p.2), size (table (cache p.2)))) = Some (8, 1%nat).
Proof. by vm_compute. Qed.

Section Witnesses.
#[local] Existing Instance ten_bytes.
#[local] Existing Instance cpu_only.

Definition small_ctx : ctx := memtier_init (Some (small_options false false false)).

Lemma small_coherent : coherent small_ctx.
Proof. by apply memtier_init_coherent. Qed.

Lemma read_returns_file_bytes_witness :
  (∃ c', memtier_read 9 (u "f") 2 7 false small_ctx = Some (Ok (MEMTIER_OK, [2; 3; 4; 5; 6; 7; 8]), c')) ∧
  (∃ out c', memtier_read 9 (u "f") 2 9 false small_ctx = Some (Ok (MEMTIER_ERR_IO, out), c')).
Proof.
  pose proof (read_returns_file_bytes 1 9 (u "f") 2 7 false small_ctx small_coherent cpu_only_sound ten_bytes_reliable) as H1.
  pose proof (read_returns_file_bytes 1 9 (u "f") 2 9 false small_ctx small_coherent cpu_only_sound ten_bytes_reliable) as H2.
  assert (file_at (u "f") = Some (seqZ 0 10)) as Ef by by vm_compute. rewrite Ef in H1, H2.
  split.
  - destruct H1 as (rc & out & c' & -> & _ & -> & ->); [by vm_compute|lia|lia|lia|done|by right|]. by eexists.
  - destruct H2 as (rc & out & c' & -> & _ & ->); [by vm_compute|lia|lia|lia|done|by right|]. by do 2 eexists.
Defined.
End Witnesses.
