(* ===== verification/ReadCache.v ===== *)
(** What the chunk cache does for the reads of libmemtier (src/api.cpp:
    [do_read_impl] with [memtier::CacheDirectory]): after a read the chunks of
    its range are cached, and the same read is served from memory. *)

From S2P Require Import Prelude PyText Posix LibTypes GdsBackend ChunkCache LibMemtier.

(** The options under which a miss is read through the cache. *)
Definition caching_options (o : options) : bool :=
  negb (bypass_cache o) && cache_admit o
  && (force_posix o || negb (force_gds o) && negb (enable_gds o) && enable_dram_cache o).

Lemma caching_select o hit cur need :
  caching_options o = true → select_path hit cur need o = if hit then PATH_DRAM_HIT else PATH_POSIX_READ_THEN_CACHE.
Proof.
  unfold caching_options, select_path, is_gds_available. destruct (bypass_cache o), (cache_admit o); try done.
  destruct hit; [done|]. cbn [andb negb]. destruct (force_posix o); [done|].
  destruct (force_gds o), (enable_gds o), (enable_dram_cache o); done.
Qed.

Section Warm.
Context {PX : Posix} {PF : Platform}.
Variables (B fuel : nat) (path : str) (file : list Z) (o : options).
Hypothesis reliable : os_reliable B.
Hypothesis sound : ids_sound.
Hypothesis contents : file_at path = Some file.
Hypothesis chunk_pos : 0 < o_chunk_size o.
Hypothesis enough : o_chunk_size o * Z.of_nat B ≤ Z.of_nat fuel.
Hypothesis caching : caching_options o = true.

Abbreviation chunk := (o_chunk_size o).
Abbreviation steady := (steady o).

Lemma no_gpu : false = true → ∀ n, cuda_success n = true.
Proof. done. Qed.

(** A turn of the loop: a cached chunk is touched, another one inserted. *)
Lemma piece_run cur remaining c :
  steady c → 0 ≤ cur → 0 < remaining → cur + remaining ≤ 2 ^ 63 →
  let need := Z.min (chunk - cur `mod` chunk) remaining in
  let k := (file_id_from_path path, cur `div` chunk) in
  let bytes := py_slice file (k.2 * chunk) (k.2 * chunk + chunk) in
  cur + need ≤ zlen file →
  ∃ c', read_piece fuel path (file_id_from_path path) cur remaining false c
          = Some (Ok (MEMTIER_OK, py_slice file cur (cur + need)), c') ∧ steady c' ∧
    match table (cache c) !! k with
    | Some _ => cache c' = (lookup k (cache c)).2 ∧ c_preads c' = c_preads c ∧
                stats c' ssd_bytes_read = stats c ssd_bytes_read
    | None => cache c' = (insert k (buffer chunk bytes) (zlen bytes) (cache c)).2
    end.
Proof.
  intros Hc Hcur Hrem Hin need k bytes Hfit.
  destruct (spec_read_piece B fuel path file o false reliable sound contents chunk_pos enough no_gpu cur remaining
    Hcur Hrem Hin c Hc) as (r & c' & E & Hr). destruct r as [r|]; [|done]. destruct Hr as [[Hok _] Hc'].
  specialize (Hok Hfit). subst r. exists c'. split_and!; [exact E|exact Hc'|].
  destruct (piece_bounds chunk cur remaining chunk_pos Hcur Hrem) as (Hi & Hn & Ec & Hs & Hd). fold need in Hn.
  revert E. unfold read_piece, cache_lookup. destruct Hc as [Eo [H1 H2 H3 H4 H5]].
  unfold mbind at 1, sm_bind at 1, gets at 1. cbv beta iota zeta. rewrite Eo. fold k need.
  unfold mbind at 1, sm_bind at 1. cbv beta iota.
  unfold lookup. destruct (table (cache c) !! k) as [n0|] eqn:En.
  - cbn [touch]. set (n := {| data := data n0 |}). set (d := {| chunk_size := chunk_size (cache c) |}).
    destruct (H3 k n0 En) as (q & f & Eq & Ef & _ & Ev & _ & _). cbn [k snd fst] in *.
    rewrite (sound q path) in Ef by done. assert (f = file) as -> by congruence. rewrite Eo in Ev.
    cbn [valid_size n]. rewrite (proj2 (Z.leb_le _ _)) by lia. rewrite caching_select by done.
    unfold mbind, sm_bind, modify, serve_cached, deliver, copy_target. cbn [negb Z.eqb MEMTIER_OK mret sm_ret].
    unfold mbind, sm_bind, mret, sm_ret. cbn. intros [= _ <-]. done.
  - rewrite caching_select by done.
    unfold mbind, sm_bind, modify. cbv beta iota. unfold read_posix. cbv zeta. cbn [snd k].
    assert (cur `div` chunk * chunk < 2 ^ 63) by lia. rewrite (wrap_small 64) by (unfold in_width; lia).
    unfold mbind, sm_bind. set (c1 := on_selected _ _).
    destruct (spec_pread B fuel path file o reliable contents enough (cur `div` chunk * chunk) chunk) with (s := c1)
      as (r & c2 & E2 & Hr2); [lia|lia| |].
    { apply (steady_frame o c); [done|done|done|]. by split; [|constructor]. }
    rewrite E2. destruct r as [r|]; [|done]. destruct Hr2 as [-> Hc2]. fold k. fold bytes. cbn [negb Z.eqb MEMTIER_OK].
    unfold posix_pread_full in E2. rewrite contents in E2. destruct (pread_loop _ _ _ _ _ _) as [[[? st] calls]|]; [|done].
    assert (opts c2 = o ∧ cache c2 = cache c) as [Eo2 Ec2].
    { assert (c2 = set_preads calls c1) as -> by (destruct st; congruence). done. }
    destruct (_ <? _); [by intros [= _ <-]|].
    unfold deliver, copy_target, mbind, sm_bind, gets, modify, cache_insert. cbn [negb mret sm_ret].
    unfold mret, sm_ret. cbn [negb Z.eqb MEMTIER_OK]. rewrite Eo2.
    assert (cache_admit o = true) as Ea by (unfold caching_options in caching; by destruct (bypass_cache o), (cache_admit o)).
    rewrite Ea. cbn. intros [= _ <-]. cbn. by rewrite Ec2.
Qed.

(** *** Walking over the chunks of a range *)

Section Walk.
Variables (offset size : Z) (J : nat → ctx → Prop).
Hypothesis offset_nonneg : 0 ≤ offset.
Hypothesis size_pos : 0 < size.
Hypothesis addressable : offset + size ≤ 2 ^ 63.

Abbreviation first := (offset `div` chunk).
(** The number of chunks of the range. *)
Abbreviation spanned := (Z.to_nat ((offset + size - 1) `div` chunk - first + 1)).

Hypothesis J_step : ∀ j cur remaining c,
  J j c → offset ≤ cur → 0 < remaining → cur + remaining = offset + size →
  cur `div` chunk = first + Z.of_nat j → (j < spanned)%nat →
  ∃ c', read_piece fuel path (file_id_from_path path) cur remaining false c =
      Some (Ok (MEMTIER_OK, py_slice file cur (cur + Z.min (chunk - cur `mod` chunk) remaining)), c') ∧ J (S j) c'.
Hypothesis J_done : ∀ j c, J j c → J j (add_stat total_requests 1 c).
Hypothesis in_file : offset + size ≤ zlen file.

Lemma walk_loop turns out j c :
  out = py_slice file offset (offset + zlen out) → zlen out < size → size - zlen out ≤ Z.of_nat turns →
  (offset + zlen out) `div` chunk = first + Z.of_nat j → J j c →
  ∃ c', read_loop turns fuel path (file_id_from_path path) offset size false out c
          = Some (Ok (MEMTIER_OK, py_slice file offset (offset + size)), c') ∧ J spanned c'.
Proof.
  clear enough reliable B. revert out j c.
  induction turns as [|turns IH]; intros out j c Eout Hlt Ht Hj HJ; [lia|]. cbn [read_loop].
  rewrite (proj2 (Z.leb_gt _ _)) by lia. rewrite (wrap_small 64) by (unfold in_width; lia).
  destruct (piece_bounds chunk (offset + zlen out) (size - zlen out) chunk_pos ltac:(lia) ltac:(lia)) as (Hi & Hn & Ec & Hst & Hdv).
  remember (offset + zlen out) as cur eqn:Ecur. remember (size - zlen out) as remaining eqn:Erem.
  set (need := Z.min (chunk - cur `mod` chunk) remaining) in *.
  assert (cur `div` chunk ≤ (offset + size - 1) `div` chunk) as Hlast by (apply Z.div_le_mono; lia).
  destruct (J_step j cur remaining c HJ ltac:(lia) ltac:(lia) ltac:(lia) Hj ltac:(lia)) as (c1 & E1 & HJ1). fold need in E1.
  unfold mbind, sm_bind. rewrite E1. cbn [negb Z.eqb MEMTIER_OK].
  assert (out ++ py_slice file cur (cur + need) = py_slice file offset (cur + need)) as Eo.
  { rewrite Eout at 1. apply py_slice_app; lia. }
  assert (zlen (out ++ py_slice file cur (cur + need)) = zlen out + need) as Ez
    by (rewrite length_app, Nat2Z.inj_add, length_py_slice; lia).
  destruct (decide (need = remaining)) as [Hd|Hd].
  - exists (add_stat total_requests 1 c1). split.
    + rewrite Eo in *. replace (cur + need) with (offset + size) in * by lia.
      destruct turns; cbn [read_loop]; rewrite Ez, (proj2 (Z.leb_le _ _)) by lia; reflexivity.
    + replace spanned with (S j); [by apply J_done|].
      assert ((offset + size - 1) `div` chunk = cur `div` chunk) as ->; [|lia].
      symmetry. apply (Z.div_unique _ _ _ (cur `mod` chunk + need - 1)); lia.
  - apply (IH _ (S j)); [by rewrite Ez, Eo; f_equal; lia|lia|lia| |done].
    rewrite Ez. replace (offset + (zlen out + need)) with ((cur `div` chunk + 1) * chunk) by lia.
    rewrite Z.div_mul by lia. lia.
Qed.

Lemma walk_read c :
  J 0 c → ∃ c', memtier_read fuel path offset size false c
                  = Some (Ok (MEMTIER_OK, py_slice file offset (offset + size)), c') ∧ J spanned c'.
Proof.
  clear enough reliable B. intros HJ. unfold memtier_read, do_read_impl. rewrite (proj2 (Z.eqb_neq size 0)) by lia.
  cbn [andb]. apply (walk_loop _ [] 0); [|cbn; lia|cbn; lia| |done].
  - rewrite py_slice_nonneg by (cbn; lia). by replace (Z.to_nat _) with 0%nat by (cbn; lia).
  - cbn. by rewrite !Z.add_0_r.
Qed.
End Walk.

(** *** Filling the cache *)

Abbreviation fid := (file_id_from_path path).

(** The first [j] chunks of a range, the last one first. *)
Fixpoint walked (first : Z) (j : nat) : list key :=
  match j with O => [] | S j => (fid, first + Z.of_nat j) :: walked first j end.

Lemma walked_length first j : length (walked first j) = j.
Proof. induction j as [|j IH]; [done|]. cbn. by rewrite IH. Qed.

Lemma walked_elem first j i : (fid, i) ∈ walked first j ↔ first ≤ i < first + Z.of_nat j.
Proof.
  induction j as [|j IH]; cbn [walked].
  - rewrite elem_of_nil. lia.
  - rewrite elem_of_cons, IH. split; [intros [[= ->]|]; lia|]. intros H.
    destruct (decide (i = first + Z.of_nat j)) as [->|]; [by left|right; lia].
Qed.

(** The chunks walked over are at the front of the cache's list. *)
Record warm (first : Z) (room : nat) (j : nat) (c : ctx) : Prop := {
  wa_steady : steady c;
  wa_exact : exact (cache c);
  wa_room : max_chunks (cache c) = room;
  wa_front : walked first j `prefix_of` (order (cache c)).*2;
}.

Lemma filter_prefix (k : key) l r : l `prefix_of` r → k ∉ l → l `prefix_of` filter (λ x, x ≠ k) r.
Proof.
  intros [t ->] Hk. rewrite filter_app, (filter_all _ l); [by eexists|].
  apply Forall_forall. by intros x Hx ->.
Qed.

Lemma take_prefix (l r : list key) n : l `prefix_of` r → (length l ≤ n)%nat → l `prefix_of` take n r.
Proof. intros [t ->] Hl. rewrite take_app_ge by done. by eexists. Qed.

Lemma warm_step first room j cur remaining c :
  warm first room j c → 0 ≤ cur → 0 < remaining → cur + remaining ≤ 2 ^ 63 → cur + remaining ≤ zlen file →
  cur `div` chunk = first + Z.of_nat j → (j < room)%nat →
  ∃ c', read_piece fuel path fid cur remaining false c =
      Some (Ok (MEMTIER_OK, py_slice file cur (cur + Z.min (chunk - cur `mod` chunk) remaining)), c') ∧
    warm first room (S j) c'.
Proof.
  intros [Hc X Hroom Hf] Hcur Hrem Hin Hfile Hj Hlt.
  destruct (piece_bounds chunk cur remaining chunk_pos Hcur Hrem) as (Hi & Hn & Ec & Hst & Hdv).
  destruct (piece_run cur remaining c Hc Hcur Hrem Hin ltac:(lia)) as (c' & E & Hc' & HC). exists c'. split; [exact E|].
  rewrite Hj in HC. set (k := (fid, first + Z.of_nat j)) in *. cbn [snd] in HC.
  assert (k ∉ walked first j) as Hk by (unfold k; rewrite walked_elem; lia).
  destruct (table (cache c) !! k) as [n|] eqn:Et.
  - destruct HC as (Ec' & _). assert (is_Some (table (cache c) !! k)) as Hs by eauto.
    split; rewrite ?Ec'; [done|by apply lookup_exact| |].
    + unfold max_chunks in *. by destruct (lookup_sizes k (cache c)) as [-> ->].
    + rewrite lookup_order by done. cbn [walked]. fold k. apply prefix_cons, filter_prefix; [done|done].
  - set (bytes := py_slice file _ _) in HC. destruct Hc as [Eo [H1 H2 H3]]. rewrite Eo in H2.
    assert (zlen bytes = Z.max 0 (Z.min (cur `div` chunk * chunk + chunk) (zlen file) - cur `div` chunk * chunk)) as El.
    { unfold bytes. assert (k.2 = cur `div` chunk) as -> by (cbn; lia). apply length_py_slice; lia. }
    assert (zlen (buffer chunk bytes) = chunk) as Elb.
    { unfold buffer, py_repeat. rewrite length_app, length_replicate. lia. }
    destruct (insert_exact k (buffer chunk bytes) (zlen bytes) (cache c) X) as (d' & E' & X' & EO & _).
    + unfold contains. by rewrite Et.
    + by rewrite Elb.
    + rewrite H2. lia.
    + pose proof (insert_sizes k (buffer chunk bytes) (zlen bytes) (cache c)) as Hsz. rewrite E' in HC, Hsz. cbn [snd] in HC, Hsz.
      split; rewrite ?HC; [done|done| |].
      * unfold max_chunks in *. by destruct Hsz as [-> ->].
      * rewrite EO. cbn [walked]. fold k. apply prefix_cons, take_prefix; [done|]. rewrite walked_length. lia.
Qed.

Lemma warm_done first room j c : warm first room j c → warm first room j (add_stat total_requests 1 c).
Proof. intros [H1 H2 H3 H4]. split; [|done..]. by apply (steady_frame o c). Qed.

(** *** Reading from the cache *)

(** The chunks walked over are cached; nothing has been read from files. *)
Record hot (first : Z) (total : nat) (calls : nat) (bytes : Z) (c : ctx) : Prop := {
  ho_steady : steady c;
  ho_cached : ∀ k, k ∈ walked first total → is_Some (table (cache c) !! k);
  ho_calls : c_preads c = calls;
  ho_bytes : stats c ssd_bytes_read = bytes;
}.

Lemma warm_hot first room total c :
  warm first room total c → hot first total (c_preads c) (stats c ssd_bytes_read) c.
Proof.
  intros [H1 X H3 Hf]. split; [done| |done|done]. intros k Hk. apply (order_table (cache c) X).
  destruct Hf as [t ->]. apply elem_of_app. by left.
Qed.

Lemma hot_step first total calls b cur remaining c j :
  hot first total calls b c → 0 ≤ cur → 0 < remaining → cur + remaining ≤ 2 ^ 63 → cur + remaining ≤ zlen file →
  cur `div` chunk = first + Z.of_nat j → (j < total)%nat →
  ∃ c', read_piece fuel path fid cur remaining false c =
      Some (Ok (MEMTIER_OK, py_slice file cur (cur + Z.min (chunk - cur `mod` chunk) remaining)), c') ∧
    hot first total calls b c'.
Proof.
  intros [Hc Hk Hp Hb] Hcur Hrem Hin Hfile Hj Hlt.
  destruct (piece_bounds chunk cur remaining chunk_pos Hcur Hrem) as (Hi & Hn & Ec & Hst & Hdv).
  destruct (piece_run cur remaining c Hc Hcur Hrem Hin ltac:(lia)) as (c' & E & Hc' & HC). exists c'. split; [exact E|].
  rewrite Hj in HC. set (k := (fid, first + Z.of_nat j)) in *.
  destruct (Hk k) as [n En]; [unfold k; apply walked_elem; lia|]. rewrite En in HC. destruct HC as (Ed & Ep & Es).
  split; [done| |congruence|congruence]. intros k' Hk'. rewrite Ed.
  destruct (lookup k (cache c)) as [n' d] eqn:El. apply lookup_table in El. cbn [snd].
  destruct n' as [n'|]; [|destruct El as [_ ->]; by apply Hk]. destruct El as (? & _ & _ & _ & ->).
  destruct (decide (k' = k)) as [->|]; [rewrite lookup_insert_eq; by eexists|]. rewrite lookup_insert_ne by done. by apply Hk.
Qed.

Lemma hot_done first total calls b c :
  hot first total calls b c → hot first total calls b (add_stat total_requests 1 c).
Proof. intros [H1 H2 H3 H4]. split; [|done..]. by apply (steady_frame o c). Qed.
End Warm.

(** C3: the second read of a range is served from memory. When misses are read
    through the cache, the cache agrees with the files and keeps its accounts,
    and the range lies in the file and spans no more chunks than the cache
    holds, then the read and the same read after it both succeed with the bytes
    of the file, and the second calls pread for nothing: the calls and the bytes
    read from the SSD are those after the first, whatever the cache held before.
    (It still resolves the path, as every read does.) *)
Theorem repeated_read_is_cached `{PX : Posix, PF : Platform} B fuel path file offset size c :
  coherent c → exact (cache c) → ids_sound → os_reliable B → file_at path = Some file →
  let chunk := o_chunk_size (opts c) in
  chunk * Z.of_nat B ≤ Z.of_nat fuel → caching_options (opts c) = true →
  0 ≤ offset → 0 < size → offset + size ≤ 2 ^ 63 → offset + size ≤ zlen file →
  (offset + size - 1) `div` chunk - offset `div` chunk + 1 ≤ Z.of_nat (max_chunks (cache c)) →
  ∃ c1 c2, memtier_read fuel path offset size false c = Some (Ok (MEMTIER_OK, py_slice file offset (offset + size)), c1) ∧
    memtier_read fuel path offset size false c1 = Some (Ok (MEMTIER_OK, py_slice file offset (offset + size)), c2) ∧
    c_preads c2 = c_preads c1 ∧ stats c2 ssd_bytes_read = stats c1 ssd_bytes_read.
Proof.
  intros Hc X Hid HB Hf chunk Hfuel Hcache Ho Hs Hin Hfile Hroom.
  set (first := offset `div` chunk). set (total := Z.to_nat ((offset + size - 1) `div` chunk - first + 1)).
  pose proof (co_chunk c Hc) as Hp.
  destruct (walk_read fuel path file (opts c) Hp offset size (warm path (opts c) first (max_chunks (cache c)))) with (c := c)
    as (c1 & E1 & W); [lia|lia|lia| | |lia| |].
  - intros j cur remaining c0 W Hge Hr Hend Hd Hj. apply (warm_step B fuel path file (opts c)); [done..|lia|lia|lia|lia|done|].
    fold chunk in Hj. lia.
  - intros j c0 W. by apply warm_done.
  - split; [by split|done|done|]. by eexists.
  - fold chunk first total in W. pose proof (warm_hot path (opts c) first (max_chunks (cache c)) total c1 W) as Hh.
    destruct (walk_read fuel path file (opts c) Hp offset size
      (λ _, hot path (opts c) first total (c_preads c1) (stats c1 ssd_bytes_read))) with (c := c1)
      as (c2 & E2 & [_ _ Hcalls Hbytes]); [lia|lia|lia| | |lia|done|].
    + intros j cur remaining c0 W0 Hge Hr Hend Hd Hj.
      apply (hot_step B fuel path file (opts c)) with (j := j); [done..|lia|lia|lia|lia|done|done].
    + intros j c0 W0. by apply hot_done.
    + by exists c1, c2.
Qed.

Section Witnesses.
#[local] Existing Instance ten_bytes.
#[local] Existing Instance cpu_only.

Lemma repeated_read_is_cached_witness :
  ∃ c1 c2, memtier_read 9 (u "f") 1 8 false small_ctx = Some (Ok (MEMTIER_OK, seqZ 1 8), c1) ∧
    memtier_read 9 (u "f") 1 8 false c1 = Some (Ok (MEMTIER_OK, seqZ 1 8), c2) ∧
    stats c1 ssd_bytes_read = 10 ∧ stats c2 ssd_bytes_read = 10.
Proof.
  destruct (repeated_read_is_cached 1 9 (u "f") (seqZ 0 10) 1 8 small_ctx small_coherent) as (c1 & c2 & E1 & E2 & _ & Es);
    [by apply new_directory_exact|exact cpu_only_sound|exact ten_bytes_reliable|by vm_compute|by vm_compute|by vm_compute|lia|lia
    |lia|by vm_compute|by vm_compute|].
  assert (py_slice (seqZ 0 10) 1 (1 + 8) = seqZ 1 8) as Eb by by vm_compute. rewrite Eb in E1, E2.
  exists c1, c2. split; [exact E1|]. split; [exact E2|]. rewrite Es.
  assert (option_map (λ r, stats r.2 ssd_bytes_read) (memtier_read 9 (u "f") 1 8 false small_ctx) = Some 10) as H by by vm_compute.
  rewrite E1 in H. apply (inj Some) in H. split; exact H.
Defined.
End Witnesses.
