(* ===== verification/ReadV.v ===== *)
(** Scattered reads: [memtier_readv] of src/api.cpp, and the object interface
    over it and over [memtier_read] (src/object_chunks.cpp,
    src/object_tensor.cpp).

    [memtier_readv] sorts the ranges by path and offset, reads neighbours that
    lie within [coalesce_gap] of each other in one request of at most
    [max_coalesce_size] bytes, and copies each range out of the bytes read to
    its destination.  [readv_returns_ranges] shows that this gives every
    destination the bytes of its range, however the ranges are cut, ordered or
    overlap, and bounds what is read in excess; [adjacent_ranges_one_read]
    shows that adjacent ranges are one request, in whatever order they are
    given. *)

From stdpp Require Import sorting.
From S2P Require Import Prelude PyText Posix LibTypes GdsBackend ChunkCache LibMemtier.

(** ** [std::sort] *)

(** The order of elements that compare equal is not specified. *)
Class StdSort := {
  std_sort {A} : (A → A → bool) → list A → list A;
  std_sort_perm {A} (lt : A → A → bool) l : std_sort lt l ≡ₚ l;
  (** For a strict weak order. *)
  std_sort_sorted {A} (lt : A → A → bool) l :
    (∀ x y, lt x y = true → lt y x = false) → (∀ x y z, lt y x = false → lt z y = false → lt z x = false) →
    StronglySorted (λ x y, lt y x = false) (std_sort lt l);
}.

(** ** The ranges *)

(** [memtier_range_t]: the path may be the null pointer. *)
Record range := { rg_path : option str; rg_offset : Z; rg_size : Z }.

(** The local [struct Item]. *)
Record item := { it_path : str; it_off : Z; it_size : Z; it_dst : Z }.

(** [operator<] of [std::string]. *)
Fixpoint string_lt (a b : str) : bool :=
  match a, b with
  | _, [] => false
  | [], _ :: _ => true
  | x :: a, y :: b => (x <? y) || (x =? y) && string_lt a b
  end.

(** The comparison given to [std::sort]. *)
Definition item_lt (a b : item) : bool :=
  if decide (it_path a = it_path b) then it_off a <? it_off b else string_lt (it_path a) (it_path b).

(** The loop that checks the ranges; 0 is the null pointer. *)
Definition range_item (rd : range * Z) : option item :=
  match rg_path rd.1 with
  | None => None
  | Some path =>
      if (rd.2 =? 0) || (rg_size rd.1 =? 0) then None
      else Some {| it_path := path; it_off := rg_offset rd.1; it_size := rg_size rd.1; it_dst := rd.2 |}
  end.

(** The inner loop: the items [j] up to the first that is not read together
    with those before it, the bytes to read, and the items left. *)
Fixpoint coalesce (gap max : Z) (path : str) (base total : Z) (items : list item) : list item * Z * list item :=
  match items with
  | it :: rest =>
      let prev_end := wrap 64 (base + total) in
      let joined := wrap 64 (it_off it + it_size it - base) in
      if bool_decide (it_path it = path) && (prev_end <=? it_off it) && (it_off it - prev_end <=? gap) && (joined <=? max)
      then let '(group, total, rest) := coalesce gap max path base joined rest in (it :: group, total, rest)
      else ([], total, items)
  | [] => ([], total, [])
  end.

(** ** The request *)

(** A destination and the bytes written to it, in the order of the writes. *)
Abbreviation writes := (list (Z * list Z)).

Section Api.
  Context {PX : Posix} {PF : Platform} {SO : StdSort}.

  (** The loop over a group: the copies to the destinations. *)
Fixpoint scatter (gpu : bool) (base : Z) (tmp : list Z) (group : list item) (out : writes) : CM (Z * writes) :=
    match group with
    | [] => mret (MEMTIER_OK, out)
    | it :: group =>
        let off := wrap 64 (it_off it - base) in
        rc ← copy_target gpu;
        if negb (rc =? MEMTIER_OK) then mret (MEMTIER_ERR_CUDA, out) else
        scatter gpu base tmp group (out ++ [(it_dst it, py_slice tmp off (off + it_size it))])
    end.

  (** The outer loop, over the items from [i] on; each turn takes at least one. *)
Fixpoint readv_loop (turns fuel : nat) (gpu : bool) (items : list item) (out : writes) (coalesced cbytes : Z)
      : CM (Z * writes * (Z * Z)) :=
    match items, turns with
    | [], _ => mret (MEMTIER_OK, out, (coalesced, cbytes))
    | _ :: _, O => λ _, None
    | first :: items, S turns =>
        o ← gets opts;
        let '(group, total, rest) :=
          coalesce (coalesce_gap o) (max_coalesce_size o) (it_path first) (it_off first) (it_size first) items in
        '(rc, tmp) ← do_read_impl fuel (it_path first) (it_off first) total false;
        if negb (rc =? MEMTIER_OK) then mret (rc, out, (coalesced, cbytes)) else
        '(rc, out) ← scatter gpu (it_off first) tmp (first :: group) out;
        if negb (rc =? MEMTIER_OK) then mret (rc, out, (coalesced, cbytes)) else
        readv_loop turns fuel gpu rest out (coalesced + 1) (wrap 64 (cbytes + total))
    end.

Definition memtier_readv (fuel : nat) (ranges : list range) (dsts : list Z) (gpu : bool) : CM (Z * writes) :=
    match ranges with
    | [] => mret (MEMTIER_ERR_INVALID, [])
    | _ :: _ =>
        match mapM range_item (zip ranges dsts) with
        | None => mret (MEMTIER_ERR_INVALID, [])
        | Some items =>
            '(rc, out, (coalesced, cbytes)) ← readv_loop (length items) fuel gpu (std_sort item_lt items) [] 0 0;
            if negb (rc =? MEMTIER_OK) then mret (rc, out) else
            _ ← modify (λ c, add_stat coalesced_bytes cbytes (add_stat coalesced_ranges coalesced
                               (add_stat original_ranges (zlen ranges) (add_stat readv_requests 1 c))));
            mret (MEMTIER_OK, out)
        end
    end.

  (** *** The object interface *)

  (** [memtier_load_chunks]: the ranges of the chunks; [options->target]. *)
Definition memtier_load_chunks (fuel : nat) (chunks : list range) (dsts : list Z) (gpu : option bool) : CM (Z * writes) :=
    match chunks with
    | [] => mret (MEMTIER_ERR_INVALID, [])
    | _ :: _ =>
        if forallb (λ cd : range * Z, bool_decide (is_Some (rg_path cd.1)) && negb (rg_size cd.1 =? 0) && negb (cd.2 =? 0))
             (zip chunks dsts)
        then memtier_readv fuel chunks dsts (default false gpu)
        else mret (MEMTIER_ERR_INVALID, [])
    end.

  (** [memtier_load_tensor]: the descriptor's path, offset, bytes, number of
      dimensions and whether it has a shape; the GPU is the default target. *)
Definition memtier_load_tensor (fuel : nat) (path : option str) (data_offset nbytes ndim : Z) (has_shape : bool) (dst : Z)
      (gpu : option bool) : CM (Z * list Z) :=
    match path with
    | None => mret (MEMTIER_ERR_INVALID, [])
    | Some path =>
        if (nbytes =? 0) || (dst =? 0) then mret (MEMTIER_ERR_INVALID, []) else
        if ndim <? 0 then mret (MEMTIER_ERR_INVALID, []) else
        if (0 <? ndim) && negb has_shape then mret (MEMTIER_ERR_INVALID, []) else
        memtier_read fuel path data_offset nbytes (default true gpu)
    end.
End Api.

(** ** Lemmas: the counters of [memtier_readv] are not those of a read *)

Definition readv_stat (s : stat) : bool :=
  match s with readv_requests | original_ranges | coalesced_ranges | coalesced_bytes => true | _ => false end.

(** The operation leaves a counter as it was. *)
Definition leaves (s : stat) {A} (m : CM A) : Prop := ∀ c r c', m c = Some (r, c') → stats c' s = stats c s.

Section Quiet.
Context {PX : Posix} {PF : Platform}.
Variable s : stat.
Hypothesis own : readv_stat s = true.

Lemma leaves_ret {A} (a : A) : leaves s (mret a).
Proof. by intros c r c' [= <- <-]. Qed.
Lemma leaves_gets {A} (f : ctx → A) : leaves s (gets f).
Proof. by intros c r c' [= <- <-]. Qed.
Lemma leaves_fail {A} : leaves s (λ _, None : option (result A * ctx)).
Proof. done. Qed.
Lemma leaves_modify f : (∀ c, stats (f c) s = stats c s) → leaves s (modify f).
Proof. intros Hf c r c' [= <- <-]. apply Hf. Qed.
Lemma leaves_bind {A B} (m : CM A) (f : A → CM B) : leaves s m → (∀ a, leaves s (f a)) → leaves s (m ≫= f).
Proof.
  intros Hm Hf c r c' [(a & c1 & E1 & E2)|(e & E1 & _)]%sm_bind_inv; [|by eapply Hm].
  rewrite (Hf _ _ _ _ E2). by eapply Hm.
Qed.
Lemma leaves_pread fuel path off size : leaves s (posix_pread_full fuel path off size).
Proof.
  intros c r c' E. unfold posix_pread_full in E. destruct (file_at path); [|by injection E as _ <-].
  by destruct (pread_loop _ _ _ _ _ _) as [[[? []] ?]|]; simplify_eq.
Qed.
Lemma leaves_lookup k : leaves s (cache_lookup k).
Proof. intros c r c' E. unfold cache_lookup in E. destruct (lookup k (cache c)). by injection E as _ <-. Qed.
Lemma leaves_cuda : leaves s memtier_cuda_call.
Proof. by intros c r c' [= _ <-]. Qed.

Lemma leaves_gds {A} (m : GM A) : leaves s (on_gds m).
Proof. intros c r c' E. unfold on_gds in E. by destruct (m (c_gds c)) as [[? ?]|]; simplify_eq. Qed.

#[local] Ltac leaf :=
  repeat first [apply leaves_ret | apply leaves_gets | apply leaves_fail | apply leaves_pread | apply leaves_lookup | apply leaves_cuda | apply leaves_gds
    | apply leaves_modify; intros ?; cbn; by destruct s | apply leaves_bind; [|intros ?] | case_match].

Lemma leaves_copy gpu : leaves s (copy_target gpu).
Proof. unfold copy_target. leaf. Qed.

Lemma leaves_deliver gpu bytes rest : leaves s rest → leaves s (deliver gpu bytes rest).
Proof. intros Hr. unfold deliver. apply leaves_bind; [apply leaves_copy|intros rc]. case_match; leaf. done. Qed.

Lemma leaves_read_piece fuel path fid cur remaining gpu : leaves s (read_piece fuel path fid cur remaining gpu).
Proof.
  unfold read_piece, serve_cached, read_gds, memtier_gds_read, stub_gds_read, read_posix, cache_insert. cbv zeta.
  repeat first [apply leaves_deliver | apply leaves_copy | progress leaf].
  all: apply leaves_modify; intros c; unfold on_selected; by destruct (select_path _ _ _ _); cbn; destruct s.
Qed.

Lemma leaves_read_loop turns fuel path fid offset size gpu out : leaves s (read_loop turns fuel path fid offset size gpu out).
Proof.
  revert out. induction turns as [|turns IH]; intros out; cbn [read_loop]; [leaf|]. case_match; [leaf|].
  apply leaves_bind; [apply leaves_read_piece|]. intros [rc bytes]. case_match; [leaf|apply IH].
Qed.

Lemma leaves_read fuel path offset size gpu : leaves s (do_read_impl fuel path offset size gpu).
Proof. unfold do_read_impl. repeat case_match; [leaf..|apply leaves_read_loop]. Qed.
End Quiet.

(** ** Lemmas: the requests *)

(** The bytes of a range, when its file opens and holds them all. *)
Definition range_bytes `{PX : Posix} (path : str) (off size : Z) : option (list Z) :=
  match file_at path with
  | Some file => if off + size <=? zlen file then Some (py_slice file off (off + size)) else None
  | None => None
  end.

Lemma range_bytes_length `{PX : Posix} path off size b :
  0 ≤ off → 0 ≤ size → range_bytes path off size = Some b → zlen b = size.
Proof.
  unfold range_bytes. intros Ho Hs. case_match; [|done]. case_match; [|done]. intros [= <-].
  rewrite length_py_slice by lia. lia.
Qed.

(** A range inside another. *)
Lemma range_bytes_inside `{PX : Posix} path off size off' size' :
  0 ≤ off → off ≤ off' → 0 ≤ size' → off' + size' ≤ off + size →
  range_bytes path off' size' = match range_bytes path off size with
                                | Some b => Some (py_slice b (off' - off) (off' - off + size'))
                                | None => range_bytes path off' size'
                                end.
Proof.
  unfold range_bytes. intros H1 H2 H3 H4. destruct (file_at path) as [file|]; [|done].
  destruct (Z.leb_spec (off + size) (zlen file)); [|done]. rewrite (proj2 (Z.leb_le _ _)) by lia.
  rewrite py_slice_slice by lia. do 2 f_equal; lia.
Qed.

Definition item_ok (it : item) : Prop := 0 ≤ it_off it ∧ 0 < it_size it ∧ it_off it + it_size it ≤ 2 ^ 63.

Definition item_bytes `{PX : Posix} (it : item) : option (list Z) := range_bytes (it_path it) (it_off it) (it_size it).

(** A group is a part of the list whose items lie one after another in the
    bytes read for it, the last ending with them. *)
Lemma coalesce_spec gap max path base total items group total' rest :
  coalesce gap max path base total items = (group, total', rest) →
  0 ≤ gap → 0 ≤ base → 0 < total → base + total ≤ 2 ^ 63 → Forall item_ok items →
  items = group ++ rest ∧ base + total' ≤ 2 ^ 63 ∧ (group = [] ∨ total' ≤ max) ∧
  total + zsum (it_size <$> group) ≤ total' ≤ total + zsum (it_size <$> group) + zlen group * gap ∧
  Forall (λ it, it_path it = path ∧ base ≤ it_off it ∧ it_off it + it_size it ≤ base + total') group ∧
  (total' = total ∨ ∃ it, it ∈ group ∧ it_off it + it_size it = base + total').
Proof.
  intros E Hgap Hbase. revert total group E. induction items as [|it items IH]; intros total group E Ht Hb Hok; cbn [coalesce] in E.
  - injection E as <- <- <-. cbn. split_and!; auto; lia.
  - apply Forall_cons in Hok as [(O1 & O2 & O3) Hok]. rewrite (wrap_small 64) in E by (unfold in_width; lia).
    destruct (bool_decide_reflect (it_path it = path)) as [Hp|]; cbn [andb] in E.
    2: { injection E as <- <- <-. cbn. split_and!; auto; lia. }
    destruct (Z.leb_spec (base + total) (it_off it)) as [Hend|]; cbn [andb] in E.
    2: { injection E as <- <- <-. cbn. split_and!; auto; lia. }
    rewrite (wrap_small 64) in E by (unfold in_width; lia).
    destruct (_ && _) eqn:Ec in E.
    2: { injection E as <- <- <-. cbn. split_and!; auto; lia. }
    apply andb_true_iff in Ec as [Eg Em]. apply Z.leb_le in Eg, Em.
    destruct (coalesce gap max path base (it_off it + it_size it - base) items) as [[g t] r] eqn:E1.
    injection E as <- -> ->. apply IH in E1 as (-> & H1 & H2 & H3 & H4 & H5); [|lia..|done].
    change (zsum (it_size <$> it :: g)) with (it_size it + zsum (it_size <$> g)). cbn [length]. split_and!; [done|done| |nia|nia| |].
    + right. destruct H2 as [->|]; [|done]. cbn in H3. lia.
    + constructor; [|done]. split_and!; [done|lia|].
      assert (0 ≤ zsum (it_size <$> g)); [|lia]. apply zsum_nonneg, Forall_fmap. apply Forall_app in Hok as [Hg _].
      eapply Forall_impl; [exact Hg|]. intros x (_ & ? & _). cbn. lia.
    + right. destruct H5 as [->|(x & Hx & Ex)]; [exists it; split; [left|lia]|exists x; split; [by right|done]].
Qed.

(** The write of an item, when its bytes are there. *)
Definition item_write `{PX : Posix} (it : item) : option (Z * list Z) := (λ b, (it_dst it, b)) <$> item_bytes it.

Section Reading.
Context {PX : Posix} {PF : Platform} {SO : StdSort}.
Variables (B fuel : nat) (o : options) (gpu : bool).
Hypothesis reliable : os_reliable B.
Hypothesis sound : ids_sound.
Hypothesis enough : o_chunk_size o * Z.of_nat B ≤ Z.of_nat fuel.
Hypothesis gap_nonneg : 0 ≤ coalesce_gap o.
Hypothesis cuda : gpu = true → ∀ n, cuda_success n = true.

Lemma read_range path off size c :
  steady o c → 0 ≤ off → 0 < size → off + size ≤ 2 ^ 63 → enable_gds o = false ∨ is_Some (range_bytes path off size) →
  ∃ rc out c', do_read_impl fuel path off size false c = Some (Ok (rc, out), c') ∧ steady o c' ∧
    match range_bytes path off size with Some b => rc = MEMTIER_OK ∧ out = b | None => rc = MEMTIER_ERR_IO end.
Proof.
  intros [Eo Hc] Ho Hs Hin Hg. unfold range_bytes in *. destruct (file_at path) as [file|] eqn:Ef.
  - destruct (read_spec B fuel path file off size false c) as (rc & out & c' & E & Hc' & Eo' & Hok & Herr); rewrite ?Eo; try done.
    { destruct Hg as [Hg|Hg]; [by right|left]. destruct (Z.leb_spec (off + size) (zlen file)); [done|by destruct Hg]. }
    exists rc, out, c'. split_and!; [done|split; [congruence|done]|].
    destruct (Z.leb_spec (off + size) (zlen file)); [by apply Hok|by apply Herr].
  - destruct (missing_read fuel path off size c sound Ef Hc Hs) as (c' & E & Hc' & E1). exists MEMTIER_ERR_IO, [], c'.
    split_and!; [done| |done]. split; [congruence|done].
Qed.

(** The copies of a group, out of the bytes read for it. *)
Lemma scatter_run path base total tmp group out c :
  steady o c → 0 ≤ base → base + total ≤ 2 ^ 63 → range_bytes path base total = Some tmp →
  Forall item_ok group → Forall (λ it, it_path it = path ∧ base ≤ it_off it ∧ it_off it + it_size it ≤ base + total) group →
  ∃ c', scatter gpu base tmp group out c = Some (Ok (MEMTIER_OK, out ++ omap item_write group), c') ∧ steady o c' ∧
    Forall (λ it, is_Some (item_bytes it)) group.
Proof.
  intros Hc Hb Ht Etmp Hok Hg. revert out c Hc. induction group as [|it group IH]; intros out c Hc; cbn [scatter].
  - exists c. split_and!; [|done|constructor]. cbn. by rewrite app_nil_r.
  - apply Forall_cons in Hok as [(O1 & O2 & O3) Hok], Hg as [(<- & G1 & G2) Hg].
    destruct (spec_copy o gpu cuda c Hc) as ([rc|e] & c1 & E1 & H1); [|done]. destruct H1 as [-> Hc1].
    assert (item_bytes it = Some (py_slice tmp (it_off it - base) (it_off it - base + it_size it))) as Eb.
    { unfold item_bytes. rewrite (range_bytes_inside _ base total), Etmp by lia. done. }
    destruct (IH Hok Hg (out ++ [(it_dst it, py_slice tmp (it_off it - base) (it_off it - base + it_size it))]) c1 Hc1)
      as (c' & E & Hc' & Hall). exists c'. split_and!; [|done|by constructor].
    eapply sm_step; [exact E1|]. cbn [negb Z.eqb MEMTIER_OK]. cbv zeta. rewrite (wrap_small 64) by (unfold in_width; lia).
    rewrite E, <-app_assoc. do 4 f_equal. cbn [omap list_omap app]. unfold item_write at 2. by rewrite Eb.
Qed.

Lemma scatter_leaves s base tmp group out : readv_stat s = true → leaves s (scatter gpu base tmp group out).
Proof.
  intros Hs. revert out. induction group as [|it group IH]; intros out; cbn [scatter]; [apply leaves_ret|].
  apply leaves_bind; [by apply leaves_copy|]. intros rc. destruct (negb _); [apply leaves_ret|apply IH].
Qed.

(** A group can be read when its last item can. *)
Lemma range_bytes_end path off size off' size' :
  off + size = off' + size' → is_Some (range_bytes path off size) ↔ is_Some (range_bytes path off' size').
Proof.
  intros E. unfold range_bytes. destruct (file_at path); [|done]. rewrite E. case_match; split; by eauto.
Qed.

Lemma group_readable first group total :
  Forall item_ok (first :: group) → it_size first ≤ total →
  total = it_size first ∨ (∃ it, it ∈ group ∧ it_off it + it_size it = it_off first + total) →
  Forall (λ it, it_path it = it_path first ∧ it_off first ≤ it_off it ∧ it_off it + it_size it ≤ it_off first + total) group →
  Forall (λ it, is_Some (item_bytes it)) (first :: group) ∧ is_Some (range_bytes (it_path first) (it_off first) total) ∨
  Exists (λ it, item_bytes it = None) (first :: group) ∧ range_bytes (it_path first) (it_off first) total = None.
Proof.
  intros Hok Hsize Hend Hg. destruct (range_bytes (it_path first) (it_off first) total) as [bytes|] eqn:E; [left|right].
  - split; [|by eauto]. apply Forall_forall. intros it Hit. rewrite Forall_forall in Hok. pose proof (Hok it Hit) as (O1 & O2 & O3).
    assert (it_path it = it_path first ∧ it_off first ≤ it_off it ∧ it_off it + it_size it ≤ it_off first + total) as (Ep & H1 & H2).
    { apply elem_of_cons in Hit as [->|Hit]; [split_and!; [done|lia..]|]. rewrite Forall_forall in Hg. by apply Hg. }
    destruct (Hok first ltac:(left)) as (F1 & _ & _).
    unfold item_bytes. rewrite Ep, (range_bytes_inside _ (it_off first) total), E by lia. by eauto.
  - split; [|done]. apply Exists_cons.
    assert (∀ it, it_path it = it_path first → it_off it + it_size it = it_off first + total → item_bytes it = None) as Hlast.
    { intros it Ep Ee. unfold item_bytes. apply eq_None_not_Some. rewrite Ep, (range_bytes_end _ _ _ (it_off first) total), E by done. by intros []. }
    destruct Hend as [->|(it & Hin & Ee)]; [left; by apply Hlast|right]. apply Exists_exists. exists it. split; [done|].
    rewrite Forall_forall in Hg. by apply Hlast; [apply Hg|].
Qed.

(** The loop: what has been written are the writes of the items already read;
    it ends with all of them, or at the first group that cannot be read. *)
Lemma readv_loop_run items turns out k b c :
  steady o c → Forall item_ok items → (length items ≤ turns)%nat → wrap 64 b = b →
  enable_gds o = false ∨ Forall (λ it, is_Some (item_bytes it)) items →
  ∃ rc ready left k' b' c', items = ready ++ left ∧
    readv_loop turns fuel gpu items out k b c = Some (Ok (rc, out ++ omap item_write ready, (k + k', wrap 64 (b + b'))), c') ∧
    steady o c' ∧ (∀ s, readv_stat s = true → stats c' s = stats c s) ∧
    Forall (λ it, is_Some (item_bytes it)) ready ∧
    (left = [] ∧ rc = MEMTIER_OK ∨ rc = MEMTIER_ERR_IO ∧ Exists (λ it, item_bytes it = None) left) ∧
    0 ≤ k' ≤ zlen ready ∧ (ready ≠ [] → 1 ≤ k') ∧
    zsum (it_size <$> ready) ≤ b' ≤ zsum (it_size <$> ready) + (zlen ready - k') * coalesce_gap o.
Proof.
  revert items out k b c. induction turns as [|turns IH]; intros items out k b c Hc Hok Hlen Hwrap Hg.
  all: destruct items as [|first items]; [|cbn [length] in Hlen; try lia].
  1,2: exists MEMTIER_OK, [], [], 0, 0, c; cbn; rewrite app_nil_r, !Z.add_0_r, Hwrap; split_and!; first [done | lia | by left | constructor].
  apply Forall_cons in Hok as [(O1 & O2 & O3) Hok]. cbn [readv_loop].
  destruct (coalesce (coalesce_gap o) (max_coalesce_size o) (it_path first) (it_off first) (it_size first) items) as [[group total] rest] eqn:Eg.
  destruct (coalesce_spec _ _ _ _ _ _ _ _ _ Eg) as (-> & T1 & _ & T3 & T4 & T5); [done..|].
  apply Forall_app in Hok as [Hokg Hokr]. rewrite length_app in Hlen.
  assert (0 ≤ zsum (it_size <$> group)) as Hsum.
  { apply zsum_nonneg, Forall_fmap. eapply Forall_impl; [exact Hokg|]. intros x (_ & ? & _). cbn. lia. }
  destruct (group_readable first group total ltac:(by constructor) ltac:(lia) T5 T4) as [[Hall Hread]|[Hnone Hread]].
  - destruct (read_range (it_path first) (it_off first) total c) as (rc & tmp & c1 & E1 & Hc1 & Htmp); [done..|lia|lia|by right|].
    destruct Hread as [bytes Eb]. rewrite Eb in Htmp. destruct Htmp as [-> ->].
    destruct (scatter_run (it_path first) (it_off first) total bytes (first :: group) out c1) as (c2 & E2 & Hc2 & _); [done..|by constructor| |].
    { constructor; [|done]. split_and!; [done|lia|]. lia. }
    destruct (IH rest (out ++ omap item_write (first :: group)) (k + 1) (wrap 64 (b + total)) c2)
      as (rc & ready & left & k' & b' & c' & -> & E3 & Hc' & Hst & H1 & H2 & H3 & H4 & H5); [done..|lia|apply wrap_wrap| |].
    { destruct Hg as [|Hg]; [by left|right]. apply Forall_cons in Hg as [_ Hg]. by apply Forall_app in Hg as [_ Hg]. }
    exists rc, (first :: group ++ ready), left, (1 + k'), (total + b'), c'. split_and!.
    + by rewrite app_comm_cons, app_assoc.
    + eapply sm_step; [reflexivity|]. rewrite (proj1 Hc), Eg. eapply sm_step; [exact E1|]. cbn [negb Z.eqb MEMTIER_OK].
      eapply sm_step; [exact E2|]. cbn [negb Z.eqb MEMTIER_OK]. rewrite E3.
      rewrite app_comm_cons, omap_app, (app_assoc out), wrap_add_l.
      by rewrite (Z.add_assoc k), (Z.add_assoc b).
    + done.
    + intros s Hs. rewrite Hst by done. rewrite (scatter_leaves _ _ _ _ _ Hs _ _ _ E2). by eapply leaves_read.
    + rewrite app_comm_cons. by apply Forall_app.
    + done.
    + lia.
    + cbn [length]. rewrite length_app. lia.
    + lia.
    + rewrite fmap_cons, fmap_app. change (zsum (?x :: ?l)) with (x + zsum l). rewrite zsum_app. lia.
    + cbn [length]. rewrite fmap_cons, fmap_app, length_app. change (zsum (?x :: ?l)) with (x + zsum l). rewrite zsum_app. nia.
  - destruct (read_range (it_path first) (it_off first) total c) as (rc & tmp & c1 & E1 & Hc1 & Htmp); [done..|lia|lia| |].
    { destruct Hg as [|Hg]; [by left|]. exfalso. rewrite app_comm_cons in Hg. apply Forall_app in Hg as [Hg _].
      apply Exists_exists in Hnone as (x & Hx & Ex). rewrite Forall_forall in Hg. destruct (Hg x Hx). congruence. }
    rewrite Hread in Htmp. subst rc. exists MEMTIER_ERR_IO, [], (first :: group ++ rest), 0, 0, c1. split_and!; try done.
    + eapply sm_step; [reflexivity|]. rewrite (proj1 Hc), Eg. eapply sm_step; [exact E1|]. cbn. by rewrite app_nil_r, !Z.add_0_r, Hwrap.
    + intros s Hs. by eapply leaves_read.
    + right. split; [done|]. rewrite app_comm_cons. apply Exists_app. by left.
Qed.
End Reading.

(** ** Lemmas: ranges and items *)

Definition range_content `{PX : Posix} (r : range) : option (list Z) :=
  path ← rg_path r; range_bytes path (rg_offset r) (rg_size r).

(** The destination of a range and the bytes it asks for, if they are there. *)
Definition range_write `{PX : Posix} (rd : range * Z) : option (Z * list Z) := (λ b, (rd.2, b)) <$> range_content rd.1.

(** A range the code accepts, whose end fits in a file offset. *)
Definition range_ok (r : range) : Prop :=
  is_Some (rg_path r) ∧ 0 ≤ rg_offset r ∧ 0 < rg_size r ∧ rg_offset r + rg_size r ≤ 2 ^ 63.

Definition item_range (it : item) : range := {| rg_path := Some (it_path it); rg_offset := it_off it; rg_size := it_size it |}.

(** The items of accepted ranges. *)
Lemma items_of `{PX : Posix} ranges dsts :
  length dsts = length ranges → Forall range_ok ranges → Forall (λ d, d ≠ 0) dsts →
  ∃ items, mapM range_item (zip ranges dsts) = Some items ∧ item_range <$> items = ranges ∧ Forall item_ok items ∧
    omap item_write items = omap range_write (zip ranges dsts).
Proof.
  revert dsts. induction ranges as [|r ranges IH]; intros [|d dsts] Hlen Hr Hd; try done.
  - by exists [].
  - apply Forall_cons in Hr as [([path Ep] & R1 & R2 & R3) Hr], Hd as [Hd0 Hd]. cbn in Hlen.
    destruct (IH dsts ltac:(lia) Hr Hd) as (items & E & Ei & Hok & Ew).
    exists ({| it_path := path; it_off := rg_offset r; it_size := rg_size r; it_dst := d |} :: items). split_and!.
    + change (mapM range_item (zip (r :: ranges) (d :: dsts))) with
        (it ← range_item (r, d); its ← mapM range_item (zip ranges dsts); Some (it :: its)).
      rewrite E. unfold range_item. cbn [fst snd]. by rewrite Ep, (proj2 (Z.eqb_neq d 0)), (proj2 (Z.eqb_neq (rg_size r) 0)) by lia.
    + rewrite fmap_cons, Ei. f_equal. destruct r; cbn in *. by subst.
    + constructor; [by split_and!|done].
    + cbn [zip zip_with omap list_omap]. rewrite Ew. unfold item_write, item_bytes, range_write, range_content. cbn. by rewrite Ep.
Qed.

Lemma items_inside `{PX : Posix} items :
  Forall (λ it, is_Some (item_bytes it)) items ↔ Forall (λ r, is_Some (range_content r)) (item_range <$> items).
Proof. by rewrite Forall_fmap. Qed.

(** C7: a scattered read gives every destination its range. On a context whose
    cache agrees with the files and a system that only interrupts reads and
    cuts them short, memtier_readv returns, whatever the ranges (of several
    files, in any order, overlapping or repeated), provided that they are inside
    their files or that the GDS backend, whose reads past the end of a file
    succeed ([gds_read_past_end_succeeds]), is not enabled: it succeeds exactly when
    every range is inside its file, and then the writes made are one per range,
    of the bytes of the range to its destination; otherwise it fails with an
    I/O error and every write made was right.  It takes at most one request
    per range, and what it reads beyond the ranges is at most coalesce_gap for
    every range joined to its predecessor. *)
Theorem readv_returns_ranges `{PX : Posix, PF : Platform, SO : StdSort} B fuel ranges dsts gpu c :
  coherent c → ids_sound → os_reliable B → o_chunk_size (opts c) * Z.of_nat B ≤ Z.of_nat fuel → 0 ≤ coalesce_gap (opts c) →
  ranges ≠ [] → length dsts = length ranges → Forall range_ok ranges → Forall (λ d, d ≠ 0) dsts →
  (gpu = true → ∀ n, cuda_success n = true) →
  enable_gds (opts c) = false ∨ Forall (λ r, is_Some (range_content r)) ranges →
  ∃ rc out c', memtier_readv fuel ranges dsts gpu c = Some (Ok (rc, out), c') ∧ coherent c' ∧
    if decide (Forall (λ r, is_Some (range_content r)) ranges) then
      rc = MEMTIER_OK ∧ out ≡ₚ omap range_write (zip ranges dsts) ∧
      ∃ k b, 1 ≤ k ≤ zlen ranges ∧
        zsum (rg_size <$> ranges) ≤ b ≤ zsum (rg_size <$> ranges) + (zlen ranges - k) * coalesce_gap (opts c) ∧
        stats c' coalesced_ranges = wrap 64 (stats c coalesced_ranges + k) ∧
        stats c' coalesced_bytes = wrap 64 (stats c coalesced_bytes + b)
    else rc = MEMTIER_ERR_IO ∧ out ⊆+ omap range_write (zip ranges dsts).
Proof.
  intros Hc Hid HB Hfuel Hgap Hne Hlen Hr Hd Hcuda Hg.
  destruct (items_of ranges dsts Hlen Hr Hd) as (items & Em & Ei & Hok & Ew).
  pose proof (std_sort_perm item_lt items) as Hp. set (sorted := std_sort item_lt items) in *.
  assert (Forall (λ it, is_Some (item_bytes it)) sorted ↔ Forall (λ r, is_Some (range_content r)) ranges) as Hin.
  { rewrite <-Ei, <-items_inside. by rewrite Hp. }
  destruct (readv_loop_run B fuel (opts c) gpu HB Hid Hfuel Hgap Hcuda sorted (length items) [] 0 0 c)
    as (rc & ready & left & k & b & c1 & Es & E & Hc1 & Hst & H1 & H2 & H3 & H4 & H5); [by split|by rewrite Hp|by rewrite Hp|done|tauto|].
  cbn [app] in E. change (0 + k) with k in E. change (0 + b) with b in E. rewrite <-Ew. unfold memtier_readv. destruct ranges as [|r0 rs]; [done|].
  destruct H2 as [[-> ->]|[-> Hnone]].
  - rewrite app_nil_r in Es.
    eexists _, _, _. split; [rewrite Em; eapply sm_step; [exact E|]; reflexivity|]. split.
    { destruct Hc1 as [_ [C1 C2 C3]]. by constructor. }
    rewrite decide_True by (apply Hin; by rewrite Es). split; [done|]. split; [by rewrite <-Hp, Es|]. exists k, b. rewrite <-Ei, <-list_fmap_compose.
    assert (zlen items = zlen ready) as El by (by rewrite <-Hp, Es). rewrite length_fmap, El.
    assert (it_size <$> ready ≡ₚ it_size <$> items) as Hsz by (by rewrite <-Es, Hp).
    change (rg_size ∘ item_range <$> items) with (it_size <$> items). rewrite <-(zsum_Permutation _ _ Hsz).
    split_and!; [apply H4; intros ->; destruct items; [by rewrite fmap_nil in Ei|done]|lia|lia|lia|..].
    + change (wrap 64 (stats c1 coalesced_ranges + k) = wrap 64 (stats c coalesced_ranges + k)). by rewrite Hst.
    + change (wrap 64 (stats c1 coalesced_bytes + wrap 64 b) = wrap 64 (stats c coalesced_bytes + b)). rewrite Hst by done.
      by rewrite (Z.add_comm _ (wrap 64 b)), wrap_add_l, Z.add_comm.
  - eexists _, _, _. split; [rewrite Em; eapply sm_step; [exact E|]; reflexivity|]. split; [apply Hc1|].
    rewrite decide_False; cycle 1.
    { rewrite <-Hin, Es. rewrite Forall_app. intros [_ Hall]. apply Exists_exists in Hnone as (x & Hx & Ex).
      rewrite Forall_forall in Hall. destruct (Hall x Hx). congruence. }
    split; [done|].
    rewrite <-Hp, Es, omap_app. by apply submseteq_inserts_r.
Qed.

(** ** Adjacent ranges are one request *)

(** Ranges of a file that follow each other without a gap. *)
Fixpoint adjacent (path : str) (base : Z) (sizes : list Z) : list range :=
  match sizes with
  | [] => []
  | size :: sizes => {| rg_path := Some path; rg_offset := base; rg_size := size |} :: adjacent path (base + size) sizes
  end.

Lemma adjacent_offsets path base sizes r :
  Forall (λ s, 0 < s) sizes → r ∈ adjacent path base sizes →
  rg_path r = Some path ∧ base ≤ rg_offset r ∧ 0 < rg_size r ∧ rg_offset r + rg_size r ≤ base + zsum sizes.
Proof.
  revert base. induction sizes as [|s sizes IH]; intros base Hs Hr; cbn [adjacent] in Hr; [by apply elem_of_nil in Hr|].
  apply Forall_cons in Hs as [Hs0 Hs]. change (zsum (s :: sizes)) with (s + zsum sizes).
  assert (0 ≤ zsum sizes) by (apply zsum_nonneg; eapply Forall_impl; [exact Hs|cbn; lia]).
  apply elem_of_cons in Hr as [->|Hr]; [cbn; split_and!; [done|lia..]|]. destruct (IH _ Hs Hr) as (? & ? & ? & ?). split_and!; [done|lia..].
Qed.

Lemma adjacent_sorted path base sizes :
  Forall (λ s, 0 < s) sizes → StronglySorted (λ r1 r2, rg_offset r1 ≤ rg_offset r2) (adjacent path base sizes).
Proof.
  revert base. induction sizes as [|s sizes IH]; intros base Hs; cbn [adjacent]; [constructor|].
  apply Forall_cons in Hs as [Hs0 Hs]. constructor; [by apply IH|]. apply Forall_forall. intros r Hr.
  apply (adjacent_offsets path) in Hr as (_ & ? & _ & _); [|done]. cbn. lia.
Qed.

(** Ranges at one offset are the same range. *)
Lemma adjacent_unique path base sizes r1 r2 :
  Forall (λ s, 0 < s) sizes → r1 ∈ adjacent path base sizes → r2 ∈ adjacent path base sizes →
  rg_offset r1 = rg_offset r2 → r1 = r2.
Proof.
  revert base. induction sizes as [|s sizes IH]; intros base Hs H1 H2 E; cbn [adjacent] in *; [by apply elem_of_nil in H1|].
  apply Forall_cons in Hs as [Hs0 Hs]. apply elem_of_cons in H1 as [->|H1], H2 as [->|H2]; [done|..].
  - apply (adjacent_offsets path) in H2 as (_ & ? & _ & _); [|done]. cbn in E. lia.
  - apply (adjacent_offsets path) in H1 as (_ & ? & _ & _); [|done]. cbn in E. lia.
  - by eapply IH.
Qed.

Lemma coalesce_adjacent gap max path base total items sizes :
  0 ≤ gap → 0 ≤ base → 0 < total → base + total + zsum sizes ≤ 2 ^ 63 → Forall (λ s, 0 < s) sizes →
  item_range <$> items = adjacent path (base + total) sizes → total + zsum sizes ≤ max →
  coalesce gap max path base total items = (items, total + zsum sizes, []).
Proof.
  intros Hgap Hb. revert total items. induction sizes as [|s sizes IH]; intros total items Ht Hend Hs Ei Hmax; cbn [adjacent] in Ei.
  - apply fmap_nil_inv in Ei as ->. cbn. by rewrite Z.add_0_r.
  - destruct items as [|it items]; [done|]. rewrite fmap_cons in Ei. injection Ei as Ep Eo Es Ei.
    apply Forall_cons in Hs as [Hs0 Hs]. change (zsum (s :: sizes)) with (s + zsum sizes) in *.
    assert (0 ≤ zsum sizes) by (apply zsum_nonneg; eapply Forall_impl; [exact Hs|cbn; lia]).
    cbn [coalesce]. rewrite bool_decide_true by done. rewrite !(wrap_small 64) by (unfold in_width; lia).
    rewrite (proj2 (Z.leb_le (base + total) _)), (proj2 (Z.leb_le (_ - _) gap)), (proj2 (Z.leb_le _ max)) by lia. cbn [andb].
    replace (it_off it + it_size it - base) with (total + s) by lia.
    rewrite IH; [|lia..|done| |lia]; [do 2 f_equal; lia|]. rewrite Ei. f_equal. lia.
Qed.

(** The code's order on the items of one file. *)
Lemma item_lt_same x y : it_path x = it_path y → item_lt y x = false ↔ it_off x ≤ it_off y.
Proof. intros E. unfold item_lt. rewrite decide_True by done. split; [intros H%Z.ltb_ge|intros H; apply Z.ltb_ge]; lia. Qed.

Lemma string_lt_asym a b : string_lt a b = true → string_lt b a = false.
Proof.
  revert b. induction a as [|x a IH]; intros [|y b]; cbn [string_lt]; try done. intros [H|[H1 H2]%andb_true_iff]%orb_true_iff.
  - apply Z.ltb_lt in H. rewrite (proj2 (Z.ltb_ge y x)), (proj2 (Z.eqb_neq y x)) by lia. done.
  - apply Z.eqb_eq in H1 as ->. by rewrite Z.ltb_irrefl, Z.eqb_refl, IH.
Qed.

Lemma string_le_trans a b c : string_lt b a = false → string_lt c b = false → string_lt c a = false.
Proof.
  revert b c. induction a as [|x a IH]; intros [|y b] [|z c]; cbn [string_lt]; try done.
  intros [H1 H2]%orb_false_iff [H3 H4]%orb_false_iff. apply Z.ltb_ge in H1, H3. rewrite (proj2 (Z.ltb_ge z x)) by lia. cbn [orb].
  destruct (Z.eqb_spec z x) as [->|]; [|done]. assert (y = x) as -> by lia. rewrite Z.eqb_refl in H2, H4. cbn [andb] in *. by eapply IH.
Qed.

(** Two paths neither of which is before the other are the same. *)
Lemma string_lt_total a b : string_lt a b = false → string_lt b a = false → a = b.
Proof.
  revert b. induction a as [|x a IH]; intros [|y b]; cbn [string_lt]; try done.
  intros [H1 H2]%orb_false_iff [H3 H4]%orb_false_iff. apply Z.ltb_ge in H1, H3. assert (x = y) as -> by lia.
  rewrite Z.eqb_refl in H2, H4. f_equal. by apply IH.
Qed.

(** The comparison is a strict weak order, as [std::sort] requires. *)
Lemma item_lt_asym x y : item_lt x y = true → item_lt y x = false.
Proof.
  unfold item_lt. destruct (decide (it_path x = it_path y)) as [E|E].
  - rewrite decide_True by done. intros H%Z.ltb_lt. apply Z.ltb_ge. lia.
  - rewrite decide_False by done. apply string_lt_asym.
Qed.

Lemma item_le_trans x y z : item_lt y x = false → item_lt z y = false → item_lt z x = false.
Proof.
  unfold item_lt. destruct (decide (it_path y = it_path x)) as [E1|E1], (decide (it_path z = it_path y)) as [E2|E2].
  - rewrite decide_True by congruence. intros H1%Z.ltb_ge H2%Z.ltb_ge. apply Z.ltb_ge. lia.
  - rewrite decide_False by congruence. by rewrite E1.
  - rewrite decide_False by congruence. by rewrite E2.
  - intros H1 H2. destruct (decide (it_path z = it_path x)) as [E3|_]; [|by eapply string_le_trans].
    exfalso. apply E1. rewrite E3 in H2. by apply string_lt_total.
Qed.

(** Sorting the items of adjacent ranges puts them in the order of the file. *)
Lemma sorted_adjacent `{SO : StdSort} path base sizes items :
  Forall (λ s, 0 < s) sizes → item_range <$> items ≡ₚ adjacent path base sizes →
  item_range <$> std_sort item_lt items = adjacent path base sizes.
Proof.
  intros Hs Hp. assert (item_range <$> std_sort item_lt items ≡ₚ adjacent path base sizes) as Hp' by (by rewrite std_sort_perm).
  apply (StronglySorted_unique_strong (λ r1 r2, rg_offset r1 ≤ rg_offset r2)); [| |by apply adjacent_sorted|done].
  - intros r1 r2 H1 H2 Hle1 Hle2. rewrite Hp' in H1. eapply adjacent_unique; [exact Hs|done|done|lia].
  - pose proof (std_sort_sorted item_lt items item_lt_asym item_le_trans) as Hsorted.
    assert (Forall (λ it, it_path it = path) (std_sort item_lt items)) as Hpath.
    { apply Forall_forall. intros it Hit. assert (item_range it ∈ adjacent path base sizes) as Hin by (rewrite <-Hp'; by apply list_elem_of_fmap_2).
      apply (adjacent_offsets path) in Hin as (E & _); [by injection E|done]. }
    clear Hp'. induction Hsorted as [|it l _ IH Hhd]; [constructor|]. apply Forall_cons in Hpath as [E Hl].
    rewrite fmap_cons. constructor; [by apply IH|]. apply Forall_fmap, Forall_forall. intros x Hx. rewrite Forall_forall in Hl, Hhd.
    apply (item_lt_same it x); [by rewrite E, Hl|by apply Hhd].
Qed.

Lemma items_adjacent path base sizes items :
  Forall (λ s, 0 < s) sizes → item_range <$> items = adjacent path base sizes →
  Forall (λ it, it_path it = path ∧ base ≤ it_off it ∧ it_off it + it_size it ≤ base + zsum sizes) items.
Proof.
  intros Hs E. apply Forall_forall. intros it Hit. assert (item_range it ∈ adjacent path base sizes) as Hin by (rewrite <-E; by apply list_elem_of_fmap_2).
  apply (adjacent_offsets path) in Hin as (Ep & ? & _ & ?); [|done]. injection Ep as Ep. done.
Qed.

(** C8: ranges that follow each other in a file are one request, in whatever
    order they are asked for: whatever order a scattered read over a cut-up
    part of a file (the chunks of a table, say) gives the parts in, it makes a
    single read of that part, as long as it is no longer than
    max_coalesce_size, and reads no byte in excess. *)
Theorem adjacent_ranges_one_read `{PX : Posix, PF : Platform, SO : StdSort} B fuel ranges dsts gpu c path base sizes file :
  coherent c → ids_sound → os_reliable B → o_chunk_size (opts c) * Z.of_nat B ≤ Z.of_nat fuel → 0 ≤ coalesce_gap (opts c) →
  (gpu = true → ∀ n, cuda_success n = true) → file_at path = Some file →
  ranges ≡ₚ adjacent path base sizes → sizes ≠ [] → Forall (λ s, 0 < s) sizes → 0 ≤ base → base + zsum sizes ≤ 2 ^ 63 →
  base + zsum sizes ≤ zlen file → zsum sizes ≤ max_coalesce_size (opts c) →
  length dsts = length ranges → Forall (λ d, d ≠ 0) dsts →
  ∃ out c', memtier_readv fuel ranges dsts gpu c = Some (Ok (MEMTIER_OK, out), c') ∧
    stats c' coalesced_ranges = wrap 64 (stats c coalesced_ranges + 1) ∧
    stats c' coalesced_bytes = wrap 64 (stats c coalesced_bytes + zsum sizes).
Proof.
  intros Hc Hid HB Hfuel Hgap Hcuda Ef Hp Hne Hs Hb Hend Hfile Hmax Hlen Hd.
  assert (Forall range_ok ranges) as Hr.
  { rewrite Hp. apply Forall_forall. intros r Hin. apply (adjacent_offsets path) in Hin as (E & ? & ? & ?); [|done].
    split_and!; [by eauto|lia..]. }
  destruct (items_of ranges dsts Hlen Hr Hd) as (items & Em & Ei & Hok & _).
  assert (item_range <$> std_sort item_lt items = adjacent path base sizes) as Es by (apply sorted_adjacent; [done|by rewrite Ei]).
  assert (Forall item_ok (std_sort item_lt items)) as Hoks by (by rewrite std_sort_perm).
  pose proof (items_adjacent _ _ _ _ Hs Es) as Hin.
  assert (length items = length (std_sort item_lt items)) as El by (by rewrite std_sort_perm).
  unfold memtier_readv. destruct ranges as [|r0 rs] eqn:Er; [apply Permutation_nil_l in Hp; destruct sizes; done|]. rewrite <-Er in *.
  rewrite Em, El. destruct (std_sort item_lt items) as [|first rest]; [destruct sizes; done|].
  destruct sizes as [|s sizes]; [done|]. cbn [adjacent] in Es. rewrite fmap_cons in Es. injection Es as Ep Eo Ez Erest.
  apply Forall_cons in Hs as [Hs0 Hs]. change (zsum (s :: sizes)) with (s + zsum sizes) in *.
  assert (0 ≤ zsum sizes) as Hz by (apply zsum_nonneg; eapply Forall_impl; [exact Hs|cbn; lia]).
  assert (range_bytes path base (s + zsum sizes) = Some (py_slice file base (base + (s + zsum sizes)))) as Eb.
  { unfold range_bytes. by rewrite Ef, (proj2 (Z.leb_le _ _)) by lia. }
  destruct (read_range B fuel (opts c) HB Hid Hfuel path base (s + zsum sizes) c) as (rc & tmp & c1 & E1 & Hc1 & Htmp);
    [done|done|lia|lia|right; by eauto|]. rewrite Eb in Htmp. destruct Htmp as [-> ->].
  destruct (scatter_run B fuel (opts c) gpu Hcuda path base (s + zsum sizes) _ (first :: rest) [] c1 Hc1 Hb Hend Eb Hoks Hin) as (c2 & E2 & _ & _).
  assert (∀ st, readv_stat st = true → stats c2 st = stats c st) as Hst.
  { intros st Hst. rewrite (scatter_leaves _ _ _ _ _ _ Hst _ _ _ E2). by eapply leaves_read. }
  assert (readv_loop (length (first :: rest)) fuel gpu (first :: rest) [] 0 0 c =
    Some (Ok (MEMTIER_OK, [] ++ omap item_write (first :: rest), (1, wrap 64 (s + zsum sizes))), c2)) as E3.
  { cbn [length readv_loop]. eapply sm_step; [reflexivity|]. rewrite Ep, Eo, Ez.
    rewrite (coalesce_adjacent _ _ _ _ _ _ sizes) by (done || lia). eapply sm_step; [exact E1|]. cbn [negb Z.eqb MEMTIER_OK].
    eapply sm_step; [exact E2|]. cbn [negb Z.eqb MEMTIER_OK]. by destruct (length rest). }
  eexists _, _. split.
  - eapply sm_step; [exact E3|]; reflexivity.
  - split.
    + change (wrap 64 (stats c2 coalesced_ranges + 1) = wrap 64 (stats c coalesced_ranges + 1)). by rewrite Hst.
    + change (wrap 64 (stats c2 coalesced_bytes + wrap 64 (s + zsum sizes)) = wrap 64 (stats c coalesced_bytes + (s + zsum sizes))).
      rewrite Hst by done. by rewrite (Z.add_comm _ (wrap 64 _)), wrap_add_l, Z.add_comm.
Qed.

(** *** The properties at concrete data *)

#[program] Definition merge_std_sort : StdSort := {|
  std_sort A lt := @merge_sort A (λ x y, lt y x = false) (λ x y, decide (lt y x = false));
|}.
Next Obligation. intros A lt l. apply merge_sort_Permutation. Qed.
Next Obligation.
  intros A lt l Hasym Htrans. apply StronglySorted_merge_sort.
  - intros x y z. apply Htrans.
  - intros x y. destruct (lt y x) eqn:E; [right; by apply Hasym|by left].
Qed.

Section Witnesses.
#[local] Existing Instance ten_bytes.
#[local] Existing Instance cpu_only.
#[local] Existing Instance merge_std_sort.

(** Four ranges of the file of ten bytes, two of them overlapping, with gaps of
    at most one byte joined in requests of at most six bytes. *)
Definition joining_options : options :=
  {| o_chunk_size := 4; o_dram_cache_size := 12; enable_dram_cache := true; cache_admit := true; bypass_cache := false;
     force_gds := false; force_posix := false; enable_gds := false; gds_stub_success := true; gds_min_size := 1;
     gds_alignment := 1; o_hints := 0; async_mode := false; num_workers := 1; coalesce_gap := 1; max_coalesce_size := 6;
     preferred_device_id := 0 |}.
Definition joining_ctx : ctx := memtier_init (Some joining_options).

Definition file_range (off size : Z) : range := {| rg_path := Some (u "f"); rg_offset := off; rg_size := size |}.
Definition four_ranges : list range := [file_range 7 3; file_range 0 2; file_range 1 4; file_range 3 2].

Lemma readv_returns_ranges_witness :
  (∃ out c', memtier_readv 9 four_ranges [100; 200; 300; 400] false joining_ctx = Some (Ok (MEMTIER_OK, out), c') ∧
     out ≡ₚ [(100, [7; 8; 9]); (200, [0; 1]); (300, [1; 2; 3; 4]); (400, [3; 4])]) ∧
  (∃ out c', memtier_readv 9 (file_range 8 3 :: four_ranges) [50; 100; 200; 300; 400] false joining_ctx = Some (Ok (MEMTIER_ERR_IO, out), c')).
Proof.
  pose proof (readv_returns_ranges 1 9) as H.
  assert (∀ ranges, Forall range_ok ranges → ∀ dsts, length dsts = length ranges → ranges ≠ [] → Forall (λ d, d ≠ 0) dsts →
    _) as H' by (intros ranges Hr dsts Hl Hne Hd; exact (H ranges dsts false joining_ctx ltac:(by apply memtier_init_coherent) cpu_only_sound
      ten_bytes_reliable ltac:(by vm_compute) ltac:(by vm_compute) Hne Hl Hr Hd ltac:(done) ltac:(by left))).
  split.
  - destruct (H' four_ranges ltac:(repeat constructor; by eauto) [100; 200; 300; 400]) as (rc & out & c' & E & _ & Hout);
      [done|done|by repeat constructor|].
    rewrite decide_True in Hout by (repeat constructor; by eexists). destruct Hout as (-> & Hp & _).
    exists out, c'. split; [exact E|]. vm_compute in Hp. exact Hp.
  - destruct (H' (file_range 8 3 :: four_ranges) ltac:(repeat constructor; by eauto) [50; 100; 200; 300; 400]) as (rc & out & c' & E & _ & Hout);
      [done|done|by repeat constructor|].
    rewrite decide_False in Hout by (intros [[b Hb] _]%Forall_cons; by vm_compute in Hb). destruct Hout as (-> & _). exists out, c'. exact E.
Defined.

Lemma adjacent_ranges_one_read_witness :
  ∃ out c', memtier_readv 9 [file_range 4 2; file_range 2 2; file_range 6 1] [100; 200; 300] false joining_ctx
              = Some (Ok (MEMTIER_OK, out), c') ∧ stats c' coalesced_ranges = 1.
Proof.
  destruct (adjacent_ranges_one_read 1 9 [file_range 4 2; file_range 2 2; file_range 6 1] [100; 200; 300] false joining_ctx (u "f") 2 [2; 2; 1]
    (seqZ 0 10)) as (out & c' & E & H & _);
    [by apply memtier_init_coherent|exact cpu_only_sound|exact ten_bytes_reliable|by vm_compute|by vm_compute|done|by vm_compute
    |apply Permutation_swap|done|by repeat constructor|done|by vm_compute|by vm_compute|by vm_compute|done|by repeat constructor|].
  exists out, c'. split; [exact E|]. exact H.
Defined.
End Witnesses.
