(* ===== verification/ReadTasks.v ===== *)
(** The work of the threads of libmemtier in steps (src/api.cpp,
    [do_read_impl] and [memtier_prefetch]).

    The threads share the context: its cache and its counters are each locked
    for one operation at a time, so the reads of the workers, and those of
    threads that call [memtier_read] or [memtier_prefetch], interleave between
    these operations.  A [task] is a thread's work as a sequence of such
    operations.  Run alone it does exactly what the function of file LibMemtier
    does ([undisturbed_read], [undisturbed_prefetch]); [safe_job] shows that
    whatever other threads do between its operations, as long as the cache
    agrees with the files, it ends within its bound with the right answer. *)

From S2P Require Import Prelude PyText Posix LibTypes GdsBackend ChunkCache LibMemtier ReadV.

(** ** Work in steps *)

Inductive task (A : Type) : Type :=
| Done (a : A)
| Act (f : ctx → option (task A * ctx)).
Arguments Done {A}.
Arguments Act {A}.

Fixpoint task_bind {A B} (t : task A) (k : A → task B) : task B :=
  match t with
  | Done a => k a
  | Act f => Act (λ c, match f c with Some (t, c) => Some (task_bind t k, c) | None => None end)
  end.
#[export] Instance task_ret : MRet task := @Done.
#[export] Instance task_mbind : MBind task := λ A B k t, task_bind t k.

(** One operation; an exception would end the process. *)
Definition atom {A} (m : CM A) : task A :=
  Act (λ c, match m c with Some (Ok a, c) => Some (Done a, c) | _ => None end).

(** The work without interruption. *)
Fixpoint run_alone {A} (t : task A) : CM A := λ c,
  match t with
  | Done a => Some (Ok a, c)
  | Act f => match f c with Some (t, c) => run_alone t c | None => None end
  end.

(** ** [do_read_impl], operation by operation *)

Section Read.
  Context {PX : Posix} {PF : Platform}.

Definition copy_task (gpu : bool) : task Z :=
    if negb gpu then mret MEMTIER_OK else
    rc ← atom memtier_cuda_call;
    if negb (rc =? MEMTIER_OK) then mret MEMTIER_ERR_CUDA else
    o ← atom (gets opts);
    if async_mode o then mret MEMTIER_OK else
    rc ← atom memtier_cuda_call;
    mret (if negb (rc =? MEMTIER_OK) then MEMTIER_ERR_CUDA else MEMTIER_OK).

Definition deliver_task (gpu : bool) (bytes : list Z) (rest : task unit) : task (Z * list Z) :=
    rc ← copy_task gpu;
    if negb (rc =? MEMTIER_OK) then mret (rc, []) else
    _ ← rest;
    mret (MEMTIER_OK, bytes).

Definition serve_cached_task (ce : option node) (in_chunk need : Z) (gpu : bool) : task (Z * list Z) :=
    match ce with
    | Some n =>
        deliver_task gpu (py_slice (data n) in_chunk (in_chunk + need))
          (atom (modify (λ c, add_stat dram_bytes_served need (add_stat dram_hits 1 c))))
    | None => Act (λ _, None)
    end.

Definition read_gds_task (fuel : nat) (path : str) (cur need : Z) (gpu : bool) : task (Z * list Z) :=
    '(rc, bytes) ← atom (memtier_gds_read fuel path cur need);
    if rc =? MEMTIER_OK then deliver_task gpu (buffer need bytes) (atom (modify (add_stat gds_reads 1))) else
    '(rc, bytes) ← atom (posix_pread_full fuel path cur need);
    if negb (rc =? MEMTIER_OK) then mret (rc, []) else
    if zlen bytes <? need then mret (MEMTIER_ERR_IO, []) else
    deliver_task gpu bytes
      (atom (modify (λ c, add_stat ssd_bytes_read (zlen bytes) (add_stat posix_reads 1 (add_stat gds_fallbacks 1 c))))).

(** The insertion in the cache and the counters are locked separately. *)
Definition read_posix_task (fuel : nat) (path : str) (k : key) (chunk in_chunk cur need : Z) (caching gpu : bool)
    : task (Z * list Z) :=
    let roff := if caching then wrap 64 (k.2 * chunk) else cur in
    let rsz := if caching then chunk else need in
    '(rc, bytes) ← atom (posix_pread_full fuel path roff rsz);
    if negb (rc =? MEMTIER_OK) then mret (rc, []) else
    let src_off := if caching then in_chunk else 0 in
    if zlen bytes <? src_off + need then mret (MEMTIER_ERR_IO, []) else
    deliver_task gpu (py_slice bytes src_off (src_off + need))
      (o ← atom (gets opts);
       _ ← (if caching && cache_admit o then atom (cache_insert k (buffer rsz bytes) (zlen bytes)) else mret ());
       atom (modify (λ c, add_stat ssd_bytes_read (zlen bytes) (add_stat posix_reads 1 (add_stat dram_misses 1 c))))).

Definition read_piece_task (fuel : nat) (path : str) (fid cur remaining : Z) (gpu : bool) : task (Z * list Z) :=
    o ← atom (gets opts);
    let chunk := o_chunk_size o in
    let in_chunk := cur `mod` chunk in
    let need := Z.min (chunk - in_chunk) remaining in
    let k := (fid, cur `div` chunk) in
    ce ← atom (cache_lookup k);
    let hit := match ce with Some n => in_chunk + need <=? valid_size n | None => false end in
    let p := select_path hit cur need o in
    _ ← atom (modify (on_selected p));
    match p with
    | PATH_DRAM_HIT => serve_cached_task ce in_chunk need gpu
    | PATH_GDS_READ | PATH_GDS_STUB_FALLBACK => read_gds_task fuel path cur need gpu
    | PATH_POSIX_READ_THEN_CACHE => read_posix_task fuel path k chunk in_chunk cur need true gpu
    | PATH_POSIX_READ => read_posix_task fuel path k chunk in_chunk cur need false gpu
    end.

Fixpoint read_loop_task (turns fuel : nat) (path : str) (fid offset size : Z) (gpu : bool) (out : list Z) : task (Z * list Z) :=
    if size <=? zlen out then (_ ← atom (modify (add_stat total_requests 1)); mret (MEMTIER_OK, out)) else
    match turns with
    | O => Act (λ _, None)
    | S turns =>
        '(rc, bytes) ← read_piece_task fuel path fid (wrap 64 (offset + zlen out)) (size - zlen out) gpu;
        if negb (rc =? MEMTIER_OK) then mret (rc, out) else
        read_loop_task turns fuel path fid offset size gpu (out ++ bytes)
    end.

Definition do_read_task (fuel : nat) (path : str) (offset size : Z) (gpu : bool) : task (Z * list Z) :=
    if size =? 0 then mret (MEMTIER_ERR_INVALID, []) else
    if gpu && negb memtier_cuda_available then mret (MEMTIER_ERR_UNSUPPORTED, []) else
    read_loop_task (Z.to_nat size) fuel path (file_id_from_path path) offset size gpu [].

  (** [memtier_prefetch] to memory, operation by operation. *)
Definition prefetch_chunk_task (fuel : nat) (path : str) (k : key) (chunk : Z) : task Z :=
    present ← atom (gets (λ c, contains k (cache c)));
    if present : bool then mret MEMTIER_OK else
    '(rc, bytes) ← atom (posix_pread_full fuel path (wrap 64 (k.2 * chunk)) chunk);
    if negb (rc =? MEMTIER_OK) then mret rc else
    _ ← atom (cache_insert k (buffer chunk bytes) (zlen bytes));
    _ ← atom (modify (λ c, add_stat ssd_bytes_read (zlen bytes) (add_stat posix_reads 1 (add_stat prefetch_bytes (zlen bytes) c))));
    mret MEMTIER_OK.

Fixpoint prefetch_loop_task (turns fuel : nat) (path : str) (fid offset size done : Z) : task Z :=
    if size <=? done then (_ ← atom (modify (add_stat prefetch_requests 1)); mret MEMTIER_OK) else
    match turns with
    | O => Act (λ _, None)
    | S turns =>
        o ← atom (gets opts);
        let chunk := o_chunk_size o in
        let cur := wrap 64 (offset + done) in
        rc ← prefetch_chunk_task fuel path (fid, cur `div` chunk) chunk;
        if negb (rc =? MEMTIER_OK) then mret rc else
        prefetch_loop_task turns fuel path fid offset size (done + Z.min (chunk - cur `mod` chunk) (size - done))
    end.

Definition prefetch_task (fuel : nat) (path : str) (offset size : Z) : task Z :=
    if size =? 0 then mret MEMTIER_ERR_INVALID else
    prefetch_loop_task (Z.to_nat size) fuel path (file_id_from_path path) offset size 0.
End Read.

(** ** What clients ask for *)

(** The arguments of a read. *)
Record call := { c_path : str; c_offset : Z; c_size : Z; c_gpu : bool }.

(** What a client asks of the library in its own thread. *)
Inductive job : Type :=
| ReadJob (cl : call)
| PrefetchJob (cl : call).

Section Jobs.
  Context {PX : Posix} {PF : Platform}.
  Variable fuel : nat.

Definition call_task (cl : call) : task (Z * list Z) :=
    do_read_task fuel (c_path cl) (c_offset cl) (c_size cl) (c_gpu cl).

Definition job_task (j : job) : task (Z * list Z) :=
    match j with
    | ReadJob cl => call_task cl
    | PrefetchJob cl => rc ← prefetch_task fuel (c_path cl) (c_offset cl) (c_size cl); mret (rc, [])
    end.

  (** A request that a client may make: the code's unsigned arithmetic does not
      wrap around, CUDA works if it is asked for, and with the GDS backend the
      range is in the file (a GDS read past its end succeeds, see
      [gds_read_past_end_succeeds]). *)
Definition call_ok (o : options) (cl : call) : Prop :=
    0 ≤ c_offset cl ∧ 0 ≤ c_size cl ∧ c_offset cl + c_size cl ≤ 2 ^ 63 ∧
    (c_gpu cl = true → memtier_cuda_available = true → ∀ n, cuda_success n = true) ∧
    (enable_gds o = false ∨ is_Some (range_bytes (c_path cl) (c_offset cl) (c_size cl))).

Definition job_ok (o : options) (j : job) : Prop :=
    match j with
    | ReadJob cl => call_ok o cl
    | PrefetchJob cl => 0 ≤ c_offset cl ∧ 0 ≤ c_size cl ∧ c_offset cl + c_size cl ≤ 2 ^ 63
    end.

  (** What a read must answer. *)
Definition answer (cl : call) (r : Z * list Z) : Prop :=
    if c_size cl =? 0 then r.1 = MEMTIER_ERR_INVALID else
    if c_gpu cl && negb memtier_cuda_available then r.1 = MEMTIER_ERR_UNSUPPORTED else
    match range_bytes (c_path cl) (c_offset cl) (c_size cl) with
    | Some bytes => r = (MEMTIER_OK, bytes)
    | None => r.1 = MEMTIER_ERR_IO
    end.

Definition job_answer (j : job) (r : Z * list Z) : Prop :=
    match j with
    | ReadJob cl => answer cl r
    | PrefetchJob cl =>
        r.1 = if c_size cl =? 0 then MEMTIER_ERR_INVALID else
              match file_at (c_path cl) with Some _ => MEMTIER_OK | None => MEMTIER_ERR_IO end
    end.
End Jobs.

(** ** Lemmas: run alone, the work is that of [do_read_impl] *)

(** Induction over what each operation may leave to do. *)
Lemma task_induction {A} (P : task A → Prop) :
  (∀ a, P (Done a)) → (∀ f, (∀ c, match f c with Some (t, _) => P t | None => True end) → P (Act f)) → ∀ t, P t.
Proof.
  intros Hd Ha. refine (fix F t := match t with Done a => Hd a | Act f => Ha f (λ c, _) end).
  exact (match f c as r return match r with Some (t, _) => P t | None => True end with Some (t, _) => F t | None => I end).
Qed.

Definition alone {A} (t : task A) (m : CM A) : Prop := ∀ c, run_alone t c = m c.

(** An operation of the library that does not throw. *)
Definition quiet {A} (m : CM A) : Prop := ∀ c e c', m c ≠ Some (Err e, c').

Lemma alone_ret {A} (a : A) : alone (mret a) (mret a).
Proof. done. Qed.

Lemma alone_atom {A} (m : CM A) : quiet m → alone (atom m) m.
Proof. intros Hm c. cbn. specialize (Hm c). destruct (m c) as [[[a|e] c']|]; [done| |done]. by destruct (Hm e c'). Qed.

Lemma alone_bind {A B} (t : task A) (m : CM A) (k : A → task B) (f : A → CM B) :
  alone t m → (∀ a, alone (k a) (f a)) → alone (t ≫= k) (m ≫= f).
Proof.
  intros Hm Hf c. unfold mbind, sm_bind. rewrite <-Hm. clear m Hm. revert c.
  induction t as [a|g IH] using task_induction; intros c; [apply Hf|]. cbn. specialize (IH c). by destruct (g c) as [[t c']|].
Qed.

Section Alone.
Context {PX : Posix} {PF : Platform}.

Lemma quiet_pread fuel path off size : quiet (posix_pread_full fuel path off size).
Proof. intros c e c'. unfold posix_pread_full. destruct (file_at path); [|done]. by destruct (pread_loop _ _ _ _ _ _) as [[[? []] ?]|]. Qed.

Lemma quiet_gds fuel path off size : quiet (memtier_gds_read fuel path off size).
Proof.
  intros c e c'. unfold memtier_gds_read, stub_gds_read, mbind, sm_bind, gets. destruct gds_library as [cufile|]; cbv beta iota.
  - unfold on_gds. destruct (cufile_gds_read _ _ _ _ _) as [[r g]|] eqn:E; [|done]. intros [= -> _].
    by apply cufile_gds_read_returns in E as [? ?].
  - case_match; [done|]. case_match; [done|]. apply quiet_pread.
Qed.

Lemma quiet_lookup k : quiet (cache_lookup k).
Proof. intros c e c'. unfold cache_lookup. by destruct (lookup k (cache c)). Qed.

#[local] Ltac alone_step :=
  first [apply alone_ret | apply alone_atom; first [apply quiet_pread | apply quiet_gds | apply quiet_lookup | by intros c e c'] | done
    | apply alone_bind; [|intros ?] | case_match].

Lemma alone_deliver gpu bytes t m : alone t m → alone (deliver_task gpu bytes t) (deliver gpu bytes m).
Proof. intros H. unfold deliver_task, deliver, copy_task, copy_target. repeat alone_step. Qed.

#[local] Ltac alone_steps := repeat first [apply alone_deliver | alone_step].

Lemma alone_piece fuel path fid cur remaining gpu :
  alone (read_piece_task fuel path fid cur remaining gpu) (read_piece fuel path fid cur remaining gpu).
Proof.
  unfold read_piece_task, read_piece, serve_cached_task, serve_cached, read_gds_task, read_gds, read_posix_task, read_posix. cbv zeta.
  alone_steps.
Qed.

Lemma alone_loop turns fuel path fid offset size gpu out :
  alone (read_loop_task turns fuel path fid offset size gpu out) (read_loop turns fuel path fid offset size gpu out).
Proof.
  revert out. induction turns as [|turns IH]; intros out; cbn [read_loop_task read_loop]; case_match; [by alone_steps..|by alone_steps|].
  apply alone_bind; [apply alone_piece|]. intros [rc bytes]. case_match; [done|apply IH].
Qed.

Lemma alone_prefetch_loop turns fuel path fid offset size n :
  alone (prefetch_loop_task turns fuel path fid offset size n) (prefetch_loop turns fuel path fid offset size n).
Proof.
  revert n. induction turns as [|turns IH]; intros n; cbn [prefetch_loop_task prefetch_loop]; case_match; [by alone_steps..|by alone_steps|].
  apply alone_bind; [alone_step|]. intros o. apply alone_bind; [unfold prefetch_chunk_task, prefetch_chunk, cache_insert; alone_steps|].
  intros rc. case_match; [done|apply IH].
Qed.
End Alone.

(** A worker that nothing disturbs does what memtier_read does: its
    operations, one after another from any context, give the same code, the
    same bytes and the same context. *)
Lemma undisturbed_read `{PX : Posix, PF : Platform} fuel path offset size gpu c :
  run_alone (do_read_task fuel path offset size gpu) c = memtier_read fuel path offset size gpu c.
Proof.
  unfold memtier_read, do_read_task, do_read_impl. case_match; [done|]. case_match; [done|]. apply alone_loop.
Qed.

Lemma undisturbed_prefetch `{PX : Posix, PF : Platform} fuel path offset size c :
  run_alone (prefetch_task fuel path offset size) c = memtier_prefetch fuel path offset size false false c.
Proof. unfold memtier_prefetch, prefetch_task. case_match; [done|]. apply alone_prefetch_loop. Qed.

(** ** Lemmas: work that interference does not disturb *)

(** From any context that agrees with the files, at every step, at most [n]
    steps are left and the result satisfies [Q]. *)
Fixpoint safe `{PX : Posix, PF : Platform} {A} (o : options) (n : nat) (Q : A → Prop) (t : task A) : Prop :=
  match t, n with
  | Done a, _ => Q a
  | Act _, O => False
  | Act f, S n => ∀ c, steady o c → ∃ t' c', f c = Some (t', c') ∧ steady o c' ∧ safe o n Q t'
  end.

Section Safe.
Context {PX : Posix} {PF : Platform}.
Variable o : options.

Abbreviation run m Q := (sm_spec (steady o) m (λ r c, Q r ∧ steady o c) (λ _, False)).

Lemma safe_mono {A} n m (P Q : A → Prop) t : (n ≤ m)%nat → (∀ a, P a → Q a) → safe o n P t → safe o m Q t.
Proof.
  intros Hle HPQ. revert m t Hle. induction n as [|n IH]; intros m [a|f] Hle H; try done; try (destruct m; by apply HPQ).
  destruct m as [|m]; [lia|]. intros c Hc. destruct (H c Hc) as (t & c' & E & Hc' & Ht). exists t, c'. split_and!; [done..|].
  apply IH; [lia|done].
Qed.

Lemma safe_ret {A} n (Q : A → Prop) a : Q a → safe o n Q (mret a).
Proof. by destruct n. Qed.

Lemma safe_bind {A C} n m k (P : A → Prop) (Q : C → Prop) t (f : A → task C) :
  safe o n P t → (∀ a, P a → safe o m Q (f a)) → (n + m ≤ k)%nat → safe o k Q (t ≫= f).
Proof.
  intros Ht Hf Hle. apply (safe_mono (n + m) k Q Q); [done|done|]. clear Hle k. revert t Ht.
  induction n as [|n IH]; intros [a|g] Ht; try done; [by apply Hf| |].
  - apply (safe_mono m _ Q Q); [lia|done|by apply Hf].
  - intros c Hc. destruct (Ht c Hc) as (t & c' & E & Hc' & H). exists (t ≫= f), c'. split_and!; [|done|by apply IH].
    cbn. by rewrite E.
Qed.

Lemma safe_atom {A} (m : CM A) (Q : A → Prop) : run m Q → safe o 1 Q (atom m).
Proof.
  intros H c Hc. destruct (H c Hc) as ([a|e] & c' & E & HQ); [|done]. destruct HQ as [HQ Hc']. exists (Done a), c'. cbn. by rewrite E.
Qed.

(** A step by an operation, then the rest. *)
Lemma safe_step {A C} n (P : A → Prop) (Q : C → Prop) (m : CM A) (f : A → task C) :
  run m P → (∀ a, P a → safe o n Q (f a)) → safe o (S n) Q (atom m ≫= f).
Proof. intros Hm Hf. eapply safe_bind; [by apply safe_atom|exact Hf|lia]. Qed.

Lemma safe_copy gpu : (gpu = true → ∀ n, cuda_success n = true) → safe o 3 (λ rc, rc = MEMTIER_OK) (copy_task gpu).
Proof.
  intros Hcuda. unfold copy_task. destruct gpu; cbn [negb]; [|by apply safe_ret].
  assert (run memtier_cuda_call (λ rc, rc = MEMTIER_OK)) as Hcall.
  { intros c Hc. unfold memtier_cuda_call. rewrite Hcuda by done. eexists _, _. split; [reflexivity|]. split; [done|]. by apply (steady_frame o c). }
  apply (safe_step 2 (λ rc, rc = MEMTIER_OK)); [done|]. intros rc ->. cbn [negb Z.eqb MEMTIER_OK]. apply (safe_step 1 (λ x, x = o)); [apply spec_opts|]. intros o' ->.
  destruct (async_mode o); [by apply safe_ret|]. apply (safe_step 0 (λ rc, rc = MEMTIER_OK)); [done|]. by intros rc ->.
Qed.

Lemma safe_deliver n gpu bytes rest :
  (gpu = true → ∀ n, cuda_success n = true) → safe o n (λ _, True) rest →
  safe o (3 + n) (λ r, r = (MEMTIER_OK, bytes)) (deliver_task gpu bytes rest).
Proof.
  intros Hcuda Hr. unfold deliver_task. eapply safe_bind; [by apply safe_copy| |done]. intros rc ->. cbn [negb Z.eqb MEMTIER_OK].
  eapply safe_bind; [exact Hr|intros _ _; by apply (safe_ret 0)|lia].
Qed.

Lemma safe_stat (f : ctx → ctx) : (∀ c, opts (f c) = opts c) → (∀ c, cache (f c) = cache c) →
  (∀ c, c_gds (f c) = c_gds c) → safe o 1 (λ _, True) (atom (modify f)).
Proof. intros H1 H2 H3. apply safe_atom. by apply spec_stat. Qed.

Section Present.
Variables (B fuel : nat) (path : str) (file : list Z) (gpu : bool).
Hypothesis reliable : os_reliable B.
Hypothesis sound : ids_sound.
Hypothesis contents : file_at path = Some file.
Hypothesis chunk_pos : 0 < o_chunk_size o.
Hypothesis enough : o_chunk_size o * Z.of_nat B ≤ Z.of_nat fuel.
Hypothesis cuda : gpu = true → ∀ n, cuda_success n = true.

Abbreviation chunk := (o_chunk_size o).
Abbreviation piece_ok := (piece_ok file o).

Section Piece.
Variables (cur remaining : Z).
Hypothesis cur_nonneg : 0 ≤ cur.
Hypothesis remaining_pos : 0 < remaining.
Hypothesis inside : cur + remaining ≤ 2 ^ 63.

Abbreviation in_chunk := (cur `mod` chunk).
Abbreviation need := (Z.min (chunk - in_chunk) remaining).
Abbreviation start := (cur `div` chunk * chunk).
Abbreviation k := (file_id_from_path path, cur `div` chunk).

Lemma safe_read_posix caching : safe o 7 (piece_ok cur need) (read_posix_task fuel path k chunk in_chunk cur need caching gpu).
Proof.
  destruct (piece_bounds chunk cur remaining chunk_pos cur_nonneg remaining_pos) as (Hi & Hn & Ec & Hs & Hd).
  unfold read_posix_task. cbv zeta. cbn [snd]. assert (start < 2 ^ 63) by lia. rewrite (wrap_small 64) by (unfold in_width; lia).
  set (roff := if caching then start else cur). set (rsz := if caching then chunk else need).
  set (src := if caching then in_chunk else 0).
  assert (0 ≤ roff < 2 ^ 63 ∧ 0 < rsz ≤ chunk ∧ 0 ≤ src ∧ src + need ≤ rsz ∧ cur = roff + src) as (Hro & Hrs & Hsrc & Hsz & Ecur).
  { unfold roff, rsz, src. destruct caching; lia. }
  eapply safe_step; [by apply (spec_pread B)|]. intros r ->. cbn [negb Z.eqb MEMTIER_OK].
  set (bytes := py_slice file roff (roff + rsz)).
  assert (zlen bytes = Z.max 0 (Z.min (roff + rsz) (zlen file) - roff)) as El by (apply length_py_slice; lia).
  destruct (Z.ltb_spec (zlen bytes) (src + need)) as [Hshort|Hfull]; [apply safe_ret; split; [lia|done]|].
  eapply (safe_mono 6); [done| |apply safe_deliver; [done|]].
  - cbv beta. intros r ->. split; [|lia]. intros _. f_equal. unfold bytes. rewrite py_slice_slice by lia. f_equal; lia.
  - eapply safe_step; [apply spec_opts|]. intros o' ->. apply (safe_bind 1 1 _ (λ _, True)); [|intros; by apply safe_stat|done].
    destruct caching; [|by apply safe_ret]. cbn [andb]. destruct (cache_admit o); [|by apply safe_ret].
    apply safe_atom, spec_modify_run; [done|]. intros c. by apply (steady_insert B fuel path file o contents chunk_pos cur remaining).
Qed.

Lemma safe_read_gds : safe o 6 (piece_ok cur need) (read_gds_task fuel path cur need gpu).
Proof.
  destruct (piece_bounds chunk cur remaining chunk_pos cur_nonneg remaining_pos) as (Hi & Hn & Ec & Hs & Hd). unfold read_gds_task.
  assert (zlen (py_slice file cur (cur + need)) = Z.max 0 (Z.min (cur + need) (zlen file) - cur)) as El by (apply length_py_slice; lia).
  eapply (safe_step 5); [apply (spec_gds_read B fuel path file); first [done | lia]|]. intros [rc bytes] [Hrc|[Eg [= -> ->]]]; cbn [fst] in *.
  - rewrite (proj2 (Z.eqb_neq rc _)) by done.
    eapply safe_step; [apply (spec_pread B); [done..|lia|lia]|]. intros r ->. cbn [negb Z.eqb MEMTIER_OK].
    destruct (Z.ltb_spec (zlen (py_slice file cur (cur + need))) need); [apply safe_ret; split; [lia|done]|].
    eapply (safe_mono 4); [done| |by apply (safe_deliver 1), safe_stat]. cbv beta. intros r ->. split; [done|lia].
  - cbn [Z.eqb MEMTIER_OK]. eapply (safe_mono 4); [lia| |by apply (safe_deliver 1), safe_stat]. cbv beta.
    intros r ->. split; [|congruence]. intros Hin. f_equal. unfold buffer. replace (need - _) with 0 by lia. by rewrite app_nil_r.
Qed.

Lemma safe_serve_cached n :
  chunk_of chunk k (data n) (valid_size n) → in_chunk + need ≤ valid_size n →
  safe o 4 (piece_ok cur need) (serve_cached_task (Some n) in_chunk need gpu).
Proof.
  intros Hk Hin. eapply (safe_mono 4); [done| |by apply (safe_deliver 1), safe_stat]. cbv beta. intros r ->.
  apply (cached_bytes B fuel path file o sound contents chunk_pos cur remaining); done.
Qed.

Lemma safe_read_piece : safe o 10 (piece_ok cur need) (read_piece_task fuel path (file_id_from_path path) cur remaining gpu).
Proof.
  unfold read_piece_task. eapply (safe_step 9); [apply spec_opts|]. intros o' ->. cbv zeta.
  eapply (safe_step 8); [apply spec_cache_lookup|]. intros ce Hce. eapply (safe_step 7); [apply spec_on_selected|]. intros _ _.
  set (hit := match ce with Some n => _ | None => false end).
  destruct (select_path hit cur need o) eqn:E; [|apply safe_read_posix..| |];
    [|eapply (safe_mono 6); [lia|done|apply safe_read_gds]..].
  destruct hit eqn:Eh; [|by apply select_path_hit in E]. destruct ce as [n|]; [|done].
  eapply (safe_mono 4); [lia|done|apply safe_serve_cached; [done|by apply Z.leb_le]].
Qed.
End Piece.

Lemma safe_read_loop offset size turns out :
  0 ≤ offset → 0 < size → offset + size ≤ 2 ^ 63 → (offset + size ≤ zlen file ∨ enable_gds o = false) →
  size - zlen out ≤ Z.of_nat turns → zlen out ≤ size → out = py_slice file offset (offset + zlen out) →
  safe o (10 * turns + 1)
    (λ r, (offset + size ≤ zlen file → r = (MEMTIER_OK, py_slice file offset (offset + size))) ∧
          (zlen file < offset + size → r.1 = MEMTIER_ERR_IO))
    (read_loop_task turns fuel path (file_id_from_path path) offset size gpu out).
Proof.
  intros Ho Hs Hin Hgds. revert out; induction turns as [|turns IH]; intros out Ht Hle Eout; cbn [read_loop_task].
  all: assert (zlen out = Z.max 0 (Z.min (offset + zlen out) (zlen file) - offset)) as El
    by (rewrite Eout at 1; apply length_py_slice; lia).
  all: destruct (Z.leb_spec size (zlen out)) as [Hd|Hd]; [|try lia].
  1,2: eapply (safe_bind 1 0); [by apply safe_stat| |lia]; intros _ _; apply safe_ret;
    assert (zlen out = size) as Ez by lia; split; [intros _; by rewrite Eout, Ez|lia].
  rewrite (wrap_small 64) by (unfold in_width; lia).
  destruct (piece_bounds chunk (offset + zlen out) (size - zlen out) chunk_pos ltac:(lia) ltac:(lia)) as (Hi & Hn & Ec & Hst & Hdv).
  remember (offset + zlen out) as cur eqn:Ecur. remember (size - zlen out) as remaining eqn:Erem.
  eapply (safe_bind 10 (10 * turns + 1)); [apply (safe_read_piece cur remaining); lia| |lia].
  set (need := Z.min (chunk - cur `mod` chunk) remaining) in *.
  intros r [Hok Herr]. destruct (Z.le_gt_cases (cur + need) (zlen file)) as [Hfit|Hout].
  - rewrite Hok by done. cbn [negb Z.eqb MEMTIER_OK].
    assert (out ++ py_slice file cur (cur + need) = py_slice file offset (cur + need)) as Eo.
    { rewrite Eout at 1. apply py_slice_app; lia. }
    assert (zlen (out ++ py_slice file cur (cur + need)) = zlen out + need) as Ez
      by (rewrite length_app, Nat2Z.inj_add, length_py_slice; lia).
    apply IH; [lia|lia|]. rewrite Ez, Eo. f_equal. lia.
  - rewrite Herr; [|done|by destruct Hgds; [lia|]]. cbn [negb Z.eqb MEMTIER_ERR_IO MEMTIER_OK]. apply safe_ret. split; [lia|done].
Qed.
End Present.

(** A file that does not open. *)
Section Missing.
Variables (fuel : nat) (path : str).
Hypothesis sound : ids_sound.
Hypothesis missing : file_at path = None.
Hypothesis chunk_pos : 0 < o_chunk_size o.

Lemma safe_missing_piece cur remaining gpu :
  0 ≤ cur → 0 < remaining →
  safe o 10 (λ r, r.1 = MEMTIER_ERR_IO) (read_piece_task fuel path (file_id_from_path path) cur remaining gpu).
Proof.
  intros Hc Hr. pose proof (Z.mod_pos_bound cur (o_chunk_size o) chunk_pos).
  unfold read_piece_task. eapply (safe_step 9); [apply spec_opts|]. intros o' ->. cbv zeta.
  eapply (safe_step 8 (λ ce, ce = None)); [by apply spec_missing_lookup|].
  intros ce ->. eapply (safe_step 7); [apply spec_on_selected|]. intros _ _.
  destruct (select_path false _ _ o) eqn:E; [by apply select_path_hit in E|..].
  1,2: unfold read_posix_task; cbv zeta; eapply (safe_step 6); [by apply spec_missing_pread|]; intros r ->; by apply safe_ret.
  all: unfold read_gds_task; eapply (safe_step 6); [by apply spec_missing_gds; [..|lia]|]; intros [rc bytes] Hrc; cbn [fst] in Hrc;
    rewrite (proj2 (Z.eqb_neq rc _)) by done; eapply (safe_step 5); [by apply spec_missing_pread|]; intros r ->; by apply safe_ret.
Qed.

Lemma safe_missing_loop turns offset size gpu :
  0 < size → (0 < turns)%nat →
  safe o (10 * turns + 1) (λ r, r.1 = MEMTIER_ERR_IO) (read_loop_task turns fuel path (file_id_from_path path) offset size gpu []).
Proof.
  intros Hs Ht. destruct turns as [|turns]; [lia|]. cbn [read_loop_task]. rewrite (proj2 (Z.leb_gt size _)) by (cbn; lia).
  eapply (safe_bind 10 0); [apply safe_missing_piece; [apply wrap_in_width; lia|cbn; lia]| |lia]. intros [rc bytes] Hrc. cbn [fst] in Hrc. subst rc. by apply safe_ret.
Qed.
End Missing.

(** *** A request *)

(** The steps of a request. *)
Definition cost (cl : call) : nat := 10 * Z.to_nat (c_size cl) + 1.

Lemma safe_call B fuel cl :
  os_reliable B → ids_sound → 0 < o_chunk_size o → o_chunk_size o * Z.of_nat B ≤ Z.of_nat fuel → call_ok o cl →
  safe o (cost cl) (answer cl) (call_task fuel cl).
Proof.
  intros HB Hid Hchunk Hfuel (C1 & C2 & C3 & C4 & C5). unfold call_task, do_read_task, answer.
  destruct (Z.eqb_spec (c_size cl) 0) as [E|E]; [by apply safe_ret|].
  destruct (c_gpu cl && negb memtier_cuda_available) eqn:Eg; [by apply safe_ret|].
  assert (c_gpu cl = true → ∀ n, cuda_success n = true) as Hcuda.
  { intros Hg. apply C4; [done|]. rewrite Hg in Eg. by destruct memtier_cuda_available. }
  unfold range_bytes in *. destruct (file_at (c_path cl)) as [file|] eqn:Ef.
  - eapply safe_mono; [done| |apply (safe_read_loop B fuel (c_path cl) file); try done; try (cbn; lia)].
    + cbv beta. intros r [Hok Herr]. destruct (Z.leb_spec (c_offset cl + c_size cl) (zlen file)); auto.
    + destruct C5 as [|C5]; [by right|]. destruct (Z.leb_spec (c_offset cl + c_size cl) (zlen file)); [by left|by destruct C5].
    + rewrite py_slice_nonneg by (cbn; lia). by replace (Z.to_nat _) with 0%nat by (cbn; lia).
  - apply safe_missing_loop; [done|done|done|lia|lia].
Qed.
(** *** A prefetch *)

Section Prefetch.
Variables (B fuel : nat) (path : str).
Hypothesis reliable : os_reliable B.
Hypothesis sound : ids_sound.
Hypothesis chunk_pos : 0 < o_chunk_size o.
Hypothesis enough : o_chunk_size o * Z.of_nat B ≤ Z.of_nat fuel.

Abbreviation chunk := (o_chunk_size o).
Abbreviation code := (match file_at path with Some _ => MEMTIER_OK | None => MEMTIER_ERR_IO end).

Lemma safe_prefetch_chunk cur :
  0 ≤ cur < 2 ^ 63 →
  safe o 4 (λ rc, rc = code) (prefetch_chunk_task fuel path (file_id_from_path path, cur `div` chunk) chunk).
Proof.
  intros Hcur. destruct (piece_bounds chunk cur 1 chunk_pos ltac:(lia) ltac:(lia)) as (Hi & _ & Ec & Hs & Hd).
  unfold prefetch_chunk_task. cbn [snd].
  apply (safe_step 3 (λ present, present = true → is_Some (file_at path))).
  { intros c Hc. eexists _, _. split; [reflexivity|]. split; [|done]. intros Hin. destruct (file_at path) eqn:Ef; [done|].
    apply bool_decide_eq_true in Hin as [n Hn]. pose proof (missing_lookup path sound Ef (cur `div` chunk) c (proj2 Hc)) as E. unfold lookup in E.
    by rewrite Hn in E. }
  intros present Hp. destruct present; [destruct Hp as [file Ef]; [done|]; rewrite Ef; by apply safe_ret|].
  rewrite (wrap_small 64) by (unfold in_width; lia). destruct (file_at path) as [file|] eqn:Ef.
  - eapply safe_step; [apply (spec_pread B fuel path file); done || lia|]. intros r ->. cbn [negb Z.eqb MEMTIER_OK].
    apply (safe_step 1 (λ _, True)).
    { apply spec_modify_run; [done|]. intros c. apply (steady_insert B fuel path file o Ef chunk_pos cur 1); [lia..|done]. }
    intros _ _. apply (safe_step 0 (λ _, True)); [by apply spec_stat|]. intros _ _. by apply safe_ret.
  - eapply safe_step; [by apply spec_missing_pread|]. intros r ->. by apply safe_ret.
Qed.

Lemma safe_prefetch_loop offset size turns done :
  0 ≤ offset → offset + size ≤ 2 ^ 63 → 0 ≤ done → size - done ≤ Z.of_nat turns → done < size ∨ is_Some (file_at path) →
  safe o (5 * turns + 1) (λ rc, rc = code) (prefetch_loop_task turns fuel path (file_id_from_path path) offset size done).
Proof.
  intros Ho Hin. revert done; induction turns as [|turns IH]; intros dn Hd Ht Hf; cbn [prefetch_loop_task].
  all: destruct (Z.leb_spec size dn) as [Hle|Hlt]; [|try lia].
  1,2: destruct Hf as [|[file Ef]]; [lia|]; rewrite Ef; eapply (safe_bind 1 0); [by apply safe_stat| |lia]; intros _ _; by apply safe_ret.
  apply (safe_mono (S (4 + (5 * turns + 1))) _ (λ rc, rc = code) _); [lia|done|].
  eapply safe_step; [apply spec_opts|]. intros o' ->. cbv zeta. rewrite (wrap_small 64) by (unfold in_width; lia).
  eapply (safe_bind 4 (5 * turns + 1)); [apply safe_prefetch_chunk; lia| |lia]. cbv beta. intros rc Hrc.
  pose proof (Z.mod_pos_bound (offset + dn) chunk chunk_pos). destruct (file_at path) as [file|] eqn:Ef; subst rc; cbn [negb Z.eqb MEMTIER_OK MEMTIER_ERR_IO].
  - apply IH; [lia|lia|right; by eexists].
  - by apply safe_ret.
Qed.
End Prefetch.

Lemma safe_job B fuel j :
  os_reliable B → ids_sound → 0 < o_chunk_size o → o_chunk_size o * Z.of_nat B ≤ Z.of_nat fuel → job_ok o j →
  ∃ n, safe o n (job_answer j) (job_task fuel j).
Proof.
  intros HB Hid Hchunk Hfuel. destruct j as [cl|cl]; cbn [job_ok job_answer job_task].
  - intros Hok. exists (cost cl). by apply (safe_call B).
  - intros (H1 & H2 & H3). unfold prefetch_task. destruct (Z.eqb_spec (c_size cl) 0) as [E|E]; [exists 0%nat; cbn; by rewrite ?E|].
    eexists. eapply (safe_bind _ 0); [apply (safe_prefetch_loop B fuel (c_path cl)); try done; lia| |reflexivity].
    cbv beta. intros rc ->. apply safe_ret. cbn. by rewrite ?(proj2 (Z.eqb_neq _ _) E).
Qed.
End Safe.
