(* ===== verification/Requests.v ===== *)
(** Asynchronous requests: the queue, the worker threads, their condition
    variables and the requests of libmemtier (src/api.cpp,
    src/memtier_internal.h).

    A thread that waits on a condition variable is asleep until a notification
    (or a spurious wakeup) lets it evaluate its condition again; evaluating it
    and going to sleep is one step, since both happen under the mutex.
    Setting what a condition reads and notifying are two steps, since the code
    notifies after it has released the mutex: [memtier_read_async] queues a
    request and then wakes one worker, [memtier_finalize] stores [stop] and then
    wakes them all, and a worker stores a result and then wakes the request's
    waiters.  [turn] is one step of a thread inside the library, [pool_step]
    also what clients may do.  Requests are named by the order of their
    allocation, which is never reused, unlike an address.

    [requests_served] shows that under every interleaving each finished request
    has the code and the bytes of its range; [requests_complete] that no wakeup
    is lost: without further calls or spurious wakeups the threads come to rest,
    and then every call has returned.  [notify_after_free] is the step of a
    worker that the code does not protect: it notifies a request that its
    client, whose [memtier_wait] has returned, has freed. *)

From S2P Require Import Prelude PyText Posix LibTypes GdsBackend ChunkCache LibMemtier ReadV ReadTasks.

(** ** The requests and the threads *)

Definition MEMTIER_ERR_INTERNAL : Z := -5.

(** [memtier_req_s]; [rq_bytes] is what its destination holds once it is done. *)
Record request := { rq_call : call; rq_result : Z; rq_done : bool; rq_bytes : list Z }.

(** Where a worker thread is: about to evaluate the condition of [q_cv.wait],
    asleep in it, reading for a request, about to notify its waiters, or gone. *)
Inductive worker : Type :=
| Waking
| Asleep
| Reading (r : nat) (t : task (Z * list Z))
| Notifying (r : nat)
| Exited.

(** Where a client's call is. *)
Inductive client : Type :=
| Submitting (r : nat)                          (* in [memtier_read_async], the request queued *)
| Submitted (r : nat)                           (* it returned, with the request in [*out] *)
| WaitWaking (r : nat)                          (* in [memtier_wait], about to evaluate its condition *)
| WaitAsleep (r : nat)
| WaitReturned (r : nat) (code : Z) (bytes : list Z)   (* the result, and what the destination then holds *)
| Calling (j : job) (t : task (Z * list Z)).    (* in [memtier_read] or [memtier_prefetch], or returned *)

(** Where [memtier_finalize] is. *)
Inductive finalizer : Type :=
| NotCalled
| Stopping        (* [stop] is stored *)
| Joining         (* the workers are notified *)
| Finalized.      (* the workers are joined and the context is deleted *)

(** The context with its queue, its workers and [stop]; the requests that
    exist; the arguments of all that were made, by the order of their
    allocation; the calls of clients. *)
Record pool := {
  p_ctx : ctx;
  p_queue : list nat;
  p_stop : bool;
  p_workers : list worker;
  p_requests : gmap nat request;
  p_calls : list call;
  p_clients : list client;
  p_final : finalizer;
}.

Definition set_ctx (c : ctx) (p : pool) : pool :=
  {| p_ctx := c; p_queue := p_queue p; p_stop := p_stop p; p_workers := p_workers p; p_requests := p_requests p;
     p_calls := p_calls p; p_clients := p_clients p; p_final := p_final p |}.
Definition set_queue (q : list nat) (p : pool) : pool :=
  {| p_ctx := p_ctx p; p_queue := q; p_stop := p_stop p; p_workers := p_workers p; p_requests := p_requests p;
     p_calls := p_calls p; p_clients := p_clients p; p_final := p_final p |}.
Definition set_workers (ws : list worker) (p : pool) : pool :=
  {| p_ctx := p_ctx p; p_queue := p_queue p; p_stop := p_stop p; p_workers := ws; p_requests := p_requests p;
     p_calls := p_calls p; p_clients := p_clients p; p_final := p_final p |}.
Definition set_requests (m : gmap nat request) (p : pool) : pool :=
  {| p_ctx := p_ctx p; p_queue := p_queue p; p_stop := p_stop p; p_workers := p_workers p; p_requests := m;
     p_calls := p_calls p; p_clients := p_clients p; p_final := p_final p |}.
Definition set_clients (l : list client) (p : pool) : pool :=
  {| p_ctx := p_ctx p; p_queue := p_queue p; p_stop := p_stop p; p_workers := p_workers p; p_requests := p_requests p;
     p_calls := p_calls p; p_clients := l; p_final := p_final p |}.
Definition set_final (stop : bool) (f : finalizer) (p : pool) : pool :=
  {| p_ctx := p_ctx p; p_queue := p_queue p; p_stop := stop; p_workers := p_workers p; p_requests := p_requests p;
     p_calls := p_calls p; p_clients := p_clients p; p_final := f |}.
Definition set_worker (i : nat) (w : worker) (p : pool) : pool := set_workers (<[i := w]> (p_workers p)) p.
Definition set_client (k : nat) (c : client) (p : pool) : pool := set_clients (<[k := c]> (p_clients p)) p.
Definition add_client (c : client) (p : pool) : pool := set_clients (p_clients p ++ [c]) p.

(** [memtier_init]: the context and its workers, which have yet to look at the
    queue. *)
Definition start_pool (o : option options) : pool :=
  let c := memtier_init o in
  {| p_ctx := c; p_queue := []; p_stop := false; p_workers := replicate (Z.to_nat (num_workers (opts c))) Waking;
     p_requests := ∅; p_calls := []; p_clients := []; p_final := NotCalled |}.

(** [memtier_read_async], up to its notification: the request is queued. *)
Definition memtier_read_async (cl : call) (p : pool) : pool :=
  let r := length (p_calls p) in
  {| p_ctx := p_ctx p; p_queue := p_queue p ++ [r]; p_stop := p_stop p; p_workers := p_workers p;
     p_requests := <[r := {| rq_call := cl; rq_result := MEMTIER_ERR_INTERNAL; rq_done := false; rq_bytes := [] |}]> (p_requests p);
     p_calls := p_calls p ++ [cl]; p_clients := p_clients p ++ [Submitting r]; p_final := p_final p |}.

(** [memtier_wait], up to the condition of its wait. *)
Definition memtier_wait (r : nat) (p : pool) : pool := add_client (WaitWaking r) p.

Definition memtier_test (r : nat) (p : pool) : option Z :=
  rq ← p_requests p !! r; Some (if rq_done rq then 1 else 0).
Definition memtier_request_status (r : nat) (p : pool) : option Z := rq ← p_requests p !! r; Some (rq_result rq).
Definition memtier_request_free (r : nat) (p : pool) : pool := set_requests (delete r (p_requests p)) p.

(** [memtier_finalize], up to its notification. *)
Definition memtier_finalize (p : pool) : pool := set_final true Stopping p.

(** The end of a worker's read: the result and [done] are stored. *)
Definition finish (r : nat) (rq : request) (rc : Z) (bytes : list Z) (p : pool) : pool :=
  set_requests (<[r := {| rq_call := rq_call rq; rq_result := rc; rq_done := true; rq_bytes := bytes |}]> (p_requests p)) p.

(** ** Notifications *)

Definition asleep (w : worker) : bool := match w with Asleep => true | _ => false end.
Definition exited (w : worker) : bool := match w with Exited => true | _ => false end.

Definition wake_worker (w : worker) : worker := match w with Asleep => Waking | w => w end.
Definition wake_waiter (r : nat) (c : client) : client :=
  match c with WaitAsleep r' => if decide (r' = r) then WaitWaking r else c | c => c end.

(** [q_cv.notify_one()]: it wakes a worker that is asleep, here [i], if there
    is one. *)
Definition notify_one (i : nat) (p : pool) : option pool :=
  if existsb asleep (p_workers p) then
    match p_workers p !! i with Some Asleep => Some (set_worker i Waking p) | _ => None end
  else Some p.

(** [q_cv.notify_all()] *)
Definition notify_workers (p : pool) : pool := set_workers (wake_worker <$> p_workers p) p.

(** [r->cv.notify_all()]: the request must still exist. *)
Definition notify_waiters (r : nat) (p : pool) : option pool :=
  _ ← p_requests p !! r; Some (set_clients (wake_waiter r <$> p_clients p) p).

(** ** Steps *)

Section Steps.
  Context {PX : Posix} {PF : Platform}.
  Variable fuel : nat.

  (** The loop of worker thread [i]. *)
Definition worker_turn (i : nat) (p : pool) : option pool :=
    match p_workers p !! i with
    | Some Waking =>
        match p_queue p with
        | r :: q => rq ← p_requests p !! r; Some (set_queue q (set_worker i (Reading r (call_task fuel (rq_call rq))) p))
        | [] => Some (set_worker i (if p_stop p then Exited else Asleep) p)
        end
    | Some (Reading r (Act f)) => '(t, c) ← f (p_ctx p); Some (set_ctx c (set_worker i (Reading r t) p))
    | Some (Reading r (Done (rc, bytes))) =>
        rq ← p_requests p !! r; Some (set_worker i (Notifying r) (finish r rq rc bytes p))
    | Some (Notifying r) => p ← notify_waiters r p; Some (set_worker i Waking p)
    | Some Asleep | Some Exited | None => None
    end.

  (** The call of client [k]; [i] is the worker its notification wakes. *)
Definition client_turn (k i : nat) (p : pool) : option pool :=
    match p_clients p !! k with
    | Some (Submitting r) => p ← notify_one i p; Some (set_client k (Submitted r) p)
    | Some (WaitWaking r) =>
        rq ← p_requests p !! r;
        Some (set_client k (if rq_done rq then WaitReturned r (rq_result rq) (rq_bytes rq) else WaitAsleep r) p)
    | Some (Calling j (Act f)) => '(t, c) ← f (p_ctx p); Some (set_ctx c (set_client k (Calling j t) p))
    | _ => None
    end.

  (** The rest of [memtier_finalize]: the notification, and the return once
      every worker has been joined. *)
Definition finalizer_turn (p : pool) : option pool :=
    match p_final p with
    | Stopping => Some (set_final (p_stop p) Joining (notify_workers p))
    | Joining =>
        if forallb exited (p_workers p) then Some (set_final (p_stop p) Finalized p) else None
    | NotCalled | Finalized => None
    end.

Inductive agent : Type :=
  | Worker (i : nat)
  | Client (k i : nat)
  | Finalizer.

  (** A step of a thread inside the library. *)
Definition turn (a : agent) (p : pool) : option pool :=
    match a with Worker i => worker_turn i p | Client k i => client_turn k i p | Finalizer => finalizer_turn p end.

Definition lib_step (p p' : pool) : Prop := ∃ a, turn a p = Some p'.

  (** The call does not use the context any more, or not at all. *)
Definition outside (c : client) : Prop :=
    match c with Submitting _ | Calling _ (Act _) => False | _ => True end.

  (** The call is inside [memtier_wait] for [r]. *)
Definition waits_for (r : nat) (c : client) : Prop :=
    match c with WaitWaking r' | WaitAsleep r' => r' = r | _ => False end.

  (** What can happen next.  A request is waited for or freed once it has been
      returned, and freed when it is done and nobody waits for it, at most once;
      [memtier_finalize] is called once, when no call uses the context, and no
      call uses it afterwards. *)
Inductive pool_step : pool → pool → Prop :=
  | LibStep p p' : lib_step p p' → pool_step p p'
  | AsyncStep p cl : p_stop p = false → call_ok (opts (p_ctx p)) cl → pool_step p (memtier_read_async cl p)
  | CallStep p j : p_stop p = false → job_ok (opts (p_ctx p)) j → pool_step p (add_client (Calling j (job_task fuel j)) p)
  | WaitStep p r : Submitted r ∈ p_clients p → is_Some (p_requests p !! r) → pool_step p (memtier_wait r p)
  | FreeStep p r rq :
      Submitted r ∈ p_clients p → p_requests p !! r = Some rq → rq_done rq = true →
      Forall (λ c, ¬ waits_for r c) (p_clients p) → pool_step p (memtier_request_free r p)
  | FinalizeStep p : p_stop p = false → Forall outside (p_clients p) → pool_step p (memtier_finalize p)
  | SpuriousWorker p i : p_workers p !! i = Some Asleep → pool_step p (set_worker i Waking p)
  | SpuriousWaiter p k r : p_clients p !! k = Some (WaitAsleep r) → pool_step p (set_client k (WaitWaking r) p).

  (** A worker is about to notify the waiters of a request that is freed. *)
Definition uaf (p : pool) : Prop := ∃ i r, p_workers p !! i = Some (Notifying r) ∧ p_requests p !! r = None.

  (** No thread of the library can make a step. *)
Definition at_rest (p : pool) : Prop := ∀ p', ¬ lib_step p p'.
End Steps.

(** ** Lemmas on lists *)

Lemma sum_zip_insert {A C} (f : A → C → nat) l1 l2 i x y x' y' :
  l1 !! i = Some x → l2 !! i = Some y →
  (sum_list (zip_with f (<[i:=x']> l1) (<[i:=y']> l2)) + f x y = sum_list (zip_with f l1 l2) + f x' y')%nat.
Proof.
  revert l1 l2. induction i as [|i IH]; intros [|a l1] [|b l2] E1 E2; try done.
  - injection E1 as ->. injection E2 as ->. cbn. lia.
  - specialize (IH l1 l2 E1 E2).
    change (f a b + sum_list (zip_with f (<[i:=x']> l1) (<[i:=y']> l2)) + f x y = f a b + sum_list (zip_with f l1 l2) + f x' y')%nat. lia.
Qed.

Lemma sum_zip_map {A C} (f : A → C → nat) (g : A → A) l1 l2 d :
  (∀ x y, f (g x) y ≤ f x y + d)%nat →
  (sum_list (zip_with f (g <$> l1) l2) ≤ sum_list (zip_with f l1 l2) + d * length l1)%nat.
Proof.
  intros H. revert l2. induction l1 as [|a l1 IH]; intros [|b l2]; cbn; try lia. specialize (IH l2). specialize (H a b). nia.
Qed.

Lemma sum_zip_snoc {A C} (f : A → C → nat) l1 l2 x y :
  length l1 = length l2 → sum_list (zip_with f (l1 ++ [x]) (l2 ++ [y])) = (sum_list (zip_with f l1 l2) + f x y)%nat.
Proof. intros H. rewrite zip_with_app by done. rewrite sum_list_with_app. cbn. lia. Qed.

Lemma existsb_asleep ws : existsb asleep ws = false ↔ Asleep ∉ ws.
Proof.
  rewrite <-not_true_iff_false, existsb_exists. split; intros H; contradict H.
  - exists Asleep. by rewrite <-list_elem_of_In.
  - destruct H as ([] & H & E); try done. by apply list_elem_of_In.
Qed.

(** ** The invariant *)

(** The request a worker is reading. *)
Definition reading (w : worker) : option nat := match w with Reading r _ => Some r | _ => None end.

(** The worker will look at the queue again. *)
Definition awake (w : worker) : Prop := asleep w = false ∧ exited w = false.

(** The steps left: of a queued request, with [W] calls of clients; of a worker
    and of a call whose reads have [k] steps left; of [memtier_finalize] with
    [V] workers.  A step that notifies pays for those it may wake. *)
Definition queued_cost (W : nat) (m : gmap nat request) (r : nat) : nat :=
  match m !! r with Some rq => cost (rq_call rq) + W + 3 | None => 0 end.
Definition worker_cost (W : nat) (w : worker) (k : nat) : nat :=
  match w with Waking => 1 | Reading _ _ => k + W + 3 | Notifying _ => W + 2 | Asleep | Exited => 0 end.
Definition client_cost (c : client) (k : nat) : nat :=
  match c with Submitting _ => 2 | WaitWaking _ => 1 | Calling _ _ => k | _ => 0 end.
Definition final_cost (V : nat) (f : finalizer) : nat :=
  match f with Stopping => V + 2 | Joining => 1 | NotCalled | Finalized => 0 end.

Definition steps_left (ns ks : list nat) (p : pool) : nat :=
  let W := length (p_clients p) in
  sum_list (queued_cost W (p_requests p) <$> p_queue p) + sum_list (zip_with (worker_cost W) (p_workers p) ns)
  + sum_list (zip_with client_cost (p_clients p) ks) + final_cost (length (p_workers p)) (p_final p).

Section Pool.
Context {PX : Posix} {PF : Platform}.
Variables (B fuel : nat) (o : options).
Hypothesis reliable : os_reliable B.
Hypothesis sound : ids_sound.
Hypothesis chunk_pos : 0 < o_chunk_size o.
Hypothesis enough : o_chunk_size o * Z.of_nat B ≤ Z.of_nat fuel.

(** What a worker or a call may be doing, its reads with at most [k] steps left. *)
Definition worker_ok (m : gmap nat request) (w : worker) (k : nat) : Prop :=
  match w with
  | Reading r t => ∃ rq, m !! r = Some rq ∧ rq_done rq = false ∧ safe o k (answer (rq_call rq)) t
  | _ => True
  end.
Definition client_ok (m : gmap nat request) (calls : list call) (c : client) (k : nat) : Prop :=
  match c with
  | Submitting r | Submitted r => True
  | WaitWaking r | WaitAsleep r => is_Some (m !! r)
  | WaitReturned r code bytes => ∃ cl, calls !! r = Some cl ∧ answer cl (code, bytes)
  | Calling j t => safe o k (job_answer j) t
  end.

Record good (ns ks : list nat) (p : pool) : Prop := {
  g_ctx : steady o (p_ctx p);
  g_requests : ∀ r rq, p_requests p !! r = Some rq →
    call_ok o (rq_call rq) ∧ p_calls p !! r = Some (rq_call rq) ∧
    if rq_done rq then answer (rq_call rq) (rq_result rq, rq_bytes rq)
    else r ∈ p_queue p ∨ ∃ i w, p_workers p !! i = Some w ∧ reading w = Some r;
  g_queue : ∀ r, r ∈ p_queue p → ∃ rq, p_requests p !! r = Some rq ∧ rq_done rq = false;
  g_nodup : NoDup (p_queue p);
  g_once : ∀ i w r, p_workers p !! i = Some w → reading w = Some r →
    r ∉ p_queue p ∧ ∀ j w', p_workers p !! j = Some w' → reading w' = Some r → i = j;
  g_workers : Forall2 (worker_ok (p_requests p)) (p_workers p) ns;
  g_clients : Forall2 (client_ok (p_requests p) (p_calls p)) (p_clients p) ks;
  g_some : p_workers p ≠ [];
  g_exited : ∀ i w, p_workers p !! i = Some w → exited w = true → p_stop p = true ∧ p_queue p = [];
  (** No wakeup is lost. *)
  g_awake : p_queue p ≠ [] → (∃ i w, p_workers p !! i = Some w ∧ awake w) ∨ ∃ k r, p_clients p !! k = Some (Submitting r);
  g_waiters : ∀ k r rq, p_clients p !! k = Some (WaitAsleep r) → p_requests p !! r = Some rq → rq_done rq = true →
    ∃ i, p_workers p !! i = Some (Notifying r);
  g_stop : p_stop p = false ↔ p_final p = NotCalled;
  g_joining : p_final p = Joining ∨ p_final p = Finalized → ∀ i w, p_workers p !! i = Some w → asleep w = false;
}.

#[local] Ltac fields := cbn [set_ctx set_queue set_workers set_requests set_clients set_final set_worker set_client add_client
  memtier_read_async memtier_wait memtier_request_free memtier_finalize finish notify_workers
  p_ctx p_queue p_stop p_workers p_requests p_calls p_clients p_final] in *.

(** *** One thread changes *)

Lemma good_ctx ns ks p c : good ns ks p → steady o c → good ns ks (set_ctx c p).
Proof. intros [] Hc. by constructor. Qed.

Lemma good_worker ns ks p i w w' k :
  good ns ks p → p_workers p !! i = Some w → reading w' = reading w → worker_ok (p_requests p) w' k →
  (exited w' = true → p_stop p = true ∧ p_queue p = []) → (asleep w' = true → p_stop p = false ∧ p_queue p = []) →
  (∀ j r, w = Notifying r → p_clients p !! j ≠ Some (WaitAsleep r)) →
  good (<[i:=k]> ns) ks (set_worker i w' p).
Proof.
  intros [] Ei Hr Hk Hex Has Hnot.
  assert (i < length (p_workers p))%nat as Hi by (by eapply lookup_lt_Some).
  assert (∀ j v, <[i:=w']> (p_workers p) !! j = Some v → ∃ v', p_workers p !! j = Some v' ∧ reading v = reading v' ∧ (v = w' ∨ v = v')) as Hold.
  { intros j v [(<- & <- & _)|[? ?]]%list_lookup_insert_Some; [exists w|exists v]; auto. }
  assert (∀ j v, p_workers p !! j = Some v → ∃ v', <[i:=w']> (p_workers p) !! j = Some v' ∧ reading v' = reading v) as Hnew.
  { intros j v Ej. destruct (decide (j = i)) as [->|]; [exists w'; rewrite list_lookup_insert_eq by done; split; congruence|].
    exists v. by rewrite list_lookup_insert_ne. }
  constructor; fields; try done.
  - intros r rq E. destruct (g_requests0 r rq E) as (H1 & H2 & H3). split_and!; [done..|]. destruct (rq_done rq); [done|].
    destruct H3 as [|(j & v & Ej & Ev)]; [by left|]. right. destruct (Hnew j v Ej) as (v' & ? & ?). exists j, v'. split; congruence.
  - intros j v r Ej Ev. destruct (Hold j v Ej) as (v' & Ej' & Ev' & _). destruct (g_once0 j v' r Ej') as [H1 H2]; [congruence|].
    split; [done|]. intros j2 v2 Ej2 Ev2. destruct (Hold j2 v2 Ej2) as (v2' & ? & ? & _). apply (H2 j2 v2'); congruence.
  - by apply Forall2_insert.
  - intros E%(f_equal length). rewrite length_insert in E. destruct (p_workers p); [cbn in Hi; lia|done].
  - intros j v Ej Ev. destruct (Hold j v Ej) as (v' & Ej' & _ & [->| ->]); [by apply Hex|by apply (g_exited0 j v')].
  - intros Hq. destruct (g_awake0 Hq) as [(j & v & Ej & Hv)|]; [left|by right]. destruct (decide (j = i)) as [->|].
    + exists i, w'. rewrite list_lookup_insert_eq by done. split; [done|]. split; apply not_true_iff_false; intros E.
      * by destruct (Has E).
      * by destruct (Hex E).
    + exists j, v. by rewrite list_lookup_insert_ne.
  - intros j r rq Ej Er Hd. destruct (g_waiters0 j r rq Ej Er Hd) as (i' & Ei'). exists i'. destruct (decide (i' = i)) as [->|].
    + simplify_eq. by destruct (Hnot j r eq_refl).
    + by rewrite list_lookup_insert_ne.
  - intros Hf j v Ej. apply not_true_iff_false. intros E. destruct (Hold j v Ej) as (v' & Ej' & _ & [->| ->]).
    + destruct (Has E) as [E0 _]. apply g_stop0 in E0. destruct Hf; congruence.
    + by rewrite (g_joining0 Hf j v' Ej') in E.
Qed.

Lemma good_client ns ks p j c c' k :
  good ns ks p → p_clients p !! j = Some c → client_ok (p_requests p) (p_calls p) c' k →
  (∀ r, c = Submitting r → p_queue p ≠ [] → ∃ i w, p_workers p !! i = Some w ∧ awake w) →
  (∀ r rq, c' = WaitAsleep r → p_requests p !! r = Some rq → rq_done rq = false) →
  good ns (<[j:=k]> ks) (set_client j c' p).
Proof.
  intros [] Ej Hk Hsub Hsleep. constructor; fields; try done.
  - by apply Forall2_insert.
  - intros Hq. destruct (g_awake0 Hq) as [|(j' & r & Ej')]; [by left|]. destruct (decide (j' = j)) as [->|].
    + left. apply (Hsub r); [congruence|done].
    + right. exists j', r. by rewrite list_lookup_insert_ne.
  - intros j' r rq [(<- & -> & _)|[? Ej']]%list_lookup_insert_Some Er Hd; [|by apply (g_waiters0 j' r rq)].
    by rewrite (Hsleep r rq eq_refl Er) in Hd.
Qed.

Lemma good_add_client ns ks p c k :
  good ns ks p → client_ok (p_requests p) (p_calls p) c k → (∀ r, c ≠ WaitAsleep r) → good ns (ks ++ [k]) (add_client c p).
Proof.
  intros [] Hk Hc. constructor; fields; try done.
  - apply Forall2_app; [done|by constructor].
  - intros Hq. destruct (g_awake0 Hq) as [|(j & r & Ej)]; [by left|right]. exists j, r. by apply lookup_app_l_Some.
  - intros j r rq [Ej|[_ Ej]]%lookup_app_Some; [by apply (g_waiters0 j r rq)|]. destruct (_ - _)%nat; [|done]. injection Ej as ->. by destruct (Hc r).
Qed.
(** *** Notifications *)

Lemma reading_wake w : reading (wake_worker w) = reading w.
Proof. by destruct w. Qed.
Lemma asleep_wake w : asleep (wake_worker w) = false.
Proof. by destruct w. Qed.
Lemma exited_wake w : exited (wake_worker w) = exited w.
Proof. by destruct w. Qed.
Lemma worker_ok_wake m w k : worker_ok m w k → worker_ok m (wake_worker w) k.
Proof. by destruct w. Qed.

Lemma fmap_lookup_Some {A C} (f : A → C) (l : list A) i y : (f <$> l) !! i = Some y ↔ ∃ x, l !! i = Some x ∧ y = f x.
Proof. by rewrite list_lookup_fmap, fmap_Some. Qed.

(** [memtier_finalize] wakes every worker. *)
Lemma good_notify_workers ns ks p :
  good ns ks p → p_final p = Stopping → good ns ks (set_final (p_stop p) Joining (notify_workers p)).
Proof.
  intros [] Hf. constructor; fields; try done.
  - intros r rq E. destruct (g_requests0 r rq E) as (H1 & H2 & H3). split_and!; [done..|]. destruct (rq_done rq); [done|].
    destruct H3 as [|(i & w & Ei & Ew)]; [by left|right]. exists i, (wake_worker w). rewrite list_lookup_fmap, Ei, reading_wake. done.
  - intros i w' r (w & Ei & ->)%fmap_lookup_Some Ew. rewrite reading_wake in Ew. destruct (g_once0 i w r Ei Ew) as [H1 H2].
    split; [done|]. intros j v' (v & Ej & ->)%fmap_lookup_Some. rewrite reading_wake. by apply H2.
  - clear -g_workers0. induction g_workers0; constructor; [by apply worker_ok_wake|done].
  - by destruct (p_workers p).
  - intros i w' (w & Ei & ->)%fmap_lookup_Some. rewrite exited_wake. by apply (g_exited0 i).
  - intros Hq. destruct (g_awake0 Hq) as [(i & w & Ei & H1 & H2)|]; [left|by right].
    exists i, (wake_worker w). rewrite list_lookup_fmap, Ei. split; [done|]. split; [apply asleep_wake|by rewrite exited_wake].
  - intros k r rq Ek Er Hd. destruct (g_waiters0 k r rq Ek Er Hd) as (i & Ei). exists i. by rewrite list_lookup_fmap, Ei.
  - destruct g_stop0 as [H _]. split; [|done]. intros E. rewrite (H E) in Hf. done.
  - intros _ i w' (w & Ei & ->)%fmap_lookup_Some. apply asleep_wake.
Qed.

(** A worker wakes the waiters of its request. *)
Lemma good_notify_waiters ns ks p r :
  good ns ks p → is_Some (p_requests p !! r) → good ns ks (set_clients (wake_waiter r <$> p_clients p) p).
Proof.
  intros [] Hr. assert (∀ c r', wake_waiter r c = WaitAsleep r' → c = WaitAsleep r') as Hw.
  { intros [] r'; cbn; try done. by case_decide. }
  assert (∀ c k, client_ok (p_requests p) (p_calls p) c k → client_ok (p_requests p) (p_calls p) (wake_waiter r c) k) as Hok.
  { intros [] k; cbn; try done. case_decide; [by subst|done]. }
  constructor; fields; try done.
  - clear -g_clients0 Hok. induction g_clients0; constructor; [by apply Hok|done].
  - intros Hq. destruct (g_awake0 Hq) as [|(k & r' & Ek)]; [by left|right]. exists k, r'. by rewrite list_lookup_fmap, Ek.
  - intros k r' rq (c & Ek & Ec)%fmap_lookup_Some. apply (g_waiters0 k). rewrite Ek. f_equal. by apply Hw.
Qed.

(** *** The life of a request *)

Lemma good_take ns ks p i r q rq :
  good ns ks p → p_workers p !! i = Some Waking → p_queue p = r :: q → p_requests p !! r = Some rq →
  good (<[i:=cost (rq_call rq)]> ns) ks (set_queue q (set_worker i (Reading r (call_task fuel (rq_call rq))) p)).
Proof.
  intros [] Ei Eq Er. assert (i < length (p_workers p))%nat as Hi by (by eapply lookup_lt_Some).
  rewrite Eq in *. apply NoDup_cons in g_nodup0 as [Hrq Hnd]. destruct (g_queue0 r ltac:(left)) as (rq' & E0 & Hd). assert (rq' = rq) as -> by congruence.
  assert (∀ j w, p_workers p !! j = Some w → reading w ≠ Some r) as Hnot.
  { intros j w Ej Ew. destruct (g_once0 j w r Ej Ew) as [Hr _]. apply Hr. left. }
  constructor; fields; try done.
  - intros r' rq' E. destruct (g_requests0 r' rq' E) as (H1 & H2 & H3). split_and!; [done..|]. destruct (rq_done rq'); [done|].
    destruct H3 as [[->|]%elem_of_cons|(j & w & Ej & Ew)]; [right|by left|right].
    + eexists i, _. rewrite list_lookup_insert_eq by done. done.
    + exists j, w. rewrite list_lookup_insert_ne; [done|]. intros ->. by simplify_eq.
  - intros r' Hr'. apply g_queue0. by right.
  - intros j w r' [(<- & <- & _)|[Hne Ej]]%list_lookup_insert_Some Ew.
    + injection Ew as <-. split; [done|]. intros j w' [(<- & _)|[_ Ej]]%list_lookup_insert_Some Ew; [done|]. by destruct (Hnot j w' Ej).
    + destruct (g_once0 j w r' Ej Ew) as [H1 H2]. split; [set_solver|].
      intros j' w' [(<- & <- & _)|[_ Ej']]%list_lookup_insert_Some Ew'; [|by apply (H2 j' w')]. injection Ew' as <-. by destruct (Hnot j w Ej).
  - apply Forall2_insert; [done|]. exists rq. split_and!; [done..|]. apply (safe_call o B); [done..|]. by apply (g_requests0 r rq).
  - intros E%(f_equal length). rewrite length_insert in E. destruct (p_workers p); [cbn in Hi; lia|done].
  - intros j w [(<- & <- & _)|[_ Ej]]%list_lookup_insert_Some Hex; [done|]. by destruct (g_exited0 j w Ej Hex).
  - intros _. left. eexists i, _. by rewrite list_lookup_insert_eq.
  - intros k r' rq' Ek Er' Hd'. destruct (g_waiters0 k r' rq' Ek Er' Hd') as (j & Ej). exists j.
    rewrite list_lookup_insert_ne; [done|]. intros ->. by simplify_eq.
  - intros Hf j w [(<- & <- & _)|[_ Ej]]%list_lookup_insert_Some; [done|by apply (g_joining0 Hf j)].
Qed.

Lemma good_finish ns ks p i r rq rc bytes :
  good ns ks p → p_workers p !! i = Some (Reading r (Done (rc, bytes))) → p_requests p !! r = Some rq →
  good ns ks (set_worker i (Notifying r) (finish r rq rc bytes p)).
Proof.
  intros [] Ei Er. assert (i < length (p_workers p))%nat as Hi by (by eapply lookup_lt_Some).
  destruct (g_once0 i _ r Ei eq_refl) as [Hq Honly]. destruct (g_requests0 r rq Er) as (C1 & C2 & _).
  destruct (Forall2_lookup_l _ _ _ _ _ g_workers0 Ei) as (n & En & rq' & E' & Hd & Hsafe). assert (rq' = rq) as -> by congruence.
  assert (answer (rq_call rq) (rc, bytes)) as Hans by (by destruct n).
  set (m := <[r := {| rq_call := rq_call rq; rq_result := rc; rq_done := true; rq_bytes := bytes |}]> (p_requests p)).
  assert (∀ r', is_Some (p_requests p !! r') → is_Some (m !! r')) as Hsome.
  { intros r' H. unfold m. destruct (decide (r' = r)) as [->|]; [rewrite lookup_insert_eq; by eexists|by rewrite lookup_insert_ne]. }
  constructor; fields; fold m; try done.
  - intros r' rq'. unfold m. destruct (decide (r' = r)) as [->|Hne]; [rewrite lookup_insert_eq; by intros [= <-]|].
    rewrite lookup_insert_ne by done. intros E. destruct (g_requests0 r' rq' E) as (H1 & H2 & H3). split_and!; [done..|].
    destruct (rq_done rq'); [done|]. destruct H3 as [|(j & w & Ej & Ew)]; [by left|right]. exists j, w.
    rewrite list_lookup_insert_ne; [done|]. intros ->. simplify_eq. by injection Ew as ->.
  - intros r' Hr'. unfold m. rewrite lookup_insert_ne by (by intros ->). by apply g_queue0.
  - intros j w r' [(<- & <- & _)|[Hne Ej]]%list_lookup_insert_Some Ew; [done|]. destruct (g_once0 j w r' Ej Ew) as [H1 H2].
    split; [done|]. intros j' w' [(<- & <- & _)|[_ Ej']]%list_lookup_insert_Some Ew'; [done|by apply (H2 j' w')].
  - apply Forall2_same_length_lookup_2; [rewrite length_insert; by eapply Forall2_length|].
    intros j w k [(<- & <- & _)|[Hne Ej]]%list_lookup_insert_Some Ek; [done|].
    pose proof (Forall2_lookup_lr _ _ _ _ _ _ g_workers0 Ej Ek) as Hw. destruct w as [| |r' t| |]; try done.
    unfold m. destruct Hw as (rq' & E & Hw). exists rq'. split; [|done]. rewrite lookup_insert_ne; [done|]. intros ->.
    apply Hne. by apply (Honly j _ Ej).
  - eapply Forall2_impl; [exact g_clients0|]. intros [| | | | |] k; cbn; try done; apply Hsome.
  - intros E%(f_equal length). rewrite length_insert in E. destruct (p_workers p); [cbn in Hi; lia|done].
  - intros j w [(<- & <- & _)|[_ Ej]]%list_lookup_insert_Some Hex; [done|]. by apply (g_exited0 j w).
  - intros _. left. eexists i, _. by rewrite list_lookup_insert_eq.
  - intros k r' rq' Ek. unfold m. destruct (decide (r' = r)) as [->|Hne].
    + intros _ _. exists i. by rewrite list_lookup_insert_eq.
    + rewrite lookup_insert_ne by done. intros Er' Hd'. destruct (g_waiters0 k r' rq' Ek Er' Hd') as (j & Ej). exists j.
      rewrite list_lookup_insert_ne; [done|]. intros ->. by simplify_eq.
  - intros Hf j w [(<- & <- & _)|[_ Ej]]%list_lookup_insert_Some; [done|by apply (g_joining0 Hf j)].
Qed.
Lemma good_async ns ks p cl :
  good ns ks p → p_stop p = false → call_ok o cl → good ns (ks ++ [0%nat]) (memtier_read_async cl p).
Proof.
  intros [] Hs Hcl. set (r := length (p_calls p)).
  assert (∀ r' rq, p_requests p !! r' = Some rq → r' ≠ r) as Hnew.
  { intros r' rq E ->. destruct (g_requests0 r rq E) as (_ & E' & _). apply lookup_lt_Some in E'. unfold r in E'. lia. }
  assert (∀ r', r' ≠ r → ∀ rq, <[r := rq]> (p_requests p) !! r' = p_requests p !! r') as Hne by (intros; by rewrite lookup_insert_ne).
  assert (∀ r', is_Some (p_requests p !! r') → r' ≠ r) as Hnew' by (intros r' [rq E]; by eapply Hnew).
  constructor; fields; fold r; try done.
  - intros r' rq. destruct (decide (r' = r)) as [->|Hr].
    + rewrite lookup_insert_eq. intros [= <-]. cbn. split_and!; [done| |left; set_solver].
      rewrite lookup_app_r by done. unfold r. by rewrite Nat.sub_diag.
    + rewrite Hne by done. intros E. destruct (g_requests0 r' rq E) as (H1 & H2 & H3). split_and!; [done|by apply lookup_app_l_Some|].
      destruct (rq_done rq); [done|]. destruct H3 as [|]; [left; set_solver|by right].
  - intros r' [Hr| ->%list_elem_of_singleton]%elem_of_app; [|rewrite lookup_insert_eq; by eexists].
    destruct (g_queue0 r' Hr) as (rq & E & Hd). exists rq. split; [|done]. rewrite Hne; [done|by eapply Hnew].
  - apply NoDup_app. split_and!; [done| |apply NoDup_singleton]. intros r' Hr ->%list_elem_of_singleton.
    destruct (g_queue0 r Hr) as (rq & E & _). by destruct (Hnew r rq E).
  - intros i w r' Ei Ew. destruct (g_once0 i w r' Ei Ew) as [H1 H2]. split; [|done].
    intros [?| ->%list_elem_of_singleton]%elem_of_app; [done|]. destruct w as [| |r0 t| |]; try done. injection Ew as ->.
    destruct (Forall2_lookup_l _ _ _ _ _ g_workers0 Ei) as (n & _ & rq & E & _). by destruct (Hnew r rq E).
  - eapply Forall2_impl; [exact g_workers0|]. intros [| |r' t| |] k; cbn; try done. intros (rq & E & Hw). exists rq.
    rewrite Hne by (by eapply Hnew). done.
  - apply Forall2_app; [|by repeat constructor]. eapply Forall2_impl; [exact g_clients0|].
    intros [| |r'|r'|r' code bytes|] k; cbn; try done; try (intros Hr; rewrite Hne; [done|by apply Hnew']).
    intros (cl' & E & Ha). exists cl'. split; [by apply lookup_app_l_Some|done].
  - intros i w Ei Ew. destruct (g_exited0 i w Ei Ew). congruence.
  - intros _. right. exists (length (p_clients p)), r. by rewrite lookup_app_r, Nat.sub_diag.
  - intros k r' rq [Ek|[_ Ek]]%lookup_app_Some.
    + assert (r' ≠ r) as Hr. { apply Hnew'. by destruct (Forall2_lookup_l _ _ _ _ _ g_clients0 Ek) as (n & _ & H). }
      rewrite Hne by done. by apply (g_waiters0 k).
    + by destruct (_ - _)%nat.
Qed.

Lemma good_free ns ks p r rq :
  good ns ks p → p_requests p !! r = Some rq → rq_done rq = true → Forall (λ c, ¬ waits_for r c) (p_clients p) →
  good ns ks (memtier_request_free r p).
Proof.
  intros [] Er Hd Hw. constructor; fields; try done.
  - intros r' rq' [_ E]%lookup_delete_Some. by apply g_requests0.
  - intros r' Hr. destruct (g_queue0 r' Hr) as (rq' & E & Hd'). exists rq'. split; [|done]. rewrite lookup_delete_ne; [done|]. congruence.
  - eapply Forall2_impl; [exact g_workers0|]. intros [| |r' t| |] k; cbn; try done. intros (rq' & E & Hd' & Hs). exists rq'.
    split_and!; [|done..]. rewrite lookup_delete_ne; [done|]. congruence.
  - apply Forall2_same_length_lookup_2; [by eapply Forall2_length|]. intros k c n Ek En.
    pose proof (Forall2_lookup_lr _ _ _ _ _ _ g_clients0 Ek En) as Hc. pose proof (Forall_lookup_1 _ _ _ _ Hw Ek) as Hr.
    destruct c; cbn in *; try done; by rewrite lookup_delete_ne by congruence.
  - intros k r' rq' Ek [_ E]%lookup_delete_Some. by apply (g_waiters0 k).
Qed.

Lemma good_finalize ns ks p : good ns ks p → p_stop p = false → good ns ks (memtier_finalize p).
Proof.
  intros [] Hs. constructor; fields; try done.
  - intros i w Ei Ew. destruct (g_exited0 i w Ei Ew). congruence.
  - intros [|]; done.
Qed.

(** *** Steps *)

Lemma steps_left_worker ns ks p i w n w' k :
  p_workers p !! i = Some w → ns !! i = Some n →
  let W := length (p_clients p) in
  (steps_left (<[i:=k]> ns) ks (set_worker i w' p) + worker_cost W w n = steps_left ns ks p + worker_cost W w' k)%nat.
Proof.
  intros Ei En W. unfold steps_left. fields. fold W. rewrite length_insert.
  pose proof (sum_zip_insert (worker_cost W) (p_workers p) ns i w n w' k Ei En). lia.
Qed.

Lemma steps_left_client ns ks p j c n c' k :
  p_clients p !! j = Some c → ks !! j = Some n →
  (steps_left ns (<[j:=k]> ks) (set_client j c' p) + client_cost c n = steps_left ns ks p + client_cost c' k)%nat.
Proof.
  intros Ej En. unfold steps_left. fields. rewrite length_insert.
  pose proof (sum_zip_insert client_cost (p_clients p) ks j c n c' k Ej En). lia.
Qed.

Lemma worker_turn_good ns ks p i p' :
  good ns ks p → worker_turn fuel i p = Some p' → ∃ ns', good ns' ks p' ∧ (steps_left ns' ks p' < steps_left ns ks p)%nat.
Proof.
  intros G E. unfold worker_turn in E. destruct (p_workers p !! i) as [w|] eqn:Ei; [|done].
  destruct (Forall2_lookup_l _ _ _ _ _ (g_workers _ _ _ G) Ei) as (n & En & Hw).
  destruct w as [| |r [[rc bytes]|f]|r|]; try done.
  - destruct (p_queue p) as [|r q] eqn:Eq.
    + injection E as <-. exists (<[i:=n]> ns). split.
      * apply (good_worker ns ks p i Waking); try done; destruct (p_stop p); done.
      * pose proof (steps_left_worker ns ks p i _ n (if p_stop p then Exited else Asleep) n Ei En). destruct (p_stop p); cbn in *; lia.
    + apply bind_Some in E as (rq & Er & [= <-]). exists (<[i:=cost (rq_call rq)]> ns). split; [by apply good_take|].
      pose proof (steps_left_worker ns ks p i _ n (Reading r (call_task fuel (rq_call rq))) (cost (rq_call rq)) Ei En) as H.
      set (W := length (p_clients p)) in *.
      assert (sum_list (queued_cost W (p_requests p) <$> p_queue p) =
              cost (rq_call rq) + W + 3 + sum_list (queued_cost W (p_requests p) <$> q))%nat as Hq.
      { rewrite Eq, fmap_cons. unfold queued_cost at 1. by rewrite Er. }
      unfold steps_left in *. fields. fold W in H |- *. rewrite Hq in H |- *. cbn [worker_cost] in H. lia.
  - apply bind_Some in E as (rq & Er & [= <-]). exists ns. split; [by apply good_finish|].
    pose proof (steps_left_worker ns ks p i _ n (Notifying r) n Ei En) as H. rewrite list_insert_id in H by done.
    unfold steps_left in *. fields.
    set (m := <[r := {| rq_call := rq_call rq; rq_result := rc; rq_done := true; rq_bytes := bytes |}]> (p_requests p)).
    assert (∀ W, queued_cost W m <$> p_queue p = queued_cost W (p_requests p) <$> p_queue p) as Hm.
    { intros W. apply list_fmap_ext. intros _ r' _. unfold queued_cost, m.
      destruct (decide (r' = r)) as [->|]; [by rewrite lookup_insert_eq, Er|by rewrite lookup_insert_ne]. }
    rewrite Hm. cbn [worker_cost] in *. lia.
  - apply bind_Some in E as ([t c] & Ef & [= <-]). destruct Hw as (rq & Er & Hd & Hs). destruct n as [|n]; [done|].
    destruct (Hs _ (g_ctx _ _ _ G)) as (t' & c' & Ef' & Hc & Ht). rewrite Ef in Ef'. injection Ef' as <- <-.
    exists (<[i:=n]> ns). split.
    + apply good_ctx; [|done]. eapply good_worker; try done. by exists rq.
    + pose proof (steps_left_worker ns ks p i _ (S n) (Reading r t) n Ei En) as H. unfold steps_left in *. fields. cbn in *. lia.
  - unfold notify_waiters in E. apply bind_Some in E as (p1 & E1 & [= <-]). apply bind_Some in E1 as (rq & Er & [= <-]).
    set (p1 := set_clients (wake_waiter r <$> p_clients p) p). exists (<[i:=n]> ns). split.
    + apply (good_worker ns ks p1 i (Notifying r)); try done; [by apply good_notify_waiters|].
      intros j r' [= <-] (c & _ & Ec)%fmap_lookup_Some. destruct c; cbn in Ec; try done. by case_decide; simplify_eq.
    + pose proof (steps_left_worker ns ks p1 i _ n Waking n Ei En) as H. cbv zeta in H.
      assert (steps_left ns ks p1 ≤ steps_left ns ks p + length (p_clients p))%nat as Hle.
      { unfold steps_left, p1. fields. rewrite length_fmap.
        pose proof (sum_zip_map client_cost (wake_waiter r) (p_clients p) ks 1) as Hz. rewrite Nat.mul_1_l in Hz.
        assert (∀ c k, client_cost (wake_waiter r c) k ≤ client_cost c k + 1)%nat as Hc.
        { intros [] k; cbn; try lia. case_decide; cbn; lia. }
        specialize (Hz Hc). lia. }
      assert (length (p_clients p1) = length (p_clients p)) as El by (unfold p1; fields; apply length_fmap).
      rewrite El in H. cbn [worker_cost] in H. lia.
Qed.

Lemma notify_one_good ns ks p i p' :
  good ns ks p → notify_one i p = Some p' →
  good ns ks p' ∧ (steps_left ns ks p' ≤ steps_left ns ks p + 1)%nat ∧ p_clients p' = p_clients p ∧
  (p_queue p' ≠ [] → ∃ i w, p_workers p' !! i = Some w ∧ awake w).
Proof.
  intros G E. unfold notify_one in E. destruct (existsb asleep (p_workers p)) eqn:Ea.
  - destruct (p_workers p !! i) as [w|] eqn:Ei; [|done]. destruct w; try done. injection E as <-.
    assert (i < length (p_workers p))%nat as Hi by (by eapply lookup_lt_Some).
    destruct (Forall2_lookup_l _ _ _ _ _ (g_workers _ _ _ G) Ei) as (n & En & _). split_and!.
    + rewrite <-(list_insert_id ns i n) by done. by apply (good_worker ns ks p i Asleep).
    + pose proof (steps_left_worker ns ks p i _ n Waking n Ei En) as H. rewrite list_insert_id in H by done. cbn [worker_cost] in H. lia.
    + done.
    + intros _. exists i, Waking. fields. by rewrite list_lookup_insert_eq.
  - injection E as <-. split_and!; [done|lia|done|]. intros Hq. apply existsb_asleep in Ea.
    destruct (p_workers p) as [|w ws] eqn:Ew; [by destruct (g_some _ _ _ G)|]. exists 0%nat, w. split; [done|]. split.
    + destruct w; try done. destruct Ea. left.
    + apply not_true_iff_false. intros Hex. destruct (g_exited _ _ _ G 0%nat w) as [_ ?]; [by rewrite Ew|done|done].
Qed.

Lemma client_turn_good ns ks p j i p' :
  good ns ks p → client_turn j i p = Some p' → ∃ ks', good ns ks' p' ∧ (steps_left ns ks' p' < steps_left ns ks p)%nat.
Proof.
  intros G E. unfold client_turn in E. destruct (p_clients p !! j) as [c|] eqn:Ej; [|done].
  destruct (Forall2_lookup_l _ _ _ _ _ (g_clients _ _ _ G) Ej) as (n & En & Hc).
  destruct c as [r| |r| | |jb [a|f]]; try done.
  - apply bind_Some in E as (p1 & E1 & [= <-]). destruct (notify_one_good ns ks p i p1 G E1) as (G1 & Hle & Ecl & Haw).
    rewrite <-Ecl in Ej. exists (<[j:=n]> ks). split; [by eapply good_client|].
    pose proof (steps_left_client ns ks p1 j _ n (Submitted r) n Ej En) as H. cbn [client_cost] in H. lia.
  - apply bind_Some in E as (rq & Er & [= <-]). destruct (g_requests _ _ _ G r rq Er) as (_ & Ecl & Hans).
    exists (<[j:=n]> ks). split.
    + destruct (rq_done rq) eqn:Ed; (eapply good_client; [done|done| |done|]).
      * by exists (rq_call rq).
      * done.
      * by exists rq.
      * intros r' rq' [= <-] Er'. congruence.
    + pose proof (steps_left_client ns ks p j _ n (if rq_done rq then WaitReturned r (rq_result rq) (rq_bytes rq) else WaitAsleep r) n Ej En) as H.
      cbn [client_cost] in H. destruct (rq_done rq); cbn [client_cost] in H; lia.
  - apply bind_Some in E as ([t c] & Ef & [= <-]). destruct n as [|n]; [done|].
    destruct (Hc _ (g_ctx _ _ _ G)) as (t' & c' & Ef' & Hst & Ht). rewrite Ef in Ef'. injection Ef' as <- <-.
    exists (<[j:=n]> ks). split.
    + apply good_ctx; [|done]. by eapply good_client.
    + pose proof (steps_left_client ns ks p j _ (S n) (Calling jb t) n Ej En) as H. unfold steps_left in *. fields. cbn [client_cost] in H. lia.
Qed.

Lemma finalizer_turn_good ns ks p p' :
  good ns ks p → finalizer_turn p = Some p' → good ns ks p' ∧ (steps_left ns ks p' < steps_left ns ks p)%nat.
Proof.
  intros G E. unfold finalizer_turn in E. destruct (p_final p) eqn:Ef; try done.
  - injection E as <-. split; [by apply good_notify_workers|]. unfold steps_left. fields. rewrite Ef, length_fmap. cbn [final_cost].
    pose proof (sum_zip_map (worker_cost (length (p_clients p))) wake_worker (p_workers p) ns 1) as H. rewrite Nat.mul_1_l in H.
    assert (∀ w k, worker_cost (length (p_clients p)) (wake_worker w) k ≤ worker_cost (length (p_clients p)) w k + 1)%nat as Hw
      by (intros [] k; cbn; lia).
    specialize (H Hw). lia.
  - destruct (forallb exited (p_workers p)); [|done]. injection E as <-. split.
    + destruct G. constructor; fields; try done; [|by intros _; apply g_joining0; left].
      rewrite g_stop0, Ef. done.
    + unfold steps_left. fields. rewrite Ef. cbn [final_cost]. lia.
Qed.

Lemma lib_step_good ns ks p p' :
  good ns ks p → lib_step fuel p p' → ∃ ns' ks', good ns' ks' p' ∧ (steps_left ns' ks' p' < steps_left ns ks p)%nat.
Proof.
  intros G [[i|j i|] E]; cbn [turn] in E.
  - destruct (worker_turn_good _ _ _ _ _ G E) as (ns' & H). by exists ns', ks.
  - destruct (client_turn_good _ _ _ _ _ _ G E) as (ks' & H). by exists ns, ks'.
  - exists ns, ks. by apply finalizer_turn_good.
Qed.
Lemma pool_step_good ns ks p p' : good ns ks p → pool_step fuel p p' → ∃ ns' ks', good ns' ks' p'.
Proof.
  intros G Hstep. revert G.
  destruct Hstep as [p p' Hl|p cl Es Hok|p j Es Hok|p r Hr Hs|p r rq Hr Er Hd Hw|p Es Hout|p i Ei|p k r Ek]; intros G.
  - destruct (lib_step_good _ _ _ _ G Hl) as (ns' & ks' & G' & _). by exists ns', ks'.
  - rewrite (proj1 (g_ctx _ _ _ G)) in Hok. exists ns, (ks ++ [0%nat]). by apply good_async.
  - rewrite (proj1 (g_ctx _ _ _ G)) in Hok. destruct (safe_job o B fuel j) as (n & Hn); [done..|].
    exists ns, (ks ++ [n]). by apply good_add_client.
  - exists ns, (ks ++ [0%nat]). by apply good_add_client.
  - exists ns, ks. by eapply good_free.
  - exists ns, ks. by apply good_finalize.
  - exists (<[i:=0%nat]> ns), ks. by apply (good_worker ns ks p i Asleep).
  - destruct (Forall2_lookup_l _ _ _ _ _ (g_clients _ _ _ G) Ek) as (n & _ & Hc).
    exists ns, (<[k:=0%nat]> ks). by eapply good_client.
Qed.

Lemma reachable_good ns ks p p' : good ns ks p → rtc (pool_step fuel) p p' → ∃ ns' ks', good ns' ks' p'.
Proof.
  intros G Hs. revert ns ks G. induction Hs as [p|p p1 p2 H1 _ IH]; intros ns ks G; [by exists ns, ks|].
  destruct (pool_step_good _ _ _ _ G H1) as (ns' & ks' & G'). by apply (IH ns' ks').
Qed.

(** The threads of the library come to rest. *)
Lemma lib_steps_good ns ks n p p' :
  good ns ks p → nsteps (lib_step fuel) n p p' →
  ∃ ns' ks', good ns' ks' p' ∧ (n + steps_left ns' ks' p' ≤ steps_left ns ks p)%nat.
Proof.
  intros G Hs. revert ns ks G. induction Hs as [p|n p p1 p2 H1 _ IH]; intros ns ks G; [exists ns, ks; split; [done|lia]|].
  destruct (lib_step_good _ _ _ _ G H1) as (ns1 & ks1 & G1 & Hlt). destruct (IH ns1 ks1 G1) as (ns' & ks' & G' & Hle).
  exists ns', ks'. split; [done|lia].
Qed.

(** *** At rest *)

Lemma rest_workers ns ks p i w :
  good ns ks p → at_rest fuel p → ¬ uaf p → p_workers p !! i = Some w → w = Asleep ∨ w = Exited.
Proof.
  intros G Hrest Hsafe Ei. destruct (Forall2_lookup_l _ _ _ _ _ (g_workers _ _ _ G) Ei) as (n & _ & Hw).
  assert (worker_turn fuel i p = None) as E.
  { destruct (worker_turn fuel i p) as [p'|] eqn:E; [|done]. destruct (Hrest p'). by exists (Worker i). }
  unfold worker_turn in E. rewrite Ei in E. destruct w as [| |r [[rc bytes]|f]|r|]; try by auto.
  - exfalso. destruct (p_queue p) as [|r q] eqn:Eq; [done|]. destruct (g_queue _ _ _ G r) as (rq & Er & _); [rewrite Eq; left|].
    by rewrite Er in E.
  - exfalso. destruct Hw as (rq & Er & _). by rewrite Er in E.
  - exfalso. destruct Hw as (rq & Er & _ & Hs). destruct n as [|n]; [done|].
    destruct (Hs _ (g_ctx _ _ _ G)) as (t & c & Ef & _). by rewrite Ef in E.
  - exfalso. unfold notify_waiters in E. destruct (p_requests p !! r) eqn:Er; [done|]. apply Hsafe. by exists i, r.
Qed.

Lemma rest_clients ns ks p k c :
  good ns ks p → at_rest fuel p → p_clients p !! k = Some c →
  match c with Submitting _ | WaitWaking _ | Calling _ (Act _) => False | _ => True end.
Proof.
  intros G Hrest Ek. destruct (Forall2_lookup_l _ _ _ _ _ (g_clients _ _ _ G) Ek) as (n & _ & Hc).
  assert (∀ i, client_turn k i p = None) as E.
  { intros i. destruct (client_turn k i p) as [p'|] eqn:E; [|done]. destruct (Hrest p'). by exists (Client k i). }
  unfold client_turn in E. rewrite Ek in E. destruct c as [r| |r| | |j [a|f]]; try done.
  - unfold notify_one in E. destruct (existsb asleep (p_workers p)) eqn:Ea; [|by specialize (E 0%nat)].
    apply existsb_exists in Ea as (w & Hw & Ea). apply list_elem_of_In, list_elem_of_lookup in Hw as (i & Ei).
    specialize (E i). rewrite Ei in E. by destruct w.
  - specialize (E 0%nat). destruct Hc as (rq & Er). by rewrite Er in E.
  - specialize (E 0%nat). destruct n as [|n]; [done|]. destruct (Hc _ (g_ctx _ _ _ G)) as (t & c & Ef & _). by rewrite Ef in E.
Qed.

Lemma rest_queue ns ks p : good ns ks p → at_rest fuel p → ¬ uaf p → p_queue p = [].
Proof.
  intros G Hrest Hsafe. destruct (p_queue p) as [|r q] eqn:Eq; [done|]. exfalso.
  destruct (g_awake _ _ _ G) as [(i & w & Ei & H1 & H2)|(k & r' & Ek)]; [by rewrite Eq| |].
  - by destruct (rest_workers _ _ _ _ _ G Hrest Hsafe Ei) as [-> | ->].
  - by apply (rest_clients _ _ _ _ _ G Hrest Ek).
Qed.

Lemma rest_done ns ks p r rq :
  good ns ks p → at_rest fuel p → ¬ uaf p → p_requests p !! r = Some rq → rq_done rq = true.
Proof.
  intros G Hrest Hsafe Er. destruct (g_requests _ _ _ G r rq Er) as (_ & _ & H). destruct (rq_done rq); [done|]. exfalso.
  destruct H as [H|(i & w & Ei & Ew)]; [rewrite (rest_queue _ _ _ G Hrest Hsafe) in H; by apply elem_of_nil in H|].
  by destruct (rest_workers _ _ _ _ _ G Hrest Hsafe Ei) as [-> | ->].
Qed.

(** Every call has returned. *)
Lemma rest_returned ns ks p k c :
  good ns ks p → at_rest fuel p → ¬ uaf p → p_clients p !! k = Some c → outside c ∧ ∀ r, ¬ waits_for r c.
Proof.
  intros G Hrest Hsafe Ek. pose proof (rest_clients _ _ _ _ _ G Hrest Ek) as Hc.
  destruct c as [r|r|r|r| |j [a|f]]; try done; try (by split; [|intros ? []]). exfalso.
  destruct (Forall2_lookup_l _ _ _ _ _ (g_clients _ _ _ G) Ek) as (n & _ & rq & Er).
  destruct (g_waiters _ _ _ G k r rq Ek Er (rest_done _ _ _ _ _ G Hrest Hsafe Er)) as (i & Ei).
  by destruct (rest_workers _ _ _ _ _ G Hrest Hsafe Ei).
Qed.

Lemma rest_finalized ns ks p :
  good ns ks p → at_rest fuel p → ¬ uaf p → p_stop p = true → p_final p = Finalized ∧ Forall (λ w, w = Exited) (p_workers p).
Proof.
  intros G Hrest Hsafe Hs.
  assert (finalizer_turn p = None) as E.
  { destruct (finalizer_turn p) as [p'|] eqn:E; [|done]. destruct (Hrest p'). by exists Finalizer. }
  assert (p_final p = Joining ∨ p_final p = Finalized) as Hf.
  { unfold finalizer_turn in E. destruct (p_final p) eqn:Ef; [|done|by left|by right].
    apply (g_stop _ _ _ G) in Ef. congruence. }
  assert (Forall (λ w, w = Exited) (p_workers p)) as Hex.
  { apply Forall_lookup_2. intros i w Ei. destruct (rest_workers _ _ _ _ _ G Hrest Hsafe Ei) as [-> | ->]; [|done].
    by pose proof (g_joining _ _ _ G Hf i _ Ei). }
  split; [|done]. destruct Hf as [Ef|]; [|done]. unfold finalizer_turn in E. rewrite Ef in E.
  destruct (forallb exited (p_workers p)) eqn:Ea; [done|]. exfalso. apply not_true_iff_false in Ea. apply Ea, forallb_forall.
  intros w Hw. rewrite Forall_forall in Hex. by rewrite (Hex w) by (by apply list_elem_of_In).
Qed.
End Pool.

(** A step of the library frees no request. *)
Lemma lib_step_requests `{PX : Posix, PF : Platform} fuel p p' r :
  lib_step fuel p p' → is_Some (p_requests p !! r) → is_Some (p_requests p' !! r).
Proof.
  intros [[i|k i|] E] Hr; cbn [turn] in E.
  - unfold worker_turn in E. destruct (p_workers p !! i) as [[| |r' [[rc bytes]|f]|r'|]|]; try done.
    + destruct (p_queue p); [by injection E as <-|]. by apply bind_Some in E as (rq & _ & [= <-]).
    + apply bind_Some in E as (rq & _ & [= <-]). cbn. destruct (decide (r = r')) as [->|]; [rewrite lookup_insert_eq; by eexists|by rewrite lookup_insert_ne].
    + by apply bind_Some in E as ([t c] & _ & [= <-]).
    + unfold notify_waiters in E. apply bind_Some in E as (p1 & E & [= <-]). by apply bind_Some in E as (rq & _ & [= <-]).
  - unfold client_turn in E. destruct (p_clients p !! k) as [[r'| |r'| | |j [a|f]]|]; try done.
    + apply bind_Some in E as (p1 & E & [= <-]). unfold notify_one in E. destruct (existsb _ _); [|by injection E as <-].
      destruct (p_workers p !! i) as [[]|]; try done. by injection E as <-.
    + by apply bind_Some in E as (rq & _ & [= <-]).
    + by apply bind_Some in E as ([t c] & _ & [= <-]).
  - unfold finalizer_turn in E. destruct (p_final p); try done; [by injection E as <-|].
    destruct (forallb _ _); [|done]. by injection E as <-.
Qed.

(** A worker notifies the request it has read for. *)
Lemma lib_step_uaf `{PX : Posix, PF : Platform} fuel p p' : lib_step fuel p p' → ¬ uaf p → ¬ uaf p'.
Proof.
  intros Hstep Hsafe (i & r & Ei & Er). pose proof (lib_step_requests fuel p p' r Hstep) as Hr.
  assert (p_requests p !! r = None) as Er0.
  { destruct (p_requests p !! r) eqn:E; [|done]. destruct Hr as [? ?]; [by eexists|congruence]. }
  apply Hsafe. exists i, r. split; [|done]. destruct Hstep as [[j|k j|] E]; cbn [turn] in E.
  - unfold worker_turn in E. destruct (p_workers p !! j) as [[| |r' [[rc bytes]|f]|r'|]|] eqn:Ej; try done.
    + destruct (p_queue p); [injection E as <-|apply bind_Some in E as (rq & _ & [= <-])]; cbn in Ei;
        apply list_lookup_insert_Some in Ei as [(-> & E & _)|[_ Ei]]; try done. by destruct (p_stop p).
    + apply bind_Some in E as (rq & Erq & [= <-]). cbn in Ei.
      apply list_lookup_insert_Some in Ei as [(-> & [= ->] & _)|[_ Ei]]; [|done]. cbn in Er. by rewrite lookup_insert_eq in Er.
    + apply bind_Some in E as ([t c] & _ & [= <-]). cbn in Ei. by apply list_lookup_insert_Some in Ei as [(-> & E & _)|[_ Ei]].
    + unfold notify_waiters in E. apply bind_Some in E as (p1 & E & [= <-]). apply bind_Some in E as (rq & _ & [= <-]). cbn in Ei.
      by apply list_lookup_insert_Some in Ei as [(-> & E & _)|[_ Ei]].
  - unfold client_turn in E. destruct (p_clients p !! k) as [[r'| |r'| | |jb [a|f]]|]; try done.
    + apply bind_Some in E as (p1 & E & [= <-]). unfold notify_one in E. destruct (existsb _ _); [|by injection E as <-].
      destruct (p_workers p !! j) as [[]|]; try done. injection E as <-. cbn in Ei.
      by apply list_lookup_insert_Some in Ei as [(-> & E & _)|[_ Ei]].
    + by apply bind_Some in E as (rq & _ & [= <-]).
    + by apply bind_Some in E as ([t c] & _ & [= <-]).
  - unfold finalizer_turn in E. destruct (p_final p); try done.
    + injection E as <-. cbn in Ei. apply fmap_lookup_Some in Ei as (w & Ei & Ew). rewrite Ei. by destruct w; cbn in Ew; simplify_eq.
    + destruct (forallb _ _); [|done]. by injection E as <-.
Qed.

Lemma start_good `{PX : Posix, PF : Platform} o :
  0 ≤ o_chunk_size (default default_options o) → ∃ ns, good (opts (memtier_init o)) ns [] (start_pool o).
Proof.
  intros Ho. set (k := Z.to_nat (num_workers (opts (memtier_init o)))).
  assert (0 < k)%nat as Hk.
  { unfold k. cbn [memtier_init opts normalise num_workers]. destruct (Z.leb_spec (num_workers (default default_options o)) 0); lia. }
  exists (replicate k 0%nat). constructor; cbn [start_pool p_ctx p_queue p_stop p_workers p_requests p_calls p_clients p_final]; fold k; try done.
  - split; [done|by apply memtier_init_coherent].
  - by intros r Hr%elem_of_nil.
  - constructor.
  - by intros i w r [-> _]%lookup_replicate_1.
  - clear. induction k; by constructor.
  - by destruct k; [lia|].
  - by intros i w [-> _]%lookup_replicate_1.
  - by intros [|].
Qed.

(** ** Schedules *)

(** The threads of the library in a given order of turns; one that cannot make
    a step misses its turn. *)
Definition schedule `{PX : Posix, PF : Platform} (fuel : nat) (turns : list agent) (p : pool) : pool :=
  foldl (λ p a, default p (turn fuel a p)) p turns.

Lemma schedule_steps `{PX : Posix, PF : Platform} fuel turns p : rtc (pool_step fuel) p (schedule fuel turns p).
Proof.
  unfold schedule. revert p. induction turns as [|a turns IH]; intros p; cbn [foldl]; [apply rtc_refl|].
  destruct (turn fuel a p) as [p1|] eqn:E; [|apply IH].
  apply rtc_l with p1; [|apply IH]. apply LibStep. by exists a.
Qed.

Section Theorems.
Context {PX : Posix} {PF : Platform}.
Variables (B fuel : nat) (o : option options) (p : pool).
Hypothesis reliable : os_reliable B.
Hypothesis sound : ids_sound.
Hypothesis chunk_nonneg : 0 ≤ o_chunk_size (default default_options o).
Hypothesis enough : o_chunk_size (opts (memtier_init o)) * Z.of_nat B ≤ Z.of_nat fuel.
Hypothesis reached : rtc (pool_step fuel) (start_pool o) p.

Lemma chunk_positive : 0 < o_chunk_size (opts (memtier_init o)).
Proof. apply co_chunk. by apply memtier_init_coherent. Qed.

Lemma reached_good : ∃ ns ks, good (opts (memtier_init o)) ns ks p.
Proof.
  destruct (start_good o chunk_nonneg) as (ns & G).
  by apply (reachable_good B fuel _ reliable sound chunk_positive enough ns [] (start_pool o)).
Qed.

(** C4: asynchronous requests are served right under every interleaving. From
    the start of the library, whatever the threads do and in whatever order
    (workers sleeping, waking, also spuriously, reading, storing results and
    notifying; clients submitting, waiting, testing, freeing done requests,
    reading and prefetching themselves; [memtier_finalize]), the cache agrees
    with the files; a [memtier_wait] that has returned has the code, and found
    in the destination the bytes, that the range of its request calls for, as
    if the request had been alone; so has every request that is done; a read or
    a prefetch by a client that has returned has its own answer; and a request
    that is queued, being read for or waited for has not been freed (one whose
    waiters are about to be notified may have been, see [notify_after_free]). *)
Theorem requests_served :
  coherent (p_ctx p) ∧
  (∀ k r code bytes, p_clients p !! k = Some (WaitReturned r code bytes) → ∃ cl, p_calls p !! r = Some cl ∧ answer cl (code, bytes)) ∧
  (∀ r rq, p_requests p !! r = Some rq → rq_done rq = true →
     p_calls p !! r = Some (rq_call rq) ∧ answer (rq_call rq) (rq_result rq, rq_bytes rq)) ∧
  (∀ k j res, p_clients p !! k = Some (Calling j (Done res)) → job_answer j res) ∧
  (∀ r, r ∈ p_queue p ∨ (∃ i t, p_workers p !! i = Some (Reading r t)) ∨ (∃ k c, p_clients p !! k = Some c ∧ waits_for r c) →
     is_Some (p_requests p !! r)).
Proof.
  destruct reached_good as (ns & ks & G). split_and!; [apply (g_ctx _ _ _ _ G)|..].
  - intros k r code bytes Ek. by destruct (Forall2_lookup_l _ _ _ _ _ (g_clients _ _ _ _ G) Ek) as (n & _ & H).
  - intros r rq Er Hd. destruct (g_requests _ _ _ _ G r rq Er) as (_ & H1 & H2). by rewrite Hd in H2.
  - intros k j res Ek. destruct (Forall2_lookup_l _ _ _ _ _ (g_clients _ _ _ _ G) Ek) as (n & _ & H). by destruct n.
  - intros r [Hr|[(i & t & Ei)|(k & c & Ek & Hw)]].
    + destruct (g_queue _ _ _ _ G r Hr) as (rq & E & _). by exists rq.
    + destruct (Forall2_lookup_l _ _ _ _ _ (g_workers _ _ _ _ G) Ei) as (n & _ & rq & E & _). by exists rq.
    + destruct (Forall2_lookup_l _ _ _ _ _ (g_clients _ _ _ _ G) Ek) as (n & _ & H). by destruct c; cbn in Hw; subst.
Qed.

(** C5: every call returns and the library can be shut down: no wakeup is lost.
    From any state the library reaches in which no client has freed a request
    whose worker has yet to notify, the threads inside the library, left alone
    (no further calls, no spurious wakeups), make a bounded number of steps,
    whatever their order; when none of them can make another, the queue is
    empty, every request there was is done, every [memtier_read_async],
    [memtier_wait], [memtier_read] and [memtier_prefetch] has returned, and a
    [memtier_finalize] that was called has joined every worker and returned. *)
Theorem requests_complete :
  ¬ uaf p →
  ∃ bound, ∀ n p', nsteps (lib_step fuel) n p p' →
    (n ≤ bound)%nat ∧
    (at_rest fuel p' →
      p_queue p' = [] ∧
      (∀ r, is_Some (p_requests p !! r) → ∃ rq, p_requests p' !! r = Some rq ∧ rq_done rq = true) ∧
      (∀ k c, p_clients p' !! k = Some c → outside c ∧ ∀ r, ¬ waits_for r c) ∧
      (p_stop p' = true → p_final p' = Finalized ∧ Forall (λ w, w = Exited) (p_workers p'))).
Proof.
  intros Hsafe. destruct reached_good as (ns & ks & G). exists (steps_left ns ks p). intros n p' Hs.
  destruct (lib_steps_good B fuel _ reliable sound chunk_positive enough ns ks n p p' G Hs) as (ns' & ks' & G' & Hle). split; [lia|].
  assert (¬ uaf p' ∧ ∀ r, is_Some (p_requests p !! r) → is_Some (p_requests p' !! r)) as [Hsafe' Hkeep].
  { clear -Hs Hsafe. induction Hs as [|n p p1 p2 H1 _ IH]; [done|]. destruct (IH (lib_step_uaf fuel _ _ H1 Hsafe)) as [? Hk].
    split; [done|]. intros r Hr. by eapply Hk, lib_step_requests. }
  intros Hrest. split_and!.
  - by eapply rest_queue.
  - intros r Hr. destruct (Hkeep r Hr) as [rq Er]. exists rq. split; [done|]. by eapply rest_done.
  - intros k c Ek. by eapply rest_returned.
  - by eapply rest_finalized.
Qed.
End Theorems.

(** *** The properties at concrete data *)

Section Witnesses.
#[local] Existing Instance ten_bytes.
#[local] Existing Instance cpu_only.

(** Two workers, and two requests, one of them past the end of the file. *)
Definition two_workers : option options :=
  Some {| o_chunk_size := 4; o_dram_cache_size := 12; enable_dram_cache := true; cache_admit := true; bypass_cache := false;
          force_gds := false; force_posix := false; enable_gds := false; gds_stub_success := true; gds_min_size := 1;
          gds_alignment := 1; o_hints := 0; async_mode := false; num_workers := 2; coalesce_gap := 0; max_coalesce_size := 0;
          preferred_device_id := 0 |}.
Definition first_call : call := {| c_path := u "f"; c_offset := 2; c_size := 3; c_gpu := false |}.
Definition second_call : call := {| c_path := u "f"; c_offset := 3; c_size := 9; c_gpu := false |}.

(** The workers go to sleep, the requests are submitted, each wakes a worker,
    and a client falls asleep waiting for the first. *)
Definition sleeping : pool := schedule 9 [Worker 0; Worker 1] (start_pool two_workers).
Definition submitted : pool :=
  schedule 9 [Client 0 0; Client 1 1] (memtier_read_async second_call (memtier_read_async first_call sleeping)).
Definition waited : pool := schedule 9 [Client 2 0] (memtier_wait 0 submitted).

(** The workers in turn, then the clients. *)
Definition alternating : list agent := concat (replicate 30 [Worker 0; Worker 1]).
Definition served : pool := schedule 9 [Client 2 0; Client 3 0] (memtier_wait 1 (schedule 9 alternating waited)).
Definition finalized : pool := memtier_finalize served.

Lemma waited_reached : rtc (pool_step 9) (start_pool two_workers) waited.
Proof.
  eapply rtc_trans; [apply (schedule_steps 9 [Worker 0; Worker 1])|]. fold sleeping.
  eapply rtc_l; [apply (AsyncStep _ _ first_call); [by vm_compute|split_and!; [done..|by left]]|].
  eapply rtc_l; [apply (AsyncStep _ _ second_call); [by vm_compute|split_and!; [done..|by left]]|].
  eapply rtc_trans; [apply (schedule_steps 9 [Client 0 0; Client 1 1])|]. fold submitted.
  eapply rtc_l; [apply (WaitStep _ _ 0)|apply schedule_steps].
  - apply list_elem_of_lookup. exists 0%nat. by vm_compute.
  - eexists. vm_compute. reflexivity.
Qed.

Lemma served_reached : rtc (pool_step 9) (start_pool two_workers) served.
Proof.
  eapply rtc_trans; [exact waited_reached|]. eapply rtc_trans; [apply (schedule_steps 9 alternating)|].
  eapply rtc_l; [apply (WaitStep _ _ 1)|apply schedule_steps].
  - apply list_elem_of_lookup. exists 1%nat. by vm_compute.
  - eexists. vm_compute. reflexivity.
Qed.

Lemma requests_served_witness :
  p_clients served !! 2%nat = Some (WaitReturned 0 MEMTIER_OK [2; 3; 4]) ∧
  (∃ bytes, p_clients served !! 3%nat = Some (WaitReturned 1 MEMTIER_ERR_IO bytes)) ∧
  (∃ cl, p_calls served !! 0%nat = Some cl ∧ answer cl (MEMTIER_OK, [2; 3; 4])).
Proof.
  assert (p_clients served !! 2%nat = Some (WaitReturned 0 MEMTIER_OK [2; 3; 4])) as E by (vm_compute; reflexivity).
  split; [exact E|]. split; [eexists; vm_compute; reflexivity|].
  exact (proj1 (proj2 (requests_served 1 9 two_workers served ten_bytes_reliable cpu_only_sound ltac:(by vm_compute) ltac:(by vm_compute) served_reached)) _ _ _ _ E).
Defined.

Lemma finalized_reached : rtc (pool_step 9) (start_pool two_workers) finalized.
Proof.
  eapply rtc_r; [exact served_reached|]. apply FinalizeStep; [by vm_compute|].
  assert (p_clients served = [Submitted 0; Submitted 1; WaitReturned 0 MEMTIER_OK [2; 3; 4]; WaitReturned 1 MEMTIER_ERR_IO [3; 4; 5; 6; 7]])
    as -> by (vm_compute; reflexivity).
  by repeat constructor.
Qed.

Lemma requests_complete_witness :
  (∃ bound, ∀ n p', nsteps (lib_step 9) n finalized p' → (n ≤ bound)%nat) ∧
  p_final (schedule 9 [Finalizer; Worker 0; Worker 1; Finalizer] finalized) = Finalized.
Proof.
  assert (¬ uaf finalized) as Hsafe.
  { intros (i & r & Ei & _). assert (p_workers finalized = [Asleep; Asleep]) as E by (vm_compute; reflexivity).
    rewrite E in Ei. destruct i as [|[|i]]; discriminate Ei. }
  split; [|vm_compute; reflexivity].
  destruct (requests_complete 1 9 two_workers finalized ten_bytes_reliable cpu_only_sound ltac:(by vm_compute) ltac:(by vm_compute)
    finalized_reached Hsafe) as (bound & H). exists bound. intros n p' Hs. exact (proj1 (H n p' Hs)).
Defined.

(** One request, its result stored: its client's wait returns before the worker
    has notified. *)
Definition about_to_notify : pool :=
  schedule 9 [Client 1 0] (memtier_wait 0 (schedule 9 (Client 0 0 :: replicate 17 (Worker 0)) (memtier_read_async first_call sleeping))).

(** A client that waits for its request and then frees it, as
    examples/async_pipeline.cpp does, may free it before the worker calls
    [r->cv.notify_all()], which then touches freed memory. *)
Lemma notify_after_free :
  p_clients about_to_notify !! 1%nat = Some (WaitReturned 0 MEMTIER_OK [2; 3; 4]) ∧
  rtc (pool_step 9) (start_pool two_workers) (memtier_request_free 0 about_to_notify) ∧
  uaf (memtier_request_free 0 about_to_notify).
Proof.
  assert (rtc (pool_step 9) (start_pool two_workers) about_to_notify) as R.
  { eapply rtc_trans; [apply (schedule_steps 9 [Worker 0; Worker 1])|]. fold sleeping.
    eapply rtc_l; [apply (AsyncStep _ _ first_call); [by vm_compute|split_and!; [done..|by left]]|].
    eapply rtc_trans; [apply (schedule_steps 9 (Client 0 0 :: replicate 17 (Worker 0)))|].
    eapply rtc_l; [apply (WaitStep _ _ 0)|apply schedule_steps].
    - apply list_elem_of_lookup. exists 0%nat. by vm_compute.
    - exists {| rq_call := first_call; rq_result := MEMTIER_OK; rq_done := true; rq_bytes := [2; 3; 4] |}. by vm_compute. }
  assert (p_clients about_to_notify = [Submitted 0; WaitReturned 0 MEMTIER_OK [2; 3; 4]]) as E by (vm_compute; reflexivity).
  split; [by rewrite E|]. split.
  - eapply rtc_r; [exact R|].
    apply (FreeStep _ _ _ {| rq_call := first_call; rq_result := MEMTIER_OK; rq_done := true; rq_bytes := [2; 3; 4] |});
      [rewrite E; left|vm_compute; reflexivity|done|rewrite E]. repeat constructor; intros [].
  - exists 0%nat, 0%nat. split; vm_compute; reflexivity.
Qed.
End Witnesses.
