(* ===== verification/MemTierLib.v ===== *)
(** The Python package memtier (python/memtier: _ctypes.py, tensor.py,
    dataset.py, chunks.py) over libmemtier (files LibMemtier, ReadCache).

    The module globals [_lib] and [_ctx] are the state; PyTorch and NumPy are
    interfaces, either of which can be missing. *)

From S2P Require Import Prelude PyText NumPy NdArray Posix LibTypes GdsBackend ChunkCache LibMemtier.

(** ** _ctypes.py *)

Definition HINTS : list (str * Z) :=
  [(u "reuse", Z.shiftl 1 0); (u "small_io", Z.shiftl 1 1); (u "random", Z.shiftl 1 2); (u "streaming", Z.shiftl 1 3);
   (u "checkpoint", Z.shiftl 1 4); (u "sequential", Z.shiftl 1 5); (u "latency_sensitive", Z.shiftl 1 6)].

(** [HINTS[k]], when [k in HINTS]. *)
Fixpoint hint_value (hints : list (str * Z)) (k : str) : option Z :=
  match hints with
  | [] => None
  | (name, v) :: hints => if decide (name = k) then Some v else hint_value hints k
  end.

Definition hints_to_mask (hints : list str) : result Z :=
  foldM (λ m h, v ← of_option ValueError (hint_value HINTS (lower h)); Ok (Z.lor m v)) 0 hints.

(** What the package finds in its environment: PyTorch and NumPy, what
    [ctypes.CDLL] does with a name, and three variables. *)
Record environment := {
  torch_available : bool;
  numpy_available : bool;
  cdll : str → bool;
  library_path_var : option str;   (* MEMTIER_LIBRARY_PATH *)
  library_var : option str;        (* MEMTIER_LIB *)
  device_id_var : option str;      (* MEMTIER_DEVICE_ID *)
}.

(** [a or b] for [os.environ.get]. *)
Definition get_or (a : option str) (b : str) : str := match a with Some ((_ :: _) as v) => v | _ => b end.

Definition library_name (env : environment) : str :=
  get_or (library_path_var env) (get_or (library_var env) (u "libmemtier.so")).

(** The module globals [_lib] (loaded or not) and [_ctx]. *)
Record runtime := { rt_lib : bool; rt_ctx : option ctx }.

Abbreviation RM := (SM runtime).

(** What a C function sees of the bytes passed as [c_char_p]. *)
Fixpoint c_string (bytes : list Z) : list Z :=
  match bytes with
  | [] => []
  | b :: bytes => if b =? 0 then [] else b :: c_string bytes
  end.

Section Ctypes.
  Context {PX : Posix} {PF : Platform}.
  Variables (env : environment) (fuel : nat).

  (** [_Lib()], kept in the global. *)
Definition load_library : RM unit :=
    _ ← guarded (cdll env (library_name env)) RuntimeError;
    modify (λ s, {| rt_lib := true; rt_ctx := rt_ctx s |}).

Definition get_runtime : RM unit :=
    loaded ← gets rt_lib;
    _ ← (if loaded : bool then mret () else load_library);
    made ← gets rt_ctx;
    match made with
    | Some _ => mret ()
    | None =>
        let '(rc, out) := memtier_init_call None in
        if negb (rc =? MEMTIER_OK) then throw RuntimeError
        else modify (λ s, {| rt_lib := rt_lib s; rt_ctx := out |})
    end.

  (** [memtier_finalize] frees the context. *)
Definition close_runtime : RM unit :=
    made ← gets rt_ctx;
    match made with
    | Some _ => modify (λ s, {| rt_lib := rt_lib s; rt_ctx := None |})
    | None => mret ()
    end.

  (** [lib.memtier_read(ctx, path.encode(), offset, nbytes, dst, target)]: the
      code, and the bytes written at [dst]. *)
Definition native_read (path : str) (offset nbytes : Z) (gpu : bool) : RM (Z * list Z) := λ s,
    match rt_ctx s with
    | Some c =>
        match memtier_read fuel (c_string (utf8 path)) (wrap 64 offset) (wrap 64 nbytes) gpu c with
        | Some (r, c) => Some (r, {| rt_lib := rt_lib s; rt_ctx := Some c |})
        | None => None
        end
    | None => Some (Ok (MEMTIER_ERR_INVALID, []), s)
    end.
End Ctypes.

(** ** tensor.py *)

(** [_DTYPE_SIZE]. *)
Definition DTYPE_SIZE : list (str * Z) :=
  [(u "uint8", 1); (u "int32", 4); (u "float16", 2); (u "float32", 4)].

Definition numel (shape : list Z) : Z := foldl Z.mul 1 shape.

(** PyTorch, as far as the package uses it. *)
Class Torch := {
  tensor : Type;
  torch_empty : list Z → str → str → result tensor;
  t_shape : tensor → list Z;
  t_dtype : tensor → str;
  t_bytes : tensor → list Z;
  is_contiguous : tensor → bool;
  is_cuda : tensor → bool;
  t_numel : tensor → Z;
  element_size : tensor → Z;
  (** A write of these bytes at [data_ptr()]. *)
  write_data : list Z → tensor → tensor;
  (** The devices it allocates on, [true] for a GPU. *)
  torch_device : str → option bool;
  torch_device_cpu : torch_device (u "cpu") = Some false;
  torch_empty_on shape dtype size device gpu :
    torch_device device = Some gpu → Forall (λ n, 0 ≤ n) shape → hint_value DTYPE_SIZE dtype = Some size →
    ∃ t, torch_empty shape dtype device = Ok t ∧ t_shape t = shape ∧ t_dtype t = dtype ∧ is_contiguous t = true ∧
      is_cuda t = gpu ∧ t_numel t = prod shape ∧ element_size t = size;
  write_data_meta b t : t_shape (write_data b t) = t_shape t ∧ t_dtype (write_data b t) = t_dtype t;
  write_data_bytes b t :
    is_contiguous t = true → zlen b = t_numel t * element_size t → t_bytes (write_data b t) = b;
}.

(** NumPy's [reshape] of a one-dimensional array of [n] elements. *)
Class Reshape := {
  np_reshape : Z → list Z → result (list Z);
  np_reshape_exact n shape :
    Forall (λ d, 0 ≤ d) shape → np_reshape n shape = if prod shape =? n then Ok shape else Err ValueError;
}.

(** What [load_tensor] returns: a tensor, or an array (its shape, dtype and
    bytes), or bytes. *)
Inductive loaded `{TO : Torch} : Type :=
| Tensor (t : tensor)
| Array (shape : list Z) (dtype : str) (bytes : list Z)
| Bytes (bytes : list Z).

Section Tensor.
  Context {PX : Posix} {PF : Platform} {TO : Torch} {RS : Reshape}.
  Variables (env : environment) (fuel : nat).

  (** [None] is an object that is not a tensor. *)
Definition read_into_tensor (path : str) (offset : Z) (t : option tensor) : RM tensor :=
    match t with
    | Some t =>
        if negb (torch_available env) then throw TypeError else
        if negb (is_contiguous t) then throw ValueError else
        _ ← get_runtime env;
        '(rc, bytes) ← native_read fuel path offset (t_numel t * element_size t) (is_cuda t);
        if negb (rc =? MEMTIER_OK) then throw RuntimeError else mret (write_data bytes t)
    | None => throw TypeError
    end.

  (** [np.frombuffer(b, dtype)]: the number of elements. *)
Definition frombuffer (size n : Z) : result Z := if n `mod` size =? 0 then Ok (n `div` size) else Err ValueError.

Definition default_device : str :=
    if torch_available env then u "cuda:" ++ default (u "0") (device_id_var env) else u "cpu".

Definition load_tensor (path : str) (offset : Z) (nbytes : option Z) (shape : option (list Z)) (dtype : str)
      (device : option str) : RM loaded :=
    let device := default default_device device in
    size ← lift (of_option ValueError (hint_value DTYPE_SIZE dtype));
    nbytes ← lift (match nbytes, shape with
                   | Some n, _ => Ok n
                   | None, None => Err ValueError
                   | None, Some shape => Ok (numel shape * size)
                   end);
    if torch_available env then
      t ← lift (match shape with
                | Some shape => torch_empty shape dtype device
                | None => torch_empty [nbytes] (u "uint8") device
                end);
      t ← read_into_tensor path offset (Some t);
      mret (Tensor t)
    else if negb (bool_decide (device = u "cpu")) then throw RuntimeError else
    _ ← get_runtime env;
    if nbytes <? 0 then throw ValueError else
    '(rc, b) ← native_read fuel path offset nbytes false;
    if negb (rc =? MEMTIER_OK) then throw RuntimeError else
    if negb (numpy_available env) then mret (Bytes b) else
    n ← lift (frombuffer size nbytes);
    shape ← lift (match shape with Some shape => np_reshape n shape | None => Ok [n] end);
    mret (Array shape dtype b).
End Tensor.

(** ** chunks.py *)

(** The largest offset the file system can seek to, and whether a bytes object
    of so many bytes can be allocated. *)
Class ChunkIO := {
  seek_max : Z;
  can_allocate : Z → bool;
}.

(** [PY_SSIZE_T_MAX], [off_t]'s too, and the size of the header of a bytes
    object, with its final zero. *)
Definition SSIZE_MAX : Z := 2 ^ 63 - 1.
Definition bytes_header : Z := 33.

Definition ssize (n : Z) : bool := (- SSIZE_MAX - 1 <=? n) && (n <=? SSIZE_MAX).

Section Chunks.
  Context {PX : Posix} {PI : ChunkIO}.

Definition f_seek (off : Z) : result unit :=
    if negb (ssize off) then Err ValueError
    else raise_unless ((0 <=? off) && (off <=? seek_max)) OSError.

  (** [f.read(ln)] at [off]; a length of -1 reads all that is left. *)
Definition f_read (file : list Z) (off ln : Z) : result (list Z) :=
    if negb (ssize ln) then Err OverflowError else
    if ln <? -1 then Err ValueError else
    let n := if ln =? -1 then Z.max 0 (zlen file - off) else ln in
    if SSIZE_MAX - bytes_header <? n then Err OverflowError else
    if negb (can_allocate n) then Err MemoryError else Ok (py_slice file off (off + n)).

  (** [f.seek(off); b = f.read(ln)], and the check of its length. *)
Definition read_chunk (file : list Z) (off ln : Z) : result (list Z) :=
    _ ← f_seek off;
    b ← f_read file off ln;
    if negb (zlen b =? ln) then Err RuntimeError else Ok b.

Definition load_chunks (path : str) (offsets lengths : list Z) (device : str) : result (list (list Z)) :=
    if bool_decide (u "cuda" `prefix_of` device) then Err RuntimeError else
    if negb (zlen offsets =? zlen lengths) then Err ValueError else
    file ← of_option OSError (file_at path);
    foldM (λ outs p, b ← read_chunk file p.1 p.2; Ok (outs ++ [b])) [] (zip offsets lengths).
End Chunks.

(** ** dataset.py *)

Record sample := { sid : Z; s_path : str; s_offset : Z; s_size : Z; s_label : Z }.

(** [sorted(set((hints or []) + ["reuse", "random"]))]. *)
Definition dataset_hints (hints : option (list str)) : list str :=
  merge_sort str_le (remove_dups (default [] hints ++ [u "reuse"; u "random"])).

(** One line of the index: nothing for a blank line. *)
Definition parse_index_line (data_file : option str) (line : str) : result (option sample) :=
  let line := strip line in
  match line with
  | [] => Ok None
  | _ =>
      '(sid, path, off, size, label) ← (match split_ws line with
        | [sid; path; off; size; label] => Ok (sid, path, off, size, label)
        | [sid; off; size; label] =>
            match data_file with
            | Some ((_ :: _) as path) => Ok (sid, path, off, size, label)
            | _ => Err ValueError
            end
        | _ => Err ValueError
        end);
      off ← py_int off;
      size ← py_int size;
      if (off <? 0) || (size <=? 0) then Err ValueError else
      sid ← py_int sid;
      label ← py_int label;
      Ok (Some {| sid := sid; s_path := path; s_offset := off; s_size := size; s_label := label |})
  end.

(** [_parse_index] over the lines of the index file. *)
Definition parse_index (data_file : option str) (lines : list str) : result (list sample) :=
  foldM (λ samples line, s ← parse_index_line data_file line; Ok (samples ++ option_list s)) [] lines.

Section Dataset.
  Context {PX : Posix} {PF : Platform} {TO : Torch} {RS : Reshape}.
  Variables (env : environment) (fuel : nat).

Record dataset := {
    d_samples : list sample;
    d_target : str;
    d_dtype : str;
    d_shape : option (list Z);
    d_transform : option (loaded → result loaded);
    d_return_label : bool;
    d_hints : list str;
  }.

  (** [__init__]; [index] are the lines of the index file, if it opens. *)
Definition dataset_init (index : option (list str)) (data_file target : option str) (dtype : str)
      (shape : option (list Z)) (transform : option (loaded → result loaded)) (hints : option (list str))
      (return_label : bool) : result dataset :=
    lines ← of_option OSError index;
    samples ← parse_index data_file lines;
    Ok {| d_samples := samples; d_target := default (default_device env) target; d_dtype := dtype; d_shape := shape;
          d_transform := transform; d_return_label := return_label; d_hints := dataset_hints hints |}.

Definition dataset_len (ds : dataset) : Z := zlen (d_samples ds).

  (** [__getitem__]: the sample, and its label if it is asked for. *)
Definition dataset_getitem (ds : dataset) (idx : Z) : RM (loaded * option Z) :=
    s ← lift (py_index (d_samples ds) idx);
    x ← load_tensor env fuel (s_path s) (s_offset s) (if d_shape ds then None else Some (s_size s)) (d_shape ds)
          (d_dtype ds) (Some (d_target ds));
    x ← lift (match d_transform ds with Some f => f x | None => Ok x end);
    mret (x, if d_return_label ds then Some (s_label s) else None).
End Dataset.

(** ** The bytes reach Python *)

(** The bytes of what was loaded, and its shape and dtype if it has them. *)
Definition loaded_bytes `{TO : Torch} (x : loaded) : list Z :=
  match x with Tensor t => t_bytes t | Array _ _ b => b | Bytes b => b end.

Definition loaded_type `{TO : Torch} (x : loaded) : option (list Z * str) :=
  match x with Tensor t => Some (t_shape t, t_dtype t) | Array shape dtype _ => Some (shape, dtype) | Bytes _ => None end.

(** A state of the package: no context yet, or one made with the default
    options whose cache agrees with the files. *)
Definition runtime_ok `{PX : Posix, PF : Platform} (s : runtime) : Prop :=
  match rt_ctx s with Some c => rt_lib s = true ∧ coherent c ∧ opts c = default_options | None => True end.

(** The device, a GPU or not, can be used: PyTorch allocates on it, or it is the
    CPU; and CUDA works if it is a GPU. *)
Definition device_ready `{PF : Platform, TO : Torch} (env : environment) (device : option str) (gpu : bool) : Prop :=
  let d := default (default_device env) device in
  (if torch_available env then torch_device d = Some gpu else d = u "cpu" ∧ gpu = false) ∧
  (gpu = true → memtier_cuda_available = true ∧ ∀ n, cuda_success n = true).

Section Loads.
Context {PX : Posix} {PF : Platform} {TO : Torch} {RS : Reshape}.
Variables (B : nat) (env : environment) (fuel : nat) (path : str) (file : list Z).
Hypothesis reliable : os_reliable B.
Hypothesis sound : ids_sound.
Hypothesis contents : file_at (c_string (utf8 path)) = Some file.
Hypothesis enough : 2 ^ 20 * Z.of_nat B ≤ Z.of_nat fuel.
Hypothesis loads : cdll env (library_name env) = true.
Hypothesis allocates : context_allocated = true.

(** A state with a context. *)
Definition started (s : runtime) : Prop := runtime_ok s ∧ is_Some (rt_ctx s).

Lemma get_runtime_starts s : runtime_ok s → ∃ s', get_runtime env s = Some (Ok (), s') ∧ started s'.
Proof.
  intros Hs. unfold get_runtime, load_library, memtier_init_call, guarded. rewrite loads, allocates.
  destruct s as [lib [c|]]; unfold runtime_ok in Hs; cbn [rt_ctx rt_lib] in Hs.
  - destruct Hs as (-> & Hc & Ho). exists {| rt_lib := true; rt_ctx := Some c |}. split; [done|]. split; [done|by eexists].
  - exists {| rt_lib := true; rt_ctx := Some (memtier_init None) |}. split; [by destruct lib|].
    split; [|by eexists]. split_and!; [done|by apply memtier_init_coherent|done].
Qed.

(** Reading into memory: the bytes of the file, or an error. *)
Lemma native_read_spec offset n gpu s :
  (gpu = true → memtier_cuda_available = true ∧ ∀ n, cuda_success n = true) →
  started s → 0 ≤ offset → 0 < n → offset + n ≤ 2 ^ 63 →
  ∃ rc out s', native_read fuel path offset n gpu s = Some (Ok (rc, out), s') ∧ started s' ∧
    if offset + n <=? zlen file then rc = MEMTIER_OK ∧ out = py_slice file offset (offset + n) else rc = MEMTIER_ERR_IO.
Proof.
  intros Hgpu [Hok [c Ec]] Ho Hn Hle. unfold native_read. rewrite Ec, !(wrap_small 64) by (unfold in_width; lia).
  unfold runtime_ok in Hok. rewrite Ec in Hok. destruct Hok as (Hl & Hc & Hopts).
  destruct (read_spec B fuel (c_string (utf8 path)) file offset n gpu c Hc sound reliable contents)
    as (rc & out & c' & E & Hc' & Eo & H1 & H2); [by rewrite Hopts|done|done|done|right; by rewrite Hopts|done|].
  rewrite E. exists rc, out, {| rt_lib := rt_lib s; rt_ctx := Some c' |}. split_and!; [done| |].
  - split; [|by eexists]. unfold runtime_ok. cbn. split_and!; [done|done|congruence].
  - destruct (Z.leb_spec (offset + n) (zlen file)); auto.
Qed.

Lemma numel_prod shape : numel shape = prod shape.
Proof.
  unfold numel. assert (∀ a, foldl Z.mul a shape = a * prod shape) as ->; [|lia].
  induction shape as [|d shape IH]; intros a; cbn; [lia|]. rewrite IH. unfold prod. lia.
Qed.

Lemma dtype_size_pos dtype size : hint_value DTYPE_SIZE dtype = Some size → 0 < size.
Proof. unfold DTYPE_SIZE. cbn [hint_value]. repeat case_match; intros [= <-]; lia. Qed.

(** The two ways of [load_tensor], for a shape or a number of bytes. *)
Lemma load_tensor_spec offset nbytes shape dtype size device gpu n s :
  runtime_ok s → device_ready env device gpu → hint_value DTYPE_SIZE dtype = Some size →
  match shape with Some sh => Forall (λ d, 0 ≤ d) sh ∧ nbytes = None ∧ n = prod sh * size
                 | None => nbytes = Some n ∧ dtype = u "uint8" end →
  0 ≤ offset → 0 < n → offset + n ≤ 2 ^ 63 →
  ∃ r s', load_tensor env fuel path offset nbytes shape dtype device s = Some (r, s') ∧ runtime_ok s' ∧
    if offset + n <=? zlen file
    then ∃ x, r = Ok x ∧ loaded_bytes x = py_slice file offset (offset + n) ∧
         (torch_available env || numpy_available env = true → loaded_type x = Some (default [n] shape, dtype))
    else r = Err RuntimeError.
Proof.
  intros Hs [Hdev Hgpu] Hd Hshape Ho Hn Hle. pose proof (dtype_size_pos dtype size Hd) as Hsize.
  set (sh := default [n] shape).
  assert (Forall (λ d, 0 ≤ d) sh ∧ prod sh * size = n ∧ (shape = None → dtype = u "uint8" ∧ size = 1)) as (Hsh & Hprod & Hnone).
  { unfold sh. destruct shape as [sh'|]; cbn [default]; [by destruct Hshape as (? & _ & ->)|].
    destruct Hshape as [_ ->]. apply (inj Some) in Hd. rewrite <-Hd. split_and!; [by repeat constructor; lia|cbn; lia|done]. }
  assert ((match nbytes, shape with Some n, _ => Ok n | None, None => Err ValueError
           | None, Some shape => Ok (numel shape * size) end) = Ok n) as Enb.
  { destruct shape as [sh'|]; [|by destruct Hshape as [-> _]]. destruct Hshape as (_ & -> & ->). by rewrite numel_prod. }
  destruct (get_runtime_starts s Hs) as (s1 & E1 & St1).
  destruct (native_read_spec offset n gpu s1 Hgpu St1 Ho Hn Hle) as (rc & out & s2 & E2 & [St2 _] & Hrc).
  assert (zlen (py_slice file offset (offset + n)) = Z.max 0 (Z.min (offset + n) (zlen file) - offset)) as El
    by (apply length_py_slice; lia).
  unfold load_tensor, read_into_tensor. rewrite Hd. cbn [of_option].
  set (d := default (default_device env) device) in *.
  destruct (torch_available env).
  - destruct (torch_empty_on sh dtype size d gpu Hdev Hsh Hd) as (t & Et & Esh & Edt & Ec & Eg & En & Es).
    assert ((match shape with Some shape => torch_empty shape dtype d
             | None => torch_empty [n] (u "uint8") d end) = Ok t) as Ett.
    { unfold sh in Et. destruct shape as [sh'|]; [done|]. destruct (Hnone eq_refl) as [<- _]. done. }
    destruct (Z.leb_spec (offset + n) (zlen file)) as [Hin|Hout].
    + destruct Hrc as [-> ->]. set (slice := py_slice file offset (offset + n)) in *.
      exists (Ok (Tensor (write_data slice t))), s2. split_and!; [|done|].
      * sm_run ltac:(reflexivity). sm_run ltac:(rewrite Enb; reflexivity). sm_run ltac:(rewrite Ett; reflexivity).
        sm_run ltac:(rewrite Ec; cbn [negb]; sm_run ltac:(exact E1); rewrite En, Es, Eg, Hprod;
          sm_run ltac:(exact E2); reflexivity). reflexivity.
      * eexists. split; [reflexivity|]. cbn [loaded_bytes loaded_type]. destruct (write_data_meta slice t) as [-> ->].
        split; [apply write_data_bytes; [done|nia]|]. by rewrite Esh, Edt.
    + subst rc. exists (Err RuntimeError), s2. split_and!; [|done|done].
      sm_run ltac:(reflexivity). sm_run ltac:(rewrite Enb; reflexivity). sm_run ltac:(rewrite Ett; reflexivity).
      apply sm_raise. rewrite Ec. cbn [negb]. sm_run ltac:(exact E1). rewrite En, Es, Eg, Hprod. sm_run ltac:(exact E2).
      reflexivity.
  - destruct Hdev as [Edev ->]. assert (0 ≤ prod sh) as Hps by by apply prod_nonneg.
    assert (frombuffer size n = Ok (prod sh)) as Ef.
    { unfold frombuffer. rewrite <-Hprod, Z.mod_mul, Z.div_mul by lia. done. }
    assert ((match shape with Some shape => np_reshape (prod sh) shape | None => Ok [prod sh] end) = Ok sh) as Er.
    { unfold sh in *. destruct shape as [sh'|]; cbn [default] in *.
      - rewrite np_reshape_exact by done. by rewrite Z.eqb_refl.
      - do 2 f_equal. cbn. lia. }
    destruct (Z.leb_spec (offset + n) (zlen file)) as [Hin|Hout].
    + destruct Hrc as [-> ->]. set (slice := py_slice file offset (offset + n)) in *.
      exists (Ok (if numpy_available env then Array sh dtype slice else Bytes slice)), s2. split_and!; [|done|].
      * sm_run ltac:(reflexivity). sm_run ltac:(rewrite Enb; reflexivity). rewrite bool_decide_eq_true_2 by done. cbn [negb].
        sm_run ltac:(exact E1). rewrite (proj2 (Z.ltb_ge n 0)) by lia. sm_run ltac:(exact E2). cbn [negb Z.eqb MEMTIER_OK].
        destruct (numpy_available env); cbn [negb]; [|reflexivity]. sm_run ltac:(rewrite Ef; reflexivity).
        sm_run ltac:(rewrite Er; reflexivity). reflexivity.
      * eexists. split; [reflexivity|]. by destruct (numpy_available env).
    + subst rc. exists (Err RuntimeError), s2. split_and!; [|done|done].
      sm_run ltac:(reflexivity). sm_run ltac:(rewrite Enb; reflexivity). rewrite bool_decide_eq_true_2 by done. cbn [negb].
      sm_run ltac:(exact E1). rewrite (proj2 (Z.ltb_ge n 0)) by lia. sm_run ltac:(exact E2). reflexivity.
Qed.
End Loads.

(** *** The index file *)

(** A line of the index: with the path (format A), or without it (format B). *)
Definition index_line (row : bool * sample) : str :=
  let s := row.2 in
  join [32] (dec (sid s) :: (if row.1 then [s_path s] else []) ++ [dec (s_offset s); dec (s_size s); dec (s_label s)]) ++ [10].

Definition row_ok (data_file : option str) (row : bool * sample) : Prop :=
  0 ≤ s_offset row.2 ∧ 0 < s_size row.2 ∧
  if row.1 then word (s_path row.2) else data_file = Some (s_path row.2) ∧ s_path row.2 ≠ [].

Lemma parse_index_line_row data_file row :
  row_ok data_file row → parse_index_line data_file (index_line row) = Ok (Some row.2).
Proof.
  destruct row as [b s]. intros (Ho & Hs & Hp). cbn [fst snd] in *. unfold parse_index_line, index_line. cbv zeta. cbn [fst snd].
  set (ws := dec (sid s) :: _).
  assert (Forall word ws) as Hw.
  { constructor; [apply dec_word|]. apply Forall_app. split; [|by repeat constructor; apply dec_word].
    destruct b; [by constructor|constructor]. }
  rewrite strip_line by done. destruct (join [32] ws) as [|c r] eqn:E.
  { destruct (join_last ws ltac:(done) Hw) as (l & c & El & _). rewrite E in El. by destruct l. }
  rewrite <-E, split_ws_join by done. unfold ws in *. clear ws.
  assert ((s_offset s <? 0) || (s_size s <=? 0) = false) as Hpos.
  { by rewrite (proj2 (Z.ltb_ge _ _)), (proj2 (Z.leb_gt _ _)) by lia. }
  destruct b.
  - cbn. rewrite !py_int_dec. cbn. rewrite Hpos. cbn. clear. by destruct s.
  - destruct Hp as [-> Hne]. cbn. destruct (s_path s) as [|p ps] eqn:Ep; [done|]. cbn. rewrite !py_int_dec. cbn. rewrite Hpos.
    cbn. rewrite <-Ep. clear. by destruct s.
Qed.

Lemma parse_index_rows data_file rows :
  Forall (row_ok data_file) rows → parse_index data_file (index_line <$> rows) = Ok (snd <$> rows).
Proof.
  unfold parse_index. assert (∀ acc, Forall (row_ok data_file) rows →
    foldM (λ samples line, s ← parse_index_line data_file line; Ok (samples ++ option_list s)) acc (index_line <$> rows)
      = Ok (acc ++ (snd <$> rows))) as H; [|by apply H].
  intros acc H. revert acc. induction H as [|row rows Hr _ IH]; intros acc; [by rewrite app_nil_r|].
  rewrite !fmap_cons. cbn [foldM]. rewrite parse_index_line_row by done. cbn [mbind result_bind option_list].
  rewrite IH. by rewrite <-app_assoc.
Qed.

(** An item of a data set of bytes. *)
Lemma getitem_spec `{PX : Posix, PF : Platform, TO : Torch, RS : Reshape} B env fuel ds i smp file gpu s :
  os_reliable B → ids_sound → 2 ^ 20 * Z.of_nat B ≤ Z.of_nat fuel → cdll env (library_name env) = true →
  context_allocated = true → runtime_ok s → device_ready env (Some (d_target ds)) gpu →
  d_shape ds = None → d_dtype ds = u "uint8" → d_transform ds = None → d_return_label ds = true →
  py_index (d_samples ds) i = Ok smp → file_at (c_string (utf8 (s_path smp))) = Some file →
  0 ≤ s_offset smp → 0 < s_size smp → s_offset smp + s_size smp ≤ zlen file → zlen file ≤ 2 ^ 63 →
  ∃ x s', dataset_getitem env fuel ds i s = Some (Ok (x, Some (s_label smp)), s') ∧ runtime_ok s' ∧
    loaded_bytes x = py_slice file (s_offset smp) (s_offset smp + s_size smp) ∧
    (torch_available env || numpy_available env = true → loaded_type x = Some ([s_size smp], u "uint8")).
Proof.
  intros HB Hid Hfuel Hcdll Hal Hs Hdev E1 E2 E3 E4 Ei Ef Ho Hsz Hle Hmax. unfold dataset_getitem. rewrite Ei, E1, E2, E3, E4.
  destruct (load_tensor_spec B env fuel (s_path smp) file HB Hid Ef Hfuel Hcdll Hal (s_offset smp) (Some (s_size smp))
    None (u "uint8") 1 (Some (d_target ds)) gpu (s_size smp) s Hs Hdev eq_refl (conj eq_refl eq_refl) Ho Hsz ltac:(lia))
    as (r & s' & E & Hs' & Hr).
  rewrite (proj2 (Z.leb_le _ _)) in Hr by done. destruct Hr as (x & -> & Eb & Et).
  exists x, s'. split_and!; [|done|done|done].
  sm_run ltac:(reflexivity). sm_run ltac:(exact E). sm_run ltac:(reflexivity). reflexivity.
Qed.

(** C18: the data set serves the files its index names. From an index file with
    one line per sample, with paths or without, the data set has a sample per
    line; item [i], negative indices counting from the end, is the bytes of the
    [i]-th sample's range in its file, read through libmemtier into the memory of the
    target, CPU or GPU, with its label; any other index raises IndexError; and the runtime stays
    good for the next item. *)
Theorem dataset_serves_samples `{PX : Posix, PF : Platform, TO : Torch, RS : Reshape} B env fuel rows data_file hints device gpu s :
  os_reliable B → ids_sound → 2 ^ 20 * Z.of_nat B ≤ Z.of_nat fuel → cdll env (library_name env) = true →
  context_allocated = true → runtime_ok s → device_ready env device gpu → Forall (row_ok data_file) rows →
  Forall (λ row, ∃ file, file_at (c_string (utf8 (s_path row.2))) = Some file ∧
    s_offset row.2 + s_size row.2 ≤ zlen file ∧ zlen file ≤ 2 ^ 63) rows →
  ∃ ds, dataset_init env (Some (index_line <$> rows)) data_file device (u "uint8") None None hints true = Ok ds ∧
    dataset_len ds = zlen rows ∧
    ∀ i, match py_index rows i with
    | Ok row => ∃ x s' file, dataset_getitem env fuel ds i s = Some (Ok (x, Some (s_label row.2)), s') ∧ runtime_ok s' ∧
                  file_at (c_string (utf8 (s_path row.2))) = Some file ∧
                  loaded_bytes x = py_slice file (s_offset row.2) (s_offset row.2 + s_size row.2)
    | Err e => e = IndexError ∧ dataset_getitem env fuel ds i s = Some (Err IndexError, s)
    end.
Proof.
  intros HB Hid Hfuel Hcdll Hal Hs Hdev Hrows Hfiles. unfold dataset_init. cbn [of_option mbind result_bind].
  rewrite (parse_index_rows data_file rows Hrows). cbn [mbind result_bind]. eexists. split; [reflexivity|].
  unfold dataset_len. cbn [d_samples d_shape d_dtype d_target d_transform d_return_label].
  split; [by rewrite length_fmap|]. intros i.
  assert (py_index (snd <$> rows) i = snd <$> py_index rows i) as Ei.
  { unfold py_index. rewrite length_fmap. destruct (_ <? 0); [done|]. rewrite list_lookup_fmap.
    by destruct (rows !! _). }
  destruct (py_index rows i) as [row|e] eqn:Er.
  - assert (row ∈ rows) as Hin.
    { unfold py_index in Er. destruct (_ <? 0) in Er; [done|]. destruct (rows !! _) eqn:El in Er; [|done].
      injection Er as <-. by eapply list_elem_of_lookup_2. }
    destruct (proj1 (Forall_forall _ _) Hfiles row Hin) as (file & Ef & Hle & Hmax).
    destruct (proj1 (Forall_forall _ _) Hrows row Hin) as (Ho & Hsz & _).
    match goal with |- context [dataset_getitem _ _ ?ds] => destruct (getitem_spec B env fuel ds i row.2 file gpu s) as (x & s' & E & Hs' & Eb & _) end;
      [done..|]. by exists x, s', file.
  - assert (e = IndexError) as ->.
    { unfold py_index in Er. destruct (_ <? 0) in Er; [congruence|]. destruct (rows !! _) in Er; cbn in Er; congruence. }
    split; [done|]. unfold dataset_getitem. cbn [d_samples]. rewrite Ei. by apply sm_raise.
Qed.

(** C19: [load_tensor] with a shape returns the tensor stored in the file. With
    PyTorch on the CPU or on a GPU, with NumPy alone and with neither, the bytes are those of the file
    from the offset, as many as the shape and the dtype need, and a tensor or an
    array has the shape and the dtype asked for; if the file is too short the
    call raises RuntimeError; and the runtime stays good either way. *)
Theorem load_tensor_reads_file `{PX : Posix, PF : Platform, TO : Torch, RS : Reshape} B env fuel path file offset shape dtype size device gpu s :
  os_reliable B → ids_sound → file_at (c_string (utf8 path)) = Some file → 2 ^ 20 * Z.of_nat B ≤ Z.of_nat fuel →
  cdll env (library_name env) = true → context_allocated = true → runtime_ok s → device_ready env device gpu →
  hint_value DTYPE_SIZE dtype = Some size → Forall (λ d, 0 ≤ d) shape →
  let n := prod shape * size in
  0 ≤ offset → 0 < n → offset + n ≤ 2 ^ 63 →
  ∃ r s', load_tensor env fuel path offset None (Some shape) dtype device s = Some (r, s') ∧ runtime_ok s' ∧
    if offset + n <=? zlen file
    then ∃ x, r = Ok x ∧ loaded_bytes x = py_slice file offset (offset + n) ∧
         (torch_available env || numpy_available env = true → loaded_type x = Some (shape, dtype))
    else r = Err RuntimeError.
Proof.
  intros HB Hid Hf Hfuel Hcdll Hal Hs Hdev Hd Hsh n Ho Hn Hle.
  by apply (load_tensor_spec B env fuel path file HB Hid Hf Hfuel Hcdll Hal offset None (Some shape) dtype size device gpu).
Qed.

(** *** Chunks *)

Section ChunkLemmas.
Context {PI : ChunkIO}.

(** A chunk the file holds: [seek] and [read] accept its offset and its length,
    and the bytes are there. *)
Definition chunk_held (file : list Z) (p : Z * Z) : Prop :=
  0 ≤ p.1 ≤ SSIZE_MAX ∧ p.1 ≤ seek_max ∧
  0 ≤ p.2 ≤ SSIZE_MAX - bytes_header ∧ can_allocate p.2 = true ∧ (p.2 = 0 ∨ p.1 + p.2 ≤ zlen file).

Lemma f_seek_spec off : f_seek off = Ok () ↔ 0 ≤ off ≤ SSIZE_MAX ∧ off ≤ seek_max.
Proof.
  unfold f_seek, raise_unless, ssize, SSIZE_MAX in *.
  destruct (Z.leb_spec (- (2 ^ 63 - 1) - 1) off), (Z.leb_spec off (2 ^ 63 - 1)), (Z.leb_spec 0 off), (Z.leb_spec off seek_max); cbn;
    (split; [intros H'; try discriminate; lia|try lia; done]).
Qed.

(** What a chunk gives, and that it gives only that. *)
Lemma read_chunk_held file off ln b : read_chunk file off ln = Ok b ↔ chunk_held file (off, ln) ∧ b = py_slice file off (off + ln).
Proof.
  unfold read_chunk, chunk_held. cbn [fst snd]. destruct (f_seek off) as [[]|e] eqn:Es; cbn [mbind result_bind].
  2: { split; [done|]. intros [(H1 & H2 & _) _]. assert (f_seek off = Ok ()) as E by (apply f_seek_spec; lia). congruence. }
  apply f_seek_spec in Es as [H1 H2]. unfold f_read, ssize.
  destruct (Z.leb_spec (- SSIZE_MAX - 1) ln), (Z.leb_spec ln SSIZE_MAX); cbn [andb negb mbind result_bind];
    try (split; [done|]; unfold SSIZE_MAX, bytes_header in *; lia).
  destruct (Z.ltb_spec ln (-1)); cbn [mbind result_bind]; [split; [done|lia]|].
  destruct (Z.eqb_spec ln (-1)) as [->|Hn]; cbv zeta;
    (match goal with |- context [?x <? ?y] => destruct (Z.ltb_spec x y) end;
    cbn [mbind result_bind]; [split; [done|]; intros [? _]; lia|]);
    (destruct (can_allocate _) eqn:Ea; cbn [negb mbind result_bind]; [|split; [done|]; intros [(_ & _ & ? & ? & _) _]; try lia; congruence]).
  - destruct (Z.eqb_spec (zlen (py_slice file off (off + Z.max 0 (zlen file - off)))) (-1)); cbn [negb];
      (split; [try done|intros [? _]; lia]). lia.
  - rewrite length_py_slice by lia. destruct (Z.eqb_spec (Z.max 0 (Z.min (off + ln) (zlen file) - off)) ln); cbn [negb].
    + split; [intros [= <-]; split_and!; try done; lia|]. by intros [_ ->].
    + split; [done|]. intros [(_ & _ & _ & _ & [?|?]) _]; lia.
Qed.

(** Where [seek] and [read] accept the numbers, only a short read is left. *)
Lemma read_chunk_short file off ln :
  0 ≤ off ≤ SSIZE_MAX → off ≤ seek_max → 0 ≤ ln ≤ SSIZE_MAX - bytes_header → can_allocate ln = true →
  ¬ chunk_held file (off, ln) → read_chunk file off ln = Err RuntimeError.
Proof.
  intros H1 H2 H3 Ha Hn. destruct (read_chunk file off ln) as [b|e] eqn:E; [by apply read_chunk_held in E as [? _]|].
  revert E. unfold read_chunk. rewrite (proj2 (f_seek_spec off)) by done. cbn [mbind result_bind]. unfold f_read, ssize.
  rewrite (proj2 (Z.leb_le (- SSIZE_MAX - 1) ln)), (proj2 (Z.leb_le ln SSIZE_MAX)) by (unfold SSIZE_MAX, bytes_header in *; lia).
  cbn [andb negb]. rewrite (proj2 (Z.ltb_ge ln (-1))), (proj2 (Z.eqb_neq ln (-1))) by lia. cbv zeta.
  rewrite (proj2 (Z.ltb_ge _ _)) by lia. rewrite Ha. cbn [negb mbind result_bind]. by case_match; intros [= <-].
Qed.

(** The chunks in turn. *)
Lemma read_chunks_held file ps acc outs :
  foldM (λ outs p, b ← read_chunk file p.1 p.2; Ok (outs ++ [b])) acc ps = Ok outs ↔
  Forall (chunk_held file) ps ∧ outs = acc ++ ((λ p, py_slice file p.1 (p.1 + p.2)) <$> ps).
Proof.
  revert acc; induction ps as [|[off ln] ps IH]; intros acc; cbn [foldM].
  { cbn [fmap list_fmap]. rewrite app_nil_r. split; [intros [= ->]; by split|by intros [_ ->]]. }
  cbn [fst snd]. destruct (read_chunk file off ln) as [b|e] eqn:E; cbn [mbind result_bind].
  - apply read_chunk_held in E as [Hh ->]. rewrite IH, Forall_cons, fmap_cons. cbn [fst snd].
    rewrite <-app_assoc. cbn [app]. tauto.
  - split; [done|]. intros [[Hh _]%Forall_cons _].
    assert (read_chunk file off ln = Ok (py_slice file off (off + ln))) as E' by (by apply read_chunk_held). congruence.
Qed.

Lemma read_chunks_short file ps acc :
  Forall (λ p, 0 ≤ p.1 ≤ SSIZE_MAX ∧ p.1 ≤ seek_max ∧ 0 ≤ p.2 ≤ SSIZE_MAX - bytes_header ∧ can_allocate p.2 = true) ps →
  ¬ Forall (chunk_held file) ps →
  foldM (λ outs p, b ← read_chunk file p.1 p.2; Ok (outs ++ [b])) acc ps = Err RuntimeError.
Proof.
  intros Hps. revert acc; induction Hps as [|[off ln] ps (H1 & H2 & H3 & H4) _ IH]; intros acc Hn; [by destruct Hn|].
  cbn [foldM fst snd] in *. destruct (read_chunk file off ln) as [b|e] eqn:E; cbn [mbind result_bind].
  - apply read_chunk_held in E as [Hh _]. apply IH. intros Hf. apply Hn. by constructor.
  - destruct (read_chunk_held file off ln (py_slice file off (off + ln))) as [_ K].
    assert (¬ chunk_held file (off, ln)) as Hh by (intros Hh; rewrite K in E by done; done).
    rewrite read_chunk_short in E by done. by injection E as <-.
Qed.
End ChunkLemmas.

(** C31: [load_chunks] returns the chunks or raises. It returns exactly when
    the device is no CUDA device, there are as many lengths as offsets, the file
    opens, and it holds every chunk, with an offset that can be sought and a
    length that can be allocated; then it returns the bytes of every chunk, in
    order, whatever the numbers. A file that does not hold a chunk, when the
    numbers are in these bounds, raises RuntimeError, as a CUDA device does;
    lists of different lengths raise ValueError, a file that does not open
    OSError. *)
Theorem load_chunks_returns_or_raises `{PX : Posix, PI : ChunkIO} path offsets lengths device :
  (∀ outs, load_chunks path offsets lengths device = Ok outs ↔
    ¬ u "cuda" `prefix_of` device ∧ zlen offsets = zlen lengths ∧
    ∃ file, file_at path = Some file ∧ Forall (chunk_held file) (zip offsets lengths) ∧
      outs = (λ p, py_slice file p.1 (p.1 + p.2)) <$> zip offsets lengths) ∧
  (u "cuda" `prefix_of` device → load_chunks path offsets lengths device = Err RuntimeError) ∧
  (¬ u "cuda" `prefix_of` device → zlen offsets ≠ zlen lengths → load_chunks path offsets lengths device = Err ValueError) ∧
  (¬ u "cuda" `prefix_of` device → zlen offsets = zlen lengths →
    match file_at path with
    | None => load_chunks path offsets lengths device = Err OSError
    | Some file =>
        Forall (λ p, 0 ≤ p.1 ≤ SSIZE_MAX ∧ p.1 ≤ seek_max ∧ 0 ≤ p.2 ≤ SSIZE_MAX - bytes_header ∧ can_allocate p.2 = true)
          (zip offsets lengths) →
        ¬ Forall (chunk_held file) (zip offsets lengths) → load_chunks path offsets lengths device = Err RuntimeError
    end).
Proof.
  unfold load_chunks. case_bool_decide as Hd; [split_and!; [|done..]; intros outs; split; [done|by intros [? _]]|].
  destruct (Z.eqb_spec (zlen offsets) (zlen lengths)) as [El|El]; cbn [negb];
    [|split_and!; [|done..]; intros outs; split; [done|by intros (_ & ? & _)]].
  destruct (file_at path) as [file|]; cbn [of_option mbind result_bind];
    [|split_and!; [|done..]; intros outs; split; [done|by intros (_ & _ & ? & ? & _)]].
  split_and!; [|done..|].
  - intros outs. rewrite read_chunks_held. split; [intros [H ->]; split_and!; [done..|]; by exists file|].
    intros (_ & _ & f & [= <-] & H & ->). by split.
  - intros _ _ Hok Hn. by apply read_chunks_short.
Qed.

(** *** Hints *)

(** The mask has the bit of a hint exactly when the hint is given, whatever
    the order and the case; an unknown hint raises ValueError. *)
Lemma hints_to_mask_bits hints :
  match hints_to_mask hints with
  | Ok m => 0 ≤ m ∧ ∀ i, 0 ≤ i → Z.testbit m i = true ↔ ∃ h, h ∈ hints ∧ hint_value HINTS (lower h) = Some (Z.shiftl 1 i)
  | Err e => e = ValueError ∧ ∃ h, h ∈ hints ∧ hint_value HINTS (lower h) = None
  end.
Proof.
  assert (∀ k v, hint_value HINTS k = Some v → ∃ j, 0 ≤ j ∧ v = Z.shiftl 1 j) as Hv.
  { intros k v. unfold HINTS. cbn [hint_value]. repeat case_match; intros [= <-]; eexists; (split; [|reflexivity]); lia. }
  assert (∀ l acc, 0 ≤ acc →
    match foldM (λ m h, v ← of_option ValueError (hint_value HINTS (lower h)); Ok (Z.lor m v)) acc l with
    | Ok m => 0 ≤ m ∧ ∀ i, 0 ≤ i → Z.testbit m i = true ↔
                Z.testbit acc i = true ∨ ∃ h, h ∈ l ∧ hint_value HINTS (lower h) = Some (Z.shiftl 1 i)
    | Err e => e = ValueError ∧ ∃ h, h ∈ l ∧ hint_value HINTS (lower h) = None
    end) as H.
  { induction l as [|h l IH]; intros acc Hacc; cbn [foldM].
    - split; [done|]. intros i _. split; [by left|intros [?|(h & Hh & _)]; [done|by apply elem_of_nil in Hh]].
    - destruct (hint_value HINTS (lower h)) as [v|] eqn:E; cbn [of_option mbind result_bind];
        [|split; [done|exists h; split; [left|done]]].
      destruct (Hv _ _ E) as (j & Hj & ->). assert (0 ≤ Z.shiftl 1 j) as Hs by (apply Z.shiftl_nonneg; lia).
      specialize (IH (Z.lor acc (Z.shiftl 1 j)) ltac:(by apply Z.lor_nonneg)).
      destruct (foldM _ _ l) as [m|e]; [|destruct IH as (-> & h' & Hh & E'); split; [done|exists h'; split; [by right|done]]].
      destruct IH as [Hm IH]. split; [done|]. intros i Hi. rewrite (IH i Hi), Z.lor_spec, orb_true_iff.
      rewrite (Z.shiftl_1_l j), Z.pow2_bits_eqb by done. split.
      + intros [[?|Hij]|(h' & Hh & E')]; [by left| |].
        * right. exists h. split; [left|]. apply Z.eqb_eq in Hij as <-. by rewrite E.
        * right. exists h'. split; [by right|done].
      + intros [?|(h' & Hh & E')]; [by left; left|]. apply elem_of_cons in Hh as [->|Hh]; [|right; by exists h'].
        left. right. rewrite E in E'. apply (inj Some) in E'. rewrite !Z.shiftl_1_l in E'.
        apply Z.eqb_eq. by apply (Z.pow_inj_r 2) in E'; [|lia..]. }
  unfold hints_to_mask. specialize (H hints 0 ltac:(lia)). destruct (foldM _ _ hints) as [m|e]; [|done].
  destruct H as [Hm H]. split; [done|]. intros i Hi. rewrite (H i Hi), Z.testbit_0_l. naive_solver.
Qed.

(** Without a shape, PyTorch gets bytes whatever the dtype, where NumPy gets
    elements of the dtype. *)
Lemma load_tensor_ignores_dtype `{PX : Posix, PF : Platform, TO : Torch, RS : Reshape} env fuel path offset n d1 d2 device s :
  torch_available env = true → is_Some (hint_value DTYPE_SIZE d1) → is_Some (hint_value DTYPE_SIZE d2) →
  load_tensor env fuel path offset (Some n) None d1 device s = load_tensor env fuel path offset (Some n) None d2 device s.
Proof. intros Ht [z1 E1] [z2 E2]. unfold load_tensor. by rewrite Ht, E1, E2. Qed.

(** ** Concrete libraries *)

Record ref_tensor := { ref_shape : list Z; ref_dtype : str; ref_bytes : list Z; ref_cuda : bool }.

Definition ref_device (device : str) : option bool :=
  if decide (device = u "cpu") then Some false else if decide (device = u "cuda:0") then Some true else None.

#[program] Definition reference_torch : Torch := {|
  tensor := ref_tensor;
  torch_empty shape dtype device :=
    match ref_device device with
    | Some gpu =>
        if forallb (Z.leb 0) shape
        then Ok {| ref_shape := shape; ref_dtype := dtype; ref_bytes := []; ref_cuda := gpu |} else Err RuntimeError
    | None => Err RuntimeError
    end;
  t_shape := ref_shape;
  t_dtype := ref_dtype;
  t_bytes := ref_bytes;
  is_contiguous _ := true;
  is_cuda := ref_cuda;
  torch_device := ref_device;
  t_numel t := prod (ref_shape t);
  element_size t := default 1 (hint_value DTYPE_SIZE (ref_dtype t));
  write_data b t := {| ref_shape := ref_shape t; ref_dtype := ref_dtype t; ref_bytes := b; ref_cuda := ref_cuda t |};
|}.
Next Obligation. done. Qed.
Next Obligation.
  intros shape dtype size device gpu Hdev Hs Hd. cbv beta. rewrite Hdev. assert (forallb (Z.leb 0) shape = true) as ->.
  { apply forallb_forall. intros x Hx%list_elem_of_In. apply Z.leb_le. by apply (proj1 (Forall_forall _ _) Hs). }
  eexists. split; [reflexivity|]. split_and!; [reflexivity..|].
  change (default 1 (hint_value DTYPE_SIZE dtype) = size). by rewrite Hd.
Qed.
Next Obligation. by intros b t. Qed.
Next Obligation. by intros b t. Qed.

#[program] Definition reference_reshape : Reshape := {|
  np_reshape n shape := if forallb (Z.leb 0) shape && (prod shape =? n) then Ok shape else Err ValueError;
|}.
Next Obligation.
  intros n shape Hs. cbv beta. assert (forallb (Z.leb 0) shape = true) as ->; [|done].
  apply forallb_forall. intros x Hx%list_elem_of_In. apply Z.leb_le. by apply (proj1 (Forall_forall _ _) Hs).
Qed.

(** *** The properties at concrete data *)

Section Witnesses.
#[local] Existing Instance ten_bytes.
#[local] Existing Instance cpu_only.
#[local] Existing Instance reference_torch.
#[local] Existing Instance reference_reshape.

Definition example_env (torch : bool) : environment :=
  {| torch_available := torch; numpy_available := true; cdll name := bool_decide (name = u "libmemtier.so");
     library_path_var := None; library_var := Some []; device_id_var := None |}.
Definition example_fuel : nat := Z.to_nat (2 ^ 20).
Definition fresh_runtime : runtime := {| rt_lib := false; rt_ctx := None |}.

Lemma example_fuel_enough : 2 ^ 20 * Z.of_nat 1 ≤ Z.of_nat example_fuel.
Proof. unfold example_fuel. rewrite Z2Nat.id by lia. lia. Qed.

Lemma example_file : file_at (c_string (utf8 (u "f"))) = Some (seqZ 0 10).
Proof. by vm_compute. Qed.

Lemma load_tensor_reads_file_witness :
  (∃ x s', load_tensor (example_env true) example_fuel (u "f") 2 None (Some [2; 2]) (u "float16") (Some (u "cpu")) fresh_runtime
     = Some (Ok x, s') ∧ loaded_bytes x = seqZ 2 8 ∧ loaded_type x = Some ([2; 2], u "float16")) ∧
  (∃ s', load_tensor (example_env false) example_fuel (u "f") 4 None (Some [2; 2]) (u "float16") (Some (u "cpu")) fresh_runtime
     = Some (Err RuntimeError, s')).
Proof.
  split.
  - destruct (load_tensor_reads_file 1 (example_env true) example_fuel (u "f") (seqZ 0 10) 2 [2; 2] (u "float16") 2 (Some (u "cpu")) false fresh_runtime
      ten_bytes_reliable cpu_only_sound example_file example_fuel_enough) as (r & s' & E & _ & x & Hr & Eb & Et);
      [by vm_compute|done|done|by split|by vm_compute|by repeat constructor; lia|lia|by vm_compute|by vm_compute|].
    exists x, s'. rewrite E, Hr. split_and!; [done|by rewrite Eb; vm_compute|by apply Et].
  - destruct (load_tensor_reads_file 1 (example_env false) example_fuel (u "f") (seqZ 0 10) 4 [2; 2] (u "float16") 2 (Some (u "cpu")) false fresh_runtime
      ten_bytes_reliable cpu_only_sound example_file example_fuel_enough) as (r & s' & E & _ & Hr);
      [by vm_compute|done|done|by split|by vm_compute|by repeat constructor; lia|lia|by vm_compute|by vm_compute|].
    exists s'. rewrite E. f_equal. f_equal. exact Hr.
Defined.

Definition example_rows : list (bool * sample) :=
  [(true, {| sid := 7; s_path := u "f"; s_offset := 1; s_size := 4; s_label := 3 |});
   (false, {| sid := 8; s_path := u "f"; s_offset := 5; s_size := 5; s_label := -1 |})].

Lemma dataset_serves_samples_witness :
  ∃ ds, dataset_init (example_env true) (Some (index_line <$> example_rows)) (Some (u "f")) (Some (u "cpu")) (u "uint8") None
          None None true = Ok ds ∧ dataset_len ds = 2 ∧
    (∃ x s', dataset_getitem (example_env true) example_fuel ds (-1) fresh_runtime = Some (Ok (x, Some (-1)), s') ∧
       loaded_bytes x = seqZ 5 5) ∧
    dataset_getitem (example_env true) example_fuel ds 2 fresh_runtime = Some (Err IndexError, fresh_runtime).
Proof.
  destruct (dataset_serves_samples 1 (example_env true) example_fuel example_rows (Some (u "f")) None (Some (u "cpu")) false fresh_runtime
    ten_bytes_reliable cpu_only_sound example_fuel_enough) as (ds & E & El & H).
  - by vm_compute.
  - done.
  - done.
  - by split.
  - constructor; [|constructor; [|constructor]]; (split; [cbn; lia|split; [cbn; lia|]]); cbn [fst snd s_path].
    + split; [by vm_compute|]. by constructor; [vm_compute|].
    + by split; [|vm_compute].
  - constructor; [|constructor; [|constructor]]; (exists (seqZ 0 10); split; [by vm_compute|by vm_compute]).
  - exists ds. split; [exact E|]. split; [exact El|]. split.
    + destruct (H (-1)) as (x & s' & file & Ex & _ & Ef & Eb). exists x, s'. split; [exact Ex|].
      assert (file = seqZ 0 10) as -> by (cbn [snd s_path] in Ef; by rewrite example_file in Ef; injection Ef as <-).
      rewrite Eb. by vm_compute.
    + by destruct (H 2) as [_ E2].
Defined.

Definition ext4_64gb : ChunkIO := {| seek_max := 2 ^ 44 - 1; can_allocate n := n <? 2 ^ 36 |}.
#[local] Existing Instance ext4_64gb.

Lemma load_chunks_returns_or_raises_witness :
  load_chunks (u "f") [0; 4] [3; 6] (u "cpu") = Ok [[0; 1; 2]; [4; 5; 6; 7; 8; 9]] ∧
  load_chunks (u "f") [0; 5] [3; 6] (u "cpu") = Err RuntimeError ∧
  load_chunks (u "f") [0] [3; 6] (u "cpu") = Err ValueError ∧
  (∀ outs, load_chunks (u "f") [2 ^ 63] [3] (u "cpu") ≠ Ok outs).
Proof.
  assert (¬ u "cuda" `prefix_of` u "cpu") as Hd by (apply (bool_decide_unpack _); vm_compute; exact I).
  split_and!.
  - apply (load_chunks_returns_or_raises (u "f") [0; 4] [3; 6] (u "cpu")). split_and!; [done|done|].
    exists (seqZ 0 10). split_and!; [by vm_compute| |by vm_compute].
    repeat constructor; cbn [zip zip_with fst snd]; unfold SSIZE_MAX, bytes_header; try lia; try (by vm_compute); right; vm_compute; discriminate.
  - destruct (load_chunks_returns_or_raises (u "f") [0; 5] [3; 6] (u "cpu")) as (_ & _ & _ & H).
    specialize (H Hd eq_refl).
    assert (file_at (u "f") = Some (seqZ 0 10)) as Ef by (by vm_compute). rewrite Ef in H. apply H.
    + repeat constructor; cbn [zip zip_with fst snd]; unfold SSIZE_MAX, bytes_header; try lia; by vm_compute.
    + intros (_ & (_ & _ & _ & _ & [?|?])%Forall_cons%proj1)%Forall_cons; [done|]. revert H0. by vm_compute.
  - by apply (load_chunks_returns_or_raises (u "f") [0] [3; 6] (u "cpu")).
  - intros outs E. apply (load_chunks_returns_or_raises (u "f") [2 ^ 63] [3] (u "cpu")) in E as (_ & _ & file & _ & Hf & _).
    apply Forall_cons in Hf as [((_ & Hm) & _) _]. cbn in Hm. revert Hm. by vm_compute.
Defined.
End Witnesses.
