(* ===== verification/ObjectDataset.v ===== *)
(** The C++ data set of libmemtier (class [MemTierDataset],
    include/memtier/object_api.h and src/object_dataset.cpp).

    Its index is read with [std::getline] and the extraction operators of
    [std::istringstream], which are modelled on bytes as the standard library
    defines them in the "C" locale: white space is skipped first, a word ends
    at white space, and a number is a sign and digits that must fit its type.

    [datasets_read_same_index] shows that it finds in an index file with paths
    the samples that the Python data set (file MemTierLib) finds there, and
    reads their bytes. *)

From S2P Require Import Prelude PyText NumPy NdArray Posix LibTypes GdsBackend ChunkCache LibMemtier MemTierLib.

(** ** Input streams *)

(** A stream over bytes, with its [eofbit] and [failbit]. *)
Record istream := { rest : list Z; eof : bool; failed : bool }.

Definition from_line (line : list Z) : istream := {| rest := line; eof := false; failed := false |}.

Definition c_space (c : Z) : bool := (c =? 32) || ((9 <=? c) && (c <=? 13)).
Definition c_digit (c : Z) : bool := (48 <=? c) && (c <=? 57).

(** The longest prefix of characters of [p], and what follows it. *)
Fixpoint span (p : Z → bool) (l : list Z) : list Z * list Z :=
  match l with
  | [] => ([], [])
  | c :: l' => if p c then let '(w, r) := span p l' in (c :: w, r) else ([], l)
  end.

(** The constructor of [std::istream::sentry]: skips white space; an extraction
    goes on when there is a character after it. *)
Definition sentry (s : istream) : bool * istream :=
  if eof s || failed s then (false, {| rest := rest s; eof := eof s; failed := true |}) else
  match drop_while c_space (rest s) with
  | [] => (false, {| rest := []; eof := true; failed := true |})
  | r => (true, {| rest := r; eof := false; failed := false |})
  end.

Definition at_end (l : list Z) : bool := match l with [] => true | _ => false end.

(** [in >> word]; [old] is the value before. *)
Definition get_word (old : list Z) (s : istream) : list Z * istream :=
  match sentry s with
  | (false, s) => (old, s)
  | (true, s) =>
      let '(w, r) := span (λ c, negb (c_space c)) (rest s) in (w, {| rest := r; eof := at_end r; failed := false |})
  end.

Definition digits_value (ds : list Z) : Z := foldl (λ n c, 10 * n + (c - 48)) 0 ds.

(** [in >> n] for an integer of [w] bits: a number out of range gives the bound
    it exceeds, no digit at all 0, both with [failbit]; a minus sign on an
    unsigned number wraps around. *)
Definition get_int (is_signed : bool) (w : Z) (old : Z) (s : istream) : Z * istream :=
  match sentry s with
  | (false, s) => (old, s)
  | (true, s) =>
      let '(negative, r) := match rest s with
                            | c :: r => if c =? 45 then (true, r) else if c =? 43 then (false, r) else (false, rest s)
                            | [] => (false, [])
                            end in
      let '(ds, r) := span c_digit r in
      let n := digits_value ds in
      let hi := if is_signed then 2 ^ (w - 1) - 1 else 2 ^ w - 1 in
      let bound := if is_signed && negative then 2 ^ (w - 1) else hi in
      let fin bad := {| rest := r; eof := at_end r; failed := bad |} in
      match ds with
      | [] => (0, fin true)
      | _ => if bound <? n then (if is_signed && negative then - 2 ^ (w - 1) else hi, fin true)
             else (if negative then (if is_signed then - n else wrap w (- n)) else n, fin false)
      end
  end.

(** [std::getline] until it fails: the lines without their line feeds. *)
Definition getlines (bytes : list Z) : list (list Z) :=
  let lines := split_char 10 bytes in
  match last lines with Some [] => removelast lines | _ => lines end.

(** ** The data set *)

Record SampleRef := { sample_id : Z; sr_path : list Z; sr_offset : Z; sr_size : Z; sr_label : Z }.

(** A line that is not empty. *)
Definition parse_sample (line : list Z) : result SampleRef :=
  let s := from_line line in
  let '(id, s) := get_int false 64 0 s in
  let '(path, s) := get_word [] s in
  let '(offset, s) := get_int false 64 0 s in
  let '(size, s) := get_int false 64 0 s in
  if failed s then Err RuntimeError else
  let '(label, _) := get_int true 32 (-1) s in
  Ok {| sample_id := id; sr_path := path; sr_offset := offset; sr_size := size; sr_label := label |}.

(** The constructor: [ctx] tells whether a context is given, [index] is the
    contents of the index file, if it opens. *)
Definition object_dataset (ctx : bool) (index : option (list Z)) : result (list SampleRef) :=
  _ ← raise_unless ctx RuntimeError;
  bytes ← of_option RuntimeError index;
  foldM (λ samples line, match line with [] => Ok samples | _ => s ← parse_sample line; Ok (samples ++ [s]) end)
    [] (getlines bytes).

(** [size], and [sample], where [out_of_range] is [IndexError]. *)
Definition dataset_size (samples : list SampleRef) : Z := zlen samples.
Definition sample_at (samples : list SampleRef) (idx : Z) : result SampleRef :=
  if zlen samples <=? idx then Err IndexError else of_option IndexError (samples !! Z.to_nat idx).

Section Read.
  Context {PX : Posix} {PF : Platform}.

  (** [read_sample]; [dst] tells whether a destination is given, [options] are
      the target of the options, if any. *)
Definition read_sample (fuel : nat) (samples : list SampleRef) (idx : Z) (dst : bool) (options : option bool) : CM (Z * list Z) :=
    if negb dst || (zlen samples <=? idx) then mret (MEMTIER_ERR_INVALID, []) else
    match samples !! Z.to_nat idx with
    | Some s => memtier_read fuel (c_string (sr_path s)) (sr_offset s) (sr_size s) (default false options)
    | None => λ _, None
    end.
End Read.

(** *** Small inputs *)

(** A line of format B, without a path, is read as another sample; numbers out
    of range and lines of white space are refused; a label may be missing, and
    anything else in its place gives 0. *)
Lemma parse_sample_examples :
  parse_sample (u "7 0 4096 3") = Ok {| sample_id := 7; sr_path := u "0"; sr_offset := 4096; sr_size := 3; sr_label := -1 |} ∧
  parse_sample (u "7 f 0 4096 cat") = Ok {| sample_id := 7; sr_path := u "f"; sr_offset := 0; sr_size := 4096; sr_label := 0 |} ∧
  parse_sample (u "7 f 0 4096") = Ok {| sample_id := 7; sr_path := u "f"; sr_offset := 0; sr_size := 4096; sr_label := -1 |} ∧
  parse_sample (u "7 f -1 4096") = Ok {| sample_id := 7; sr_path := u "f"; sr_offset := 2 ^ 64 - 1; sr_size := 4096; sr_label := -1 |} ∧
  parse_sample (u "7 f 18446744073709551616 1") = Err RuntimeError ∧
  parse_sample (u "7 f 12") = Err RuntimeError ∧ parse_sample (u "  ") = Err RuntimeError.
Proof. split_and!; vm_compute; reflexivity. Qed.

(** ** Lemmas: extracting what was printed *)

Definition stops (p : Z → bool) (l : list Z) : Prop := match l with [] => True | c :: _ => p c = false end.

Lemma span_app p w r : Forall (λ c, p c = true) w → stops p r → span p (w ++ r) = (w, r).
Proof.
  intros Hw Hr. induction Hw as [|c w Hc _ IH]; cbn [app span]; [|by rewrite Hc, IH].
  destruct r as [|c r]; [done|]. cbn [span]. cbn in Hr. by rewrite Hr.
Qed.

(** A separator: nothing, or a space. *)
Definition gap (l : list Z) : Prop := l = [] ∨ l = [32].
Definition follows (l : list Z) : Prop := l = [] ∨ ∃ r, l = 32 :: r.

Lemma sentry_gap sp c l :
  gap sp → c_space c = false → sentry (from_line (sp ++ c :: l)) = (true, from_line (c :: l)).
Proof. intros Hs Hc. destruct Hs as [-> | ->]; unfold sentry, from_line; cbn; by rewrite Hc. Qed.

Lemma follows_stops p r : p 32 = false → follows r → stops p r.
Proof. intros Hp [->|[r' ->]]; done. Qed.

Lemma get_word_app old sp w r :
  gap sp → w ≠ [] → Forall (λ c, c_space c = false) w → follows r →
  get_word old (from_line (sp ++ w ++ r)) = (w, {| rest := r; eof := at_end r; failed := false |}).
Proof.
  intros Hs Hw Hf Hr. destruct w as [|c w]; [done|]. pose proof Hf as [Hc _]%Forall_cons.
  unfold get_word. cbn [app]. rewrite sentry_gap by done. cbn [rest from_line]. rewrite app_comm_cons, span_app; [done| |].
  - eapply Forall_impl; [exact Hf|]. cbv beta. by intros x ->.
  - by apply follows_stops.
Qed.

Lemma int_digits_value us acc s v :
  Forall is_digit s → int_digits us acc s = Some v → foldl (λ n c, 10 * n + (c - 48)) acc s = v.
Proof.
  intros Hs. revert us acc. induction Hs as [|c s Hc _ IH]; intros us acc; cbn [int_digits foldl].
  - destruct us; [done|]. by intros [= ->].
  - unfold is_digit in Hc. destruct (Z.eqb_spec c 95); [lia|].
    replace c with (48 + (c - 48)) at 1 by lia. rewrite digit_value_ascii by lia. apply IH.
Qed.

Lemma stream_digits_dec n : 0 ≤ n → digits_value (dec_nonneg n) = n.
Proof. intros Hn. by apply (int_digits_value true), dec_nonneg_parse; [apply dec_nonneg_digits|]. Qed.

Lemma dec_nonneg_nonempty n : 0 ≤ n → ∃ c l, dec_nonneg n = c :: l ∧ is_digit c.
Proof.
  intros Hn. pose proof (dec_nonneg_parse n Hn) as H. pose proof (dec_nonneg_digits n Hn) as Hd.
  destruct (dec_nonneg n) as [|c l]; [done|]. apply Forall_cons in Hd as [Hc _]. by exists c, l.
Qed.

Definition fits (is_signed : bool) (w n : Z) : Prop := if is_signed then - 2 ^ (w - 1) ≤ n < 2 ^ (w - 1) else 0 ≤ n < 2 ^ w.

Lemma get_int_dec is_signed w old sp n r :
  gap sp → fits is_signed w n → follows r →
  get_int is_signed w old (from_line (sp ++ dec n ++ r)) = (n, {| rest := r; eof := at_end r; failed := false |}).
Proof.
  intros Hs Hn Hr. assert (∀ m, 0 ≤ m → span c_digit (dec_nonneg m ++ r) = (dec_nonneg m, r)) as Hspan.
  { intros m Hm. apply span_app; [|by apply follows_stops]. eapply Forall_impl; [by apply dec_nonneg_digits|].
    cbv beta. unfold is_digit, c_digit. intros c Hc. apply andb_true_iff. lia. }
  unfold get_int, dec. unfold fits in Hn. destruct (Z.ltb_spec n 0) as [Hneg|Hpos].
  - cbn [app]. rewrite sentry_gap by done. cbn [rest from_line Z.eqb Pos.eqb]. rewrite Hspan by lia.
    destruct (dec_nonneg_nonempty (- n)) as (c & l & E & _); [lia|]. pose proof (stream_digits_dec (- n) ltac:(lia)) as Hv.
    rewrite E in Hv |- *. cbv beta iota zeta. rewrite Hv. destruct is_signed; [|lia]. cbn [andb]. destruct (Z.ltb_spec (2 ^ (w - 1)) (- n)); [lia|]. f_equal. lia.
  - destruct (dec_nonneg_nonempty n Hpos) as (c & l & E & Hc). unfold is_digit in Hc. rewrite E. cbn [app].
    rewrite sentry_gap; [|done|unfold c_space; apply orb_false_iff; split; [lia|apply andb_false_iff; lia]].
    cbn [rest from_line]. destruct (Z.eqb_spec c 45); [lia|]. destruct (Z.eqb_spec c 43); [lia|].
    rewrite app_comm_cons, <-E, Hspan by done. pose proof (stream_digits_dec n Hpos) as Hv. rewrite E in Hv |- *. cbv beta iota zeta.
    rewrite Hv, andb_false_r.
    destruct (Z.ltb_spec (if is_signed then 2 ^ (w - 1) - 1 else 2 ^ w - 1) n); [destruct is_signed; lia|done].
Qed.

(** ** The two data sets *)

(** The sample of the C++ data set for one of the Python data set. *)
Definition to_ref (s : sample) : SampleRef :=
  {| sample_id := sid s; sr_path := utf8 (s_path s); sr_offset := s_offset s; sr_size := s_size s; sr_label := s_label s |}.

(** A sample whose numbers the C++ types hold. *)
Definition ref_ok (s : sample) : Prop :=
  word (s_path s) ∧ 0 ≤ sid s < 2 ^ 64 ∧ 0 ≤ s_offset s < 2 ^ 64 ∧ 0 < s_size s < 2 ^ 64 ∧ - 2 ^ 31 ≤ s_label s < 2 ^ 31.

Lemma utf8_ascii l : Forall (λ c, c < 128) l → utf8 l = l.
Proof.
  induction 1 as [|c l Hc _ IH]; [done|]. unfold utf8. rewrite fmap_cons. cbn [concat]. unfold utf8_char at 1.
  rewrite (proj2 (Z.ltb_lt c 0x80)) by lia. cbn [app]. f_equal. exact IH.
Qed.

Lemma utf8_dec n : utf8 (dec n) = dec n.
Proof. apply utf8_ascii. eapply Forall_impl; [apply dec_chars|]. cbv beta. unfold is_digit. intros c. lia. Qed.

Lemma utf8_word w : word w → utf8 w ≠ [] ∧ Forall (λ c, c_space c = false) (utf8 w).
Proof.
  intros [Hne Hw]. split.
  - destruct w as [|c w]; [done|]. unfold utf8. rewrite fmap_cons. cbn [concat]. unfold utf8_char at 1. by repeat case_match.
  - unfold utf8. apply Forall_concat, Forall_fmap. eapply Forall_impl; [exact Hw|]. cbv beta. intros c Hc. cbn.
    assert (∀ x, 128 ≤ x → c_space x = false) as Hhi.
    { intros x Hx. unfold c_space. apply orb_false_iff. split; [apply Z.eqb_neq; lia|apply andb_false_iff; right; apply Z.leb_gt; lia]. }
    unfold utf8_char. destruct (Z.ltb_spec c 0x80).
    + constructor; [|constructor]. unfold is_space in Hc. unfold c_space. rewrite !orb_false_iff in Hc. destruct Hc as [[[[[[[[[[H1 H2] _] _] _] _] _] _] _] _] _].
      rewrite H1, orb_false_r. apply Z.eqb_neq. intros ->. by apply andb_false_iff in H2 as [[=]|[=]].
    + pose proof (Z.div_pos c 64 ltac:(lia) ltac:(lia)). pose proof (Z.div_pos c 4096 ltac:(lia) ltac:(lia)).
      pose proof (Z.div_pos c 262144 ltac:(lia) ltac:(lia)). pose proof (Z.mod_pos_bound c 64 ltac:(lia)).
      pose proof (Z.mod_pos_bound (c `div` 64) 64 ltac:(lia)). pose proof (Z.mod_pos_bound (c `div` 4096) 64 ltac:(lia)).
      repeat case_match; repeat constructor; apply Hhi; lia.
Qed.

(** The line of a sample, without its line feed, as bytes. *)
Definition line_bytes (s : sample) : list Z :=
  dec (sid s) ++ [32] ++ utf8 (s_path s) ++ [32] ++ dec (s_offset s) ++ [32] ++ dec (s_size s) ++ [32] ++ dec (s_label s).

Lemma index_line_bytes s : utf8 (index_line (true, s)) = line_bytes s ++ [10].
Proof.
  assert (∀ l, utf8 (32 :: l) = 32 :: utf8 l) as Hsp by done.
  unfold index_line, line_bytes. cbn [fst snd app join].
  rewrite utf8_app, utf8_app, Hsp, utf8_app, Hsp, utf8_app, Hsp, utf8_app, Hsp, !utf8_dec. done.
Qed.

(** The rest of a line, as a stream. *)
Definition at_rest (l : list Z) : istream := {| rest := l; eof := at_end l; failed := false |}.

Lemma at_rest_space l : at_rest ([32] ++ l) = from_line ([32] ++ l).
Proof. done. Qed.

Lemma parse_sample_line s : ref_ok s → parse_sample (line_bytes s) = Ok (to_ref s).
Proof.
  intros (Hp & H1 & H2 & H3 & H4). destruct (utf8_word _ Hp) as [Hne Hs]. unfold parse_sample, line_bytes.
  assert (∀ l, follows ([32] ++ l)) as Hf by (intros l; right; by exists l).
  assert (gap []) as G0 by by left. assert (gap [32]) as G1 by by right.
  change (from_line (dec ?n ++ ?l)) with (from_line ([] ++ dec n ++ l)). rewrite (get_int_dec false 64 0 [] (sid s)) by done. fold (at_rest ([32] ++ utf8 (s_path s) ++ [32] ++ dec (s_offset s) ++ [32] ++ dec (s_size s) ++ [32] ++ dec (s_label s))).
  rewrite at_rest_space, get_word_app by done. fold (at_rest ([32] ++ dec (s_offset s) ++ [32] ++ dec (s_size s) ++ [32] ++ dec (s_label s))).
  rewrite at_rest_space, (get_int_dec false 64 0 [32] (s_offset s)) by done. fold (at_rest ([32] ++ dec (s_size s) ++ [32] ++ dec (s_label s))).
  rewrite at_rest_space, (get_int_dec false 64 0 [32] (s_size s)) by (done || (cbn; lia)). fold (at_rest ([32] ++ dec (s_label s))).
  cbn [failed at_rest]. rewrite at_rest_space, <-(app_nil_r (dec (s_label s))), (get_int_dec true 32 (-1) [32] (s_label s)) by (done || by left).
  done.
Qed.

Lemma line_bytes_newline s : ref_ok s → Forall (λ c, c ≠ 10) (line_bytes s).
Proof.
  intros (Hp & _). destruct (utf8_word _ Hp) as [_ Hs]. unfold line_bytes.
  assert (∀ n, Forall (λ c, c ≠ 10) (dec n)) as Hd.
  { intros n. eapply Forall_impl; [apply dec_chars|]. cbv beta. unfold is_digit. lia. }
  assert (Forall (λ c, c ≠ 10) (utf8 (s_path s))) by (eapply Forall_impl; [exact Hs|]; by intros c Hc ->).
  rewrite !Forall_app. split_and!; try done; by repeat constructor.
Qed.

Lemma getlines_concat ls :
  Forall (Forall (λ c, c ≠ 10)) ls → getlines (concat ((λ l, l ++ [10]) <$> ls)) = ls.
Proof.
  intros H. assert (split_char 10 (concat ((λ l, l ++ [10]) <$> ls)) = ls ++ [[]]) as E.
  { induction H as [|l ls Hl _ IH]; [done|]. rewrite fmap_cons. cbn [concat]. rewrite <-app_assoc. cbn [app].
    rewrite split_char_app_sep by done. by rewrite IH. }
  unfold getlines. rewrite E, last_snoc. apply removelast_last.
Qed.

Lemma object_dataset_lines samples :
  Forall ref_ok samples →
  object_dataset true (Some (utf8 (concat (index_line <$> ((true,.) <$> samples))))) = Ok (to_ref <$> samples).
Proof.
  intros H. assert (utf8 (concat (index_line <$> ((true,.) <$> samples))) = concat ((λ l, l ++ [10]) <$> (line_bytes <$> samples))) as ->.
  { clear. induction samples as [|s samples IH]; [done|]. rewrite !fmap_cons. cbn [concat]. by rewrite utf8_app, IH, index_line_bytes. }
  unfold object_dataset. cbn [raise_unless of_option mbind result_bind]. rewrite getlines_concat.
  2:{ apply Forall_fmap. eapply Forall_impl; [exact H|]. intros s. apply line_bytes_newline. }
  assert (∀ acc, foldM (λ samples line, match line with [] => Ok samples | _ => s ← parse_sample line; Ok (samples ++ [s]) end) acc
    (line_bytes <$> samples) = Ok (acc ++ (to_ref <$> samples))) as Hf; [|by apply Hf].
  induction H as [|s samples Hs _ IH]; intros acc; [by rewrite app_nil_r|]. rewrite !fmap_cons. cbn [foldM].
  assert (∃ x l, line_bytes s = x :: l) as (x & l & E).
  { unfold line_bytes. destruct (dec (sid s)); cbn [app]; by do 2 eexists. }
  rewrite E, <-E, parse_sample_line by done. cbn [mbind result_bind]. rewrite IH. by rewrite <-app_assoc.
Qed.

(** C27: both data sets read the same index. From an index file with one line
    per sample, its path included, the Python and the C++ data sets have the
    same samples, in order, with their paths, ranges and labels. The C++ one
    then reads into the destination, in CPU or GPU memory, exactly the bytes a
    sample names when they are inside its file, and refuses any other index and
    a null destination. *)
Theorem datasets_read_same_index `{PX : Posix, PF : Platform} B fuel samples c idx gpu :
  Forall ref_ok samples → coherent c → ids_sound → os_reliable B → o_chunk_size (opts c) * Z.of_nat B ≤ Z.of_nat fuel →
  (gpu = true → memtier_cuda_available = true ∧ ∀ n, cuda_success n = true) → 0 ≤ idx →
  let rows := (true,.) <$> samples in
  parse_index None (index_line <$> rows) = Ok samples ∧
  ∃ refs, object_dataset true (Some (utf8 (concat (index_line <$> rows)))) = Ok refs ∧ refs = to_ref <$> samples ∧
    match samples !! Z.to_nat idx with
    | None => read_sample fuel refs idx true (Some gpu) c = Some (Ok (MEMTIER_ERR_INVALID, []), c) ∧
              sample_at refs idx = Err IndexError
    | Some s =>
        sample_at refs idx = Ok (to_ref s) ∧
        read_sample fuel refs idx false (Some gpu) c = Some (Ok (MEMTIER_ERR_INVALID, []), c) ∧
        ∀ file, file_at (c_string (utf8 (s_path s))) = Some file → s_offset s + s_size s ≤ zlen file → zlen file ≤ 2 ^ 63 →
          ∃ c', read_sample fuel refs idx true (Some gpu) c =
                  Some (Ok (MEMTIER_OK, py_slice file (s_offset s) (s_offset s + s_size s)), c') ∧ coherent c'
    end.
Proof.
  intros Hs Hc Hid HB Hfuel Hgpu Hidx rows. split.
  { rewrite parse_index_rows; [unfold rows; by rewrite <-list_fmap_compose, list_fmap_id|].
    apply Forall_fmap. eapply Forall_impl; [exact Hs|]. intros s (H1 & _ & H2 & H3 & _). split_and!; cbn; [lia|lia|done]. }
  eexists. split; [by apply object_dataset_lines|]. split; [done|]. unfold read_sample, sample_at. rewrite length_fmap, list_lookup_fmap.
  destruct (samples !! Z.to_nat idx) as [s|] eqn:Es.
  - pose proof (lookup_lt_Some _ _ _ Es) as Hlt. rewrite (proj2 (Z.leb_gt _ _)) by lia. cbn [negb orb fmap option_fmap option_map of_option].
    split_and!; [done..|]. intros file Hf Hle Hmax. pose proof (Forall_lookup_1 _ _ _ _ Hs Es) as (_ & _ & H2 & H3 & _).
    destruct (read_spec B fuel (c_string (utf8 (s_path s))) file (s_offset s) (s_size s) gpu c) as (rc & out & c' & E & Hc' & _ & Hok & _);
      [done..|lia|lia|lia|by left|done|]. destruct (Hok Hle) as [-> ->]. exists c'. split; [exact E|done].
  - apply lookup_ge_None_1 in Es. rewrite (proj2 (Z.leb_le _ _)) by lia. done.
Qed.

(** *** The property at concrete data *)

Section Witness.
#[local] Existing Instance ten_bytes.
#[local] Existing Instance cpu_only.

Definition two_samples : list sample :=
  [{| sid := 4; s_path := u "f"; s_offset := 2; s_size := 3; s_label := -1 |};
   {| sid := 9; s_path := u "f"; s_offset := 5; s_size := 5; s_label := 7 |}].

Lemma two_samples_ok : Forall ref_ok two_samples.
Proof.
  assert (word (u "f")) as Hw by (split; [done|repeat constructor]).
  repeat (apply Forall_cons; split; [unfold ref_ok; cbn [s_path sid s_offset s_size s_label]; split_and!; done || lia|]).
  by constructor.
Qed.

Lemma datasets_read_same_index_witness :
  ∃ refs, object_dataset true (Some (u "4 f 2 3 -1" ++ [10] ++ u "9 f 5 5 7" ++ [10])) = Ok refs ∧
    ∃ c', read_sample 9 refs 1 true None small_ctx = Some (Ok (MEMTIER_OK, [5; 6; 7; 8; 9]), c').
Proof.
  destruct (datasets_read_same_index 1 9 two_samples small_ctx 1 false two_samples_ok small_coherent cpu_only_sound ten_bytes_reliable)
    as (_ & refs & E & _ & _ & _ & H); [by vm_compute|done|done|].
  exists refs. split; [exact E|]. destruct (H (seqZ 0 10)) as (c' & Er & _); [reflexivity|vm_compute; discriminate|vm_compute; discriminate|].
  exists c'. exact Er.
Defined.
End Witness.
