(* ===== verification/Examples.v ===== *)
(** The example programs of the Python package
    (examples/python_load_tensor.py, python_dataset_demo.py and
    python_load_chunks.py): each writes files and reads them back through
    package memtier (file MemTierLib), on the GPU the environment names.

    [examples_run] shows that with PyTorch and a GPU they end well and print
    what they wrote, and that without PyTorch they end with RuntimeError. *)

From S2P Require Import Prelude PyText NumPy NdArray Posix LibTypes GdsBackend ChunkCache LibMemtier MemTierLib.

(** [bytes([i % 251 for i in range(n)])]. *)
Definition demo_bytes (n : Z) : list Z := (λ i, i `mod` 251) <$> seqZ 0 n.

(** [a == b] on bytes. *)
Definition same_bytes (a b : list Z) : bool := bool_decide (a = b).

Lemma same_bytes_refl a : same_bytes a a = true.
Proof. by apply bool_decide_true. Qed.

(** The names [memtier/__init__.py] binds in the package. *)
Definition package_names : list str :=
  [u "load_tensor"; u "read_into_tensor"; u "MemTierDataset"; u "tensor"; u "dataset"; u "_ctypes"].

Section Examples.
  Context {PX : Posix} {PF : Platform} {TO : Torch} {RS : Reshape}.
  Variables (env : environment) (fuel : nat).

  (** [f"cuda:{os.environ.get('MEMTIER_DEVICE_ID', '0')}"]. *)
Definition demo_device : str := u "cuda:" ++ default (u "0") (device_id_var env).

  (** python_load_tensor.py, once the file is written: the shape and the bytes
      it prints. *)
Definition python_load_tensor (path : str) : RM (list Z * list Z) :=
    let data := demo_bytes (1024 * 1024) in
    out ← load_tensor env fuel path 256 (Some 4096) None (u "uint8") (Some demo_device);
    let raw := loaded_bytes out in
    let shape := match loaded_type out with Some (shape, _) => shape | None => [zlen raw] end in
    _ ← guarded (same_bytes raw (py_slice data 256 (256 + 4096))) AssertionError;
    mret (shape, py_slice raw 0 8).

  (** The index python_dataset_demo.py writes. *)
Definition demo_index : list str :=
    (λ i, dec i ++ u " " ++ dec (i * 4096) ++ u " 4096 " ++ dec i ++ [10]) <$> seqZ 0 3.

  (** The items printed, then the first batch of a DataLoader, which takes two
      items and collates them. *)
Definition python_dataset_demo (collate : list (loaded * option Z) → result unit) (data_file : str)
      : RM (list (Z * option Z * list Z)) :=
    ds ← lift (dataset_init env (Some demo_index) (Some data_file) (Some demo_device) (u "uint8") None None None true);
    rows ← sm_fold (λ rows i,
      '(s, l) ← dataset_getitem env fuel ds i;
      mret (rows ++ [(i, l, py_slice (loaded_bytes s) 0 4)])) [] (seqZ 0 3);
    if negb (torch_available env) then mret rows else
    items ← sm_fold (λ items i, item ← dataset_getitem env fuel ds i; mret (items ++ [item])) [] (seqZ 0 2);
    _ ← lift (collate items);
    mret rows.

  (** python_load_chunks.py: the import is its first statement. *)
Definition python_load_chunks `{PI : ChunkIO} (path : str) : result (list (list Z)) :=
    _ ← raise_unless (bool_decide (u "load_chunks" ∈ package_names)) ImportError;
    let data := demo_bytes 65536 in
    outs ← load_chunks path [0; 4096; 8192] [1024; 1024; 1024] (u "cpu");
    out ← py_index outs 1;
    _ ← raise_unless (same_bytes out (py_slice data 4096 5120)) AssertionError;
    Ok outs.
End Examples.

(** The name is not bound: the third example never runs. *)
Lemma load_chunks_not_exported `{PX : Posix, PI : ChunkIO} path : python_load_chunks path = Err ImportError.
Proof. by unfold python_load_chunks. Qed.

(** ** The others run *)

Definition demo_sample (data_file : str) (i : Z) : sample :=
  {| sid := i; s_path := data_file; s_offset := i * 4096; s_size := 4096; s_label := i |}.

Lemma demo_index_rows data_file :
  demo_index = index_line <$> ((λ i, (false, demo_sample data_file i)) <$> seqZ 0 3).
Proof. by vm_compute. Qed.

Lemma demo_index_parses data_file :
  data_file ≠ [] → parse_index (Some data_file) demo_index = Ok (demo_sample data_file <$> seqZ 0 3).
Proof.
  intros Hne. rewrite (demo_index_rows data_file), parse_index_rows; [by rewrite <-list_fmap_compose|].
  apply Forall_fmap, Forall_forall. intros i Hi%elem_of_seqZ. split_and!; cbn; [lia|lia|done].
Qed.

Lemma demo_bytes_length n : 0 ≤ n → zlen (demo_bytes n) = n.
Proof. intros Hn. unfold demo_bytes. rewrite length_fmap, length_seqZ. lia. Qed.

Lemma demo_bytes_slice n a b :
  0 ≤ a ≤ b → b ≤ n → py_slice (demo_bytes n) a b = (λ i, i `mod` 251) <$> seqZ a (b - a).
Proof.
  intros Ha Hb. unfold demo_bytes. rewrite py_slice_nonneg by lia. rewrite <-fmap_drop, <-fmap_take. f_equal.
  replace n with (a + ((b - a) + (n - b))) at 1 by lia. rewrite seqZ_app, (seqZ_app _ (b - a)) by lia.
  rewrite drop_app_length' by (rewrite length_seqZ; lia). rewrite Z.add_0_l. apply take_app_length'. rewrite length_seqZ. lia.
Qed.

#[local] Opaque demo_bytes.

Section Running.
Context {PX : Posix} {PF : Platform} {TO : Torch} {RS : Reshape}.
Variables (B : nat) (env : environment) (fuel : nat).
Hypothesis reliable : os_reliable B.
Hypothesis sound : ids_sound.
Hypothesis enough : 2 ^ 20 * Z.of_nat B ≤ Z.of_nat fuel.
Hypothesis loads : cdll env (library_name env) = true.
Hypothesis allocates : context_allocated = true.

(** The data set of the second example. *)
Lemma demo_item ds data_file gpu i s :
  runtime_ok s → device_ready env (Some (d_target ds)) gpu →
  d_shape ds = None → d_dtype ds = u "uint8" → d_transform ds = None → d_return_label ds = true →
  d_samples ds = demo_sample data_file <$> seqZ 0 3 → file_at (c_string (utf8 data_file)) = Some (demo_bytes (3 * 4096)) →
  0 ≤ i < 3 →
  ∃ x s', dataset_getitem env fuel ds i s = Some (Ok (x, Some i), s') ∧ runtime_ok s' ∧
    py_slice (loaded_bytes x) 0 4 = [(i * 4096) `mod` 251; (i * 4096 + 1) `mod` 251; (i * 4096 + 2) `mod` 251; (i * 4096 + 3) `mod` 251].
Proof.
  intros Hs Hdev E1 E2 E3 E4 Eds Ef Hi.
  destruct (getitem_spec B env fuel ds i (demo_sample data_file i) (demo_bytes (3 * 4096)) gpu s reliable sound enough loads allocates Hs Hdev
    E1 E2 E3 E4) as (x & s' & E & Hs' & Eb & _).
  - rewrite Eds. assert (i = 0 ∨ i = 1 ∨ i = 2) as [->|[->| ->]] by lia; by vm_compute.
  - exact Ef.
  - cbn [demo_sample s_offset]. lia.
  - done.
  - rewrite demo_bytes_length by lia. cbn [demo_sample s_offset s_size]. lia.
  - rewrite demo_bytes_length by lia. lia.
  - exists x, s'. split_and!; [done|done|]. rewrite Eb. cbn [demo_sample s_offset s_size]. rewrite demo_bytes_slice by lia.
    replace (i * 4096 + 4096 - i * 4096) with 4096 by lia.
    assert (i = 0 ∨ i = 1 ∨ i = 2) as [->|[->| ->]] by lia; by vm_compute.
Qed.

(** The examples do what they print. With PyTorch, a GPU at the index that
    MEMTIER_DEVICE_ID names and the files written, python_load_tensor.py passes
    its assertion and prints the shape and the first bytes it wrote, and
    python_dataset_demo.py prints the three samples with their labels and
    collates the first two; without PyTorch both end with RuntimeError, since
    they ask for a GPU. *)
Lemma examples_run collate tensor_file data_file s :
  runtime_ok s → data_file ≠ [] →
  file_at (c_string (utf8 tensor_file)) = Some (demo_bytes (1024 * 1024)) →
  file_at (c_string (utf8 data_file)) = Some (demo_bytes (3 * 4096)) →
  (∀ items, length items = 2%nat → collate items = Ok ()) →
  (torch_available env = true → device_ready env (Some (demo_device env)) true →
    (∃ s', python_load_tensor env fuel tensor_file s = Some (Ok ([4096], [5; 6; 7; 8; 9; 10; 11; 12]), s')) ∧
    (∃ s', python_dataset_demo env fuel collate data_file s =
       Some (Ok [(0, Some 0, [0; 1; 2; 3]); (1, Some 1, [80; 81; 82; 83]); (2, Some 2, [160; 161; 162; 163])], s'))) ∧
  (torch_available env = false →
    python_load_tensor env fuel tensor_file s = Some (Err RuntimeError, s) ∧
    python_dataset_demo env fuel collate data_file s = Some (Err RuntimeError, s)).
Proof.
  intros Hs Hne Et Ed Hcol. split.
  - intros Htorch Hdev. split.
    + destruct (load_tensor_spec B env fuel tensor_file (demo_bytes (1024 * 1024)) reliable sound Et enough loads allocates 256 (Some 4096)
        None (u "uint8") 1 (Some (demo_device env)) true 4096 s Hs Hdev eq_refl (conj eq_refl eq_refl)) as (r & s' & E & _ & Hr); [lia..|].
      rewrite demo_bytes_length, (proj2 (Z.leb_le _ _)) in Hr by lia. destruct Hr as (x & -> & Eb & Ety). rewrite Htorch in Ety.
      exists s'. unfold python_load_tensor. sm_run ltac:(exact E). rewrite (Ety eq_refl), Eb, same_bytes_refl.
      sm_run ltac:(reflexivity). rewrite demo_bytes_slice by lia. reflexivity.
    + assert (∃ ds, dataset_init env (Some demo_index) (Some data_file) (Some (demo_device env)) (u "uint8") None None None true = Ok ds ∧
        d_samples ds = demo_sample data_file <$> seqZ 0 3 ∧ d_target ds = demo_device env ∧ d_shape ds = None ∧ d_dtype ds = u "uint8" ∧
        d_transform ds = None ∧ d_return_label ds = true) as (ds & Eds & Esm & Etg & E1 & E2 & E3 & E4).
      { unfold dataset_init. cbn [of_option mbind result_bind]. rewrite demo_index_parses by done. eexists. split; [reflexivity|done]. }
      assert (∀ i s, runtime_ok s → 0 ≤ i < 3 → ∃ x s', dataset_getitem env fuel ds i s = Some (Ok (x, Some i), s') ∧ runtime_ok s' ∧
        py_slice (loaded_bytes x) 0 4 = [(i * 4096) `mod` 251; (i * 4096 + 1) `mod` 251; (i * 4096 + 2) `mod` 251; (i * 4096 + 3) `mod` 251])
        as Hitem by (intros i s0 Hs0 Hi; apply (demo_item ds data_file true); rewrite ?Etg; done).
      destruct (Hitem 0 s Hs) as (x0 & s1 & G0 & H1 & B0); [lia|]. destruct (Hitem 1 s1 H1) as (x1 & s2 & G1 & H2 & B1); [lia|].
      destruct (Hitem 2 s2 H2) as (x2 & s3 & G2 & H3 & B2); [lia|]. destruct (Hitem 0 s3 H3) as (y0 & s4 & G3 & H4 & _); [lia|].
      destruct (Hitem 1 s4 H4) as (y1 & s5 & G4 & H5 & _); [lia|].
      exists s5. unfold python_dataset_demo. sm_run ltac:(rewrite Eds; reflexivity).
      change (seqZ 0 3) with [0; 1; 2]. change (seqZ 0 2) with [0; 1]. cbn [sm_fold].
      sm_run ltac:(sm_run ltac:(sm_run ltac:(exact G0); reflexivity); sm_run ltac:(sm_run ltac:(exact G1); reflexivity);
        sm_run ltac:(sm_run ltac:(exact G2); reflexivity); reflexivity).
      rewrite Htorch. cbn [negb].
      sm_run ltac:(sm_run ltac:(sm_run ltac:(exact G3); reflexivity); sm_run ltac:(sm_run ltac:(exact G4); reflexivity); reflexivity).
      sm_run ltac:(unfold lift; rewrite Hcol by done; reflexivity). rewrite B0, B1, B2. reflexivity.
  - intros Htorch. assert (bool_decide (demo_device env = u "cpu") = false) as Hcpu by (by apply bool_decide_false).
    assert (∀ path offset n, load_tensor env fuel path offset (Some n) None (u "uint8") (Some (demo_device env)) s = Some (Err RuntimeError, s)) as Hload.
    { intros path offset n. unfold load_tensor.
      change (default (default_device env) (Some (demo_device env))) with (demo_device env). by rewrite Htorch, Hcpu. }
    split; [unfold python_load_tensor; by apply sm_raise|]. unfold python_dataset_demo, dataset_init. cbn [of_option mbind result_bind].
    rewrite demo_index_parses by done. sm_run ltac:(reflexivity). change (seqZ 0 3) with [0; 1; 2]. cbn [sm_fold].
    apply sm_raise, sm_raise, sm_raise. unfold dataset_getitem. cbn [d_samples d_shape d_dtype d_target default].
    sm_run ltac:(reflexivity). apply sm_raise, Hload.
Qed.
End Running.

(** *** The property at concrete data *)

Section Witness.

(** A system with the two files, and a machine with a GPU. *)
Definition demo_files (path : str) : option (list Z) :=
  if decide (path = u "t.bin") then Some (demo_bytes (1024 * 1024)) else
  if decide (path = u "d.bin") then Some (demo_bytes (3 * 4096)) else None.
Definition demo_system : Posix := reference_posix_on demo_files.
#[local] Existing Instance demo_system.
Definition gpu_machine : Platform :=
  {| file_id_from_path path := if decide (path = u "t.bin") then 1 else if decide (path = u "d.bin") then 2 else 0;
     memtier_cuda_available := true; cuda_success _ := true; context_allocated := true; gds_library := None |}.
#[local] Existing Instance gpu_machine.
#[local] Existing Instance reference_torch.
#[local] Existing Instance reference_reshape.

Lemma gpu_machine_sound : ids_sound.
Proof.
  intros p q. change (file_at p) with (demo_files p). change (file_at q) with (demo_files q).
  unfold file_id_from_path, gpu_machine, demo_files. by repeat case_decide.
Qed.

Definition demo_fuel : nat := Z.to_nat (2 ^ 21).

Lemma examples_run_witness :
  (∃ s', python_load_tensor (example_env true) demo_fuel (u "t.bin") fresh_runtime
     = Some (Ok ([4096], [5; 6; 7; 8; 9; 10; 11; 12]), s')) ∧
  python_load_tensor (example_env false) demo_fuel (u "t.bin") fresh_runtime = Some (Err RuntimeError, fresh_runtime).
Proof.
  assert (2 ^ 20 * Z.of_nat 2 ≤ Z.of_nat demo_fuel) as Hfuel by (unfold demo_fuel; rewrite Z2Nat.id by lia; lia).
  assert (∀ b, cdll (example_env b) (library_name (example_env b)) = true) as Hload by (intros b; by vm_compute).
  pose proof (λ b, examples_run 2 (example_env b) demo_fuel (reference_reliable_on demo_files) gpu_machine_sound Hfuel (Hload b) eq_refl
    (λ _, Ok ()) (u "t.bin") (u "d.bin") fresh_runtime I ltac:(discriminate) eq_refl eq_refl ltac:(done)) as H.
  split.
  - destruct (H true) as [H1 _]. destruct (H1 eq_refl) as [H2 _]; [|exact H2].
    split; [vm_compute; reflexivity|intros _; split; [reflexivity|intros ?; reflexivity]].
  - destruct (H false) as [_ H1]. exact (proj1 (H1 eq_refl)).
Defined.
End Witness.
