(* ===== verification/Runtime.v ===== *)
(** The embedding runtime (memtier_embedding_bench/src: memtier_api.cpp,
    residency_table.cpp, posix_loader.cpp, metrics.cpp).

    A lookup serves blocks of the embedding file from slots of device memory.
    It goes through the residency table, the DRAM cache (pinned host slots,
    filled with [pread]) and the HBM cache (device slots, filled by
    asynchronous copies from the host slots).  A pointer is the slot it points
    to; slots hold the bytes last written to them.  The copies enqueued on the
    stream wait in [pending]: the device performs them in order, some of them
    before the host writes its next slot ([drained]), the others when the
    stream is synchronized.  A write to a slot is atomic with respect to the
    copies. *)

From S2P Require Import Prelude PyFloat PyText NumPy Posix LruSim SlotCache.

(** ** The residency table *)

Inductive residency_state : Type :=
| NOT_RESIDENT
| IN_DRAM
| IN_HBM
| LOADING.

#[export] Instance residency_state_eq_dec : EqDecision residency_state.
Proof. solve_decision. Defined.

Record residency_entry := {
  e_block_id : Z;
  e_state : residency_state;
  dram_ptr : option Z;
  device_ptr : option Z;
  last_access_step : Z;
  access_count : Z;
  ref_count : Z;
}.

Module ResidencyTable.
Record t := { entries : gmap Z residency_entry; step : Z }.

Definition empty : t := {| entries := ∅; step := 0 |}.

(** The entry [operator[]] inserts for a block that has none. *)
Definition fresh_entry : residency_entry :=
  {| e_block_id := 0; e_state := NOT_RESIDENT; dram_ptr := None; device_ptr := None;
     last_access_step := 0; access_count := 0; ref_count := 0 |}.

(** The entry of a block, changed by [f] at the next step, and the table. *)
Definition update (block : Z) (f : Z → residency_entry → residency_entry) (tbl : t) : residency_entry * t :=
  let step := wrap 64 (step tbl + 1) in
  let entry := f step (default fresh_entry (entries tbl !! block)) in
  (entry, {| entries := <[block := entry]> (entries tbl); step := step |}).

Definition lookup (block : Z) : t → residency_entry * t :=
  update block (λ step e,
    {| e_block_id := if decide (e_state e = NOT_RESIDENT) then block else e_block_id e; e_state := e_state e;
       dram_ptr := dram_ptr e; device_ptr := device_ptr e; last_access_step := step;
       access_count := wrap 64 (access_count e + 1); ref_count := wrap 32 (ref_count e + 1) |}).

Definition mark_loading (block : Z) : t → residency_entry * t :=
  update block (λ step e,
    {| e_block_id := block; e_state := LOADING; dram_ptr := dram_ptr e; device_ptr := device_ptr e;
       last_access_step := step; access_count := access_count e; ref_count := ref_count e |}).

Definition mark_dram (block ptr : Z) : t → residency_entry * t :=
  update block (λ step e,
    {| e_block_id := block; e_state := IN_DRAM; dram_ptr := Some ptr; device_ptr := device_ptr e;
       last_access_step := step; access_count := access_count e; ref_count := ref_count e |}).

Definition mark_hbm (block ptr : Z) : t → residency_entry * t :=
  update block (λ step e,
    {| e_block_id := block; e_state := IN_HBM; dram_ptr := dram_ptr e; device_ptr := Some ptr;
       last_access_step := step; access_count := access_count e; ref_count := ref_count e |}).

Definition release (block : Z) (tbl : t) : residency_entry * t :=
  match entries tbl !! block with
  | None =>
      ({| e_block_id := block; e_state := NOT_RESIDENT; dram_ptr := None; device_ptr := None;
          last_access_step := 0; access_count := 0; ref_count := 0 |}, tbl)
  | Some _ =>
      update block (λ step e,
        {| e_block_id := e_block_id e; e_state := e_state e; dram_ptr := dram_ptr e; device_ptr := device_ptr e;
           last_access_step := step; access_count := access_count e;
           ref_count := if 0 <? ref_count e then ref_count e - 1 else ref_count e |}) tbl
  end.

Definition erase (block : Z) (tbl : t) : t := {| entries := delete block (entries tbl); step := step tbl |}.
Definition clear (tbl : t) : t := {| entries := ∅; step := step tbl |}.
Definition size (tbl : t) : Z := Z.of_nat (size (entries tbl)).
End ResidencyTable.

(** ** The handle *)

Record embedding_config := {
  num_embeddings : Z;
  embedding_dim : Z;
  rows_per_block : Z;
  dtype_size : Z;
  dram_cache_bytes : Z;
  hbm_cache_bytes : Z;
  enable_gds : Z;
  enable_prefetch : Z;
}.

(** [block_size_bytes]: a product of 32-bit fields in 64-bit arithmetic. *)
Definition block_size_bytes (cfg : embedding_config) : Z :=
  wrap 64 (wrap 64 (rows_per_block cfg * embedding_dim cfg) * dtype_size cfg).

Inductive path : Type :=
| HBM_HIT
| DRAM_HIT
| POSIX_READ
| GDS_READ
| UVM_FAULT.

#[export] Instance path_eq_dec : EqDecision path.
Proof. solve_decision. Defined.

(** The integer fields of [Metrics]. *)
Inductive metric : Type :=
| hbm_hits
| dram_hits
| dram_misses
| posix_reads
| gds_reads
| eviction_count
| bytes_read_from_ssd
| bytes_copied_dram_to_gpu.

#[export] Instance metric_eq_dec : EqDecision metric.
Proof. solve_decision. Defined.

Record handle := {
  h_file : list Z;                      (* what the descriptor [fd_] reads *)
  h_config : embedding_config;
  block_bytes : Z;
  residency : ResidencyTable.t;
  dram_cache : slot_cache;
  dram_stats : Z * Z * Z;               (* dram_hit, dram_miss, eviction_count *)
  dram_mem : gmap Z (list Z);           (* the bytes of the host slots *)
  hbm_cache : slot_cache;
  hbm_mem : gmap Z (list Z);            (* the bytes of the device slots *)
  pending : list (Z * Z);               (* copies enqueued: device slot, host slot *)
  metrics : metric → Z;
  total_lookup_time_ms : f64;
  preads : nat;                         (* system calls so far *)
  host_writes : nat;                    (* loads so far *)
  cuda_calls : nat;                     (* CUDA calls so far *)
  lookups : nat;                        (* timed lookups so far *)
}.

Abbreviation HM := (SM handle).

(** ** Updates of one part of the handle *)

Definition with_residency (f : ResidencyTable.t → ResidencyTable.t) (h : handle) : handle :=
  {| h_file := h_file h; h_config := h_config h; block_bytes := block_bytes h; residency := f (residency h);
     dram_cache := dram_cache h; dram_stats := dram_stats h; dram_mem := dram_mem h; hbm_cache := hbm_cache h;
     hbm_mem := hbm_mem h; pending := pending h; metrics := metrics h; total_lookup_time_ms := total_lookup_time_ms h;
     preads := preads h; host_writes := host_writes h; cuda_calls := cuda_calls h; lookups := lookups h |}.

Definition set_dram (c : slot_cache) (stats : Z * Z * Z) (h : handle) : handle :=
  {| h_file := h_file h; h_config := h_config h; block_bytes := block_bytes h; residency := residency h;
     dram_cache := c; dram_stats := stats; dram_mem := dram_mem h; hbm_cache := hbm_cache h;
     hbm_mem := hbm_mem h; pending := pending h; metrics := metrics h; total_lookup_time_ms := total_lookup_time_ms h;
     preads := preads h; host_writes := host_writes h; cuda_calls := cuda_calls h; lookups := lookups h |}.

Definition write_dram (slot : Z) (bytes : list Z) (calls : nat) (h : handle) : handle :=
  {| h_file := h_file h; h_config := h_config h; block_bytes := block_bytes h; residency := residency h;
     dram_cache := dram_cache h; dram_stats := dram_stats h; dram_mem := <[slot := bytes]> (dram_mem h);
     hbm_cache := hbm_cache h; hbm_mem := hbm_mem h; pending := pending h; metrics := metrics h;
     total_lookup_time_ms := total_lookup_time_ms h;
     preads := calls; host_writes := S (host_writes h); cuda_calls := cuda_calls h; lookups := lookups h |}.

Definition set_hbm (c : slot_cache) (h : handle) : handle :=
  {| h_file := h_file h; h_config := h_config h; block_bytes := block_bytes h; residency := residency h;
     dram_cache := dram_cache h; dram_stats := dram_stats h; dram_mem := dram_mem h; hbm_cache := c;
     hbm_mem := hbm_mem h; pending := pending h; metrics := metrics h; total_lookup_time_ms := total_lookup_time_ms h;
     preads := preads h; host_writes := host_writes h; cuda_calls := cuda_calls h; lookups := lookups h |}.

Definition set_device (mem : gmap Z (list Z)) (queue : list (Z * Z)) (h : handle) : handle :=
  {| h_file := h_file h; h_config := h_config h; block_bytes := block_bytes h; residency := residency h;
     dram_cache := dram_cache h; dram_stats := dram_stats h; dram_mem := dram_mem h; hbm_cache := hbm_cache h;
     hbm_mem := mem; pending := queue; metrics := metrics h; total_lookup_time_ms := total_lookup_time_ms h;
     preads := preads h; host_writes := host_writes h; cuda_calls := cuda_calls h; lookups := lookups h |}.

Definition set_metric (c : metric) (v : Z) (h : handle) : handle :=
  {| h_file := h_file h; h_config := h_config h; block_bytes := block_bytes h; residency := residency h;
     dram_cache := dram_cache h; dram_stats := dram_stats h; dram_mem := dram_mem h; hbm_cache := hbm_cache h;
     hbm_mem := hbm_mem h; pending := pending h;
     metrics := λ c', if decide (c' = c) then v else metrics h c';
     total_lookup_time_ms := total_lookup_time_ms h;
     preads := preads h; host_writes := host_writes h; cuda_calls := cuda_calls h; lookups := lookups h |}.

Definition tick_cuda (h : handle) : handle :=
  {| h_file := h_file h; h_config := h_config h; block_bytes := block_bytes h; residency := residency h;
     dram_cache := dram_cache h; dram_stats := dram_stats h; dram_mem := dram_mem h; hbm_cache := hbm_cache h;
     hbm_mem := hbm_mem h; pending := pending h; metrics := metrics h; total_lookup_time_ms := total_lookup_time_ms h;
     preads := preads h; host_writes := host_writes h; cuda_calls := S (cuda_calls h); lookups := lookups h |}.

Definition add_time (ms : f64) (h : handle) : handle :=
  {| h_file := h_file h; h_config := h_config h; block_bytes := block_bytes h; residency := residency h;
     dram_cache := dram_cache h; dram_stats := dram_stats h; dram_mem := dram_mem h; hbm_cache := hbm_cache h;
     hbm_mem := hbm_mem h; pending := pending h; metrics := metrics h;
     total_lookup_time_ms := fadd (total_lookup_time_ms h) ms;
     preads := preads h; host_writes := host_writes h; cuda_calls := cuda_calls h; lookups := S (lookups h) |}.

(** [metrics.c += d] on a 64-bit counter. *)
Definition count (c : metric) (d : Z) (h : handle) : handle := set_metric c (wrap 64 (metrics h c + d)) h.

(** ** The device *)

Class Device := {
  (** [cudaMalloc] and [cudaHostAlloc] of this many bytes succeed. *)
  can_allocate : Z → bool;
  (** The n-th call to CUDA by the lookups succeeds. *)
  cuda_ok : nat → bool;
  (** How many of the pending copies are done before the n-th load of a slot. *)
  drained : nat → nat;
  (** The milliseconds the n-th lookup took: durations, whose sum is a number. *)
  lookup_ms : nat → f64;
  lookup_times_finite n : ∃ neg m e, foldl fadd f_zero (lookup_ms <$> seq 0 n) = Fin neg m e;
}.

(** A copy reads its host slot when the device performs it. *)
Definition perform (dram : gmap Z (list Z)) (mem : gmap Z (list Z)) (copy : Z * Z) : gmap Z (list Z) :=
  partial_alter (λ _, dram !! copy.2) copy.1 mem.

(** The device performs the first [n] pending copies. *)
Definition drain (n : nat) (h : handle) : handle :=
  set_device (foldl (perform (dram_mem h)) (hbm_mem h) (take n (pending h))) (drop n (pending h)) h.

Section Api.
  Context {PX : Posix} {DV : Device}.

  (** [PosixLoader::PosixLoader]: the file as it is when it is opened. *)
Definition posix_open (file : str) : result (list Z) := of_option RuntimeError (file_at file).

  (** [memtier_init_embedding]: [None] is the null handle. *)
Definition memtier_init_embedding (file : str) (cfg : embedding_config) : option handle :=
    if (embedding_dim cfg =? 0) || (rows_per_block cfg =? 0) || (dtype_size cfg =? 0) then None else
    let block_bytes := block_size_bytes cfg in
    if block_bytes =? 0 then None else      (* DramCache throws *)
    let dram := new_cache (dram_cache_bytes cfg) block_bytes in
    if negb (can_allocate (wrap 64 (capacity dram * block_bytes))) then None else
    match posix_open file with
    | Err _ => None
    | Ok contents =>
        let hbm := new_cache (hbm_cache_bytes cfg) block_bytes in
        if negb (can_allocate (wrap 64 (capacity hbm * block_bytes))) then None else
        Some {| h_file := contents; h_config := cfg; block_bytes := block_bytes;
                residency := ResidencyTable.empty; dram_cache := dram; dram_stats := (0, 0, 0); dram_mem := ∅;
                hbm_cache := hbm; hbm_mem := ∅; pending := []; metrics := λ _, 0; total_lookup_time_ms := f_zero;
                preads := 0; host_writes := 0; cuda_calls := 0; lookups := 0 |}
    end.

  (** [cuda_check] of a call. *)
Definition cuda_check : HM unit := λ h,
    Some (if cuda_ok (cuda_calls h) then Ok () else Err RuntimeError, tick_cuda h).

Definition residency_lookup (block : Z) : HM residency_entry := λ h,
    Some (Ok (ResidencyTable.lookup block (residency h)).1,
          with_residency (λ t, (ResidencyTable.lookup block t).2) h).

Definition bump (stats : Z * Z * Z) (hit miss evictions : Z) : Z * Z * Z :=
    let '(a, b, c) := stats in (wrap 64 (a + hit), wrap 64 (b + miss), wrap 64 (c + evictions)).

  (** [DramCache::get] *)
Definition dram_get (block : Z) : HM (option Z) := λ h,
    let '(slot, c) := get block (dram_cache h) in
    let stats := match slot with
                 | Some _ => bump (dram_stats h) 1 0 0
                 | None => bump (dram_stats h) 0 1 0
                 end in
    Some (Ok slot, set_dram c stats h).

  (** [DramCache::allocate_slot_for_load] *)
Definition allocate_slot_for_load (block : Z) : HM Z := λ h,
    '(slot, evicted, c) ← allocate block (dram_cache h);
    let stats := match evicted with
                 | Some _ => bump (dram_stats h) 0 0 1
                 | None => dram_stats h
                 end in
    Some (Ok slot, set_dram c stats h).

  (** [HbmCache::allocate]: the pointer, and the block evicted or [UINT64_MAX]. *)
Definition hbm_allocate (block : Z) : HM (Z * Z) := λ h,
    '(slot, evicted, c) ← allocate block (hbm_cache h);
    Some (Ok (slot, default UINT64_MAX evicted), set_hbm c h).

  (** [PosixLoader::load_block] into a host slot; the bytes read before an
      error stay in the slot. *)
Definition load_block (fuel : nat) (block slot : Z) : HM Z := λ h,
    let h := drain (drained (host_writes h)) h in
    let offset := wrap 64 (block * block_size_bytes (h_config h)) in
    match pread_loop fuel (h_file h) (to_off_t offset) (block_bytes h) [] (preads h) with
    | Some (content, r, calls) =>
        let old := default [] (dram_mem h !! slot) in
        Some ((λ _, zlen content) <$> require_complete r, write_dram slot (content ++ drop (length content) old) calls h)
    | None => None
    end.

Definition gds_load_block_or_posix (fuel : nat) (block slot : Z) (_ : bool) : HM Z := load_block fuel block slot.

Definition memcpy_async (dst src : Z) : HM unit := λ h,
    Some (if cuda_ok (cuda_calls h)
          then (Ok (), tick_cuda (set_device (hbm_mem h) (pending h ++ [(dst, src)]) h))
          else (Err RuntimeError, tick_cuda h)).

  (** A block that the DRAM cache does not hold is loaded into a slot of it. *)
Definition load_missing (fuel : nat) (block : Z) : HM Z :=
    _ ← modify (count dram_misses 1);
    _ ← modify (with_residency (λ t, (ResidencyTable.mark_loading block t).2));
    slot ← allocate_slot_for_load block;
    gds ← gets (λ h, negb (enable_gds (h_config h) =? 0));
    read ← gds_load_block_or_posix fuel block slot gds;
    _ ← modify (count posix_reads 1);
    _ ← modify (count bytes_read_from_ssd read);
    mret slot.

  (** The host slot of a block, and how it was found. *)
Definition find_host_slot (fuel : nat) (block : Z) (entry : residency_entry) : HM (Z * path) :=
    match e_state entry, dram_ptr entry with
    | IN_DRAM, Some slot => _ ← modify (count dram_hits 1); mret (slot, DRAM_HIT)
    | _, _ =>
        cached ← dram_get block;
        '(slot, p) ← match cached with
                     | Some slot => _ ← modify (count dram_hits 1); mret (slot, DRAM_HIT)
                     | None => slot ← load_missing fuel block; mret (slot, POSIX_READ)
                     end;
        _ ← modify (with_residency (λ t, (ResidencyTable.mark_dram block slot t).2));
        mret (slot, p)
    end.

  (** The copy of a host slot to the device slot of the block. *)
Definition copy_to_device (block slot : Z) : HM Z :=
    '(device, evicted) ← hbm_allocate block;
    _ ← modify (if evicted =? UINT64_MAX then id else with_residency (ResidencyTable.erase evicted));
    _ ← memcpy_async device slot;
    _ ← modify (λ h, count bytes_copied_dram_to_gpu (block_bytes h) h);
    _ ← modify (with_residency (λ t, (ResidencyTable.mark_hbm block device t).2));
    mret device.

  (** The body of the loop of [memtier_lookup_blocks]. *)
Definition lookup_block (fuel : nat) (block : Z) : HM (Z * path) :=
    entry ← residency_lookup block;
    match e_state entry, device_ptr entry with
    | IN_HBM, Some ptr => _ ← modify (count hbm_hits 1); mret (ptr, HBM_HIT)
    | _, _ =>
        '(slot, p) ← find_host_slot fuel block entry;
        device ← copy_to_device block slot;
        mret (device, p)
    end.

Definition lookup_loop (fuel : nat) (blocks : list Z) : HM (list (Z * path)) :=
    sm_fold (λ out block, r ← lookup_block fuel block; mret (out ++ [r])) [] blocks.

Definition synchronize : HM unit := _ ← modify (λ h, drain (length (pending h)) h); cuda_check.

Definition lookup_body (fuel : nat) (blocks : list Z) : HM (list (Z * path)) :=
    _ ← cuda_check;                          (* cudaStreamCreateWithFlags *)
    out ← lookup_loop fuel blocks;
    _ ← synchronize;
    _ ← cuda_check;                          (* cudaStreamDestroy *)
    _ ← modify (λ h, add_time (lookup_ms (lookups h)) h);
    _ ← modify (λ h, set_metric eviction_count (dram_stats h).2 h);
    mret out.

  (** [memtier_lookup_blocks]: the return code, with the pointers and paths it
      stores when it is 0 (the caller ignores them otherwise). *)
Definition memtier_lookup_blocks (fuel : nat) (blocks : list Z) (h : handle)
    : option (Z * list (Z * path) * handle) :=
    match lookup_body fuel blocks h with
    | Some (Ok out, h) => Some (0, out, h)
    | Some (Err _, h) => Some (-1, [], h)
    | None => None
    end.

Definition memtier_prefetch_blocks (fuel : nat) (blocks : list Z) (h : handle) : option (Z * handle) :=
    '(rc, _, h) ← memtier_lookup_blocks fuel blocks h; Some (rc, h).

Definition memtier_release_blocks (blocks : list Z) (h : handle) : Z * handle :=
    (0, foldl (λ h b, with_residency (λ t, (ResidencyTable.release b t).2) h) h blocks).
End Api.

(** ** The state of the runtime, whatever fails *)

Definition time_after {DV : Device} (n : nat) : f64 := foldl fadd f_zero (lookup_ms <$> seq 0 n).

(** The slot caches are well-formed, and a block the residency table says is in
    HBM is in the slot of the HBM cache the table points to. *)
Record handle_wf {DV : Device} (h : handle) : Prop := {
  hw_dram : cache_wf (dram_cache h);
  hw_hbm : cache_wf (hbm_cache h);
  hw_resident b e p :
    ResidencyTable.entries (residency h) !! b = Some e → e_state e = IN_HBM → device_ptr e = Some p →
    entries (hbm_cache h) !! b = Some p;
  hw_sentinel : entries (hbm_cache h) !! UINT64_MAX = None;
  hw_block_bytes : 0 < block_bytes h;
  hw_metrics c : in_width 64 (metrics h c);
  hw_stats : in_width 64 (dram_stats h).2;
  hw_time : total_lookup_time_ms h = time_after (lookups h);
}.

(** What a block served along a path adds to the counters. *)
Definition path_cost (bytes : Z) (p : path) (c : metric) : Z :=
  match p, c with
  | HBM_HIT, hbm_hits | DRAM_HIT, dram_hits | POSIX_READ, dram_misses | POSIX_READ, posix_reads => 1
  | POSIX_READ, bytes_read_from_ssd | POSIX_READ, bytes_copied_dram_to_gpu | DRAM_HIT, bytes_copied_dram_to_gpu => bytes
  | _, _ => 0
  end.

Definition tally (bytes : Z) (out : list (Z * path)) (c : metric) : Z :=
  zsum ((λ r, path_cost bytes r.2 c) <$> out).

Lemma residency_update block f t :
  ResidencyTable.entries (ResidencyTable.update block f t).2 =
  <[block := (ResidencyTable.update block f t).1]> (ResidencyTable.entries t).
Proof. done. Qed.

Lemma drain_frame n h :
  dram_cache (drain n h) = dram_cache h ∧ hbm_cache (drain n h) = hbm_cache h ∧
  residency (drain n h) = residency h ∧ block_bytes (drain n h) = block_bytes h ∧ metrics (drain n h) = metrics h ∧
  dram_mem (drain n h) = dram_mem h ∧ h_file (drain n h) = h_file h ∧ h_config (drain n h) = h_config h.
Proof. done. Qed.

Lemma allocated_evicted b c slot v c' :
  allocated b c slot (Some v) c' → entries c !! b = None ∧ free_slots c = [] ∧ ∃ rest, lru c = rest ++ [v].
Proof. intros A. inversion A; subst; eauto. Qed.

(** No block is evicted under the sentinel's name. *)
Lemma evicted_ne c b slot evicted c' :
  cache_wf c → allocated b c slot evicted c' → entries c !! UINT64_MAX = None → default UINT64_MAX evicted = UINT64_MAX →
  evicted = None.
Proof.
  intros W A Hm H. destruct A as [| |v rest s E Ef El Ev]; [done..|]. cbn in H. congruence.
Qed.

(** What an allocation does to the slots of the blocks. *)
Lemma allocated_entries b c slot evicted c' :
  cache_wf c → allocated b c slot evicted c' →
  entries c' !! b = Some slot ∧ evicted ≠ Some b ∧
  ∀ b', b' ≠ b → entries c' !! b' = if decide (evicted = Some b') then None else entries c !! b'.
Proof.
  intros W A. destruct A as [s E|free s E Ef|v rest s E Ef El Ev]; cbn [entries touch].
  - split_and!; [done..|]. intros b' _. by rewrite decide_False.
  - split_and!; [apply lookup_insert_eq|done|]. intros b' Hne. rewrite decide_False by done. by rewrite lookup_insert_ne.
  - split_and!; [apply lookup_insert_eq|congruence|]. intros b' Hne. rewrite lookup_insert_ne by done.
    case_decide as H; [injection H as <-; apply lookup_delete_eq|]. rewrite lookup_delete_ne; [done|congruence].
Qed.

Section Safety.
Context {PX : Posix} {DV : Device}.
Variables (bytes hcap : Z) (m0 : metric → Z) (B fuel : nat).
Hypothesis progress : os_progress B.
Hypothesis bytes_pos : 0 < bytes.
Hypothesis enough : bytes * Z.of_nat B ≤ Z.of_nat fuel.

Definition safe (h : handle) : Prop :=
  handle_wf h ∧ block_bytes h = bytes ∧ capacity (hbm_cache h) = hcap.

(** The counters have grown by [d]. *)
Definition counted (d : metric → Z) (h : handle) : Prop :=
  safe h ∧ ∀ c, c ≠ eviction_count → metrics h c = wrap 64 (m0 c + d c).

Definition plus (c : metric) (x : Z) (d : metric → Z) : metric → Z := λ c', d c' + (if decide (c' = c) then x else 0).

Lemma counted_runtime_ext d d' h : (∀ c, c ≠ eviction_count → d c = d' c) → counted d h → counted d' h.
Proof. intros E [Hs Hm]. split; [done|]. intros c Hc. by rewrite <-E, <-Hm. Qed.

Lemma counted_count c x d h : counted d h → counted (plus c x d) (count c x h).
Proof.
  intros [[W Hb] Hm]. split; [split; [|done]|].
  { destruct W as [W1 W2 W3 W4 W5 W6 W7 W8]. split; [done..| |done|done]. intros c'. cbn. case_decide; [|by apply W6].
    apply wrap_in_width. lia. }
  intros c' Hc. cbn. unfold plus.
  case_decide as H; [subst c'|by rewrite Hm, Z.add_0_r by done].
  rewrite Hm by done. unfold wrap. rewrite Zplus_mod_idemp_l. f_equal. lia.
Qed.

Lemma counted_residency d h f :
  (∀ b e p, ResidencyTable.entries (f (residency h)) !! b = Some e → e_state e = IN_HBM → device_ptr e = Some p →
     entries (hbm_cache h) !! b = Some p) →
  counted d h → counted d (with_residency f h).
Proof. intros Hf [[[W1 W2 W3 W4 W5] Hb] Hm]. split; [split; [|done]|done]. by split. Qed.

(** An update of one entry that leaves it coherent. *)
Lemma counted_update d h block f :
  (∀ p, let e := (ResidencyTable.update block f (residency h)).1 in
        e_state e = IN_HBM → device_ptr e = Some p → entries (hbm_cache h) !! block = Some p) →
  counted d h → counted d (with_residency (λ t, (ResidencyTable.update block f t).2) h).
Proof.
  intros He Hc. apply counted_residency; [|done]. intros b e p. rewrite residency_update.
  intros [[-> <-]|[_ H]]%lookup_insert_Some; [apply He|]. by apply (hw_resident h (proj1 (proj1 Hc))).
Qed.

Lemma counted_drain n d h : counted d h → counted d (drain n h).
Proof. intros [[[] Hb] Hm]. split; [split; [|done]|done]. by split. Qed.

Lemma counted_dram c stats d h : cache_wf c → in_width 64 stats.2 → counted d h → counted d (set_dram c stats h).
Proof. intros Hc Hs [[[] Hb] Hm]. split; [split; [|done]|done]. by split. Qed.

Lemma counted_write slot data calls d h : counted d h → counted d (write_dram slot data calls h).
Proof. intros [[[] Hb] Hm]. split; [split; [|done]|done]. by split. Qed.

Lemma counted_tick d h : counted d h → counted d (tick_cuda h).
Proof. intros [[[] Hb] Hm]. split; [split; [|done]|done]. by split. Qed.

Lemma counted_safe d h : counted d h → safe h.
Proof. by intros [H _]. Qed.

Lemma spec_cuda_check d : sm_spec (counted d) cuda_check (λ _, counted d) safe.
Proof.
  intros h Hc. unfold cuda_check. eexists _, _. split; [reflexivity|].
  case_match; [by apply counted_tick|by apply (counted_safe d), counted_tick].
Qed.

Lemma spec_residency_lookup d block :
  sm_spec (counted d) (residency_lookup block)
    (λ e h, counted d h ∧ ∀ p, e_state e = IN_HBM → device_ptr e = Some p → entries (hbm_cache h) !! block = Some p) safe.
Proof.
  intros h Hc. eexists _, _. split; [reflexivity|]. cbv beta iota.
  assert (∀ p, e_state (ResidencyTable.lookup block (residency h)).1 = IN_HBM →
    device_ptr (ResidencyTable.lookup block (residency h)).1 = Some p → entries (hbm_cache h) !! block = Some p) as He.
  { intros p. cbn. destruct (ResidencyTable.entries (residency h) !! block) as [e|] eqn:E; [|done].
    by apply (hw_resident h (proj1 (proj1 Hc))). }
  split; [|exact He]. unfold ResidencyTable.lookup in *. by apply counted_update.
Qed.

Lemma spec_load_block d block slot :
  sm_spec (counted d) (load_block fuel block slot) (λ n h, n = bytes ∧ counted d h) safe.
Proof.
  intros h Hc. unfold load_block. apply (counted_drain (drained (host_writes h))) in Hc.
  set (h1 := drain _ h) in *. destruct Hc as [[W [Hb Hk]] Hm]. cbv zeta.
  destruct (pread_loop_stops B (h_file h1) (to_off_t (wrap 64 (block * block_size_bytes (h_config h1)))) bytes progress
    fuel (preads h1) bytes_pos enough) as [[[content r] calls] E].
  rewrite Hb, E. eexists _, _. split; [reflexivity|].
  assert (counted d (write_dram slot (content ++ drop (length content) (default [] (dram_mem h1 !! slot))) calls h1)) as Hw
    by (by apply counted_write).
  destruct r; cbn; [|by apply counted_safe in Hw..].
  split; [|done]. eapply pread_loop_length; [|by left|exact E]. cbn [length]. lia.
Qed.

Lemma bump_width stats a b c : in_width 64 (bump stats a b c).2.
Proof. destruct stats as [[x y] z]. apply wrap_in_width. lia. Qed.

Lemma spec_allocate_slot d block :
  sm_spec (counted d) (allocate_slot_for_load block) (λ _, counted d) safe.
Proof.
  intros h Hc. unfold allocate_slot_for_load.
  destruct (allocate_Ok block (dram_cache h) (hw_dram h (proj1 (proj1 Hc)))) as (slot & ev & c' & E & _ & W'). rewrite E.
  eexists _, _. split; [reflexivity|]. apply counted_dram; [done| |done].
  destruct ev; [apply bump_width|apply (hw_stats h (proj1 (proj1 Hc)))].
Qed.

Lemma spec_dram_get d block : sm_spec (counted d) (dram_get block) (λ _, counted d) safe.
Proof.
  intros h Hc. unfold dram_get. pose proof (get_wf block _ (hw_dram h (proj1 (proj1 Hc)))) as W.
  destruct (get block (dram_cache h)) as [slot c]. eexists _, _. split; [reflexivity|]. apply counted_dram; [done| |done].
  destruct slot; apply bump_width.
Qed.

Definition served (bytes : Z) (p : path) (d : metric → Z) : metric → Z := λ c, d c + path_cost bytes p c.

(** The counters of the host side of a path. *)
Definition host_side (p : path) (d : metric → Z) : metric → Z :=
  match p with
  | DRAM_HIT => plus dram_hits 1 d
  | POSIX_READ => plus bytes_read_from_ssd bytes (plus posix_reads 1 (plus dram_misses 1 d))
  | _ => d
  end.

Definition host_path (p : path) : Prop := p = DRAM_HIT ∨ p = POSIX_READ.

Lemma spec_mark d block f p :
  (∀ step e, e_state (f step e) ≠ IN_HBM) →
  sm_spec (counted (host_side p d)) (modify (with_residency (λ t, (ResidencyTable.update block f t).2)))
    (λ _, counted (host_side p d)) safe.
Proof. intros Hf. apply spec_modify. intros h. apply counted_update. intros q e He. by destruct (Hf _ _ He). Qed.

Lemma spec_load_missing d block :
  sm_spec (counted d) (load_missing fuel block) (λ _, counted (host_side POSIX_READ d)) safe.
Proof.
  unfold load_missing. eapply (spec_bind _ (λ _, counted (plus dram_misses 1 d))).
  { apply spec_modify. intros h. apply counted_count. }
  intros _. eapply (spec_bind _ (λ _, counted (plus dram_misses 1 d))).
  { apply spec_modify. intros h. apply counted_update. intros p. done. }
  intros _. eapply spec_bind; [apply spec_allocate_slot|]. intros slot.
  eapply (spec_bind _ (λ _, counted (plus dram_misses 1 d))); [by apply spec_gets|].
  intros gds. eapply spec_bind; [apply spec_load_block|]. intros n.
  eapply (spec_bind _ (λ _ h, n = bytes ∧ counted (plus posix_reads 1 (plus dram_misses 1 d)) h)).
  { apply spec_modify. intros h [Hn Hc]. split; [done|]. by apply counted_count. }
  intros _. eapply (spec_bind _ (λ _, counted (host_side POSIX_READ d))); [|intros _; by apply spec_ret].
  apply spec_modify. intros h [-> Hc]. by apply counted_count.
Qed.

Lemma spec_find_host_slot d block entry :
  sm_spec (counted d) (find_host_slot fuel block entry)
    (λ r h, host_path r.2 ∧ counted (host_side r.2 d) h) safe.
Proof.
  assert (∀ slot : Z, sm_spec (counted d) (_ ← modify (count dram_hits 1); mret (slot, DRAM_HIT))
    (λ r h, host_path r.2 ∧ counted (host_side r.2 d) h) safe) as Hhit.
  { intros slot. eapply (spec_bind _ (λ _, counted (plus dram_hits 1 d))).
    - apply spec_modify. intros h. apply counted_count.
    - intros _. apply spec_ret. intros h Hc. split; [by left|done]. }
  assert (sm_spec (counted d)
    (cached ← dram_get block;
     '(slot, p) ← match cached with
                  | Some slot => _ ← modify (count dram_hits 1); mret (slot, DRAM_HIT)
                  | None => slot ← load_missing fuel block; mret (slot, POSIX_READ)
                  end;
     _ ← modify (with_residency (λ t, (ResidencyTable.mark_dram block slot t).2));
     mret (slot, p)) (λ r h, host_path r.2 ∧ counted (host_side r.2 d) h) safe) as Hget.
  { eapply spec_bind; [apply spec_dram_get|]. intros cached.
    eapply (spec_bind _ (λ r h, host_path r.2 ∧ counted (host_side r.2 d) h)).
    - destruct cached as [slot|]; [apply Hhit|]. eapply spec_bind; [apply spec_load_missing|].
      intros slot. apply spec_ret. intros h Hc. split; [by right|done].
    - intros [slot p]. eapply (spec_bind _ (λ _ h, host_path p ∧ counted (host_side p d) h)).
      + apply spec_modify. intros h [Hp Hc]. split; [done|]. by apply counted_update.
      + intros _. by apply spec_ret. }
  unfold find_host_slot. destruct (e_state entry), (dram_ptr entry); auto.
Qed.

Lemma spec_copy_to_device d block slot :
  block ≠ UINT64_MAX →
  sm_spec (counted d) (copy_to_device block slot)
    (λ p h, 0 ≤ p < hcap ∧ counted (plus bytes_copied_dram_to_gpu bytes d) h) safe.
Proof.
  intros Hmax h [[[W1 W2 W3 W4 W5 W6 W7 W8] [Hb Hk]] Hm].
  destruct (allocate_Ok block (hbm_cache h) W2) as (p & ev & c' & E & A & W').
  destruct (allocated_entries block _ p ev c' W2 A) as (Ep & Hev & Hother).
  pose proof (entry_slot c' W' block p Ep) as [Hp _].
  assert (capacity c' = hcap) as Hc' by (destruct A; done). rewrite Hc' in Hp.
  set (h1 := (if default UINT64_MAX ev =? UINT64_MAX then id
              else with_residency (ResidencyTable.erase (default UINT64_MAX ev))) (set_hbm c' h)).
  assert (counted d h1 ∧ entries (hbm_cache h1) !! block = Some p) as [Hc1 Ep1].
  { assert (hbm_cache h1 = c') as E1 by (unfold h1; by case_match).
    split; [|by rewrite E1]. split; [split; [split|split]|]; try (unfold h1; by case_match).
    - intros b e q Eb Es Eq. rewrite E1. unfold h1 in Eb. destruct (Z.eqb_spec (default UINT64_MAX ev) UINT64_MAX) as [Hs|Hs].
      + apply (evicted_ne _ _ _ _ _ W2 A W4) in Hs as ->. pose proof (W3 b e q Eb Es Eq) as Hq.
        destruct (decide (b = block)) as [->|Hne]; [|by rewrite Hother].
        destruct A; [|congruence..]. cbn. congruence.
      + destruct ev as [v|]; [|done]. cbn in Eb, Hs. apply lookup_delete_Some in Eb as [Hv Eb].
        pose proof (W3 b e q Eb Es Eq) as Hq. destruct (decide (b = block)) as [->|Hne].
        * destruct A; [|congruence..]. cbn. congruence.
        * rewrite Hother by done. rewrite decide_False; [done|congruence].
    - rewrite E1, Hother by done. case_decide; [done|apply W4]. }
  unfold copy_to_device. cut (sm_spec (λ h, counted d h ∧ entries (hbm_cache h) !! block = Some p)
    (_ ← memcpy_async p slot; _ ← modify (λ h, count bytes_copied_dram_to_gpu (block_bytes h) h);
     _ ← modify (with_residency (λ t, (ResidencyTable.mark_hbm block p t).2)); mret p)
    (λ p h, 0 ≤ p < hcap ∧ counted (plus bytes_copied_dram_to_gpu bytes d) h) safe).
  { intros H. destruct (H h1 (conj Hc1 Ep1)) as (r & s' & Er & Hr). exists r, s'. split; [|done].
    eapply sm_step; [unfold hbm_allocate; rewrite E; reflexivity|]. cbv beta iota.
    eapply sm_step; [reflexivity|]. exact Er. }
  eapply (spec_bind _ (λ _ h, counted d h ∧ entries (hbm_cache h) !! block = Some p)).
  { intros h2 [[[W Hb2] Hm2] Ep2]. unfold memcpy_async. case_match; eexists _, _; (split; [reflexivity|]); cbn.
    - split; [|done]. apply counted_tick. split; [split; [|done]; by destruct W|done].
    - apply (counted_safe d), counted_tick. by split; [split|]. }
  intros _. eapply (spec_bind _ (λ _ h, counted (plus bytes_copied_dram_to_gpu bytes d) h ∧ entries (hbm_cache h) !! block = Some p)).
  { apply spec_modify. intros h2 [Hc2 Ep2]. split; [|done]. rewrite <-(proj1 (proj2 (proj1 Hc2))) at 1. by apply counted_count. }
  intros _. eapply (spec_bind _ (λ _, counted (plus bytes_copied_dram_to_gpu bytes d))).
  { apply spec_modify. intros h2 [Hc2 Ep2]. apply counted_update; [|done]. intros q _ _ [= <-]. done. }
  intros _. apply spec_ret. done.
Qed.

(** A slot of the device, found along a path that exists. *)
Definition in_slots (r : Z * path) : Prop := 0 ≤ r.1 < hcap ∧ (r.2 = HBM_HIT ∨ host_path r.2).

Lemma spec_lookup_block d block :
  block ≠ UINT64_MAX →
  sm_spec (counted d) (lookup_block fuel block)
    (λ r h, in_slots r ∧ counted (served bytes r.2 d) h) safe.
Proof.
  intros Hmax. eapply spec_bind; [apply spec_residency_lookup|]. intros entry.
  assert (sm_spec (counted d)
    ('(slot, p) ← find_host_slot fuel block entry; device ← copy_to_device block slot; mret (device, p))
    (λ r h, in_slots r ∧ counted (served bytes r.2 d) h) safe) as Hmiss.
  { eapply spec_bind; [apply spec_find_host_slot|]. intros [slot p].
    intros h [Hp Hc]. revert h Hc. cbn [fst snd] in Hp. cbv beta iota. cbn [fst snd].
    eapply spec_bind; [by apply spec_copy_to_device|]. intros device. apply spec_ret. intros h [Hd Hc]. split; [by split; [|right]|].
    revert Hc. apply counted_runtime_ext. intros c _. unfold served, plus, host_side.
    destruct Hp as [-> | ->]; unfold plus; destruct c; repeat case_decide; try congruence; cbn; lia. }
  assert (∀ Q : handle → Prop, sm_spec (λ h, counted d h ∧ Q h)
    ('(slot, p) ← find_host_slot fuel block entry; device ← copy_to_device block slot; mret (device, p))
    (λ r h, in_slots r ∧ counted (served bytes r.2 d) h) safe) as Hmiss'.
  { intros Q. eapply spec_conseq; [exact Hmiss| |done|done]. by intros h [H _]. }
  destruct (e_state entry) eqn:Es; try apply Hmiss'. destruct (device_ptr entry) as [p|] eqn:Ep; [|apply Hmiss'].
  eapply (spec_bind _ (λ _ h, counted (plus hbm_hits 1 d) h ∧ entries (hbm_cache h) !! block = Some p)).
  { apply spec_modify. intros h [Hc He]. split; [by apply counted_count|]. by apply He. }
  intros _. apply spec_ret. intros h [Hc He]. split.
  - destruct (entry_slot _ (hw_hbm h (proj1 (proj1 Hc))) block p He) as [Hp _].
    rewrite (proj2 (proj2 (proj1 Hc))) in Hp. by split; [|left].
  - revert Hc. apply counted_runtime_ext. intros c _. unfold served, plus. destruct c; repeat case_decide; try congruence; cbn; lia.
Qed.

Lemma served_tally out r c : served bytes r.2 (tally bytes out) c = tally bytes (out ++ [r]) c.
Proof. unfold served, tally. rewrite fmap_app, zsum_app. cbn. lia. Qed.

Lemma spec_lookup_loop blocks :
  Forall (λ b, b ≠ UINT64_MAX) blocks →
  sm_spec (counted (tally bytes [])) (lookup_loop fuel blocks)
    (λ out h, length out = length blocks ∧ Forall in_slots out ∧ counted (tally bytes out) h) safe.
Proof.
  intros Hb. eapply spec_conseq;
    [apply (spec_fold (λ dn out h, length out = length dn ∧ Forall in_slots out ∧ counted (tally bytes out) h) safe
              _ blocks [])| |done|done]; [|by intros h Hc; split_and!].
  intros dn b out Hbl. cbv beta. rewrite Forall_forall in Hb.
  intros h (Hl & Hs & Hc). revert h Hc.
  eapply spec_bind; [apply spec_lookup_block; by apply Hb|]. intros r. apply spec_ret. intros h [Hr Hc].
  rewrite !length_app, Hl. split_and!; [done|by apply Forall_app; split; [|constructor]|].
  revert Hc. apply counted_runtime_ext. intros c _. apply served_tally.
Qed.

Lemma spec_lookup_body blocks :
  Forall (λ b, b ≠ UINT64_MAX) blocks →
  sm_spec (counted (tally bytes [])) (lookup_body fuel blocks)
    (λ out h, length out = length blocks ∧ Forall in_slots out ∧ counted (tally bytes out) h) safe.
Proof.
  intros Hb. unfold lookup_body. eapply spec_bind; [apply spec_cuda_check|]. intros []. cbv beta.
  eapply spec_bind; [by apply spec_lookup_loop|]. intros out.
  intros h (Hl & Hs & Hc). revert h Hc.
  eapply (spec_bind _ (λ _, counted (tally bytes out))).
  { unfold synchronize. eapply (spec_bind _ (λ _, counted (tally bytes out))); [|intros _; apply spec_cuda_check].
    apply spec_modify. intros h. apply counted_drain. }
  intros _. eapply spec_bind; [apply spec_cuda_check|]. intros []. cbv beta.
  eapply (spec_bind _ (λ _, counted (tally bytes out))).
  { apply spec_modify. intros h [[[] Hr] Hm]. split; [split; [|done]|done]. split; try done.
    unfold time_after in *. cbn [total_lookup_time_ms lookups add_time]. rewrite seq_S, fmap_app, foldl_app. cbn. by f_equal. }
  intros _. eapply (spec_bind _ (λ _, counted (tally bytes out))).
  { apply spec_modify. intros h [[[] Hr] Hm]. split; [split; [|done]; split; try done|].
    - intros c. cbn. case_decide; auto.
    - intros c Hc. cbn. rewrite decide_False by done. auto. }
  intros _. by apply spec_ret.
Qed.
End Safety.

Lemma memtier_init_wf `{PX : Posix} `{DV : Device} file cfg h :
  memtier_init_embedding file cfg = Some h → handle_wf h.
Proof.
  unfold memtier_init_embedding. intros H. repeat case_match; simplify_eq; try done. split; cbn; try done.
  - apply new_cache_wf.
  - apply new_cache_wf.
  - assert (0 ≤ block_size_bytes cfg).
    { unfold block_size_bytes. apply wrap_in_width. lia. }
    match goal with E : (block_size_bytes cfg =? 0) = false |- _ => apply Z.eqb_neq in E end. lia.
Qed.

(** The states a client can reach: calls in any order, whatever they return,
    with [B] system calls of fuel for every byte of a block. *)
Inductive reachable `{PX : Posix} `{DV : Device} (B : nat) (file : str) (cfg : embedding_config) : handle → Prop :=
| reach_init h :
    memtier_init_embedding file cfg = Some h → reachable B file cfg h
| reach_lookup h fuel blocks rc out h' :
    reachable B file cfg h → Forall (λ b, b ≠ UINT64_MAX) blocks → block_bytes h * Z.of_nat B ≤ Z.of_nat fuel →
    memtier_lookup_blocks fuel blocks h = Some (rc, out, h') → reachable B file cfg h'
| reach_release h blocks :
    reachable B file cfg h → reachable B file cfg (memtier_release_blocks blocks h).2.

(** What a lookup does, stated on the handle. *)
Lemma lookup_blocks_run `{PX : Posix} `{DV : Device} B fuel blocks h :
  handle_wf h → os_progress B → block_bytes h * Z.of_nat B ≤ Z.of_nat fuel → Forall (λ b, b ≠ UINT64_MAX) blocks →
  ∃ rc out h', memtier_lookup_blocks fuel blocks h = Some (rc, out, h') ∧ handle_wf h' ∧ (rc = 0 ∨ rc = -1) ∧
    (rc = 0 → length out = length blocks ∧ Forall (in_slots (capacity (hbm_cache h))) out ∧
       ∀ c, c ≠ eviction_count → metrics h' c = wrap 64 (metrics h c + tally (block_bytes h) out c)).
Proof.
  intros W HB Hf Hb. unfold memtier_lookup_blocks.
  destruct (spec_lookup_body (block_bytes h) (capacity (hbm_cache h)) (metrics h) B fuel HB (hw_block_bytes h W) Hf blocks Hb h)
    as ([out|e] & h' & E & Hq).
  - split; [done|]. intros c Hc. unfold tally. cbn. rewrite Z.add_0_r. symmetry. apply wrap_small, (hw_metrics h W).
  - rewrite E. destruct Hq as (Hl & Hs & [[W' _] Hm]). exists 0, out, h'. split_and!; auto.
  - rewrite E. destruct Hq as [W' _]. exists (-1), [], h'. split_and!; auto. done.
Qed.

Lemma release_wf `{DV : Device} b h : handle_wf h → handle_wf (with_residency (λ t, (ResidencyTable.release b t).2) h).
Proof.
  intros [W1 W2 W3 W4 W5 W6 W7 W8]. split; try done. intros b' e p. cbn. unfold ResidencyTable.release.
  destruct (ResidencyTable.entries (residency h) !! b) as [e0|] eqn:E0; [|by apply W3]. rewrite residency_update.
  intros [[<- <-]|[_ H]]%lookup_insert_Some; [|by apply W3]. cbn. rewrite E0. cbn. by apply W3.
Qed.

Lemma reachable_wf `{PX : Posix} `{DV : Device} B file cfg h :
  os_progress B → reachable B file cfg h → handle_wf h.
Proof.
  intros HB. induction 1 as [h H|h fuel blocks rc out h' _ IH Hb Hf E|h blocks _ IH]; [by eapply memtier_init_wf| |].
  - destruct (lookup_blocks_run B fuel blocks h IH HB Hf Hb) as (rc' & out' & h1 & E1 & W & _). congruence.
  - unfold memtier_release_blocks. cbn. revert h IH. induction blocks as [|b blocks IHb]; intros h IH; [done|].
    cbn. by apply IHb, release_wf.
Qed.


(** How many of the blocks were found along a path. *)
Definition served_by (p : path) (out : list (Z * path)) : Z := zlen (filter (λ r, r.2 = p) out).

Lemma served_by_cons p r out : served_by p (r :: out) = (if decide (r.2 = p) then 1 else 0) + served_by p out.
Proof. unfold served_by. rewrite filter_cons. case_decide; cbn [length]; lia. Qed.

Lemma served_by_all hcap out :
  Forall (in_slots hcap) out → served_by HBM_HIT out + served_by DRAM_HIT out + served_by POSIX_READ out = zlen out.
Proof.
  induction 1 as [|r out [_ Hr] _ IH]; [done|]. rewrite !served_by_cons. cbn [length].
  destruct Hr as [-> |[-> | ->]]; repeat case_decide; try congruence; lia.
Qed.

Lemma tally_served bytes out c :
  tally bytes out c = match c with
                      | hbm_hits => served_by HBM_HIT out
                      | dram_hits => served_by DRAM_HIT out
                      | dram_misses | posix_reads => served_by POSIX_READ out
                      | gds_reads | eviction_count => 0
                      | bytes_read_from_ssd => served_by POSIX_READ out * bytes
                      | bytes_copied_dram_to_gpu => (served_by DRAM_HIT out + served_by POSIX_READ out) * bytes
                      end.
Proof.
  unfold tally. induction out as [|r out IH]; [by destruct c|]. rewrite fmap_cons. cbn [zsum foldr]. fold (zsum ((λ r, path_cost bytes r.2 c) <$> out)).
  rewrite IH. destruct c; rewrite ?served_by_cons; destruct (r.2); repeat case_decide; try congruence; cbn [path_cost]; lia.
Qed.

(** C14: a lookup on any reachable handle returns (there is no undefined
    behaviour in its caches, and [B] system calls per byte of a block are
    enough), with code 0 or -1. With code 0 it has given every block of the
    list a slot of the device memory and a path, and each counter has grown,
    modulo 2^64, by what the paths say: one hit per block found in HBM or in
    DRAM, one miss and one read of a whole block per block loaded, and a copied
    block for each but the HBM hits. *)
Theorem lookup_counts_paths `{PX : Posix} `{DV : Device} B file cfg fuel blocks h :
  os_progress B → reachable B file cfg h → block_bytes h * Z.of_nat B ≤ Z.of_nat fuel →
  Forall (λ b, b ≠ UINT64_MAX) blocks →
  ∃ rc out h', memtier_lookup_blocks fuel blocks h = Some (rc, out, h') ∧ (rc = 0 ∨ rc = -1) ∧
    (rc = 0 →
       length out = length blocks ∧ Forall (λ r, 0 ≤ r.1 < capacity (hbm_cache h)) out ∧
       served_by HBM_HIT out + served_by DRAM_HIT out + served_by POSIX_READ out = zlen blocks ∧
       metrics h' hbm_hits = wrap 64 (metrics h hbm_hits + served_by HBM_HIT out) ∧
       metrics h' dram_hits = wrap 64 (metrics h dram_hits + served_by DRAM_HIT out) ∧
       metrics h' dram_misses = wrap 64 (metrics h dram_misses + served_by POSIX_READ out) ∧
       metrics h' posix_reads = wrap 64 (metrics h posix_reads + served_by POSIX_READ out) ∧
       metrics h' gds_reads = wrap 64 (metrics h gds_reads) ∧
       metrics h' bytes_read_from_ssd =
         wrap 64 (metrics h bytes_read_from_ssd + served_by POSIX_READ out * block_bytes h) ∧
       metrics h' bytes_copied_dram_to_gpu =
         wrap 64 (metrics h bytes_copied_dram_to_gpu
                  + (served_by DRAM_HIT out + served_by POSIX_READ out) * block_bytes h)).
Proof.
  intros HB R Hf Hb. pose proof (reachable_wf B file cfg h HB R) as W.
  destruct (lookup_blocks_run B fuel blocks h W HB Hf Hb) as (rc & out & h' & E & _ & Hrc & H0).
  exists rc, out, h'. split_and!; [done|done|]. intros Hz. destruct (H0 Hz) as (Hl & Hs & Hm).
  split; [done|]. split; [eapply Forall_impl; [exact Hs|]; by intros r [Hr _]|].
  split; [by rewrite (served_by_all _ _ Hs), Hl|]. split_and!; rewrite Hm, tally_served by done; f_equal; lia.
Qed.
