(* ===== verification/RuntimeData.v ===== *)
(** What the pointers of a lookup hold (memtier_embedding_bench/src/memtier_api.cpp).

    The copies to the device are asynchronous and the slots of both caches are
    reused, so a pointer holds the bytes of its block only when no slot was
    taken back too early.  The first part proves when it does, whatever the
    schedule of the device; the second part runs the cases in which it does
    not. *)

From S2P Require Import Prelude PyFloat PyText NumPy Posix LruSim SlotCache Runtime.

(** The bytes of a block of the file. *)
Definition block_data (file : list Z) (bytes b : Z) : list Z := py_slice file (b * bytes) (b * bytes + bytes).

(** The device memory once all pending copies are done. *)
Definition settled (h : handle) : gmap Z (list Z) := foldl (perform (dram_mem h)) (hbm_mem h) (pending h).

(** In the middle of the lookup of the set of blocks [batch]: [recent] are the
    blocks copied so far, all at the front of the DRAM cache's list, and [skip]
    is the block whose entries are being changed. *)
Record data_inv (file : list Z) (cfg : embedding_config) (bytes dcap : Z) (batch recent : gset Z) (skip : option Z)
    (h : handle) : Prop := {
  di_dram_wf : cache_wf (dram_cache h);
  di_hbm_wf : cache_wf (hbm_cache h);
  di_sentinel : entries (hbm_cache h) !! UINT64_MAX = None;
  di_file : h_file h = file;
  di_config : h_config h = cfg;
  di_bytes : block_bytes h = bytes;
  di_capacity : capacity (dram_cache h) = dcap;
  di_table b e :
    ResidencyTable.entries (residency h) !! b = Some e → Some b ≠ skip →
    e_state e = IN_HBM ∧ ∃ p, device_ptr e = Some p ∧ entries (hbm_cache h) !! b = Some p;
  di_dram b s :
    entries (dram_cache h) !! b = Some s → Some b ≠ skip → dram_mem h !! s = Some (block_data file bytes b);
  di_hbm b p :
    entries (hbm_cache h) !! b = Some p → Some b ≠ skip → settled h !! p = Some (block_data file bytes b);
  di_pending c : c ∈ pending h → ∃ b, b ∈ recent ∧ entries (dram_cache h) !! b = Some c.2;
  di_recent : ∃ l1 l2, lru (dram_cache h) = l1 ++ l2 ∧ ∀ b, b ∈ recent ↔ b ∈ l1;
  di_batch : recent ⊆ batch;
  di_slots s x : dram_mem h !! s = Some x → zlen x ≤ bytes;
}.

Lemma foldl_perform_app dram mem l1 l2 :
  foldl (perform dram) mem (l1 ++ l2) = foldl (perform dram) (foldl (perform dram) mem l1) l2.
Proof. apply foldl_app. Qed.

Lemma settled_drain n h : settled (drain n h) = settled h.
Proof. unfold settled, drain. cbn. by rewrite <-foldl_perform_app, take_drop. Qed.

(** Writing a host slot no pending copy reads changes nothing on the device. *)
Lemma foldl_perform_write dram mem s x l :
  (∀ c, c ∈ l → c.2 ≠ s) → foldl (perform (<[s := x]> dram)) mem l = foldl (perform dram) mem l.
Proof.
  revert mem; induction l as [|c l IH]; intros mem H; [done|]. cbn [foldl].
  assert (perform (<[s := x]> dram) mem c = perform dram mem c) as ->.
  { unfold perform. rewrite lookup_insert_ne; [done|]. intros Hs. by apply (H c); [left|]. }
  apply IH. intros c' Hc. apply H. by right.
Qed.

Section Data.
Context {PX : Posix} {DV : Device}.
Variables (file : list Z) (cfg : embedding_config) (bytes dcap : Z) (batch : gset Z) (B fuel : nat).

Hypothesis reliable : os_reliable B.
Hypothesis cuda_works : ∀ n, cuda_ok n = true.
Hypothesis bytes_pos : 0 < bytes.
Hypothesis bytes_config : block_size_bytes cfg = bytes.
Hypothesis enough : bytes * Z.of_nat B ≤ Z.of_nat fuel.
Hypothesis file_size : zlen file < 2 ^ 63.
Hypothesis fits : Z.of_nat (size batch) ≤ dcap.
Hypothesis in_file : ∀ b, b ∈ batch → 0 ≤ b ∧ b ≠ UINT64_MAX ∧ b * bytes + bytes ≤ zlen file.

Abbreviation inv := (data_inv file cfg bytes dcap batch).

Lemma inv_drain n recent skip h : inv recent skip h → inv recent skip (drain n h).
Proof.
  intros []. split; try done.
  - intros b p. rewrite settled_drain. auto.
  - intros c Hc. apply di_pending0. unfold drain in Hc. cbn in Hc. by eapply subseteq_drop.
Qed.

Lemma inv_residency recent b f h :
  inv recent (Some b) h → inv recent (Some b) (with_residency (λ t, (ResidencyTable.update b f t).2) h).
Proof.
  intros []. split; try done. intros b' e. cbn [residency with_residency]. rewrite residency_update.
  intros [[<- _]|[_ H]]%lookup_insert_Some; [done|by apply di_table0].
Qed.

Lemma inv_skip recent b h : inv recent None h → inv recent (Some b) h.
Proof. intros []. split; try done; eauto. Qed.

Lemma inv_count recent skip c x h : inv recent skip h → inv recent skip (count c x h).
Proof. intros []. by split. Qed.

(** The block is at the front, in a slot whose bytes are right. *)
Definition loaded (hc : slot_cache) (b slot : Z) (h : handle) : Prop :=
  ∃ recent, inv recent (Some b) h ∧ b ∈ recent ∧ entries (dram_cache h) !! b = Some slot ∧
    dram_mem h !! slot = Some (block_data file bytes b) ∧ hbm_cache h = hc.

(** It is at the front, in a slot no pending copy reads. *)
Definition reserved (hc : slot_cache) (b slot : Z) (h : handle) : Prop :=
  ∃ recent, inv recent (Some b) h ∧ b ∈ recent ∧ entries (dram_cache h) !! b = Some slot ∧
    (∀ c, c ∈ pending h → c.2 ≠ slot) ∧ hbm_cache h = hc.

Definition missing (hc : slot_cache) (b : Z) (h : handle) : Prop :=
  ∃ recent, inv recent (Some b) h ∧ entries (dram_cache h) !! b = None ∧ hbm_cache h = hc.

Lemma recent_cached recent skip b h : inv recent skip h → b ∈ recent → is_Some (entries (dram_cache h) !! b).
Proof.
  intros I Hb. destruct (di_recent _ _ _ _ _ _ _ _ I) as (l1 & l2 & E & H).
  apply (lru_elem _ (di_dram_wf _ _ _ _ _ _ _ _ I)). rewrite E. apply elem_of_app. left. by apply H.
Qed.

(** [size_lt]: the blocks copied so far leave room for one more. *)
Lemma recent_short recent skip b l1 l2 h :
  inv recent skip h → b ∈ batch → b ∉ recent → lru (dram_cache h) = l1 ++ l2 → (∀ b, b ∈ recent ↔ b ∈ l1) →
  zlen l1 < dcap.
Proof.
  intros I Hb Hn E H. pose proof (lru_NoDup _ (di_dram_wf _ _ _ _ _ _ _ _ I)) as ND.
  rewrite E in ND. apply NoDup_app in ND as [ND _].
  assert (size (list_to_set l1 : gset Z) = length l1) as Hl by (by apply size_list_to_set).
  assert (list_to_set l1 ⊂ batch) as Hsub.
  { split.
    - intros x Hx%elem_of_list_to_set. apply (di_batch _ _ _ _ _ _ _ _ I). by apply H.
    - intros Hs. apply Hn, H. by apply (elem_of_list_to_set (C := gset Z)), Hs. }
  apply subset_size in Hsub. lia.
Qed.

(** Allocating a slot takes none from the blocks copied so far. *)
Lemma spec_reserve hc b :
  b ∈ batch →
  sm_spec (missing hc b) (allocate_slot_for_load b) (λ slot, reserved hc b slot) (λ _, False).
Proof.
  intros Hb h (recent & I & Hn & Eh). unfold allocate_slot_for_load.
  pose proof (di_dram_wf _ _ _ _ _ _ _ _ I) as W.
  destruct (allocate_Ok b (dram_cache h) W) as (slot & ev & c' & -> & A & W').
  eexists _, _. split; [reflexivity|]. cbv beta iota.
  destruct (allocated_entries b _ slot ev c' W A) as (Es & _ & Hother).
  assert (b ∉ recent) as Hnr by (intros [s Hs]%(recent_cached _ _ _ _ I); congruence).
  assert (∀ x, x ∈ recent → ev ≠ Some x) as Hkeep.
  { intros x Hx ->. destruct (di_recent _ _ _ _ _ _ _ _ I) as (l1 & l2 & E & H).
    destruct (allocated_evicted b _ slot x c' A) as (_ & Ef & rest & El).
    pose proof (recent_short recent _ b l1 l2 h I Hb Hnr E H) as Hlt.
    pose proof (count_slots _ W) as Hc. rewrite Ef, (di_capacity _ _ _ _ _ _ _ _ I), E, length_app in Hc.
    cbn [length] in Hc. destruct l2 as [|y l2 _] using rev_ind; [cbn [length] in Hc; lia|].
    rewrite E, app_assoc in El. apply app_inj_tail in El as [_ ->].
    pose proof (lru_NoDup _ W) as ND. rewrite E in ND. apply NoDup_app in ND as (_ & ND & _).
    apply (ND x); [by apply H|]. apply elem_of_app. right. by left. }
  assert (∀ x, x ∈ recent → entries c' !! x = entries (dram_cache h) !! x) as Hsame.
  { intros x Hx. rewrite Hother by congruence. apply decide_False. by apply Hkeep. }
  assert (∀ x s, entries c' !! x = Some s → x ≠ b → entries (dram_cache h) !! x = Some s) as Hback.
  { intros x s Hx Hne. rewrite Hother in Hx by done. by case_decide. }
  exists ({[b]} ∪ recent). split; [|split_and!; [set_solver|done| |done]].
  - destruct I as [I1 I2 I3 I4 I5 I6 I7 I8 I9 I10 I11 I12 I13 I14]. split; cbn [dram_cache set_dram]; try done.
    + destruct A; cbn [capacity touch]; done.
    + intros x s Hx Hne. apply I9; [|done]. apply Hback; [done|congruence].
    + intros c (x & Hx & Ex)%I11. exists x. split; [set_solver|]. by rewrite Hsame.
    + destruct I12 as (l1 & l2 & E & H). destruct A as [s E'|free s E' Ef|v rest s E' Ef El Ev]; [congruence|..].
      * exists (b :: l1), l2. cbn [lru]. split; [by rewrite E|]. intros x. rewrite elem_of_union, elem_of_singleton, H. set_solver.
      * destruct l2 as [|y l2 _] using rev_ind.
        { rewrite app_nil_r in E. exfalso. apply (Hkeep v); [|done]. apply H. rewrite <-E, El. apply elem_of_app. right. by left. }
        rewrite E, app_assoc in El. apply app_inj_tail in El as [<- ->].
        exists (b :: l1), l2. cbn [lru]. split; [done|]. intros x. rewrite elem_of_union, elem_of_singleton, H. set_solver.
    + set_solver.
  - intros c Hc Hs. cbn in Hc. destruct (di_pending _ _ _ _ _ _ _ _ I c Hc) as (x & Hx & Ex).
    rewrite <-Hsame, Hs in Ex by done. pose proof (entries_inj c' W' x b slot Ex Es) as ->. done.
Qed.

Lemma block_offset b : b ∈ batch → to_off_t (wrap 64 (b * bytes)) = b * bytes.
Proof.
  intros Hb. destruct (in_file b Hb) as (H0 & _ & Hle). rewrite wrap_small by (unfold in_width; nia).
  unfold to_off_t. rewrite (proj2 (Z.ltb_lt _ _)); [done|nia].
Qed.

Lemma block_data_length b : b ∈ batch → zlen (block_data file bytes b) = bytes.
Proof. intros Hb. destruct (in_file b Hb) as (H0 & _ & Hle). unfold block_data. rewrite length_py_slice; nia. Qed.

Lemma spec_load hc b slot :
  b ∈ batch →
  sm_spec (reserved hc b slot) (load_block fuel b slot) (λ _, loaded hc b slot) (λ _, False).
Proof.
  intros Hb h (recent & I & Hr & Es & Hp & Eh). unfold load_block. cbv zeta.
  apply (inv_drain (drained (host_writes h))) in I. set (h1 := drain _ h) in *.
  assert (∀ c, c ∈ pending h1 → c.2 ≠ slot) as Hp1 by (intros c Hc; apply Hp; exact (subseteq_drop _ _ c Hc)).
  rewrite (di_config _ _ _ _ _ _ _ _ I), (di_file _ _ _ _ _ _ _ _ I), (di_bytes _ _ _ _ _ _ _ _ I), bytes_config, block_offset by done.
  destruct (in_file b Hb) as (H0 & _ & Hle).
  destruct (pread_loop_reads B file (b * bytes) bytes reliable ltac:(nia) fuel (preads h1) bytes_pos enough) as (calls & ->).
  unfold read_outcome_of. rewrite (proj2 (Z.leb_le _ _)) by done. fold (block_data file bytes b).
  eexists _, _. split; [reflexivity|]. cbn [fmap result_fmap].
  assert (drop (length (block_data file bytes b)) (default [] (dram_mem h1 !! slot)) = []) as ->.
  { apply drop_ge. pose proof (block_data_length b Hb). destruct (dram_mem h1 !! slot) as [x|] eqn:Ex; cbn; [|lia].
    pose proof (di_slots _ _ _ _ _ _ _ _ I slot x Ex). lia. }
  rewrite app_nil_r. exists recent. split; [|split_and!; [done|done|apply lookup_insert_eq|done]].
  destruct I as [I1 I2 I3 I4 I5 I6 I7 I8 I9 I10 I11 I12 I13 I14]. split; try done.
  - intros x s Hx Hne. cbn. rewrite lookup_insert_ne; [by apply I9|]. intros ->.
    apply Hne. f_equal. by apply (entries_inj _ I1 x b s).
  - intros x p Hx Hne. unfold settled. cbn. rewrite foldl_perform_write by done. by apply I10.
  - intros s x. cbn. rewrite lookup_insert_Some. intros [[<- <-]|[_ Hx]]; [by rewrite block_data_length|by eapply I14].
Qed.

Lemma loaded_count hc b slot c x h : loaded hc b slot h → loaded hc b slot (count c x h).
Proof. intros (recent & I & H). exists recent. split; [by apply inv_count|exact H]. Qed.

Lemma spec_load_missing_data hc b :
  b ∈ batch →
  sm_spec (missing hc b) (load_missing fuel b) (λ slot, loaded hc b slot) (λ _, False).
Proof.
  intros Hb. unfold load_missing.
  eapply (spec_bind _ (λ _, missing hc b)); [|intros _].
  { apply spec_modify. intros h (recent & I & H). exists recent. split; [by apply inv_count|exact H]. }
  eapply (spec_bind _ (λ _, missing hc b)); [|intros _].
  { apply spec_modify. intros h (recent & I & H). exists recent. split; [by apply inv_residency|exact H]. }
  eapply spec_bind; [by apply spec_reserve|]. intros slot.
  eapply (spec_bind _ (λ _, reserved hc b slot)); [by apply spec_gets|]. intros gds.
  eapply spec_bind; [by apply spec_load|]. intros n.
  eapply (spec_bind _ (λ _, loaded hc b slot)); [|intros _].
  { apply spec_modify. intros h. apply loaded_count. }
  eapply (spec_bind _ (λ _, loaded hc b slot)); [|intros _; by apply spec_ret].
  apply spec_modify. intros h. apply loaded_count.
Qed.

(** Before the DRAM cache is asked: if it has the block, its slot is right. *)
Definition sought (hc : slot_cache) (b : Z) (h : handle) : Prop :=
  ∃ recent, inv recent (Some b) h ∧
    (∀ s, entries (dram_cache h) !! b = Some s → dram_mem h !! s = Some (block_data file bytes b)) ∧ hbm_cache h = hc.

Lemma touch_recent (recent : gset Z) b l1 l2 :
  NoDup (l1 ++ l2) → (∀ x, x ∈ recent ↔ x ∈ l1) →
  ∃ l1' l2', b :: filter (λ x, x ≠ b) (l1 ++ l2) = l1' ++ l2' ∧ ∀ x, x ∈ {[b]} ∪ recent ↔ x ∈ l1'.
Proof.
  intros ND H. exists (b :: filter (λ x, x ≠ b) l1), (filter (λ x, x ≠ b) l2). split; [by rewrite filter_app|].
  intros x. rewrite elem_of_union, elem_of_singleton, elem_of_cons, list_elem_of_filter, H.
  destruct (decide (x = b)); tauto.
Qed.

Lemma spec_dram_get_data hc b :
  b ∈ batch →
  sm_spec (sought hc b) (dram_get b)
    (λ r, match r with Some slot => loaded hc b slot | None => missing hc b end) (λ _, False).
Proof.
  intros Hb h (recent & I & Hd & Eh). unfold dram_get, get.
  destruct (entries (dram_cache h) !! b) as [slot|] eqn:E; (eexists _, _; split; [reflexivity|]); cbv beta iota.
  - exists ({[b]} ∪ recent). split; [|split_and!; [set_solver|done|by apply Hd|done]].
    destruct I as [I1 I2 I3 I4 I5 I6 I7 I8 I9 I10 I11 I12 I13 I14]. split; try done.
    + apply touch_wf; [done|by eexists].
    + intros c (x & Hx & Ex)%I11. exists x. split; [set_solver|done].
    + destruct I12 as (l1 & l2 & El & H). cbn [dram_cache set_dram lru touch]. rewrite El.
      apply touch_recent; [|done]. rewrite <-El. by apply lru_NoDup.
    + set_solver.
  - exists recent. split; [|done]. destruct I. by split.
Qed.

Lemma spec_find_host_slot_data hc b entry :
  b ∈ batch → e_state entry = NOT_RESIDENT →
  sm_spec (sought hc b) (find_host_slot fuel b entry) (λ r, loaded hc b r.1) (λ _, False).
Proof.
  intros Hb He. unfold find_host_slot. rewrite He.
  eapply spec_bind; [by apply spec_dram_get_data|]. intros cached.
  eapply (spec_bind _ (λ r, loaded hc b r.1)).
  - destruct cached as [slot|].
    + eapply (spec_bind _ (λ _, loaded hc b slot)); [|intros _; by apply spec_ret].
      apply spec_modify. intros h. apply loaded_count.
    + eapply spec_bind; [by apply spec_load_missing_data|]. intros slot. by apply spec_ret.
  - intros [slot p]. cbn [fst]. eapply (spec_bind _ (λ _, loaded hc b slot)); [|intros _; by apply spec_ret].
    apply spec_modify. intros h (recent & I & H). exists recent. split; [by apply inv_residency|exact H].
Qed.

(** The block has the slot [p]: it was there, or has just been put there. *)
Definition placed (hc : slot_cache) (b p : Z) (h : handle) : Prop :=
  (∃ recent, inv recent None h) ∧ entries (hbm_cache h) !! b = Some p ∧
  (hbm_cache h = hc ∨ ∃ ev, allocated b hc p ev (hbm_cache h)).

Lemma spec_copy_data hc b slot :
  b ∈ batch → sm_spec (loaded hc b slot) (copy_to_device b slot) (λ p, placed hc b p) (λ _, False).
Proof.
  intros Hb h (recent & I & Hr & Es & Hm & Eh).
  pose proof (di_hbm_wf _ _ _ _ _ _ _ _ I) as W. pose proof (di_sentinel _ _ _ _ _ _ _ _ I) as Hmax.
  destruct (allocate_Ok b (hbm_cache h) W) as (p & ev & c' & E & A & W').
  destruct (allocated_entries b _ p ev c' W A) as (Ep & Hev & Hother).
  destruct (in_file b Hb) as (_ & Hbm & _).
  assert (∀ x q, entries c' !! x = Some q → x ≠ b → entries (hbm_cache h) !! x = Some q ∧ q ≠ p) as Hback.
  { intros x q Hx Hne. split; [rewrite Hother in Hx by done; by case_decide|]. intros ->.
    apply Hne. by apply (entries_inj c' W' x b p). }
  eexists (Ok p), _. split; [|cbv beta iota].
  { unfold copy_to_device. eapply sm_step; [unfold hbm_allocate; rewrite E; reflexivity|]. cbv beta iota.
    eapply sm_step; [reflexivity|]. eapply sm_step.
    { unfold memcpy_async. rewrite cuda_works. reflexivity. }
    eapply sm_step; [reflexivity|]. eapply sm_step; [reflexivity|]. reflexivity. }
  set (h1 := (if default UINT64_MAX ev =? UINT64_MAX then id
              else with_residency (ResidencyTable.erase (default UINT64_MAX ev))) (set_hbm c' h)).
  assert (∀ x e, ResidencyTable.entries (residency h1) !! x = Some e → x ≠ b →
    ResidencyTable.entries (residency h) !! x = Some e ∧ ev ≠ Some x) as Htable.
  { intros x e Hx Hne. unfold h1 in Hx. destruct (Z.eqb_spec (default UINT64_MAX ev) UINT64_MAX) as [Hs|Hs].
    - apply (evicted_ne _ _ _ _ _ W A Hmax) in Hs as ->. done.
    - destruct ev as [v|]; [|done]. cbn in Hx. apply lookup_delete_Some in Hx as [Hv Hx]. split; [done|congruence]. }
  assert (dram_cache h1 = dram_cache h ∧ dram_mem h1 = dram_mem h ∧ hbm_mem h1 = hbm_mem h ∧ pending h1 = pending h ∧
    hbm_cache h1 = c' ∧ h_file h1 = h_file h ∧ h_config h1 = h_config h ∧ block_bytes h1 = block_bytes h)
    as (E1 & E2 & E3 & E4 & E5 & E6 & E7 & E8) by (unfold h1; by case_match).
  split; [|split; [cbn [count set_metric with_residency tick_cuda set_device hbm_cache]; by rewrite E5|]].
  2:{ right. exists ev. cbn [count set_metric with_residency tick_cuda set_device hbm_cache]. rewrite E5. by rewrite <-Eh. }
  exists recent. destruct I as [I1 I2 I3 I4 I5 I6 I7 I8 I9 I10 I11 I12 I13 I14].
  split; cbn [count set_metric with_residency tick_cuda set_device hbm_cache dram_cache h_file h_config block_bytes
              residency dram_mem hbm_mem pending]; rewrite ?E1, ?E2, ?E5, ?E6, ?E7, ?E8; try done.
  - rewrite Hother by done. by case_decide.
  - intros x e Hx _. unfold ResidencyTable.mark_hbm in Hx. rewrite residency_update in Hx. apply lookup_insert_Some in Hx as [[<- <-]|[Hne Hx]].
    + split; [done|]. exists p. done.
    + apply Htable in Hx as [Hx Hxe]; [|done]. destruct (I8 x e Hx) as (Hst & q & Hq & Hqe); [congruence|].
      split; [done|]. exists q. split; [done|]. rewrite Hother by done. by rewrite decide_False.
  - intros x s Hx _. destruct (decide (x = b)) as [->|Hne]; [congruence|]. apply I9; [done|congruence].
  - intros x q Hx _. unfold settled.
    cbn [count set_metric with_residency tick_cuda set_device hbm_cache dram_mem hbm_mem pending].
    rewrite E2, E3, E4, foldl_perform_app. fold (settled h). cbn [foldl]. unfold perform. cbn [fst snd].
    destruct (decide (x = b)) as [->|Hne].
    + assert (q = p) as -> by congruence. by rewrite lookup_partial_alter_eq.
    + destruct (Hback x q Hx Hne) as [Hx' Hqp]. rewrite lookup_partial_alter_ne by done. apply I10; [done|congruence].
  - rewrite E4. intros c [Hc|Hc%list_elem_of_singleton]%elem_of_app; [by apply I11|]. subst c. exists b. done.
Qed.

Definition steady (hc : slot_cache) (h : handle) : Prop := (∃ recent, inv recent None h) ∧ hbm_cache h = hc.

Lemma spec_lookup_block_data hc b :
  b ∈ batch → sm_spec (steady hc) (lookup_block fuel b) (λ r, placed hc b r.1) (λ _, False).
Proof.
  intros Hb h [(recent & I) Eh]. destruct (ResidencyTable.entries (residency h) !! b) as [e|] eqn:E.
  - destruct (di_table _ _ _ _ _ _ _ _ I b e E ltac:(done)) as (Hst & p & Hp & Hpe).
    eexists (Ok (p, HBM_HIT)), _. split.
    { unfold lookup_block. eapply sm_step; [reflexivity|].
      cbn [ResidencyTable.lookup ResidencyTable.update fst e_state device_ptr]. rewrite E. cbn [from_option id]. rewrite Hst, Hp. reflexivity. }
    cbv beta iota. split; [|split; [by cbn|by left]]. exists recent. apply inv_count.
    destruct I as [I1 I2 I3 I4 I5 I6 I7 I8 I9 I10 I11 I12 I13 I14]. split; try done.
    intros x e' Hx _. cbn [residency with_residency] in Hx. unfold ResidencyTable.lookup in Hx. rewrite residency_update in Hx.
    apply lookup_insert_Some in Hx as [[<- <-]|[_ Hx]]; [|by apply I8]. cbn. rewrite E. cbn. rewrite Hst. eauto.
  - cut (sm_spec (sought hc b)
      ('(slot, p) ← find_host_slot fuel b (ResidencyTable.lookup b (residency h)).1;
       device ← copy_to_device b slot; mret (device, p)) (λ r, placed hc b r.1) (λ _, False)).
    { intros H. destruct (H (with_residency (λ t, (ResidencyTable.lookup b t).2) h)) as (r & h' & Er & Hr).
      - exists recent. split; [apply inv_residency, inv_skip, I|]. split; [|done]. intros s Hs.
        by apply (di_dram _ _ _ _ _ _ _ _ I).
      - exists r, h'. split; [|done]. unfold lookup_block. eapply sm_step; [reflexivity|]. rewrite <-Er.
        cbn [ResidencyTable.lookup ResidencyTable.update fst e_state device_ptr]. by rewrite E. }
    eapply spec_bind.
    { apply spec_find_host_slot_data; [done|]. cbn. by rewrite E. }
    intros [slot p]. cbn [fst]. eapply spec_bind; [by apply spec_copy_data|]. intros device. by apply spec_ret.
Qed.

(** Room in HBM for the blocks of the batch that are not there: then nothing is
    evicted, and every pointer given stays the block's. *)
Definition room (h : handle) : Prop :=
  Z.of_nat (size (batch ∖ dom (entries (hbm_cache h)))) ≤ zlen (free_slots (hbm_cache h)).

Definition pointers (blocks : list Z) (out : list (Z * path)) (h : handle) : Prop :=
  Forall2 (λ b r, entries (hbm_cache h) !! b = Some r.1) blocks out.

Lemma placed_room hc b r h blocks out h0 :
  b ∈ batch → hbm_cache h0 = hc → cache_wf hc → placed hc b r.1 h → room h0 ∧ pointers blocks out h0 →
  room h ∧ pointers (blocks ++ [b]) (out ++ [r]) h.
Proof.
  destruct r as [p path]. cbn [fst]. intros Hb E0 W (_ & Ep & H) [R P]. unfold room, pointers in *. rewrite E0 in *.
  assert (∀ x q, entries hc !! x = Some q → entries (hbm_cache h) !! x = Some q) as Hmono.
  { intros x q Hx. destruct H as [->|[ev A]]; [done|].
    destruct (allocated_entries b hc p ev _ W A) as (_ & _ & Ho). destruct (decide (x = b)) as [->|Hne].
    - destruct A; [|congruence..]. done.
    - rewrite Ho by done. rewrite decide_False; [done|]. intros ->.
      destruct (allocated_evicted b hc p x _ A) as (Hb' & Hf & rest & El). rewrite Hf in R. cbn [length] in R.
      assert (batch ∖ dom (entries hc) ≡ ∅) as Hemp by (apply size_empty_iff; lia).
      assert (b ∈ batch ∖ dom (entries hc)); [|set_solver].
      apply elem_of_difference. split; [done|]. by apply not_elem_of_dom. }
  split.
  - destruct H as [->|[ev A]]; [done|]. destruct A as [s E|free s E Ef|v rest s E Ef El Ev]; cbn [entries free_slots touch]; [done|..].
    + rewrite dom_insert_L. rewrite Ef, length_app in R. cbn [length] in R.
      assert (batch ∖ ({[b]} ∪ dom (entries hc)) ⊂ batch ∖ dom (entries hc)) as Hs%subset_size.
      { assert (b ∉ dom (entries hc)) by (by apply not_elem_of_dom). set_solver. }
      lia.
    + rewrite Ef in R. cbn [length] in R. assert (batch ∖ dom (entries hc) ≡ ∅) as Hemp by (apply size_empty_iff; lia).
      assert (b ∉ dom (entries hc)) by (by apply not_elem_of_dom). set_solver.
  - apply Forall2_app; [|by repeat constructor]. eapply Forall2_impl; [exact P|]. intros x r'. apply Hmono.
Qed.

Definition loop_inv (P : Prop) (blocks : list Z) (out : list (Z * path)) (h : handle) : Prop :=
  (∃ recent, inv recent None h) ∧ length out = length blocks ∧ (P → room h ∧ pointers blocks out h).

Lemma spec_lookup_loop_data P blocks :
  (∀ b, b ∈ blocks → b ∈ batch) →
  sm_spec (loop_inv P [] []) (lookup_loop fuel blocks) (λ out, loop_inv P blocks out) (λ _, False).
Proof.
  intros Hb. apply (spec_fold (loop_inv P) _ _ blocks []). intros dn b out Hbl h (I & Hl & HP).
  pose proof I as [recent I']. pose proof (di_hbm_wf _ _ _ _ _ _ _ _ I') as W. 
  destruct (spec_lookup_block_data (hbm_cache h) b (Hb b Hbl) h) as (r & h' & E & H); [by split|].
  destruct r as [r|e]; [|done]. exists (Ok (out ++ [r])), h'. split.
  { eapply sm_step; [exact E|]. reflexivity. }
  split; [apply H|]. rewrite !length_app, Hl. split; [done|]. intros p. by apply (placed_room (hbm_cache h) b r h' dn out h); auto.
Qed.

Lemma inv_settle recent h : inv recent None h → inv ∅ None (drain (length (pending h)) h).
Proof.
  intros I. apply (inv_drain (length (pending h))) in I.
  assert (pending (drain (length (pending h)) h) = []) as Ep by (cbn; by apply drop_ge).
  destruct I as [I1 I2 I3 I4 I5 I6 I7 I8 I9 I10 I11 I12 I13 I14]. split; try done.
  - intros c. rewrite Ep. by intros ?%not_elem_of_nil.
  - exists [], (lru (dram_cache h)). split; [done|]. intros b. set_solver.
Qed.

Lemma inv_metrics recent skip h ms v :
  inv recent skip h → inv recent skip (set_metric eviction_count v (add_time ms (tick_cuda h))).
Proof. intros []. by split. Qed.

Lemma lookup_body_data blocks h :
  (∀ b, b ∈ blocks → b ∈ batch) → inv ∅ None h →
  ∃ out h', lookup_body fuel blocks h = Some (Ok out, h') ∧ inv ∅ None h' ∧ length out = length blocks ∧
    (room h → pointers blocks out h').
Proof.
  intros Hb I. destruct (spec_lookup_loop_data (room h) blocks Hb (tick_cuda h)) as ([out|e] & h1 & E & H); [| |done].
  { split; [exists ∅; destruct I; by split|]. split; [done|]. intros R. split; [exact R|constructor]. }
  destruct H as ([recent I1] & Hl & HP). apply inv_settle in I1.
  exists out. eexists. split.
  { unfold lookup_body. eapply sm_step; [unfold cuda_check; by rewrite cuda_works|]. cbv beta.
    eapply sm_step; [exact E|]. cbv beta. eapply sm_step.
    { unfold synchronize. eapply sm_step; [reflexivity|]. unfold cuda_check. rewrite cuda_works. reflexivity. }
    cbv beta. eapply sm_step; [unfold cuda_check; rewrite cuda_works; reflexivity|]. cbv beta.
    eapply sm_step; [reflexivity|]. eapply sm_step; [reflexivity|]. reflexivity. }
  cbv beta. split; [apply inv_metrics; destruct I1; by split|]. split; [done|]. intros R. by destruct (HP R).
Qed.
End Data.

(** A handle whose lookups have all succeeded. *)
Definition handle_good (h : handle) : Prop :=
  data_inv (h_file h) (h_config h) (block_bytes h) (capacity (dram_cache h)) ∅ ∅ None h ∧
  block_size_bytes (h_config h) = block_bytes h ∧ 0 < block_bytes h.

Definition block_in_file (h : handle) (b : Z) : Prop := 0 ≤ b ∧ b * block_bytes h + block_bytes h ≤ zlen (h_file h).

Lemma memtier_init_good `{PX : Posix} `{DV : Device} file cfg h :
  memtier_init_embedding file cfg = Some h → handle_good h.
Proof.
  intros H. pose proof (hw_block_bytes h (memtier_init_wf file cfg h H)) as Hb. revert H Hb.
  unfold memtier_init_embedding. intros H Hb. repeat case_match; simplify_eq; try done.
  split; [|done]. split; cbn; try done; try apply new_cache_wf.
  - intros c Hc. by apply not_elem_of_nil in Hc.
  - exists [], []. split; [done|]. set_solver.
Qed.

(** A lookup on a good handle succeeds; with room in HBM every pointer is the
    slot of its block. *)
Lemma lookup_good `{PX : Posix} `{DV : Device} B fuel blocks h :
  handle_good h → os_reliable B → (∀ n, cuda_ok n = true) → block_bytes h * Z.of_nat B ≤ Z.of_nat fuel →
  zlen (h_file h) < 2 ^ 63 → Forall (block_in_file h) blocks →
  Z.of_nat (size (list_to_set blocks : gset Z)) ≤ capacity (dram_cache h) →
  ∃ out h', memtier_lookup_blocks fuel blocks h = Some (0, out, h') ∧ handle_good h' ∧ length out = length blocks ∧
    (∀ b p, entries (hbm_cache h') !! b = Some p →
       hbm_mem h' !! p = Some (block_data (h_file h) (block_bytes h) b)) ∧
    (Z.of_nat (size (list_to_set blocks ∖ dom (entries (hbm_cache h)))) ≤ zlen (free_slots (hbm_cache h)) →
       pointers blocks out h').
Proof.
  intros (I & Hcfg & Hb) HB HC Hf Hsize Hin Hfit. rewrite Forall_forall in Hin.
  set (batch := list_to_set blocks : gset Z).
  assert (∀ b, b ∈ batch → 0 ≤ b ∧ b ≠ UINT64_MAX ∧ b * block_bytes h + block_bytes h ≤ zlen (h_file h)) as Hin'.
  { intros b Hb'%elem_of_list_to_set. destruct (Hin b Hb') as [H0 Hle]. split_and!; [done| |done]. unfold UINT64_MAX. nia. }
  destruct (lookup_body_data (h_file h) (h_config h) (block_bytes h) (capacity (dram_cache h)) batch B fuel HB HC Hb Hcfg Hf
    Hsize Hfit Hin' blocks h) as (out & h' & E & I' & Hl & HP).
  { intros b Hbl. by apply elem_of_list_to_set. }
  { destruct I. by split. }
  exists out, h'. unfold memtier_lookup_blocks. rewrite E. split; [done|].
  assert (handle_good h') as Hg.
  { pose proof I' as [I1 I2 I3 I4 I5 I6 I7 I8 I9 I10 I11 I12 I13 I14]. split; [|by rewrite I5, I6].
    rewrite I4, I5, I6, I7. split; try done. }
  assert (pending h' = []) as Ep.
  { destruct (pending h') as [|c l] eqn:Ec; [done|]. destruct (di_pending _ _ _ _ _ _ _ _ I' c) as (b & Hn & _); [rewrite Ec; by left|].
    set_solver. }
  assert (∀ b p, entries (hbm_cache h') !! b = Some p → hbm_mem h' !! p = Some (block_data (h_file h) (block_bytes h) b)) as Hdata.
  { intros b p Hp. pose proof (di_hbm _ _ _ _ _ _ _ _ I' b p Hp ltac:(done)) as H. unfold settled in H. by rewrite Ep in H. }
  by split_and!.
Qed.

(** C1: the pointers of a lookup hold their blocks, whenever the device does
    the copies. On a handle whose lookups have succeeded, when the blocks are
    inside the file and the DRAM cache has room for the distinct blocks of the
    batch, a lookup succeeds and every block then cached in HBM has its bytes in
    its slot. If HBM also has free slots for the blocks it lacks, every pointer
    returned holds the bytes of its block, and two pointers are equal only for
    the same block. *)
Theorem lookup_pointers_hold_blocks `{PX : Posix} `{DV : Device} B fuel blocks h :
  handle_good h → os_reliable B → (∀ n, cuda_ok n = true) → block_bytes h * Z.of_nat B ≤ Z.of_nat fuel →
  zlen (h_file h) < 2 ^ 63 → Forall (block_in_file h) blocks →
  Z.of_nat (size (list_to_set blocks : gset Z)) ≤ capacity (dram_cache h) →
  ∃ out h', memtier_lookup_blocks fuel blocks h = Some (0, out, h') ∧ handle_good h' ∧ length out = length blocks ∧
    (∀ b p, entries (hbm_cache h') !! b = Some p →
       hbm_mem h' !! p = Some (block_data (h_file h) (block_bytes h) b)) ∧
    (Z.of_nat (size (list_to_set blocks ∖ dom (entries (hbm_cache h)))) ≤ zlen (free_slots (hbm_cache h)) →
       Forall2 (λ b r, hbm_mem h' !! r.1 = Some (block_data (h_file h) (block_bytes h) b)) blocks out ∧
       ∀ i j bi bj ri rj, blocks !! i = Some bi → blocks !! j = Some bj → out !! i = Some ri → out !! j = Some rj →
         ri.1 = rj.1 → bi = bj).
Proof.
  intros H HB HC Hf Hsize Hin Hfit.
  destruct (lookup_good B fuel blocks h H HB HC Hf Hsize Hin Hfit) as (out & h' & E & Hg & Hl & Hdata & HP).
  exists out, h'. split_and!; [done..|]. intros R. specialize (HP R). split.
  - eapply Forall2_impl; [exact HP|]. intros b r. apply Hdata.
  - intros i j bi bj ri rj Hi Hj Hri Hrj Heq.
    pose proof (Forall2_lookup_lr _ _ _ _ _ _ HP Hi Hri) as H1. pose proof (Forall2_lookup_lr _ _ _ _ _ _ HP Hj Hrj) as H2.
    cbv beta in H1, H2. rewrite Heq in H1. destruct Hg as [I' _].
    by apply (entries_inj _ (di_hbm_wf _ _ _ _ _ _ _ _ I') bi bj rj.1).
Qed.

(** ** When a slot is taken back too early *)

(** A file of five blocks of eight bytes; the [pread] call number [failing]
    reports an error. *)
#[program] Definition flaky_posix (failing : option nat) : Posix := {|
  file_at path := if decide (path = u "table.bin") then Some (seqZ 0 40) else None;
  os_pread n size off len :=
    if off <? 0 then ReadError else if decide (failing = Some n) then ReadError
    else Got (Z.max 0 (Z.min len (size - off)));
  os_close _ := true;
|}.
Next Obligation. intros f n size off len k Ho Hl. cbv beta. repeat case_match; [done..|]. intros [= <-]. lia. Qed.
Next Obligation. intros f n size off len k Ho Hl. cbv beta. repeat case_match; [done..|]. intros [= <-]. lia. Qed.
Next Obligation. intros f n size off len Ho. cbv beta. by rewrite (proj2 (Z.ltb_lt off 0)). Qed.

(** A device that never fails and does [early] copies before each load. *)
#[program] Definition steady_device (early : nat) : Device :=
  {| can_allocate _ := true; cuda_ok _ := true; drained _ := early; lookup_ms _ := f_zero |}.
Next Obligation.
  intros _ n. exists false, 0, emin. induction n as [|n IH]; [done|]. by rewrite seq_S, fmap_app, foldl_app, IH.
Qed.

Definition small_config (dram_blocks hbm_blocks : Z) : embedding_config :=
  {| num_embeddings := 10; embedding_dim := 2; rows_per_block := 2; dtype_size := 2;
     dram_cache_bytes := 8 * dram_blocks; hbm_cache_bytes := 8 * hbm_blocks; enable_gds := 0; enable_prefetch := 0 |}.

(** The lookups of a client, one after another: return codes, paths, and what
    each pointer holds after its call. *)
Fixpoint session `{PX : Posix} `{DV : Device} (fuel : nat) (calls : list (list Z)) (h : handle)
    : option (list (Z * list (Z * path * option (list Z)))) :=
  match calls with
  | [] => Some []
  | blocks :: calls =>
      '(rc, out, h) ← memtier_lookup_blocks fuel blocks h;
      rest ← session fuel calls h;
      Some ((rc, map (λ r : Z * path, (r, hbm_mem h !! r.1)) out) :: rest)
  end.

Definition run_session (failing : option nat) (early : nat) (dram_blocks hbm_blocks : Z) (calls : list (list Z)) :=
  let _ := flaky_posix failing in let _ := steady_device early in
  h ← memtier_init_embedding (u "table.bin") (small_config dram_blocks hbm_blocks); session 16 calls h.

(** A hit does not move the block to the front of the HBM cache's list, so in
    one batch a later miss can evict it although the batch fits in HBM: both
    pointers are the same, and the first holds the other block. *)
Lemma hit_pointer_taken_by_miss :
  run_session None 9 4 2 [[0; 1]; [0; 2]] =
  Some [(0, [(0, POSIX_READ, Some (seqZ 0 8)); (1, POSIX_READ, Some (seqZ 8 8))]);
        (0, [(0, HBM_HIT, Some (seqZ 16 8)); (0, POSIX_READ, Some (seqZ 16 8))])].
Proof. vm_compute. reflexivity. Qed.

(** After a load that failed the block stays in the DRAM cache, in a slot that
    was not written: the next lookup is a DRAM hit on what the slot held. *)
Lemma load_error_serves_another_block :
  run_session (Some 1%nat) 9 1 4 [[0]; [1]; [1]] =
  Some [(0, [(0, POSIX_READ, Some (seqZ 0 8))]); (-1, []); (0, [(1, DRAM_HIT, Some (seqZ 0 8))])].
Proof. vm_compute. reflexivity. Qed.

(** When the batch does not fit in DRAM a host slot is written again before the
    copy from it is done: the first block's pointer holds the second block. *)
Lemma copy_reads_reused_slot :
  run_session None 0 1 4 [[0; 1]] =
  Some [(0, [(0, POSIX_READ, Some (seqZ 8 8)); (1, POSIX_READ, Some (seqZ 8 8))])].
Proof. vm_compute. reflexivity. Qed.

(** *** The properties at concrete data *)

Section Witnesses.
#[local] Existing Instance reference_posix.
Definition example_device : Device := steady_device 1.
#[local] Existing Instance example_device.

Definition example_handle : handle :=
  match memtier_init_embedding (u "emb.bin") (small_config 3 4) with
  | Some h => h
  | None => {| h_file := []; h_config := small_config 1 1; block_bytes := 0; residency := ResidencyTable.empty;
               dram_cache := new_cache 0 1; dram_stats := (0, 0, 0); dram_mem := ∅; hbm_cache := new_cache 0 1;
               hbm_mem := ∅; pending := []; metrics := λ _, 0; total_lookup_time_ms := f_zero; preads := 0;
               host_writes := 0; cuda_calls := 0; lookups := 0 |}
  end.

Lemma example_opens : memtier_init_embedding (u "emb.bin") (small_config 3 4) = Some example_handle.
Proof. vm_compute. reflexivity. Qed.

Lemma example_reachable : reachable 2 (u "emb.bin") (small_config 3 4) example_handle.
Proof. apply reach_init, example_opens. Qed.

Lemma lookup_pointers_hold_blocks_witness :
  ∃ out h', memtier_lookup_blocks 16 [3; 1; 3] example_handle = Some (0, out, h') ∧ length out = 3%nat.
Proof.
  destruct (@lookup_pointers_hold_blocks reference_posix example_device 2 16 [3; 1; 3] example_handle (memtier_init_good _ _ _ example_opens)
    reference_reliable (λ n, eq_refl true)) as (out & h' & E & _ & Hl & _).
  - vm_compute. discriminate.
  - vm_compute. reflexivity.
  - repeat constructor; vm_compute; discriminate.
  - vm_compute. discriminate.
  - exists out, h'. split; [exact E|exact Hl].
Defined.


Lemma lookup_counts_paths_witness :
  ∃ rc out h', memtier_lookup_blocks 16 [3; 1; 3] example_handle = Some (rc, out, h') ∧
    metrics h' posix_reads = 2 ∧ metrics h' hbm_hits = 1 ∧ metrics h' bytes_copied_dram_to_gpu = 16.
Proof.
  destruct (lookup_counts_paths 2 (u "emb.bin") (small_config 3 4) 16 [3; 1; 3] example_handle
    (proj2 reference_reliable) example_reachable) as (rc & out & h' & E & _ & H).
  - vm_compute. discriminate.
  - repeat constructor; discriminate.
  - exists rc, out, h'. split; [exact E|].
    assert (rc = 0 ∧ out = [(0, POSIX_READ); (1, POSIX_READ); (0, HBM_HIT)]) as [Hrc Hout].
    { revert E. clear H. destruct (memtier_lookup_blocks 16 [3; 1; 3] example_handle) as [r|] eqn:E; [|discriminate].
      intros Er. injection Er as ->. assert (option_map fst (memtier_lookup_blocks 16 [3; 1; 3] example_handle)
        = Some (0, [(0, POSIX_READ); (1, POSIX_READ); (0, HBM_HIT)])) as Hc by (vm_compute; reflexivity).
      rewrite E in Hc. injection Hc as -> ->. split; reflexivity. }
    destruct (H Hrc) as (_ & _ & _ & H1 & _ & _ & H4 & _ & _ & H7). rewrite H1, H4, H7, Hout.
    split_and!; vm_compute; reflexivity.
Defined.
End Witnesses.
