(* ===== verification/Metrics.v ===== *)
(** The metrics as text (memtier_embedding_bench/src/metrics.cpp:
    [metrics_to_json]; memtier_api.cpp: [memtier_get_metrics]).

    The counters are written as decimal integers and the lookup time with the
    default format of an output stream: six significant digits, in fixed or in
    scientific notation, without trailing zeros.  Python reads the text with
    [json.loads]. *)

From S2P Require Import Prelude PyFloat PyText FloatRepr NumPy Json Posix LruSim SlotCache Runtime RuntimeData.

(** ** [out << x] for a double *)

(** [floor (log10 (n / d))] for positive [n] and [d]. *)
Definition exponent10 (n d : Z) : Z :=
  if d <=? n then zlen (dec_nonneg (n `div` d)) - 1
  else - zlen (dec_nonneg ((d + n - 1) `div` n - 1)).

(** [n / d] to six significant digits: the digits as a number, and the exponent
    of the first of them. *)
Definition six_digits (n d : Z) : Z * Z :=
  let x := exponent10 n d in
  let q := div_rne (n * 10 ^ Z.max 0 (5 - x)) (d * 10 ^ Z.max 0 (x - 5)) in
  if q =? 10 ^ 6 then (10 ^ 5, x + 1) else (q, x).

Definition strip_zeros (ds : str) : str := rstrip (Z.eqb 48) ds.
Definition fraction (ds : str) : str := match strip_zeros ds with [] => [] | ds => 46 :: ds end.
Definition two_digits (n : Z) : str := if n <? 10 then 48 :: dec_nonneg n else dec_nonneg n.

Definition show_positive (n d : Z) : str :=
  let '(q, x) := six_digits n d in
  let ds := dec_nonneg q in
  if (-4 <=? x) && (x <? 6) then
    if x <? 0 then 48 :: fraction (py_repeat (- x - 1) 48 ++ ds)
    else take (Z.to_nat (x + 1)) ds ++ fraction (drop (Z.to_nat (x + 1)) ds)
  else take 1 ds ++ fraction (drop 1 ds) ++ 101 :: (if x <? 0 then 45 else 43) :: two_digits (Z.abs x).

Definition show_double (x : f64) : str :=
  match x with
  | NaN => u "nan"
  | Inf neg => if neg then u "-inf" else u "inf"
  | Fin neg m e =>
      (if neg then [45] else []) ++ (if m =? 0 then [48] else show_positive (shl m e) (shl 1 (- e)))
  end.

(** ** [metrics_to_json] *)

Definition metric_name (c : metric) : str :=
  match c with
  | hbm_hits => u "hbm_hits"
  | dram_hits => u "dram_hits"
  | dram_misses => u "dram_misses"
  | posix_reads => u "posix_reads"
  | gds_reads => u "gds_reads"
  | eviction_count => u "eviction_count"
  | bytes_read_from_ssd => u "bytes_read_from_ssd"
  | bytes_copied_dram_to_gpu => u "bytes_copied_dram_to_gpu"
  end.

Definition all_metrics : list metric :=
  [hbm_hits; dram_hits; dram_misses; posix_reads; gds_reads; eviction_count; bytes_read_from_ssd;
   bytes_copied_dram_to_gpu].

Definition time_name : str := u "total_lookup_time_ms".

(** A member of the object, with its value already written. *)
Definition member_text (kv : str * str) : str := 34 :: kv.1 ++ 34 :: 58 :: kv.2.

Definition metrics_members (h : handle) : list (str * str) :=
  ((λ c, (metric_name c, dec (metrics h c))) <$> all_metrics) ++ [(time_name, show_double (total_lookup_time_ms h))].

Definition metrics_to_json (h : handle) : str := 123 :: join [44] (member_text <$> metrics_members h) ++ [125].

(** [memtier_get_metrics] with a buffer of this size: the text it stores, or
    nothing when it returns -1. *)
Definition memtier_get_metrics (h : handle) (buffer_size : Z) : option str :=
  if buffer_size =? 0 then None else
  let json := metrics_to_json h in
  if buffer_size <? zlen json + 1 then None else Some json.

(** ** Reading the text back *)

(** A text the scanner reads as one number. *)
Definition number_text (w : str) (v : json) : Prop :=
  (∃ c t, w = c :: t ∧ json_ws c = false) ∧
  ∀ fuel r, ends_number r → parse_value (S fuel) (w ++ r) = Some (v, r).

Lemma number_text_dec z : number_text (dec z) (JInt z).
Proof.
  split; [|intros fuel r; apply parse_value_dec]. destruct (dec_head z) as (c & t & -> & Hc).
  exists c, t. split; [done|]. unfold json_ws, is_digit in *. lia.
Qed.

(** The grammar of the numbers with a fraction or an exponent. *)
Definition digits (ds : str) : Prop := ds ≠ [] ∧ Forall is_digit ds.
Definition int_text (ip : str) : Prop := ip = [48] ∨ ∃ d ds, ip = d :: ds ∧ 49 ≤ d ≤ 57 ∧ Forall is_digit ds.
Definition frac_text (fp : str) : Prop := fp = [] ∨ ∃ ds, fp = 46 :: ds ∧ digits ds.
Definition exp_text (ep : str) : Prop := ep = [] ∨ ∃ s ds, ep = 101 :: s :: ds ∧ (s = 45 ∨ s = 43) ∧ digits ds.

Definition stops (r : str) : Prop := match r with [] => True | c :: _ => ascii_digit c = false end.

Lemma int_part_text ip r : int_text ip → stops r → int_part (ip ++ r) = (ip, r).
Proof.
  intros [->|(d & ds & -> & Hd & Hds)] Hr; [done|].
  rewrite <-(span_digits (d :: ds) r); [|constructor; [unfold is_digit; lia|done]|done].
  cbn [app]. unfold int_part. by case_digit Hd.
Qed.

Lemma number_frac_part fp r :
  frac_text fp → stops r → (fp = [] → match r with 46 :: _ => False | _ => True end) →
  number_frac (fp ++ r) = (match fp with [] => None | _ :: ds => Some ds end, r).
Proof.
  intros [->|(ds & -> & Hne & Hds)] Hr Hd; cbn [app].
  - specialize (Hd eq_refl). unfold number_frac. destruct r as [|c r]; [done|].
    destruct c as [|p|p]; try done. do 6 (destruct p as [p|p|]; try done).
  - unfold number_frac. rewrite span_digits by done. by destruct ds.
Qed.

Definition exp_value (ep : str) : option Z :=
  match ep with _ :: s :: ds => Some (sgn_apply (s =? 45) (digits_value ds)) | _ => None end.

Lemma number_exp_part ep r :
  exp_text ep → stops r → (ep = [] → match r with c :: _ => c ≠ 101 ∧ c ≠ 69 | [] => True end) →
  number_exp (ep ++ r) = (exp_value ep, r).
Proof.
  intros [->|(s & ds & -> & Hs & Hne & Hds)] Hr He; cbn [app].
  - specialize (He eq_refl). unfold number_exp. destruct r as [|c r]; [done|]. destruct He as [H1 H2].
    by rewrite (proj2 (Z.eqb_neq c 101) H1), (proj2 (Z.eqb_neq c 69) H2).
  - unfold number_exp, exp_value. destruct Hs as [-> | ->]; cbn [Z.eqb Pos.eqb orb]; rewrite span_digits by done;
      by destruct ds.
Qed.

(** The value of a number, from its parts. *)
Definition number_value (neg : bool) (ip fp ep : list Z) : json :=
  let frac : option (list Z) := match fp with [] => None | _ :: ds => Some ds end in
  match frac, exp_value ep with
  | None, None => JInt (sgn_apply neg (digits_value ip))
  | _, e => JFloat (decimal_float neg (digits_value (ip ++ default [] frac)) (default 0 e - zlen (default [] frac)))
  end.

Lemma parts_stop fp ep r :
  frac_text fp → exp_text ep → ends_number r → stops (fp ++ ep ++ r) ∧ stops (ep ++ r) ∧ stops r.
Proof.
  intros Hf He Hr. assert (stops r) as H1 by (destruct r; [done|by destruct Hr]).
  assert (stops (ep ++ r)) as H2 by (destruct He as [->|(s & ds & -> & _)]; done).
  split_and!; [|done|done]. by destruct Hf as [->|(ds & -> & _)].
Qed.

Lemma parse_number_parts (neg : bool) ip fp ep r :
  int_text ip → frac_text fp → exp_text ep → ends_number r →
  parse_number ((if neg then [45] else []) ++ ip ++ fp ++ ep ++ r) = Some (number_value neg ip fp ep, r).
Proof.
  intros Hi Hf He Hr. destruct (parts_stop fp ep r Hf He Hr) as (S1 & S2 & S3).
  assert (skip_minus ((if neg then [45] else []) ++ ip ++ fp ++ ep ++ r) = (neg, ip ++ fp ++ ep ++ r)) as Hm.
  { destruct neg; [done|]. cbn [app]. destruct Hi as [->|(d & ds & -> & Hd & _)]; [done|]. cbn [app]. by case_digit Hd. }
  unfold parse_number. set (s := (if neg then [45] else []) ++ _) in *.
  change (match s with 45 :: r0 => (true, r0) | _ => (false, s) end) with (skip_minus s). rewrite Hm.
  change (match ip ++ fp ++ ep ++ r with 48 :: r0 => ([48], r0) | _ => span ascii_digit (ip ++ fp ++ ep ++ r) end)
    with (int_part (ip ++ fp ++ ep ++ r)). rewrite int_part_text by done.
  rewrite decide_False by (destruct Hi as [->|(d & ds & -> & _)]; done).
  rewrite number_frac_part; [|done|done|].
  2:{ intros _. destruct He as [->|(s' & ds & -> & _)]; [|done]. cbn [app]. destruct r as [|c r]; [done|].
      destruct Hr as (_ & Hc & _). destruct c as [|p|p]; try done. do 6 (destruct p as [p|p|]; try done). }
  rewrite number_exp_part; [|done|done|].
  2:{ intros _. destruct r; [done|]. destruct Hr as (_ & _ & H1 & H2). done. }
  unfold number_value. destruct Hf as [->|(ds & -> & _)]; [|by destruct (exp_value ep)].
  destruct He as [->|(s' & ds & -> & _)]; done.
Qed.

Lemma number_text_parts (neg : bool) ip fp ep :
  int_text ip → frac_text fp → exp_text ep →
  number_text ((if neg then [45] else []) ++ ip ++ fp ++ ep) (number_value neg ip fp ep).
Proof.
  intros Hi Hf He. split.
  - destruct neg; [by eexists _, _|]. destruct Hi as [->|(d & ds & -> & Hd & _)]; cbn [app]; [by eexists _, _|].
    exists d. eexists. split; [reflexivity|]. unfold json_ws. lia.
  - intros fuel r Hr. rewrite <-(parse_number_parts neg ip fp ep r Hi Hf He Hr), <-!app_assoc.
    destruct neg; destruct Hi as [->|(d & ds & -> & Hd & _)]; try done; by case_digit Hd.
Qed.

(** *** The output stream writes numbers *)

Lemma strip_zeros_digits ds : Forall is_digit ds → Forall is_digit (strip_zeros ds).
Proof.
  intros H. unfold strip_zeros, rstrip. apply Forall_rev.
  assert (∀ l, Forall is_digit l → Forall is_digit (drop_while (Z.eqb 48) l)) as Hd.
  { induction 1 as [|c l Hc Hl IH]; [constructor|]. cbn [drop_while]. destruct (48 =? c); [done|by constructor]. }
  by apply Hd, Forall_rev.
Qed.

Lemma fraction_text ds : Forall is_digit ds → frac_text (fraction ds).
Proof.
  intros H%strip_zeros_digits. unfold fraction. destruct (strip_zeros ds) as [|c l] eqn:E; [by left|].
  right. exists (c :: l). split; [done|]. by split.
Qed.

Lemma dec_nonneg_int_text n k : 0 ≤ n → (0 < k)%nat → int_text (take k (dec_nonneg n)).
Proof.
  intros Hn Hk. destruct k as [|k]; [lia|]. destruct (dec_nonneg_head n Hn) as [[_ ->]|(d & ds & E & Hd)].
  - left. cbn [take]. by rewrite take_nil.
  - right. rewrite E. cbn [take]. exists d. eexists. split; [reflexivity|]. split; [done|]. apply Forall_take.
    pose proof (dec_nonneg_digits n Hn) as H. rewrite E in H. by apply Forall_inv_tail in H.
Qed.

Lemma two_digits_text n : 0 ≤ n → digits (two_digits n).
Proof.
  intros Hn. pose proof (dec_nonneg_digits n Hn) as H. unfold two_digits. case_match; split; try done.
  - constructor; [unfold is_digit; lia|done].
  - destruct (dec_nonneg_head n Hn) as [[_ ->]|(? & ? & -> & _)]; done.
Qed.

Lemma div_rne_nonneg n d : 0 ≤ n → 0 < d → 0 ≤ div_rne n d.
Proof. intros Hn Hd. unfold div_rne. pose proof (Z.div_pos n d Hn Hd). case_match; lia. Qed.

Lemma six_digits_nonneg n d : 0 ≤ n → 0 < d → 0 ≤ (six_digits n d).1.
Proof.
  intros Hn Hd. unfold six_digits. case_match; cbn; [lia|].
  apply div_rne_nonneg; [apply Z.mul_nonneg_nonneg|apply Z.mul_pos_pos]; lia.
Qed.

Lemma show_positive_text n d :
  0 ≤ n → 0 < d → ∃ ip fp ep, show_positive n d = ip ++ fp ++ ep ∧ int_text ip ∧ frac_text fp ∧ exp_text ep.
Proof.
  intros Hn Hd. unfold show_positive. pose proof (six_digits_nonneg n d Hn Hd) as Hq.
  destruct (six_digits n d) as [q x]. cbn [fst] in Hq. pose proof (dec_nonneg_digits q Hq) as Hds.
  destruct ((-4 <=? x) && (x <? 6)); [destruct (Z.ltb_spec x 0)|].
  - exists [48], (fraction (py_repeat (- x - 1) 48 ++ dec_nonneg q)), []. rewrite app_nil_r.
    split_and!; [done|by left| |by left]. apply fraction_text, Forall_app. split; [|done].
    apply Forall_replicate. unfold is_digit. lia.
  - eexists (take _ (dec_nonneg q)), (fraction _), []. rewrite app_nil_r.
    split_and!; [done|apply dec_nonneg_int_text; lia| |by left]. by apply fraction_text, Forall_drop.
  - eexists (take 1 (dec_nonneg q)), (fraction _), _. split_and!; [reflexivity|apply dec_nonneg_int_text; lia| |].
    + by apply fraction_text, Forall_drop.
    + right. eexists _, _. split; [reflexivity|]. split; [case_match; auto|]. apply two_digits_text. lia.
Qed.

Lemma show_double_number x : f_wf x = true → (∃ neg m e, x = Fin neg m e) → ∃ v, number_text (show_double x) v.
Proof.
  intros Hw (neg & m & e & ->). unfold show_double. destruct (Z.eqb_spec m 0) as [->|Hm].
  - exists (number_value neg [48] [] []). apply (number_text_parts neg [48] [] []); by left.
  - destruct (show_positive_text (shl m e) (shl 1 (- e))) as (ip & fp & ep & -> & Hi & Hf & He).
    + unfold shl. cbn in Hw. unfold canonical in Hw. apply Z.mul_nonneg_nonneg; lia.
    + unfold shl. lia.
    + eexists. by apply number_text_parts.
Qed.

(** *** The object *)

(** A name that needs no escape. *)
Definition plain_name (k : str) : Prop := plain_text k ∧ concat (escape_char <$> k) = k.

Definition member_reads (m : str * str) (kv : str * json) : Prop :=
  m.1 = kv.1 ∧ plain_name kv.1 ∧ number_text m.2 kv.2.

Lemma parse_members_compact ms kvs acc fuel r :
  ms ≠ [] → Forall2 member_reads ms kvs → NoDup (acc ++ kvs).*1 → (2 * length ms ≤ fuel)%nat →
  parse_members fuel acc (join [44] (member_text <$> ms) ++ 125 :: r) = Some (acc ++ kvs, r).
Proof.
  intros Hne F. revert fuel acc Hne; induction F as [|[k w] [k' v] ms kvs (Hk & [Hp He] & Hn) F IH];
    intros fuel acc Hne ND Hf; [done|]. clear Hne. cbn [fst snd] in *. subst k'.
  destruct fuel as [|[|fuel]]; cbn [length] in Hf; [lia..|].
  destruct Hn as [(c & t & Ew & Hc) Hn].
  assert (k ∉ acc.*1) as Hk.
  { rewrite fmap_app, fmap_cons in ND. apply NoDup_app in ND as (_ & Hd & _). intros Hin. apply (Hd k Hin). by left. }
  assert (∀ t, ends_number t → parse_members (S (S fuel)) acc (member_text (k, w) ++ t) =
    match skip_ws t with
    | 125 :: s => Some (acc ++ [(k, v)], s)
    | 44 :: s => parse_members (S fuel) (acc ++ [(k, v)]) (skip_ws s)
    | _ => None
    end) as Step.
  { intros t' Ht. unfold member_text. cbn [fst snd app]. rewrite <-app_assoc. cbn [app parse_members].
    pose proof (string_body_dumps k (58 :: w ++ t') Hp) as Hs. cbv zeta in Hs. rewrite He in Hs. rewrite Hs.
    rewrite skip_ws_id by done. cbv iota.
    assert (skip_ws (w ++ t') = w ++ t') as -> by (rewrite Ew; cbn [app]; by apply skip_ws_id).
    rewrite Hn by done. by rewrite dict_set_fresh. }
  destruct ms as [|m ms].
  - inversion F; subst. cbn [fmap list_fmap join]. by rewrite Step.
  - rewrite !fmap_cons, join_cons2, <-!app_assoc. cbn [app]. rewrite Step by done.
    rewrite skip_ws_id by done. cbv iota. rewrite <-fmap_cons.
    assert (∀ t, skip_ws (join [44] (member_text <$> m :: ms) ++ t) = join [44] (member_text <$> m :: ms) ++ t) as ->.
    { intros t'. rewrite fmap_cons. destruct ms; [|rewrite fmap_cons, join_cons2, <-!app_assoc]; done. }
    rewrite (IH (S fuel) (acc ++ [(k, v)])); [by rewrite <-app_assoc|done| |cbn [length] in *; lia].
    by rewrite <-app_assoc.
Qed.

(** The object [json.loads] gives. *)
Definition metrics_object (h : handle) (time : json) : list (str * json) :=
  ((λ c, (metric_name c, JInt (metrics h c))) <$> all_metrics) ++ [(time_name, time)].

Lemma plain_names : Forall plain_name ((metric_name <$> all_metrics) ++ [time_name]).
Proof.
  assert (forallb (λ k, forallb (λ c, (0 <=? c) && (c <? 0xd800)) k && bool_decide (concat (escape_char <$> k) = k))
    ((metric_name <$> all_metrics) ++ [time_name]) = true) as H by (vm_compute; reflexivity).
  apply Forall_forall. intros k Hk. rewrite forallb_forall in H. apply list_elem_of_In, H in Hk.
  apply andb_prop in Hk as [H1 H2]. split; [by apply plain_text_check|by apply bool_decide_eq_true in H2].
Qed.

Lemma metrics_names_NoDup : NoDup ((metric_name <$> all_metrics) ++ [time_name]).
Proof. apply (bool_decide_eq_true_1 _). vm_compute. reflexivity. Qed.

Lemma length_members h : length (metrics_members h) = 9%nat.
Proof. unfold metrics_members. by rewrite length_app, length_fmap. Qed.

Lemma join_length (ms : list (str * str)) : zlen ms ≤ zlen (join [44] (member_text <$> ms)).
Proof.
  induction ms as [|m ms IH]; [done|]. destruct ms as [|m' ms]; [cbn; lia|].
  rewrite !fmap_cons, join_cons2, !length_app. rewrite <-fmap_cons. unfold member_text at 1. cbn [length] in *. lia.
Qed.

Lemma members_read h time :
  number_text (show_double (total_lookup_time_ms h)) time →
  Forall2 member_reads (metrics_members h) (metrics_object h time).
Proof.
  intros Ht. pose proof plain_names as Hp. apply Forall_app in Hp as [Hp Ht'%Forall_inv].
  unfold metrics_members, metrics_object. apply Forall2_app; [|by repeat constructor; try apply Ht'; try apply Ht].
  revert Hp. generalize all_metrics. intros l Hp. induction l as [|c l IH]; [constructor|].
  rewrite fmap_cons in Hp. apply Forall_cons in Hp as [Hc Hp].
  rewrite !fmap_cons. constructor; [|by apply IH]. split; [done|]. split; [done|]. apply number_text_dec.
Qed.

Lemma object_names h time : (metrics_object h time).*1 = (metric_name <$> all_metrics) ++ [time_name].
Proof. unfold metrics_object. by rewrite fmap_app, <-list_fmap_compose. Qed.

(** An object of compact members reads back. *)
Lemma loads_compact ms kvs :
  ms ≠ [] → Forall2 member_reads ms kvs → NoDup kvs.*1 →
  json_loads (123 :: join [44] (member_text <$> ms) ++ [125]) = Ok (JObj kvs).
Proof.
  intros Hne F ND. unfold json_loads. rewrite skip_ws_id by done. pose proof (join_length ms) as Hl.
  set (n := (2 * length _)%nat).
  assert (parse_members n [] (join [44] (member_text <$> ms) ++ [125]) = Some (kvs, [])) as E.
  { apply (parse_members_compact ms kvs [] n []); [done|done|done|]. unfold n. cbn [length]. rewrite length_app. lia. }
  clearbody n. clear Hl. assert (∃ t, join [44] (member_text <$> ms) ++ [125] = 34 :: t) as [t Et].
  { destruct ms as [|m ms]; [done|]. rewrite fmap_cons. destruct ms; [|rewrite fmap_cons, join_cons2]; by eexists. }
  rewrite Et in *. cbn [parse_value]. rewrite skip_ws_id by done. cbv iota. by rewrite E.
Qed.

Lemma metrics_text_reads h time :
  number_text (show_double (total_lookup_time_ms h)) time →
  json_loads (metrics_to_json h) = Ok (JObj (metrics_object h time)).
Proof.
  intros Ht. apply loads_compact; [|by apply members_read|rewrite object_names; exact metrics_names_NoDup].
  intros H. pose proof (length_members h) as Hn. by rewrite H in Hn.
Qed.

(** *** Its length *)

Lemma dec_nonneg_length n : 0 ≤ n → zlen (dec_nonneg n) ≤ Z.log2 n + 1.
Proof.
  intros Hn. unfold dec_nonneg. rewrite length_rev.
  assert (∀ fuel n, (length (digits_rev fuel n) ≤ fuel)%nat) as H.
  { induction fuel as [|fuel IH]; intros m; [done|]. rewrite digits_rev_S. case_match; cbn; [lia|]. specialize (IH (m `div` 10)). lia. }
  specialize (H (S (Z.to_nat (Z.log2 n))) n). pose proof (Z.log2_nonneg n). lia.
Qed.

Lemma div_rne_le a b : 0 ≤ a → 0 < b → div_rne a b ≤ a + 1.
Proof. intros Ha Hb. unfold div_rne. pose proof (Z.div_le_upper_bound a b a Hb ltac:(nia)). case_match; lia. Qed.

Lemma log2_rounded n k b : 0 < n → 0 ≤ k → 0 < b → Z.log2 (div_rne (n * 10 ^ k) b) ≤ Z.log2 n + 4 * k + 1.
Proof.
  intros Hn Hk Hb. set (l := Z.log2 n + 1 + 4 * k).
  assert (10 ^ k ≤ 2 ^ (4 * k)) as H10.
  { rewrite Z.pow_mul_r by lia. apply Z.pow_le_mono_l. lia. }
  pose proof (Z.log2_spec n Hn) as [_ Hlog]. assert (0 < 10 ^ k) by lia. assert (0 < 2 ^ (4 * k)) by lia.
  assert (n * 10 ^ k < 2 ^ l) as Ha.
  { unfold l. rewrite Z.pow_add_r by (pose proof (Z.log2_nonneg n); lia). change (Z.succ (Z.log2 n)) with (Z.log2 n + 1) in Hlog. nia. }
  assert (Z.log2 (div_rne (n * 10 ^ k) b) ≤ Z.log2 (2 ^ l)) as Hle.
  { apply Z.log2_le_mono. pose proof (div_rne_le (n * 10 ^ k) b ltac:(nia) Hb). lia. }
  rewrite Z.log2_pow2 in Hle by (unfold l; pose proof (Z.log2_nonneg n); lia). unfold l in Hle. lia.
Qed.

Lemma exponent10_range n d : 0 < n → 0 < d → - Z.log2 d - 1 ≤ exponent10 n d ≤ Z.log2 n.
Proof.
  intros Hn Hd. pose proof (Z.log2_nonneg n). pose proof (Z.log2_nonneg d). unfold exponent10. destruct (Z.leb_spec d n).
  - pose proof (dec_nonneg_length (n `div` d) ltac:(apply Z.div_pos; lia)) as Hu1.
    assert (Z.log2 (n `div` d) ≤ Z.log2 n) by (apply Z.log2_le_mono, Z.div_le_upper_bound; nia). lia.
  - set (k := (d + n - 1) `div` n - 1). assert (0 ≤ k ≤ d) as [Hk0 Hk].
    { unfold k. pose proof (Z.div_le_lower_bound (d + n - 1) n 1 Hn ltac:(lia)).
      pose proof (Z.div_le_upper_bound (d + n - 1) n (d + 1) Hn ltac:(nia)). lia. }
    pose proof (dec_nonneg_length k Hk0). pose proof (Z.log2_le_mono k d Hk). lia.
Qed.

Lemma strip_zeros_length ds : zlen (strip_zeros ds) ≤ zlen ds.
Proof.
  unfold strip_zeros, rstrip. rewrite length_rev. rewrite <-(length_rev ds). generalize (rev ds). intros l.
  induction l as [|c l IH]; [done|]. cbn [drop_while]. destruct (48 =? c); cbn [length]; lia.
Qed.

Lemma fraction_length ds : zlen (fraction ds) ≤ zlen ds + 1.
Proof. pose proof (strip_zeros_length ds). unfold fraction. destruct (strip_zeros ds); cbn [length] in *; lia. Qed.

Lemma show_positive_length n d x l :
  0 < n → 0 < d → (six_digits n d).2 = x → zlen (dec_nonneg (six_digits n d).1) ≤ l →
  zlen (show_positive n d) ≤ l + 10 + Z.log2 (Z.abs x).
Proof.
  intros Hn Hd Hx Hl. unfold show_positive. destruct (six_digits n d) as [q x']. cbn [fst snd] in *. subst x'.
  pose proof (Z.log2_nonneg (Z.abs x)). destruct ((-4 <=? x) && (x <? 6)) eqn:E; [destruct (Z.ltb_spec x 0)|].
  - cbn [length]. pose proof (fraction_length (py_repeat (- x - 1) 48 ++ dec_nonneg q)) as Hu1.
    rewrite length_app in Hu1. unfold py_repeat in Hu1. rewrite length_replicate in Hu1. unfold py_repeat. lia.
  - rewrite length_app, length_take. pose proof (fraction_length (drop (Z.to_nat (x + 1)) (dec_nonneg q))) as Hu1.
    rewrite length_drop in Hu1. lia.
  - rewrite !length_app, length_take. cbn [length]. pose proof (fraction_length (drop 1 (dec_nonneg q))) as Hu1.
    rewrite length_drop in Hu1. pose proof (dec_nonneg_length (Z.abs x) ltac:(lia)).
    assert (zlen (two_digits (Z.abs x)) ≤ Z.log2 (Z.abs x) + 2) by (unfold two_digits; case_match; cbn [length]; lia). lia.
Qed.

Lemma show_double_length x : f_wf x = true → zlen (show_double x) ≤ 6000.
Proof.
  intros Hw. destruct x as [neg m e|[]|]; [|done..]. unfold show_double. cbn in Hw. unfold canonical, emin, emax, two53 in Hw.
  rewrite length_app. assert (zlen (if neg then [45] else []) ≤ 1) by (by destruct neg).
  destruct (Z.eqb_spec m 0) as [|Hm]; [cbn [length]; lia|].
  assert (0 < m) as Hm0 by lia. set (n := shl m e). set (d := shl 1 (- e)).
  assert (0 < n) as Hn by (unfold n, shl; nia). assert (0 < d) as Hd by (unfold d, shl; nia).
  assert (Z.log2 n ≤ 1024) as Ln.
  { unfold n, shl. rewrite Z.log2_mul_pow2 by lia. pose proof (Z.log2_le_mono m (2 ^ 53) ltac:(lia)) as Hu1.
    rewrite Z.log2_pow2 in Hu1 by lia. lia. }
  assert (Z.log2 d ≤ 1074) as Ld by (unfold d, shl; rewrite Z.mul_1_l, Z.log2_pow2; lia).
  pose proof (exponent10_range n d Hn Hd) as Hx. set (x := exponent10 n d) in *.
  pose proof (log2_rounded n (Z.max 0 (5 - x)) (d * 10 ^ Z.max 0 (x - 5)) Hn ltac:(lia) ltac:(nia)) as Hq.
  assert (-1075 ≤ (six_digits n d).2 ≤ 1025 ∧ zlen (dec_nonneg (six_digits n d).1) ≤ 5400) as [Hx2 Hl].
  { unfold six_digits. cbv zeta. fold x. destruct (div_rne _ _ =? 10 ^ 6); cbn [fst snd]; (split; [lia|]).
    - vm_compute. discriminate.
    - etrans; [apply dec_nonneg_length, div_rne_nonneg; nia|]. lia. }
  pose proof (show_positive_length n d _ 5400 Hn Hd eq_refl Hl) as Hs.
  pose proof (Z.log2_le_mono (Z.abs (six_digits n d).2) (2 ^ 11) ltac:(lia)) as H11. rewrite Z.log2_pow2 in H11 by lia. lia.
Qed.

Lemma join_members_length (ms : list (str * str)) :
  zlen (join [44] (member_text <$> ms)) ≤ zsum ((λ m, zlen m.1 + zlen m.2 + 4) <$> ms).
Proof.
  assert (∀ a l, zsum (a :: l) = a + zsum l) as Hz by done.
  induction ms as [|m ms IH]; [done|]. rewrite (fmap_cons _ m ms), (fmap_cons _ m ms), Hz. destruct ms as [|m' ms].
  - cbn [fmap list_fmap join]. unfold member_text. cbn [length]. rewrite length_app. cbn. lia.
  - rewrite fmap_cons, join_cons2, !length_app. rewrite <-fmap_cons. unfold member_text at 1. cbn [length].
    rewrite length_app. cbn [length]. lia.
Qed.

Lemma dec_length_u64 z : in_width 64 z → zlen (dec z) ≤ 64.
Proof.
  unfold in_width. intros Hz. unfold dec. rewrite (proj2 (Z.ltb_ge z 0)) by lia.
  pose proof (dec_nonneg_length z ltac:(lia)). pose proof (Z.log2_le_mono z (2 ^ 64 - 1) ltac:(lia)) as Hu1.
  change (Z.log2 (2 ^ 64 - 1)) with 63 in Hu1. lia.
Qed.

Lemma metrics_length h :
  (∀ c, in_width 64 (metrics h c)) → f_wf (total_lookup_time_ms h) = true → zlen (metrics_to_json h) + 1 ≤ 8192.
Proof.
  intros Hm Ht. unfold metrics_to_json. cbn [length]. rewrite length_app. cbn [length].
  pose proof (join_members_length (metrics_members h)) as Hj.
  set (cost := λ m : str * str, zlen m.1 + zlen m.2 + 4) in Hj.
  assert (zsum (cost <$> metrics_members h) = zsum (cost <$> ((λ c, (metric_name c, dec (metrics h c))) <$> all_metrics))
    + zsum (cost <$> [(time_name, show_double (total_lookup_time_ms h))])) as Ecost
    by (unfold metrics_members; by rewrite fmap_app, zsum_app).
  pose proof (show_double_length _ Ht) as Hs.
  assert (zsum (cost <$> ((λ c, (metric_name c, dec (metrics h c))) <$> all_metrics)) ≤ 8 * 100) as H8.
  { rewrite <-list_fmap_compose. change (8 * 100) with (zlen all_metrics * 100). generalize all_metrics. intros l.
    induction l as [|c l IH]; [done|]. rewrite fmap_cons. cbn [length].
    pose proof (dec_length_u64 _ (Hm c)). assert (zlen (metric_name c) ≤ 24) by (by destruct c).
    set (rest := _ <$> l) in *. change (zsum (?a :: rest)) with (a + zsum rest). unfold cost at 1, compose. cbn [fst snd]. lia. }
  assert (zsum (cost <$> [(time_name, show_double (total_lookup_time_ms h))])
    = 20 + zlen (show_double (total_lookup_time_ms h)) + 4 + 0) as Ht' by done. lia.
Qed.

Lemma metrics_readable `{DV : Device} h :
  handle_wf h →
  ∃ text d, memtier_get_metrics h 8192 = Some text ∧ json_loads text = Ok (JObj d) ∧
    ∀ c, dict_get d (metric_name c) = Some (JInt (metrics h c)).
Proof.
  intros W. assert (f_wf (total_lookup_time_ms h) = true ∧ ∃ neg m e, total_lookup_time_ms h = Fin neg m e) as [Hw Hfin].
  { rewrite (hw_time h W). split; [|apply lookup_times_finite]. unfold time_after.
    destruct (lookups h) as [|n]; [done|]. rewrite seq_S, fmap_app, foldl_app. apply fadd_wf. }
  destruct (show_double_number _ Hw Hfin) as [time Ht].
  exists (metrics_to_json h), (metrics_object h time). split; [|split; [by apply metrics_text_reads|by intros []]].
  unfold memtier_get_metrics. cbv zeta. rewrite (proj2 (Z.ltb_ge _ _)); [done|].
  apply metrics_length; [apply (hw_metrics h W)|done].
Qed.

(** C17: the metrics cross the library's interface unharmed. In every reachable
    state the text [memtier_get_metrics] writes, lookup time included, fits in
    the 8192 bytes the Python wrapper allocates, and [json.loads] reads it back
    as an object with the value of every counter under its name. *)
Theorem metrics_json_roundtrip `{PX : Posix} `{DV : Device} B file cfg h :
  os_progress B → reachable B file cfg h →
  ∃ text d, memtier_get_metrics h 8192 = Some text ∧ json_loads text = Ok (JObj d) ∧
    ∀ c, dict_get d (metric_name c) = Some (JInt (metrics h c)).
Proof. intros HB R. by apply metrics_readable, (reachable_wf B file cfg). Qed.

(** The format of the stream on a few numbers. *)
Example show_examples :
  show_double (lit 1 10) = u "0.1" ∧ show_double (lit 123456789 1) = u "1.23457e+08" ∧
  show_double (lit 5 100000) = u "5e-05" ∧ show_double (lit 9999995 10) = u "1e+06" ∧
  show_double (lit 25 2) = u "12.5" ∧ show_double (lit 100 1) = u "100" ∧ show_double f_zero = u "0".
Proof. vm_compute. split_and!; reflexivity. Qed.

(** *** The property at concrete data *)

Section Witnesses.
#[local] Existing Instance reference_posix.
#[local] Existing Instance example_device.

Lemma metrics_json_roundtrip_witness :
  ∃ text d, memtier_get_metrics example_handle 8192 = Some text ∧ json_loads text = Ok (JObj d) ∧
    ∀ c, dict_get d (metric_name c) = Some (JInt (metrics example_handle c)).
Proof. apply (metrics_json_roundtrip 2 (u "emb.bin") (small_config 3 4) example_handle (proj2 reference_reliable) example_reachable). Defined.
End Witnesses.
