(* ===== verification/RuntimeLib.v ===== *)
(** The interface of libmemtier_embedding.so
    (memtier_embedding_bench/include/memtier_api.h), and the runtime behind it.

    [EmbeddingLib] is what the Python wrapper calls, with what it may rely on:
    the counters reported are those of the paths returned, and a block is read
    from the file the first time it is asked for.  [runtime_lib] is the C++
    runtime as an implementation. *)

From S2P Require Import Prelude PyFloat PyText NumPy Json Posix LruSim SlotCache Runtime RuntimeData Metrics.

(** The values of [memtier_path_t]. *)
Definition path_code (p : path) : Z :=
  match p with HBM_HIT => 0 | DRAM_HIT => 1 | POSIX_READ => 2 | GDS_READ => 3 | UVM_FAULT => 4 end.

Definition coded (p : path) (codes : list Z) : Z := zlen (filter (λ c, c = path_code p) codes).

Class EmbeddingLib := {
  lib : Type;
  (** [memtier_init_embedding]; [None] is the null handle. *)
  lib_init : str → embedding_config → option lib;
  (** [memtier_lookup_blocks]: the return code, the addresses and the paths. *)
  lib_lookup : list Z → lib → Z * list (Z * Z) * lib;
  (** [memtier_get_metrics] with a buffer of this size. *)
  lib_metrics : lib → Z → option str;

  lib_ok : lib → Prop;
  lib_block_bytes : lib → Z;
  lib_count : lib → metric → Z;
  (** The blocks asked for so far. *)
  lib_seen : lib → gset Z;

  lib_init_ok file cfg l :
    lib_init file cfg = Some l →
    lib_ok l ∧ lib_block_bytes l = block_size_bytes cfg ∧ (∀ c, lib_count l c = 0) ∧ lib_seen l = ∅;
  lib_lookup_ok blocks l out l' :
    lib_ok l → Forall (λ b, 0 ≤ b < UINT64_MAX) blocks → lib_lookup blocks l = (0, out, l') →
    lib_ok l' ∧ lib_block_bytes l' = lib_block_bytes l ∧ lib_seen l' = lib_seen l ∪ list_to_set blocks ∧
    length out = length blocks ∧
    coded HBM_HIT out.*2 + coded DRAM_HIT out.*2 + coded POSIX_READ out.*2 = zlen blocks ∧
    Z.of_nat (size (list_to_set blocks ∖ lib_seen l)) ≤ coded POSIX_READ out.*2 ∧
    lib_count l' hbm_hits = wrap 64 (lib_count l hbm_hits + coded HBM_HIT out.*2) ∧
    lib_count l' dram_hits = wrap 64 (lib_count l dram_hits + coded DRAM_HIT out.*2) ∧
    lib_count l' posix_reads = wrap 64 (lib_count l posix_reads + coded POSIX_READ out.*2) ∧
    lib_count l' gds_reads = wrap 64 (lib_count l gds_reads) ∧
    lib_count l' bytes_read_from_ssd =
      wrap 64 (lib_count l bytes_read_from_ssd + coded POSIX_READ out.*2 * lib_block_bytes l) ∧
    lib_count l' bytes_copied_dram_to_gpu =
      wrap 64 (lib_count l bytes_copied_dram_to_gpu
               + (coded DRAM_HIT out.*2 + coded POSIX_READ out.*2) * lib_block_bytes l);
  lib_metrics_ok l :
    lib_ok l → ∃ text d, lib_metrics l 8192 = Some text ∧ json_loads text = Ok (JObj d) ∧
      ∀ c, dict_get d (metric_name c) = Some (JInt (lib_count l c));
}.

(** ** A block is read the first time it is asked for *)

Lemma modify_inv {S} (f : S → S) s r s' : modify f s = Some (r, s') → s' = f s.
Proof. intros H. by injection H. Qed.

(** The blocks that may be found without a read are among [seen]. *)
Definition known (seen : gset Z) (h : handle) : Prop :=
  (∀ b e, ResidencyTable.entries (residency h) !! b = Some e → e_state e = IN_HBM ∨ e_state e = IN_DRAM → b ∈ seen) ∧
  (∀ b, is_Some (entries (dram_cache h) !! b) → b ∈ seen).

Lemma known_mono s1 s2 h : s1 ⊆ s2 → known s1 h → known s2 h.
Proof. intros Hs [H1 H2]. split; eauto. Qed.

(** The operations of a lookup of the block [b]: they change what is known about
    [b] only. *)
Definition keeps (b : Z) {A} (m : SM handle A) : Prop :=
  ∀ seen h r h', known seen h → m h = Some (r, h') → known ({[b]} ∪ seen) h'.

Lemma keeps_ret b {A} (a : A) : keeps b (mret a).
Proof. intros seen h r h' K [= _ <-]. eapply known_mono; [|exact K]. set_solver. Qed.

Lemma keeps_bind b {A B} (m : SM handle A) (f : A → SM handle B) : keeps b m → (∀ a, keeps b (f a)) → keeps b (m ≫= f).
Proof.
  intros Hm Hf seen h r h' K [(a & h1 & E1 & E2)|(e & E & _)]%sm_bind_inv; [|by eapply Hm].
  assert (known ({[b]} ∪ ({[b]} ∪ seen)) h') as K' by (eapply Hf; [eapply Hm; [exact K|exact E1]|exact E2]).
  eapply known_mono; [|exact K']. set_solver.
Qed.

Lemma keeps_same b {A} (m : SM handle A) :
  (∀ h r h', m h = Some (r, h') → residency h' = residency h ∧ dram_cache h' = dram_cache h) → keeps b m.
Proof.
  intros Hm seen h r h' [K1 K2] E. destruct (Hm h r h' E) as [E1 E2]. split; intros; rewrite ?E1, ?E2 in *; set_solver.
Qed.

Lemma keeps_modify b f : (∀ h, residency (f h) = residency h ∧ dram_cache (f h) = dram_cache h) → keeps b (modify f).
Proof. intros Hf. apply keeps_same. intros h r h' [= _ <-]. apply Hf. Qed.

Lemma keeps_update b f : keeps b (modify (with_residency (λ t, (ResidencyTable.update b f t).2))).
Proof.
  intros seen h r h' [K1 K2] ->%modify_inv. split; [|intros x Hx; apply elem_of_union; right; by apply K2].
  intros x e. cbn [residency with_residency]. rewrite residency_update.
  intros [[<- _]|[_ H]]%lookup_insert_Some Hst; [set_solver|]. apply elem_of_union. right. by eapply K1.
Qed.

Lemma keeps_erase b v : keeps b (modify (with_residency (ResidencyTable.erase v))).
Proof.
  intros seen h r h' [K1 K2] ->%modify_inv. split; [|intros x Hx; apply elem_of_union; right; by apply K2].
  intros x e. cbn. intros [_ H]%lookup_delete_Some Hst. apply elem_of_union. right. by eapply K1.
Qed.

(** What the cache holds after an allocation is [b] or was there. *)
Lemma evict_dom c v c' x : evict c = Some (v, c') → is_Some (entries c' !! x) → is_Some (entries c !! x).
Proof.
  unfold evict. destruct (last (lru c)) as [w|]; [|done]. cbn [mbind option_bind]. intros [= <- <-]. cbn [entries].
  destruct (entries c !! w); [|done]. cbn [entries]. intros [y [_ H]%lookup_delete_Some]. by eexists.
Qed.

Lemma allocate_dom b c slot ev c' x :
  allocate b c = Some (slot, ev, c') → is_Some (entries c' !! x) → x = b ∨ is_Some (entries c !! x).
Proof.
  unfold allocate. destruct (entries c !! b); [intros [= _ _ <-]; by right|].
  set (freed := if decide (free_slots c = []) then _ else _).
  assert (∀ e c1, freed = Some (e, c1) → is_Some (entries c1 !! x) → is_Some (entries c !! x)) as Hf.
  { intros e c1. unfold freed. case_decide; [|by intros [= _ <-]]. destruct (evict c) as [[v c2]|] eqn:E; [|done].
    cbn. intros [= _ <-]. by eapply evict_dom. }
  destruct freed as [[e c1]|]; [|done]. cbn [mbind option_bind]. destruct (last (free_slots c1)); [|done].
  cbn [mbind option_bind]. intros [= _ _ <-]. cbn [entries]. intros [y H].
  apply lookup_insert_Some in H as [[-> _]|[_ H]]; [by left|]. right. by apply (Hf e c1 eq_refl).
Qed.

Section Reads.
Context {PX : Posix} {DV : Device}.
Variables (B fuel : nat).

Lemma keeps_dram_get b : keeps b (dram_get b).
Proof.
  intros seen h r h' [K1 K2]. unfold dram_get, get.
  destruct (entries (dram_cache h) !! b); intros [= _ <-]; (split; [intros x e Hx Hst|intros x Hx]; apply elem_of_union; right; eauto).
Qed.

Lemma keeps_allocate_slot b : keeps b (allocate_slot_for_load b).
Proof.
  intros seen h r h' [K1 K2]. unfold allocate_slot_for_load. destruct (allocate b (dram_cache h)) as [[[slot ev] c']|] eqn:E; [|done].
  cbn [mbind option_bind]. intros [= _ <-]. split; [intros x e Hx Hst; apply elem_of_union; right; eauto|].
  intros x Hx. apply elem_of_union. destruct (allocate_dom b _ slot ev c' x E Hx) as [-> |]; [left|right]; set_solver.
Qed.

Lemma keeps_load b slot : keeps b (load_block fuel b slot).
Proof.
  apply keeps_same. intros h r h'. unfold load_block. cbv zeta. destruct (pread_loop _ _ _ _ _ _) as [[[x y] z]|]; [|done].
  by intros [= _ <-].
Qed.

Lemma keeps_load_missing b : keeps b (load_missing fuel b).
Proof.
  unfold load_missing. apply keeps_bind; [by apply keeps_modify|intros _]. apply keeps_bind; [apply keeps_update|intros _].
  apply keeps_bind; [apply keeps_allocate_slot|intros slot]. apply keeps_bind; [apply keeps_same; by intros h r h' [= _ <-]|intros g].
  apply keeps_bind; [apply keeps_load|intros n]. apply keeps_bind; [by apply keeps_modify|intros _].
  apply keeps_bind; [by apply keeps_modify|intros _]. apply keeps_ret.
Qed.

Lemma keeps_find b entry : keeps b (find_host_slot fuel b entry).
Proof.
  assert (∀ slot : Z, keeps b (_ ← modify (count dram_hits 1); mret (slot, DRAM_HIT))) as Hhit.
  { intros slot. apply keeps_bind; [by apply keeps_modify|intros _; apply keeps_ret]. }
  assert (keeps b
    (cached ← dram_get b;
     '(slot, p) ← match cached with
                  | Some slot => _ ← modify (count dram_hits 1); mret (slot, DRAM_HIT)
                  | None => slot ← load_missing fuel b; mret (slot, POSIX_READ)
                  end;
     _ ← modify (with_residency (λ t, (ResidencyTable.mark_dram b slot t).2)); mret (slot, p))) as Hget.
  { apply keeps_bind; [apply keeps_dram_get|intros cached]. apply keeps_bind.
    - destruct cached; [apply Hhit|]. apply keeps_bind; [apply keeps_load_missing|intros slot; apply keeps_ret].
    - intros [slot p]. apply keeps_bind; [apply keeps_update|intros _; apply keeps_ret]. }
  unfold find_host_slot. destruct (e_state entry), (dram_ptr entry); auto.
Qed.

Lemma keeps_copy b slot : keeps b (copy_to_device b slot).
Proof.
  unfold copy_to_device. apply keeps_bind.
  { apply keeps_same. intros h r h'. unfold hbm_allocate. destruct (allocate b (hbm_cache h)) as [[[s ev] c']|]; [|done].
    cbn [mbind option_bind]. by intros [= _ <-]. }
  intros [device evicted]. apply keeps_bind; [case_match; [by apply keeps_modify|apply keeps_erase]|intros _].
  apply keeps_bind; [apply keeps_same; intros h r h'; unfold memcpy_async; case_match; by intros [= _ <-]|intros _].
  apply keeps_bind; [by apply keeps_modify|intros _]. apply keeps_bind; [apply keeps_update|intros _; apply keeps_ret].
Qed.

Lemma keeps_lookup b : keeps b (lookup_block fuel b).
Proof.
  unfold lookup_block. apply keeps_bind.
  { intros seen h r h' K E. assert (h' = with_residency (λ t, (ResidencyTable.lookup b t).2) h) as -> by (by injection E).
    exact (keeps_update b _ seen h (Ok ()) _ K eq_refl). }
  intros entry. assert (keeps b ('(slot, p) ← find_host_slot fuel b entry; device ← copy_to_device b slot; mret (device, p))) as Hm.
  { apply keeps_bind; [apply keeps_find|intros [slot p]]. apply keeps_bind; [apply keeps_copy|intros device; apply keeps_ret]. }
  destruct (e_state entry); try exact Hm. destruct (device_ptr entry); [|exact Hm].
  apply keeps_bind; [by apply keeps_modify|intros _; apply keeps_ret].
Qed.

(** A block not asked for before is read. *)
Lemma unknown_block_read seen b h r h' :
  known seen h → b ∉ seen → lookup_block fuel b h = Some (Ok r, h') → r.2 = POSIX_READ.
Proof.
  intros [K1 K2] Hb. unfold lookup_block. intros [(entry & h1 & E1 & E)|(e & _ & [=])]%sm_bind_inv.
  assert (entry = (ResidencyTable.lookup b (residency h)).1 ∧ h1 = with_residency (λ t, (ResidencyTable.lookup b t).2) h)
    as [-> ->] by (by injection E1).
  assert (e_state (ResidencyTable.lookup b (residency h)).1 ≠ IN_HBM ∧ e_state (ResidencyTable.lookup b (residency h)).1 ≠ IN_DRAM)
    as [Hs1 Hs2].
  { cbn. destruct (ResidencyTable.entries (residency h) !! b) as [e|] eqn:Eb; [|done]. cbn.
    split; intros Hst; apply Hb; eapply K1; eauto. }
  set (entry := (ResidencyTable.lookup b (residency h)).1) in *. set (h1 := with_residency _ h) in *.
  assert (entries (dram_cache h1) !! b = None) as Hd.
  { unfold h1. cbn. destruct (entries (dram_cache h) !! b) eqn:Eb; [|done]. destruct Hb. apply K2. by rewrite Eb. }
  clearbody entry h1. assert (∀ x, find_host_slot fuel b entry h1 = x →
    x = (slot ← load_missing fuel b; _ ← modify (with_residency (λ t, (ResidencyTable.mark_dram b slot t).2));
         mret (slot, POSIX_READ)) (set_dram (dram_cache h1) (bump (dram_stats h1) 0 1 0) h1)) as Hfind.
  { intros x <-. unfold find_host_slot. destruct (e_state entry); try done;
      unfold mbind, sm_bind, dram_get, get; rewrite Hd; by destruct (load_missing fuel b _) as [[[s|e] h2]|]. }
  assert (∀ x h2, find_host_slot fuel b entry h1 = Some (Ok x, h2) → x.2 = POSIX_READ) as Hpath.
  { intros x h2 Ex. specialize (Hfind _ Ex). symmetry in Hfind. apply sm_bind_inv in Hfind as [(s & h3 & _ & E3)|(e & _ & [=])].
    apply sm_bind_inv in E3 as [(? & h4 & _ & E4)|(e & _ & [=])]. by injection E4 as <- _. }
  assert (('(slot, p) ← find_host_slot fuel b entry; device ← copy_to_device b slot; mret (device, p)) h1 = Some (Ok r, h') →
    r.2 = POSIX_READ) as Hm.
  { intros [([slot p] & h2 & E2 & E3)|(e & _ & [=])]%sm_bind_inv. apply Hpath in E2.
    apply sm_bind_inv in E3 as [(d & h3 & _ & E4)|(e & _ & [=])]. by injection E4 as <- _. }
  destruct (e_state entry); try done; by apply Hm.
Qed.
End Reads.

Section Body.
Context {PX : Posix} {DV : Device}.
Variable fuel : nat.

Lemma loop_reads blocks out0 seen h out h' :
  known seen h →
  sm_fold (λ out block, r ← lookup_block fuel block; mret (out ++ [r])) out0 blocks h = Some (Ok out, h') →
  ∃ new, out = out0 ++ new ∧ known (seen ∪ list_to_set blocks) h' ∧
    Z.of_nat (size (list_to_set blocks ∖ seen)) ≤ served_by POSIX_READ new.
Proof.
  revert out0 seen h; induction blocks as [|b blocks IH]; intros out0 seen h K; cbn [sm_fold].
  - intros [= <- <-]. exists []. split; [by rewrite app_nil_r|]. split; [eapply known_mono; [|exact K]; set_solver|].
    assert ((list_to_set [] : gset Z) ∖ seen = ∅) as -> by set_solver. done.
  - intros [(out1 & h1 & E1 & E2)|(e & _ & [=])]%sm_bind_inv.
    apply sm_bind_inv in E1 as [(r & h2 & E1 & E3)|(e & _ & [=])]. injection E3 as <- <-.
    pose proof (keeps_lookup fuel b seen h (Ok r) h2 K E1) as K2.
    destruct (IH (out0 ++ [r]) ({[b]} ∪ seen) h2 K2 E2) as (new & -> & K' & Hn).
    exists (r :: new). split; [by rewrite <-app_assoc|]. split; [eapply known_mono; [|exact K']; set_solver|].
    rewrite served_by_cons. destruct (decide (b ∈ seen)) as [Hb|Hb].
    + assert ((list_to_set (b :: blocks) : gset Z) ∖ seen = list_to_set blocks ∖ ({[b]} ∪ seen)) as -> by set_solver.
      case_decide; lia.
    + rewrite decide_True by exact (unknown_block_read fuel seen b h r h2 K Hb E1).
      assert ((list_to_set (b :: blocks) : gset Z) ∖ seen ⊆ {[b]} ∪ list_to_set blocks ∖ ({[b]} ∪ seen)) as Hs%subseteq_size
        by (intros x; destruct (decide (x = b)); set_solver).
      set (rest := list_to_set blocks ∖ ({[b]} ∪ seen)) in *. pose proof (size_union_alt ({[b]} : gset Z) rest) as Hu0. rewrite Hu0 in Hs.
      rewrite (size_singleton (C := gset Z)) in Hs.
      assert (rest ∖ {[b]} ⊆ rest) as Hu%subseteq_size by set_solver. lia.
Qed.

Lemma body_reads blocks seen h out h' :
  known seen h → lookup_body fuel blocks h = Some (Ok out, h') →
  known (seen ∪ list_to_set blocks) h' ∧ Z.of_nat (size (list_to_set blocks ∖ seen)) ≤ served_by POSIX_READ out.
Proof.
  intros K E. unfold lookup_body in E.
  apply sm_bind_inv in E as [(? & h1 & E1 & E)|(e & _ & [=])]. unfold cuda_check in E1. injection E1 as _ <-.
  apply sm_bind_inv in E as [(out1 & h2 & E2 & E)|(e & _ & [=])].
  destruct (loop_reads blocks [] seen (tick_cuda h) out1 h2 K E2) as (new & -> & K2 & Hn).
  apply sm_bind_inv in E as [(? & h3 & E3 & E)|(e & _ & [=])].
  assert (residency h3 = residency h2 ∧ dram_cache h3 = dram_cache h2) as [R3 D3].
  { unfold synchronize in E3. apply sm_bind_inv in E3 as [(? & h5 & E5 & E3)|(e & _ & [=])]. apply modify_inv in E5 as ->.
    unfold cuda_check in E3. by injection E3 as _ <-. }
  apply sm_bind_inv in E as [(? & h4 & E4 & E)|(e & _ & [=])]. unfold cuda_check in E4. injection E4 as _ <-.
  apply sm_bind_inv in E as [(? & h6 & E6 & E)|(e & _ & [=])]. apply modify_inv in E6 as ->.
  apply sm_bind_inv in E as [(? & h7 & E7 & E)|(e & _ & [=])]. apply modify_inv in E7 as ->.
  injection E as <- <-. split; [|done]. destruct K2 as [K2 K2']. split.
  - intros b e. cbn. rewrite R3. apply K2.
  - intros b. cbn. rewrite D3. apply K2'.
Qed.
End Body.

(** ** The runtime implements the interface *)

Lemma coded_served base (bytes : Z) p out :
  coded p ((λ r : Z * path, (base + r.1 * bytes, path_code r.2)) <$> out).*2 = served_by p out.
Proof.
  induction out as [|r out IH]; [done|]. rewrite !fmap_cons, served_by_cons. unfold coded in *. rewrite filter_cons. cbn [snd].
  assert (path_code r.2 = path_code p ↔ r.2 = p) as Hc by (destruct (r.2), p; cbn; naive_solver lia).
  destruct (decide (r.2 = p)) as [H|H].
  - rewrite decide_True by (by apply Hc). cbn [length]. lia.
  - rewrite decide_False by (by intros ?%Hc). lia.
Qed.

Section Implementation.
Context {PX : Posix} {DV : Device}.
Variables (B : nat) (progress : os_progress B) (device_base : Z).

Definition runtime_lookup (blocks : list Z) (l : handle * gset Z) : Z * list (Z * Z) * (handle * gset Z) :=
  let '(h, seen) := l in
  match memtier_lookup_blocks (Z.to_nat (block_bytes h * Z.of_nat B)) blocks h with
  | Some (rc, out, h') =>
      (rc, (λ r, (device_base + r.1 * block_bytes h, path_code r.2)) <$> out, (h', seen ∪ list_to_set blocks))
  | None => (-1, [], l)
  end.

Definition runtime_ok (l : handle * gset Z) : Prop := handle_wf l.1 ∧ known l.2 l.1.

Lemma runtime_lookup_ok blocks l out l' :
  runtime_ok l → Forall (λ b, 0 ≤ b < UINT64_MAX) blocks → runtime_lookup blocks l = (0, out, l') →
  runtime_ok l' ∧ block_bytes l'.1 = block_bytes l.1 ∧ l'.2 = l.2 ∪ list_to_set blocks ∧ length out = length blocks ∧
  ∃ out0, (∀ p, coded p out.*2 = served_by p out0) ∧ length out0 = length blocks ∧
    Forall (in_slots (capacity (hbm_cache l.1))) out0 ∧
    Z.of_nat (size (list_to_set blocks ∖ l.2)) ≤ served_by POSIX_READ out0 ∧
    ∀ c, c ≠ eviction_count → metrics l'.1 c = wrap 64 (metrics l.1 c + tally (block_bytes l.1) out0 c).
Proof.
  destruct l as [h seen]. intros [W K] Hb. cbn [fst snd] in *. unfold runtime_lookup, memtier_lookup_blocks.
  set (fuel := Z.to_nat _).
  assert (block_bytes h * Z.of_nat B ≤ Z.of_nat fuel) as Hf.
  { pose proof (hw_block_bytes h W). unfold fuel. rewrite Z2Nat.id; [done|]. apply Z.mul_nonneg_nonneg; lia. }
  assert (Forall (λ b, b ≠ UINT64_MAX) blocks) as Hb' by (eapply Forall_impl; [exact Hb|]; intros b Hlt; cbv beta in Hlt; lia).
  destruct (spec_lookup_body (block_bytes h) (capacity (hbm_cache h)) (metrics h) B fuel progress (hw_block_bytes h W) Hf
    blocks Hb' h) as ([out0|e] & h' & E & Hq).
  { split; [done|]. intros c Hc. unfold tally. cbn. rewrite Z.add_0_r. symmetry. apply wrap_small, (hw_metrics h W). }
  - rewrite E. destruct Hq as (Hl & Hs & [[W' [Hbb _]] Hm]). destruct (body_reads fuel blocks seen h out0 h' K E) as [K' Hn].
    intros [= <- <-]. cbn [fst snd]. split; [by split|]. split; [done|]. split; [done|]. split; [by rewrite length_fmap|].
    exists out0. split; [intros p; apply coded_served|]. done.
  - rewrite E. by intros [=].
Qed.
End Implementation.

(** The runtime behind the interface, on an operating system that makes
    progress; [device_base] is where the HBM slots begin. *)
#[program] Definition runtime_lib {PX : Posix} {DV : Device} (B : nat) (progress : os_progress B) (device_base : Z)
    : EmbeddingLib := {|
  lib := handle * gset Z;
  lib_init file cfg := (λ h, (h, ∅)) <$> memtier_init_embedding file cfg;
  lib_lookup := runtime_lookup B device_base;
  lib_metrics l n := memtier_get_metrics l.1 n;
  lib_ok := runtime_ok;
  lib_block_bytes l := block_bytes l.1;
  lib_count l := metrics l.1;
  lib_seen l := l.2;
|}.
Next Obligation.
  intros PX DV B progress base file cfg l H. cbv beta. apply fmap_Some in H as (h & E & ->). cbn [fst snd]. pose proof (memtier_init_wf file cfg h E) as W. revert E.
  unfold memtier_init_embedding. intros E. repeat case_match; simplify_eq; try done. split_and!; try done.
  split; [exact W|]. split; cbn; [intros b e H'|intros b [? H']]; by rewrite lookup_empty in H'.
Qed.
Next Obligation.
  intros PX DV B progress base blocks l out l' Hok Hb E. cbv beta in *.
  destruct (runtime_lookup_ok B progress base blocks l out l' Hok Hb E) as (Hok' & Hbb & Hs & Hl & out0 & Hc & Hl0 & Hin & Hn & Hm).
  split; [done|]. split; [done|]. split; [done|]. split; [done|]. rewrite !Hc.
  split; [by rewrite (served_by_all _ _ Hin), Hl0|]. split; [done|]. split_and!; rewrite Hm, tally_served by done; f_equal; lia.
Qed.
Next Obligation. intros PX DV B progress base l [W _]. by apply metrics_readable. Qed.
