(* ===== verification/EmbeddingBag.v ===== *)
(** The embedding-bag kernels
    (memtier_embedding_bench/cuda/embedding_bag_kernel.cu).

    One thread computes one element of the output: the sum, or the mean, of one
    column over the rows of a bag, which it finds in blocks of device memory
    through a table of block numbers.  Device memory is what RuntimeData makes
    of it, a slot of bytes per pointer.  A thread reads nothing another one
    writes and writes once, as its last action, so that a launch is the
    sequence of its threads in the order of their writes, which is any order.
    [None] is undefined behaviour: an access out of bounds or a division by
    zero.  The arithmetic of the device is an interface.

    [launch_computes_bags] shows that each element of the output is written
    once, with the bag's value, whatever the order; [lookup_feeds_kernel] that
    on the pointers of a lookup this is the bag of the rows of the table. *)

From S2P Require Import Prelude PyFloat PyText NumPy Posix LruSim SlotCache Runtime RuntimeData.

(** Binary32 and binary16 on the device. *)
Class GpuFloat := {
  f32 : Type;
  f32_zero : f32;
  f32_add : f32 → f32 → f32;
  f32_div : f32 → f32 → f32;
  f32_of_int : Z → f32;
  f32_of_bits : Z → f32;        (* the float of these 32 bits *)
  half2float : Z → f32;         (* [__half2float] of these 16 bits *)
}.

Record kernel_args := {
  ids : list Z;
  batch_size : Z;
  bag_size : Z;
  block_ptrs : list Z;
  block_ids : list Z;
  num_blocks : Z;
  a_rows_per_block : Z;
  a_embedding_dim : Z;
  mean_mode : Z;
}.

(** A thread of a grid of blocks of [kThreads] threads. *)
Record thread := { blockIdx_x : Z; blockIdx_y : Z; threadIdx_x : Z }.

Definition kThreads : Z := 128.

(** [static_cast<int>] of an unsigned integer. *)
Definition to_int (z : Z) : Z := let w := wrap 32 z in if w <? 2 ^ 31 then w else w - 2 ^ 32.

Fixpoint find_block_from (block_id : Z) (block_ids : list Z) (i : Z) (turns : nat) : option Z :=
  match turns with
  | O => Some (-1)
  | S turns =>
      b ← block_ids !! Z.to_nat i;
      if b =? block_id then Some i else find_block_from block_id block_ids (i + 1) turns
  end.
Definition find_block (block_id : Z) (block_ids : list Z) (num_blocks : Z) : option Z :=
  find_block_from block_id block_ids 0 (Z.to_nat num_blocks).

(** The unsigned integer of bytes in memory order. *)
Definition little_endian (l : list Z) : Z := foldr (λ b acc, b + 256 * acc) 0 l.

(** Element [i] of an array of elements of [size] bytes. *)
Definition load_bits (size : Z) (block : list Z) (i : Z) : option Z :=
  let bits := py_slice block (i * size) (i * size + size) in
  if zlen bits =? size then Some (little_endian bits) else None.

Section Kernels.
Context {GF : GpuFloat}.

Definition load_f32 (block : list Z) (i : Z) : option f32 := f32_of_bits <$> load_bits 4 block i.
Definition load_f16 (block : list Z) (i : Z) : option f32 := half2float <$> load_bits 2 block i.

Section Thread.
Variables (load : list Z → Z → option f32) (a : kernel_args) (mem : gmap Z (list Z)).

(** One turn of the loop over the bag. *)
Definition accumulate (bag dim : Z) (acc : f32) (j : Z) : option f32 :=
  id ← ids a !! Z.to_nat (wrap 64 (wrap 64 bag * wrap 64 (bag_size a) + j));
  let rows := wrap 64 (a_rows_per_block a) in
  if rows =? 0 then None else
  let bid := id `div` rows in
  let row := to_int (id `mod` rows) in
  block_index ← find_block bid (block_ids a) (num_blocks a);
  if 0 <=? block_index then
    p ← block_ptrs a !! Z.to_nat block_index;
    block ← mem !! p;
    x ← load block (wrap 64 (wrap 64 row * wrap 64 (a_embedding_dim a) + dim));
    Some (f32_add acc x)
  else Some acc.

Fixpoint bag_loop (bag dim : Z) (acc : f32) (j : Z) (turns : nat) : option f32 :=
  match turns with
  | O => Some acc
  | S turns => acc ← accumulate bag dim acc j; bag_loop bag dim acc (j + 1) turns
  end.

(** What a thread writes, if anything: the element and its value. *)
Definition kernel_thread (t : thread) : option (option (Z * f32)) :=
  let bag := to_int (blockIdx_x t) in
  let dim := to_int (threadIdx_x t + blockIdx_y t * kThreads) in
  if (batch_size a <=? bag) || (a_embedding_dim a <=? dim) then Some None else
  acc ← bag_loop bag dim f32_zero 0 (Z.to_nat (bag_size a));
  let acc :=
    if negb (mean_mode a =? 0) && (0 <? bag_size a) then f32_div acc (f32_of_int (bag_size a)) else acc in
  Some (Some (wrap 64 (wrap 64 bag * wrap 64 (a_embedding_dim a) + dim), acc)).
End Thread.

Definition embedding_bag_fp32_kernel : kernel_args → gmap Z (list Z) → thread → option (option (Z * f32)) :=
  kernel_thread load_f32.
Definition embedding_bag_fp16_kernel : kernel_args → gmap Z (list Z) → thread → option (option (Z * f32)) :=
  kernel_thread load_f16.

(** ** A launch *)

(** The threads of a grid of [gx] times [gy] blocks. *)
Definition grid_threads (gx gy : Z) : list thread :=
  x ← seqZ 0 gx; y ← seqZ 0 gy; t ← seqZ 0 kThreads;
  [{| blockIdx_x := x; blockIdx_y := y; threadIdx_x := t |}].

(** The threads, in the order in which they write. *)
Fixpoint run_threads (kernel : thread → option (option (Z * f32))) (order : list thread) (output : list f32) :
    option (list f32) :=
  match order with
  | [] => Some output
  | t :: order =>
      w ← kernel t;
      match w with
      | None => run_threads kernel order output
      | Some (i, x) =>
          if i <? zlen output then run_threads kernel order (<[Z.to_nat i := x]> output) else None
      end
  end.

(** A kernel on the stream, with its grid. *)
Record launched := { l_kernel : gmap Z (list Z) → thread → option (option (Z * f32)); l_grid : Z * Z }.

(** [launch_ok gx gy]: CUDA accepts this grid.  The null pointer is [None]. *)
Definition launch_embedding_bag (launch_ok : Z → Z → bool) (device_ids : option (list Z)) (batch_size bag_size : Z)
    (device_block_ptrs device_block_ids : option (list Z)) (num_blocks rows_per_block embedding_dim dtype_size mean_mode : Z)
    (device_output : option Z) : option (Z * option launched) :=
  match device_ids, device_block_ptrs, device_block_ids, device_output with
  | Some ids, Some block_ptrs, Some block_ids, Some _ =>
      let a := {| ids := ids; batch_size := batch_size; bag_size := bag_size; block_ptrs := block_ptrs;
                  block_ids := block_ids; num_blocks := num_blocks; a_rows_per_block := rows_per_block;
                  a_embedding_dim := embedding_dim; mean_mode := mean_mode |} in
      if 2 ^ 31 <=? embedding_dim + kThreads - 1 then None else    (* signed overflow *)
      let grid := (wrap 32 batch_size, wrap 32 ((embedding_dim + kThreads - 1) `quot` kThreads)) in
      if launch_ok grid.1 grid.2 then
        Some (0, Some {| l_kernel := if dtype_size =? 2 then embedding_bag_fp16_kernel a else embedding_bag_fp32_kernel a;
                         l_grid := grid |})
      else Some (-1, None)
  | _, _, _, _ => Some (-1, None)
  end.

(** [memtier_embedding_bench/cuda/embedding_lookup.cu]. *)
Definition launch_embedding_lookup_noop (ids : option (list Z)) (num_ids : Z) : Z := 0.
End Kernels.

(** ** The reference: sums and means of rows of a table *)

(** [table id]: the row of an id, [None] for one whose block is not resident. *)
Section Reference.
Context {GF : GpuFloat}.
Variables (table : Z → option (Z → f32)).

Definition add_row (d : Z) (acc : f32) (id : Z) : f32 :=
  match table id with Some row => f32_add acc (row d) | None => acc end.

Definition bag_value (mean : bool) (bag : list Z) (d : Z) : f32 :=
  let sum := foldl (add_row d) f32_zero bag in
  if mean && (0 <? zlen bag) then f32_div sum (f32_of_int (zlen bag)) else sum.

(** All the bags, row after row. *)
Definition embedding_bags (mean : bool) (ids : list Z) (batch_size bag_size embedding_dim : Z) : list f32 :=
  (λ k, let bag := k `div` embedding_dim in
        bag_value mean (py_slice ids (bag * bag_size) (bag * bag_size + bag_size)) (k `mod` embedding_dim))
  <$> seqZ 0 (batch_size * embedding_dim).
End Reference.

(** ** The kernel computes it *)

(** Arguments within the widths of the kernel's integers, and arrays as long as it takes them. *)
Record args_wf (a : kernel_args) : Prop := {
  batch_range : 0 < batch_size a < 2 ^ 31;
  bag_range : 0 ≤ bag_size a < 2 ^ 31;
  rows_range : 0 < a_rows_per_block a < 2 ^ 31;
  dim_range : 0 < a_embedding_dim a ≤ 2 ^ 31 - kThreads;
  ids_length : batch_size a * bag_size a ≤ zlen (ids a);
  ids_width : Forall (in_width 64) (ids a);
  blocks_range : 0 ≤ num_blocks a ≤ zlen (block_ids a);
}.

Lemma to_int_small z : 0 ≤ z < 2 ^ 31 → to_int z = z.
Proof. intros Hz. unfold to_int. rewrite wrap_small by (split; lia). by destruct (Z.ltb_spec z (2 ^ 31)); [|lia]. Qed.

Lemma find_block_from_spec b l i turns :
  0 ≤ i → i + Z.of_nat turns ≤ zlen l →
  find_block_from b l i turns =
    Some (from_option (λ r : nat * Z, i + Z.of_nat r.1) (-1) (list_find (b =.) (take turns (drop (Z.to_nat i) l)))).
Proof.
  revert i; induction turns as [|turns IH]; intros i Hi Hle; [done|]. cbn [find_block_from].
  destruct (lookup_lt_is_Some_2 l (Z.to_nat i)) as [x Hx]; [lia|]. rewrite Hx. cbn [mbind option_bind].
  rewrite (drop_S l x (Z.to_nat i) Hx). cbn [take list_find]. destruct (Z.eqb_spec x b) as [->|Hne].
  - rewrite decide_True by done. cbn. f_equal. lia.
  - rewrite decide_False by congruence. rewrite IH by lia. rewrite Z2Nat.inj_add, Nat.add_1_r by lia.
    destruct (list_find _ _) as [[k y]|]; cbn; [f_equal; lia|done].
Qed.

Lemma find_block_spec b l n :
  0 ≤ n ≤ zlen l →
  find_block b l n = Some (from_option (λ r : nat * Z, Z.of_nat r.1) (-1) (list_find (b =.) (take (Z.to_nat n) l))).
Proof.
  intros Hn. unfold find_block. rewrite find_block_from_spec by lia. cbn [Z.to_nat drop].
  by destruct (list_find _ _) as [[k y]|].
Qed.

(** The block of device memory the kernel finds for a block number. *)
Definition block_at (a : kernel_args) (mem : gmap Z (list Z)) (b : Z) : option (list Z) :=
  r ← list_find (b =.) (take (Z.to_nat (num_blocks a)) (block_ids a));
  p ← block_ptrs a !! r.1;
  mem !! p.

(** [table] has the rows of the blocks listed, and no others. *)
Definition resident {GF : GpuFloat} (load : list Z → Z → option f32) (a : kernel_args) (mem : gmap Z (list Z))
    (table : Z → option (Z → f32)) : Prop :=
  ∀ id, id ∈ ids a →
  match table id with
  | Some row =>
      ∃ block, block_at a mem (id `div` a_rows_per_block a) = Some block ∧
        ∀ d, 0 ≤ d < a_embedding_dim a →
          load block (id `mod` a_rows_per_block a * a_embedding_dim a + d) = Some (row d)
  | None => id `div` a_rows_per_block a ∉ take (Z.to_nat (num_blocks a)) (block_ids a)
  end.

Section Correct.
Context {GF : GpuFloat}.
Variables (load : list Z → Z → option f32) (a : kernel_args) (mem : gmap Z (list Z)) (table : Z → option (Z → f32)).
Hypothesis wf : args_wf a.
Hypothesis rows_resident : resident load a mem table.

Lemma accumulate_spec bag d acc j id :
  0 ≤ bag < batch_size a → 0 ≤ d < a_embedding_dim a → 0 ≤ j < bag_size a →
  ids a !! Z.to_nat (bag * bag_size a + j) = Some id →
  accumulate load a mem bag d acc j = Some (add_row table d acc id).
Proof.
  destruct wf as [Hba Hbs Hr Hd Hl Hw Hn]. intros Hbag Hdim Hj Hid. unfold accumulate, kThreads in *.
  assert (bag * bag_size a + j < 2 ^ 31 * 2 ^ 31) as Hidx by nia.
  rewrite (wrap_small 64 bag), (wrap_small 64 (bag_size a)), (wrap_small 64 (_ + j)), Hid by (split; nia).
  cbn [mbind option_bind]. rewrite (wrap_small 64 (a_rows_per_block a)) by (split; lia).
  destruct (Z.eqb_spec (a_rows_per_block a) 0); [lia|].
  pose proof (Z.mod_pos_bound id (a_rows_per_block a) ltac:(lia)) as Hm.
  rewrite find_block_spec by done. cbn [mbind option_bind].
  pose proof (rows_resident id (list_elem_of_lookup_2 _ _ _ Hid)) as HR. unfold add_row.
  destruct (table id) as [row|].
  - destruct HR as (block & Hblock & Hload). unfold block_at in Hblock.
    destruct (list_find _ _) as [[i b]|]; [|done]. cbn [from_option fst mbind option_bind] in *.
    rewrite (proj2 (Z.leb_le 0 (Z.of_nat i))), Nat2Z.id by lia.
    destruct (block_ptrs a !! i) as [p|]; [|done]. cbn [mbind option_bind] in *. rewrite Hblock. cbn [mbind option_bind].
    specialize (Hload d Hdim). revert Hload. generalize dependent (id `mod` a_rows_per_block a). intros i' Hi' Hload.
    assert (0 ≤ i' * a_embedding_dim a + d < 2 ^ 62) as Helt by nia. rewrite to_int_small by lia.
    rewrite (wrap_small 64 i'), (wrap_small 64 (a_embedding_dim a)), (wrap_small 64 (_ + d)) by (split; lia).
    by rewrite Hload.
  - destruct (list_find _ _) as [[i b]|] eqn:E; [|done].
    apply list_find_Some in E as (Hx & <- & _). destruct HR. by eapply list_elem_of_lookup_2.
Qed.

Lemma bag_loop_spec bag d acc j turns :
  0 ≤ bag < batch_size a → 0 ≤ d < a_embedding_dim a → 0 ≤ j → j + Z.of_nat turns ≤ bag_size a →
  bag_loop load a mem bag d acc j turns =
    Some (foldl (add_row table d) acc (take turns (drop (Z.to_nat (bag * bag_size a + j)) (ids a)))).
Proof.
  intros Hbag Hd. revert acc j; induction turns as [|turns IH]; intros acc j Hj Hle; [done|].
  destruct (lookup_lt_is_Some_2 (ids a) (Z.to_nat (bag * bag_size a + j))) as [id Hid].
  { pose proof (ids_length a wf). nia. }
  cbn [bag_loop]. erewrite accumulate_spec by (done || lia). cbn [mbind option_bind].
  rewrite IH, (drop_S _ _ _ Hid) by lia. cbn [take foldl].
  assert (0 ≤ bag * bag_size a) by nia. by replace (Z.to_nat (_ + (j + 1))) with (S (Z.to_nat (bag * bag_size a + j))) by lia.
Qed.

(** What the kernel computes for an element of the output. *)
Definition element (k : Z) : f32 :=
  let bag := k `div` a_embedding_dim a in
  bag_value table (negb (mean_mode a =? 0)) (py_slice (ids a) (bag * bag_size a) (bag * bag_size a + bag_size a))
    (k `mod` a_embedding_dim a).

(** The element a thread of the grid is for. *)
Definition target (t : thread) : option Z :=
  let dim := threadIdx_x t + blockIdx_y t * kThreads in
  if (blockIdx_x t <? batch_size a) && (dim <? a_embedding_dim a) then Some (blockIdx_x t * a_embedding_dim a + dim)
  else None.

Definition in_grid (t : thread) : Prop :=
  0 ≤ blockIdx_x t < batch_size a ∧ 0 ≤ blockIdx_y t < cdiv (a_embedding_dim a) kThreads ∧ 0 ≤ threadIdx_x t < kThreads.

Lemma thread_computes t :
  in_grid t → kernel_thread load a mem t = Some ((λ k, (k, element k)) <$> target t).
Proof.
  destruct wf as [Hba Hbs Hr Hd Hl Hw Hn]. intros (Hx & Hy & Ht).
  pose proof (cdiv_spec (a_embedding_dim a) kThreads ltac:(done)) as Hc. unfold kThreads in *.
  unfold kernel_thread, target. set (dim := threadIdx_x t + blockIdx_y t * kThreads).
  assert (0 ≤ dim < 2 ^ 31) as Hdim by (unfold dim, kThreads; lia). rewrite !to_int_small by lia.
  destruct (Z.ltb_spec (blockIdx_x t) (batch_size a)); [|lia].
  destruct (Z.leb_spec (batch_size a) (blockIdx_x t)); [lia|]. cbn [orb andb].
  destruct (Z.leb_spec (a_embedding_dim a) dim), (Z.ltb_spec dim (a_embedding_dim a)); try lia; [done|].
  rewrite bag_loop_spec by lia. cbn [mbind option_bind fmap option_fmap option_map].
  rewrite (wrap_small 64 (blockIdx_x t)), (wrap_small 64 (a_embedding_dim a)), (wrap_small 64 (_ + dim)) by (split; nia).
  do 3 f_equal. unfold element, bag_value.
  rewrite <-(Z.div_unique_pos (_ + dim) (a_embedding_dim a) (blockIdx_x t) dim),
    <-(Z.mod_unique_pos (_ + dim) (a_embedding_dim a) (blockIdx_x t) dim) by lia.
  rewrite Z.add_0_r, length_py_slice, py_slice_nonneg by nia.
  replace (Z.max 0 (_ - _)) with (bag_size a) by nia.
  replace (Z.to_nat (_ + bag_size a - _)) with (Z.to_nat (bag_size a)) by lia. done.
Qed.

Lemma target_grid t : t ∈ grid_threads (batch_size a) (cdiv (a_embedding_dim a) kThreads) ↔ in_grid t.
Proof.
  unfold grid_threads, in_grid. setoid_rewrite list_elem_of_bind. setoid_rewrite list_elem_of_bind.
  setoid_rewrite list_elem_of_bind. setoid_rewrite elem_of_seqZ. setoid_rewrite list_elem_of_singleton.
  split.
  - intros (x & (y & (z & -> & Hz) & Hy) & Hx). cbn. lia.
  - intros (Hx & Hy & Hz). destruct t as [x y z]. cbn in *.
    exists x. split; [|lia]. exists y. split; [|lia]. exists z. split; [done|lia].
Qed.

Lemma target_inj t1 t2 k : in_grid t1 → in_grid t2 → target t1 = Some k → target t2 = Some k → t1 = t2.
Proof.
  destruct t1 as [x1 y1 z1], t2 as [x2 y2 z2]. unfold in_grid, target, kThreads. cbn. intros H1 H2.
  destruct (Z.ltb_spec x1 (batch_size a)); [|lia]. destruct (Z.ltb_spec x2 (batch_size a)); [|lia]. cbn [andb].
  destruct (Z.ltb_spec (z1 + y1 * 128) (a_embedding_dim a)); [|done].
  destruct (Z.ltb_spec (z2 + y2 * 128) (a_embedding_dim a)); [|done]. intros [= <-] [= E].
  assert (x1 = x2) as -> by nia. f_equal; lia.
Qed.

(** Every element of the output is the target of one thread. *)
Lemma targets_cover :
  omap target (grid_threads (batch_size a) (cdiv (a_embedding_dim a) kThreads)) ≡ₚ
  seqZ 0 (batch_size a * a_embedding_dim a).
Proof.
  destruct wf as [Hba _ _ Hd _ _ _]. pose proof (cdiv_spec (a_embedding_dim a) kThreads ltac:(done)) as Hc.
  apply NoDup_Permutation.
  - apply NoDup_omap; [|intros t1 t2 k ?%target_grid ?%target_grid; by apply target_inj].
    apply NoDup_bind; [|intros x _; apply NoDup_bind; [|intros y _; apply NoDup_bind|]|]; try apply NoDup_seqZ.
    + intros x1 x2 t _ _ (y1 & (z1 & Ht1 & _)%list_elem_of_bind & _)%list_elem_of_bind
        (y2 & (z2 & Ht2 & _)%list_elem_of_bind & _)%list_elem_of_bind.
      apply list_elem_of_singleton in Ht1, Ht2. congruence.
    + intros y1 y2 t _ _ (z1 & Ht1 & _)%list_elem_of_bind (z2 & Ht2 & _)%list_elem_of_bind.
      apply list_elem_of_singleton in Ht1, Ht2. congruence.
    + intros z1 z2 t _ _ Ht1%list_elem_of_singleton Ht2%list_elem_of_singleton. congruence.
    + intros z _. apply NoDup_singleton.
  - apply NoDup_seqZ.
  - intros k. rewrite list_elem_of_omap, elem_of_seqZ. unfold kThreads in *. split.
    + intros (t & Ht%target_grid & E). unfold in_grid, target, kThreads in *.
      destruct (Z.ltb_spec (blockIdx_x t) (batch_size a)); [|lia]. cbn [andb] in E. case_match eqn:Ed; [|done].
      apply Z.ltb_lt in Ed. injection E as <-. nia.
    + intros Hk. pose proof (Z.mod_pos_bound k (a_embedding_dim a) ltac:(lia)) as Hm.
      pose proof (Z.div_mod k (a_embedding_dim a) ltac:(lia)) as Hdm.
      set (q := k `div` a_embedding_dim a) in *. set (r := k `mod` a_embedding_dim a) in *.
      pose proof (Z.div_mod r 128 ltac:(lia)). pose proof (Z.mod_pos_bound r 128 ltac:(lia)).
      exists {| blockIdx_x := q; blockIdx_y := r `div` 128; threadIdx_x := r `mod` 128 |}.
      split; [apply target_grid; unfold in_grid, kThreads; cbn; split_and!; nia|]. unfold target, kThreads. cbn.
      destruct (Z.ltb_spec q (batch_size a)); [|nia]. destruct (Z.ltb_spec (r `mod` 128 + r `div` 128 * 128) (a_embedding_dim a)); [|lia].
      cbn. f_equal. lia.
Qed.
End Correct.

Section Runs.
Context {GF : GpuFloat}.

(** The elements a run writes, in order. *)
Definition elements_written (kernel : thread → option (option (Z * f32))) (order : list thread) : list Z :=
  omap (λ t, w ← kernel t; fst <$> w) order.

Lemma run_threads_lookup (kernel : thread → option (option (Z * f32))) tgt (v : Z → f32) order out :
  (∀ t, t ∈ order → kernel t = Some ((λ k, (k, v k)) <$> tgt t) ∧ ∀ k, tgt t = Some k → 0 ≤ k < zlen out) →
  ∃ out', run_threads kernel order out = Some out' ∧ length out' = length out ∧
    ∀ i, (i < length out)%nat →
      out' !! i = if decide (Z.of_nat i ∈ omap tgt order) then Some (v (Z.of_nat i)) else out !! i.
Proof.
  revert out; induction order as [|t order IH]; intros out H; [by exists out|]. cbn [run_threads omap list_omap].
  destruct (H t) as [-> Hk]; [by left|]. cbn [mbind option_bind].
  assert (∀ out1 : list f32, length out1 = length out → ∀ t, t ∈ order →
    kernel t = Some ((λ k, (k, v k)) <$> tgt t) ∧ ∀ k, tgt t = Some k → 0 ≤ k < zlen out1) as H'.
  { intros out1 Hl t' Ht'. rewrite Hl. apply H. by right. }
  destruct (tgt t) as [k|] eqn:E; cbn [fmap option_fmap option_map]; [|by apply IH, H'].
  specialize (Hk k eq_refl). rewrite (proj2 (Z.ltb_lt k (zlen out))) by lia.
  destruct (IH (<[Z.to_nat k:=v k]> out)) as (out' & Er & Hl & Ho); [apply H'; apply length_insert|].
  rewrite length_insert in Hl, Ho. exists out'. split_and!; [done..|]. intros i Hi. rewrite Ho by done.
  destruct (decide (Z.of_nat i ∈ omap tgt order)) as [Hin|Hin].
  { rewrite decide_True by (by right). done. }
  destruct (decide (Z.of_nat i = k)) as [<-|Hne].
  - rewrite decide_True by left. rewrite Nat2Z.id. by apply list_lookup_insert_eq.
  - rewrite decide_False by (intros [?|?]%elem_of_cons; done). apply list_lookup_insert_ne. lia.
Qed.

(** The threads of a launch in any order. *)
Lemma run_grid load a mem table order out :
  args_wf a → resident load a mem table → batch_size a * a_embedding_dim a ≤ zlen out →
  order ≡ₚ grid_threads (batch_size a) (cdiv (a_embedding_dim a) kThreads) →
  elements_written (kernel_thread load a mem) order ≡ₚ seqZ 0 (batch_size a * a_embedding_dim a) ∧
  run_threads (kernel_thread load a mem) order out =
    Some (embedding_bags table (negb (mean_mode a =? 0)) (ids a) (batch_size a) (bag_size a) (a_embedding_dim a)
          ++ drop (Z.to_nat (batch_size a * a_embedding_dim a)) out).
Proof.
  intros W R Hout Ho. pose proof (targets_cover a W) as Hcover. rewrite <-Ho in Hcover.
  assert (∀ t, t ∈ order → kernel_thread load a mem t = Some ((λ k, (k, element a table k)) <$> target a t)) as Hk.
  { intros t Ht. rewrite Ho in Ht. apply (thread_computes load a mem table W R). by apply target_grid. }
  assert (∀ t k, t ∈ order → target a t = Some k → 0 ≤ k < batch_size a * a_embedding_dim a) as Hrange.
  { intros t k Ht E. assert (k ∈ omap (target a) order) as Hin by (apply list_elem_of_omap; eauto).
    rewrite Hcover in Hin. apply elem_of_seqZ in Hin. lia. }
  split.
  { rewrite <-Hcover. apply Permutation_refl', list_omap_ext, Forall2_same_length_lookup_2; [done|].
    intros i t t' Hi Hi'. assert (t' = t) as -> by congruence. rewrite Hk by (by eapply list_elem_of_lookup_2).
    cbn. by destruct (target a t). }
  destruct (run_threads_lookup (kernel_thread load a mem) (target a) (element a table) order out) as (out' & -> & Hl & Hv).
  { intros t Ht. split; [by apply Hk|]. intros k E. pose proof (Hrange t k Ht E). lia. }
  f_equal. apply list_eq. intros i. set (n := batch_size a * a_embedding_dim a) in *.
  assert (0 ≤ n) as Hn by (unfold n; destruct W; nia).
  assert (length (embedding_bags table (negb (mean_mode a =? 0)) (ids a) (batch_size a) (bag_size a) (a_embedding_dim a))
    = Z.to_nat n) as Hb by (unfold embedding_bags; by rewrite length_fmap, length_seqZ).
  destruct (decide (i < length out)%nat) as [Hi|Hi].
  2:{ rewrite !lookup_ge_None_2; [done| |lia]. rewrite length_app, length_drop. lia. }
  rewrite Hv by done. destruct (decide (Z.of_nat i < n)) as [Hlt|Hge].
  - rewrite decide_True by (rewrite Hcover; apply elem_of_seqZ; lia). rewrite lookup_app_l by lia.
    unfold embedding_bags. rewrite list_lookup_fmap, (proj2 (lookup_seqZ _ _ _ (Z.of_nat i))) by lia. done.
  - rewrite decide_False by (rewrite Hcover, elem_of_seqZ; lia). rewrite lookup_app_r by lia. rewrite lookup_drop. f_equal. lia.
Qed.
End Runs.

(** ** The properties *)

Section Properties.
Context {GF : GpuFloat}.

(** The type of the elements: two bytes are binary16, everything else binary32. *)
Definition load_element (dtype_size : Z) : list Z → Z → option f32 := if dtype_size =? 2 then load_f16 else load_f32.

Lemma launch_spec launch_ok a dtype_size output :
  args_wf a →
  launch_embedding_bag launch_ok (Some (ids a)) (batch_size a) (bag_size a) (Some (block_ptrs a)) (Some (block_ids a))
    (num_blocks a) (a_rows_per_block a) (a_embedding_dim a) dtype_size (mean_mode a) (Some output) =
  Some (if launch_ok (batch_size a) (cdiv (a_embedding_dim a) kThreads) then
          (0, Some {| l_kernel := kernel_thread (load_element dtype_size) a;
                      l_grid := (batch_size a, cdiv (a_embedding_dim a) kThreads) |})
        else (-1, None)).
Proof.
  intros [Hb _ _ Hd _ _ _]. unfold launch_embedding_bag, cdiv, load_element, kThreads in *.
  destruct (Z.leb_spec (2 ^ 31) (a_embedding_dim a + 128 - 1)); [lia|].
  rewrite Z.quot_div_nonneg, !wrap_small; [|split..|lia|lia]; try lia.
  2: apply Z.div_pos; lia.
  2: apply Z.div_lt_upper_bound; lia.
  cbn [fst snd]. destruct (launch_ok _ _); [|done]. by destruct (dtype_size =? 2), a.
Qed.

(** C38: a launch computes every bag. With arguments within the widths of the
    kernel's integers and arrays as long as the kernel takes them, the launcher
    returns -1 when CUDA refuses the grid and else 0, with the kernel on the
    stream. Whatever the order in which its threads write, they write each
    element of the output once, and the output then holds, row after row, the
    sums or means of the rows of the table whose blocks are listed, and what it
    held after them. *)
Theorem launch_computes_bags launch_ok a dtype_size mem table address output :
  args_wf a → resident (load_element dtype_size) a mem table →
  batch_size a * a_embedding_dim a ≤ zlen output →
  ∃ rc queued,
    launch_embedding_bag launch_ok (Some (ids a)) (batch_size a) (bag_size a) (Some (block_ptrs a)) (Some (block_ids a))
      (num_blocks a) (a_rows_per_block a) (a_embedding_dim a) dtype_size (mean_mode a) (Some address) =
    Some (rc, queued) ∧
    if launch_ok (batch_size a) (cdiv (a_embedding_dim a) kThreads) then
      rc = 0 ∧ ∃ l, queued = Some l ∧ l_grid l = (batch_size a, cdiv (a_embedding_dim a) kThreads) ∧
      ∀ order, order ≡ₚ grid_threads (batch_size a) (cdiv (a_embedding_dim a) kThreads) →
        elements_written (l_kernel l mem) order ≡ₚ seqZ 0 (batch_size a * a_embedding_dim a) ∧
        run_threads (l_kernel l mem) order output =
          Some (embedding_bags table (negb (mean_mode a =? 0)) (ids a) (batch_size a) (bag_size a) (a_embedding_dim a)
                ++ drop (Z.to_nat (batch_size a * a_embedding_dim a)) output)
    else rc = -1 ∧ queued = None.
Proof.
  intros W R Hout. rewrite launch_spec by done. destruct (launch_ok _ _); [|by eexists _, _].
  eexists _, _. split; [done|]. split; [done|]. eexists. split_and!; [done|done|]. intros order Ho. by apply run_grid.
Qed.

(** A null pointer is refused before anything is launched. *)
Lemma launch_null launch_ok ids batch_size bag_size ptrs block_ids n rows dim dtype_size mean output :
  ids = None ∨ ptrs = None ∨ block_ids = None ∨ output = None →
  launch_embedding_bag launch_ok ids batch_size bag_size ptrs block_ids n rows dim dtype_size mean output = Some (-1, None).
Proof. intros [->|[->|[-> | ->]]]; unfold launch_embedding_bag; by repeat case_match. Qed.

(** An element of a block is the element of the file. *)
Lemma load_bits_slice size file off len i :
  0 < size → 0 ≤ i → 0 ≤ off → i * size + size ≤ len →
  load_bits size (py_slice file (off * size) (off * size + len)) i = load_bits size file (off + i).
Proof.
  intros Hs Hi Ho Hle. unfold load_bits. rewrite py_slice_slice by nia.
  by replace (off * size + i * size) with ((off + i) * size) by lia;
    replace (off * size + (i * size + size)) with ((off + i) * size + size) by lia.
Qed.

Lemma load_element_slice dtype_size file off len i :
  dtype_size = 2 ∨ dtype_size = 4 → 0 ≤ i → 0 ≤ off → i * dtype_size + dtype_size ≤ len →
  load_element dtype_size (py_slice file (off * dtype_size) (off * dtype_size + len)) i =
  load_element dtype_size file (off + i).
Proof.
  intros [-> | ->] Hi Ho Hle; unfold load_element; cbn; unfold load_f16, load_f32; by rewrite load_bits_slice.
Qed.

Lemma load_element_in_file dtype_size file i :
  dtype_size = 2 ∨ dtype_size = 4 → 0 ≤ i → i * dtype_size + dtype_size ≤ zlen file →
  is_Some (load_element dtype_size file i).
Proof.
  intros Hd Hi Hle. assert (load_bits dtype_size file i = Some (little_endian (py_slice file (i * dtype_size) (i * dtype_size + dtype_size)))) as Hb.
  { unfold load_bits. rewrite length_py_slice by (destruct Hd; lia). rewrite (proj2 (Z.eqb_eq _ _)); [done|]. destruct Hd; lia. }
  unfold load_element, load_f16, load_f32. destruct Hd as [-> | ->]; cbn [Z.eqb Pos.eqb]; rewrite Hb; by eexists.
Qed.

(** The rows of an embedding file. *)
Definition table_row (file : list Z) (embedding_dim dtype_size : Z) (id : Z) : option (Z → f32) :=
  Some (λ d, default f32_zero (load_element dtype_size file (id * embedding_dim + d))).
End Properties.

(** ** A lookup, then the kernel *)

(** The kernel's arguments on the pointers of a lookup of [blocks]. *)
Definition lookup_args (cfg : embedding_config) (ids blocks : list Z) (out : list (Z * path)) (batch_size bag_size mean : Z) :
    kernel_args :=
  {| ids := ids; batch_size := batch_size; bag_size := bag_size; block_ptrs := out.*1; block_ids := blocks;
     num_blocks := zlen blocks; a_rows_per_block := rows_per_block cfg; a_embedding_dim := embedding_dim cfg;
     mean_mode := mean |}.

(** A configuration whose rows and blocks the kernel's integers hold. *)
Record geometry_ok (cfg : embedding_config) : Prop := {
  geo_rows : 0 < rows_per_block cfg < 2 ^ 31;
  geo_dim : 0 < embedding_dim cfg ≤ 2 ^ 31 - kThreads;
  geo_dtype : dtype_size cfg = 2 ∨ dtype_size cfg = 4;
  geo_bytes : rows_per_block cfg * embedding_dim cfg * dtype_size cfg < 2 ^ 64;
}.

Lemma geometry_bytes cfg :
  geometry_ok cfg → block_size_bytes cfg = rows_per_block cfg * embedding_dim cfg * dtype_size cfg.
Proof.
  intros [Hr Hd Ht Hb]. unfold kThreads in *. unfold block_size_bytes.
  rewrite (wrap_small 64 (_ * embedding_dim cfg)) by (split; nia). apply wrap_small. split; [destruct Ht; nia|done].
Qed.

(** The pointers of the blocks give the kernel the rows of the file. *)
Lemma resident_blocks `{GF : GpuFloat} cfg file mem ids blocks out batch_size bag_size mean :
  geometry_ok cfg →
  Forall2 (λ b r, mem !! r.1 = Some (block_data file (block_size_bytes cfg) b)) blocks out →
  Forall (λ b, 0 ≤ b ∧ b * block_size_bytes cfg + block_size_bytes cfg ≤ zlen file) blocks →
  Forall (λ id, id `div` rows_per_block cfg ∈ blocks) ids →
  resident (load_element (dtype_size cfg)) (lookup_args cfg ids blocks out batch_size bag_size mean) mem
    (table_row file (embedding_dim cfg) (dtype_size cfg)).
Proof.
  intros G Hptr Hin Hids id Hid. unfold table_row, lookup_args, block_at.
  cbn [a_rows_per_block a_embedding_dim num_blocks block_ids block_ptrs] in *. change (id ∈ ids) in Hid.
  rewrite Forall_forall in Hids, Hin. pose proof (Hids id Hid) as Hb. destruct (Hin _ Hb) as [Hb0 Hle].
  rewrite Nat2Z.id, take_ge by lia. rewrite geometry_bytes in * by done. destruct G as [Hr Hd Ht Hbytes].
  destruct (list_find_elem_of (id `div` rows_per_block cfg =.) blocks (id `div` rows_per_block cfg) Hb eq_refl) as [[i b] Ef].
  rewrite Ef. cbn [mbind option_bind fst]. apply list_find_Some in Ef as (Hi & <- & _).
  destruct (Forall2_lookup_l _ _ _ _ _ Hptr Hi) as ([p pt] & Ho & Hmem). rewrite list_lookup_fmap, Ho.
  cbn [mbind option_bind fmap option_fmap option_map fst] in *. rewrite Hmem. eexists. split; [done|]. intros d Hdim.
  pose proof (Z.mod_pos_bound id (rows_per_block cfg) ltac:(lia)) as Hm.
  pose proof (Z.div_mod id (rows_per_block cfg) ltac:(lia)) as Hdm.
  set (q := id `div` rows_per_block cfg) in *. set (r := id `mod` rows_per_block cfg) in *.
  set (n := rows_per_block cfg) in *. set (m := embedding_dim cfg) in *. set (s := dtype_size cfg) in *.
  assert (0 < s) as Hs by lia. assert (r * m + d + 1 ≤ n * m) as Hrow by nia.
  assert (0 ≤ q * (n * m) ∧ 0 ≤ r * m) as [Hq Hrm] by nia. unfold block_data.
  replace (q * (n * m * s)) with (q * (n * m) * s) by lia. rewrite load_element_slice by (done || nia).
  replace (q * (n * m) + (r * m + d)) with (id * m + d) by nia.
  destruct (load_element_in_file s file (id * m + d) Ht) as [x ->]; [nia|nia|done].
Qed.

(** C6: a lookup feeds the kernel. When the blocks of the ids of a batch are
    looked up on a good handle with room for them in both caches, the lookup
    succeeds, and a launch on its pointers that CUDA accepts computes, whatever
    the order of its threads, the sums or means of the rows that the embedding
    file has for these ids. *)
Theorem lookup_feeds_kernel `{PX : Posix} `{DV : Device} `{GF : GpuFloat} launch_ok B fuel ids blocks batch bag mean
    address output h :
  handle_good h → os_reliable B → (∀ n, cuda_ok n = true) → block_bytes h * Z.of_nat B ≤ Z.of_nat fuel →
  zlen (h_file h) < 2 ^ 63 → Forall (block_in_file h) blocks →
  Z.of_nat (size (list_to_set blocks : gset Z)) ≤ capacity (dram_cache h) →
  Z.of_nat (size (list_to_set blocks ∖ dom (entries (hbm_cache h)))) ≤ zlen (free_slots (hbm_cache h)) →
  geometry_ok (h_config h) →
  0 < batch < 2 ^ 31 → 0 ≤ bag < 2 ^ 31 → zlen ids = batch * bag → Forall (in_width 64) ids →
  Forall (λ id, id `div` rows_per_block (h_config h) ∈ blocks) ids →
  batch * embedding_dim (h_config h) ≤ zlen output →
  launch_ok batch (cdiv (embedding_dim (h_config h)) kThreads) = true →
  ∃ out h' l, memtier_lookup_blocks fuel blocks h = Some (0, out, h') ∧
    launch_embedding_bag launch_ok (Some ids) batch bag (Some out.*1) (Some blocks) (zlen blocks)
      (rows_per_block (h_config h)) (embedding_dim (h_config h)) (dtype_size (h_config h)) mean (Some address) =
    Some (0, Some l) ∧
    l_grid l = (batch, cdiv (embedding_dim (h_config h)) kThreads) ∧
    ∀ order, order ≡ₚ grid_threads batch (cdiv (embedding_dim (h_config h)) kThreads) →
      run_threads (l_kernel l (hbm_mem h')) order output =
      Some (embedding_bags (table_row (h_file h) (embedding_dim (h_config h)) (dtype_size (h_config h)))
              (negb (mean =? 0)) ids batch bag (embedding_dim (h_config h))
            ++ drop (Z.to_nat (batch * embedding_dim (h_config h))) output).
Proof.
  intros Hg HB HC Hf Hsize Hin Hfit Hroom G Hbatch Hbag Hlen Hids Hblocks Hout Hok.
  destruct (lookup_good B fuel blocks h Hg HB HC Hf Hsize Hin Hfit) as (out & h' & E & _ & Hl & Hdata & HP).
  specialize (HP Hroom). set (a := lookup_args (h_config h) ids blocks out batch bag mean).
  assert (args_wf a) as W by (destruct G; split; cbn; done || lia).
  destruct Hg as (_ & Hbytes & _).
  assert (resident (load_element (dtype_size (h_config h))) a (hbm_mem h')
    (table_row (h_file h) (embedding_dim (h_config h)) (dtype_size (h_config h)))) as R.
  { apply resident_blocks; [done| | |done]; rewrite Hbytes; [|exact Hin].
    eapply Forall2_impl; [exact HP|]. intros b r. apply Hdata. }
  pose proof (launch_spec launch_ok a (dtype_size (h_config h)) address W) as HL.
  change (launch_ok (batch_size a) (cdiv (a_embedding_dim a) kThreads) = true) in Hok. rewrite Hok in HL.
  eexists out, h', _. split_and!; [exact E|exact HL|done|]. intros order Ho. by apply (run_grid _ a (hbm_mem h') _ order output W R).
Qed.

(** ** The properties at concrete data *)

Section Witnesses.
#[local] Existing Instance reference_posix.
#[local] Existing Instance example_device.

(** Sums of the bit patterns. *)
#[local] Instance integer_floats : GpuFloat := {|
  f32 := Z; f32_zero := 0; f32_add := Z.add; f32_div := Z.div; f32_of_int z := z; f32_of_bits z := z; half2float z := z |}.

(** Two blocks of two rows of three binary16 elements; the second id's block is not listed. *)
Definition small_args : kernel_args :=
  {| ids := [1; 4; 2; 3]; batch_size := 2; bag_size := 2; block_ptrs := [7; 5]; block_ids := [1; 0]; num_blocks := 2;
     a_rows_per_block := 2; a_embedding_dim := 3; mean_mode := 0 |}.
Definition small_mem : gmap Z (list Z) :=
  {[5 := [1; 0; 2; 0; 3; 0; 4; 0; 5; 0; 6; 0]; 7 := [7; 0; 8; 0; 9; 0; 0; 1; 1; 1; 2; 1]]}.
Definition small_table (id : Z) : option (Z → Z) :=
  if id =? 4 then None else Some (λ d, if id =? 1 then 4 + d else if id =? 2 then 7 + d else 256 + d).

(** The id whose block is missing adds nothing, and the mean still counts it. *)
Lemma missing_block_is_skipped :
  run_threads (embedding_bag_fp16_kernel small_args small_mem) (grid_threads 2 1) [0; 0; 0; 0; 0; 0; 99] =
    Some [4; 5; 6; 263; 265; 267; 99] ∧
  embedding_bags small_table true (ids small_args) 2 2 3 = [2; 2; 3; 131; 132; 133].
Proof. vm_compute. done. Qed.

Lemma small_args_wf : args_wf small_args.
Proof. split; cbn; [lia|lia|lia|unfold kThreads; lia|lia| |lia]. repeat constructor; lia. Qed.

Lemma small_resident : resident load_f16 small_args small_mem small_table.
Proof.
  intros id Hid. change (ids small_args) with [1; 4; 2; 3] in Hid. rewrite !elem_of_cons in Hid.
  assert (∀ d, 0 ≤ d < 3 → d = 0 ∨ d = 1 ∨ d = 2) as Hd by lia.
  destruct Hid as [->|[->|[->|[->|[]%not_elem_of_nil]]]]; cbn [small_table Z.eqb Pos.eqb].
  - eexists. split; [vm_compute; reflexivity|]. by intros d [->|[->| ->]]%Hd.
  - by apply (bool_decide_eq_true_1 (_ ∉ _)).
  - eexists. split; [vm_compute; reflexivity|]. by intros d [->|[->| ->]]%Hd.
  - eexists. split; [vm_compute; reflexivity|]. by intros d [->|[->| ->]]%Hd.
Qed.

Lemma launch_computes_bags_witness :
  ∃ l, run_threads (l_kernel l small_mem) (grid_threads 2 1) [0; 0; 0; 0; 0; 0; 99] = Some [4; 5; 6; 263; 265; 267; 99].
Proof.
  destruct (@launch_computes_bags integer_floats (λ _ _, true) small_args 2 small_mem small_table 0 [0; 0; 0; 0; 0; 0; 99])
    as (rc & queued & _ & _ & l & _ & _ & H).
  - apply small_args_wf.
  - apply small_resident.
  - vm_compute. done.
  - exists l. destruct (H (grid_threads 2 1)) as [_ Hr]; [reflexivity|]. rewrite Hr. reflexivity.
Defined.

Lemma lookup_feeds_kernel_witness :
  ∃ out h' l, memtier_lookup_blocks 16 [1; 3] example_handle = Some (0, out, h') ∧
    run_threads (l_kernel l (hbm_mem h')) (grid_threads 2 1) [0; 0; 0; 0] = Some [514; 514; 514; 514].
Proof.
  destruct (@lookup_feeds_kernel reference_posix example_device integer_floats (λ _ _, true) 2 16 [2; 6; 7; 3] [1; 3] 2 2 0 0
    [0; 0; 0; 0] example_handle (memtier_init_good _ _ _ example_opens) reference_reliable (λ n, eq_refl true))
    as (out & h' & l & E & _ & _ & H).
  - vm_compute. discriminate.
  - vm_compute. reflexivity.
  - repeat constructor; vm_compute; discriminate.
  - vm_compute. discriminate.
  - vm_compute. discriminate.
  - split; [vm_compute; split; done..|by left|reflexivity].
  - done.
  - done.
  - reflexivity.
  - repeat constructor; done.
  - repeat constructor; apply (bool_decide_eq_true_1 (_ ∈ [1; 3])); reflexivity.
  - vm_compute. discriminate.
  - reflexivity.
  - exists out, h', l. split; [exact E|].
    specialize (H (grid_threads 2 1)). rewrite H; reflexivity.
Defined.
End Witnesses.
