(* ===== verification/RuntimeLife.v ===== *)
(** The life of a runtime handle (memtier_embedding_bench/src/memtier_api.cpp,
    dram_cache.cpp, posix_loader.cpp: constructors, destructors,
    [memtier_destroy]), and the parts of [DramCache] that the runtime does not
    call ([put], [capacity_blocks]).

    A ledger counts what is held: handles, bytes of pinned host memory, file
    descriptors, bytes of device memory and CUDA streams.  [init_agrees] shows
    that the initialisation with the ledger is that of file Runtime,
    [destroy_gives_back] that a handle destroyed gives everything back, and
    [failed_init_leaks] and [failed_lookup_leaks] what is lost when a
    constructor or a CUDA call throws. *)

From S2P Require Import Prelude PyFloat PyText NumPy Posix LruSim SlotCache Runtime RuntimeData.

Record resources := { r_handles : Z; r_host : Z; r_fds : Z; r_device : Z; r_streams : Z }.

Definition nothing_held : resources := {| r_handles := 0; r_host := 0; r_fds := 0; r_device := 0; r_streams := 0 |}.

Abbreviation RM := (SM resources).

(** What is taken, or given back when negative. *)
Definition take_up (handles host fds device streams : Z) (r : resources) : resources :=
  {| r_handles := r_handles r + handles; r_host := r_host r + host; r_fds := r_fds r + fds;
     r_device := r_device r + device; r_streams := r_streams r + streams |}.

(** The bytes of a cache's memory. *)
Definition cache_memory (c : slot_cache) (block_bytes : Z) : Z := wrap 64 (capacity c * block_bytes).

Section Life.
  Context {PX : Posix} {DV : Device}.

  (** [DramCache::DramCache] *)
Definition make_dram_cache (cache_bytes block_bytes : Z) : RM slot_cache :=
    _ ← guarded (negb (block_bytes =? 0)) ValueError;
    let c := new_cache cache_bytes block_bytes in
    _ ← guarded (can_allocate (cache_memory c block_bytes)) RuntimeError;
    _ ← modify (take_up 0 (cache_memory c block_bytes) 0 0 0);
    mret c.

  (** [PosixLoader::PosixLoader] *)
Definition make_loader (file : str) : RM (list Z) :=
    contents ← lift (posix_open file);
    _ ← modify (take_up 0 0 1 0 0);
    mret contents.

  (** [HbmCache::HbmCache] *)
Definition make_hbm_cache (cache_bytes block_bytes : Z) : RM slot_cache :=
    let c := new_cache cache_bytes block_bytes in
    _ ← guarded (can_allocate (cache_memory c block_bytes)) RuntimeError;
    _ ← modify (take_up 0 0 0 (cache_memory c block_bytes) 0);
    mret c.

  (** The body of [memtier_init_embedding] after its checks: the raw pointer
      [handle] owns what is made. *)
Definition make_handle (file : str) (cfg : embedding_config) : RM handle :=
    _ ← modify (take_up 1 0 0 0 0);
    let bytes := block_size_bytes cfg in
    dram ← make_dram_cache (dram_cache_bytes cfg) bytes;
    contents ← make_loader file;
    hbm ← make_hbm_cache (hbm_cache_bytes cfg) bytes;
    mret {| h_file := contents; h_config := cfg; block_bytes := bytes;
            residency := ResidencyTable.empty; dram_cache := dram; dram_stats := (0, 0, 0); dram_mem := ∅;
            hbm_cache := hbm; hbm_mem := ∅; pending := []; metrics := λ _, 0; total_lookup_time_ms := f_zero;
            preads := 0; host_writes := 0; cuda_calls := 0; lookups := 0 |}.

  (** With the handler [catch (...) { return nullptr; }]. *)
Definition init_held (file : str) (cfg : embedding_config) (r : resources) : option (option handle * resources) :=
    if (embedding_dim cfg =? 0) || (rows_per_block cfg =? 0) || (dtype_size cfg =? 0) then Some (None, r) else
    match make_handle file cfg r with
    | Some (Ok h, r) => Some (Some h, r)
    | Some (Err _, r) => Some (None, r)
    | None => None
    end.

  (** [memtier_destroy]: [delete handle] with the destructors of its members. *)
Definition memtier_destroy (handle : option handle) (r : resources) : resources :=
    match handle with
    | None => r
    | Some h =>
        take_up (-1) (- cache_memory (dram_cache h) (block_bytes h)) (-1) (- cache_memory (hbm_cache h) (block_bytes h)) 0 r
    end.

  (** A lookup: its stream is destroyed on the way that returns 0. *)
Definition lookup_held (fuel : nat) (blocks : list Z) (h : handle) (r : resources) :
      option (Z * list (Z * path) * handle * resources) :=
    '(rc, out, h') ← memtier_lookup_blocks fuel blocks h;
    let created := cuda_ok (cuda_calls h) in
    let r := if created then take_up 0 0 0 0 1 r else r in
    Some (rc, out, h', if rc =? 0 then take_up 0 0 0 0 (-1) r else r).

  (** [DramCache::put] *)
Definition put (block : Z) (data : list Z) : HM Z :=
    bytes ← gets block_bytes;
    _ ← guarded (negb (bytes <? zlen data)) ValueError;
    dst ← allocate_slot_for_load block;
    _ ← modify (λ h, let h := drain (drained (host_writes h)) h in
                     write_dram dst (data ++ drop (length data) (default [] (dram_mem h !! dst))) (preads h) h);
    mret dst.

  (** [DramCache::capacity_blocks] *)
Definition capacity_blocks : HM Z := gets (λ h, capacity (dram_cache h)).
End Life.

(** ** Theorems *)

Section Theorems.
Context {PX : Posix} {DV : Device}.

(** The initialisation with the ledger is the initialisation of file Runtime. *)
Lemma init_agrees file cfg r : ∃ r', init_held file cfg r = Some (memtier_init_embedding file cfg, r').
Proof.
  unfold init_held, memtier_init_embedding, make_handle, make_dram_cache, make_loader, make_hbm_cache, guarded, lift, modify,
    mbind, sm_bind, mret, sm_ret, throw, cache_memory.
  case_match; [by eexists|]. destruct (block_size_bytes cfg =? 0); cbn [negb]; [by eexists|].
  destruct (can_allocate _); cbn [negb]; [|by eexists]. destruct (posix_open file); [|by eexists].
  destruct (can_allocate _); cbn [negb]; by eexists.
Qed.

(** A handle made holds its memory and its descriptor. *)
Lemma init_holds file cfg r h r' :
  init_held file cfg r = Some (Some h, r') →
  r' = take_up 1 (cache_memory (dram_cache h) (block_bytes h)) 1 (cache_memory (hbm_cache h) (block_bytes h)) 0 r.
Proof.
  unfold init_held, make_handle, make_dram_cache, make_loader, make_hbm_cache, guarded, lift, modify,
    mbind, sm_bind, mret, sm_ret, throw.
  intros H. repeat (case_match; simplify_eq); [done..|]. unfold take_up. cbn -[cache_memory]. f_equal; lia.
Qed.

(** [put] caches the block, with the data at the start of its slot; data larger
    than a block change nothing. *)
Lemma put_caches block data h :
  cache_wf (dram_cache h) →
  if zlen data <=? block_bytes h then
    ∃ slot rest h', put block data h = Some (Ok slot, h') ∧ cache_wf (dram_cache h') ∧
      entries (dram_cache h') !! block = Some slot ∧ dram_mem h' !! slot = Some (data ++ rest)
  else put block data h = Some (Err ValueError, h).
Proof.
  intros W. unfold put, gets, guarded, mbind, sm_bind. cbv beta iota.
  destruct (Z.leb_spec (zlen data) (block_bytes h)) as [Hle|Hlt].
  2:{ by rewrite (proj2 (Z.ltb_lt _ _)). }
  rewrite (proj2 (Z.ltb_ge _ _)) by done. cbn [negb mret sm_ret]. unfold mret, sm_ret, allocate_slot_for_load.
  destruct (allocate_Ok block (dram_cache h) W) as (slot & ev & c' & -> & A & W').
  destruct (allocated_entries block _ slot ev c' W A) as (Es & _). cbn [mbind option_bind]. unfold modify.
  eexists slot, _, _. split; [reflexivity|]. split_and!; [done|done|]. cbn. apply lookup_insert_eq.
Qed.

(** *** The sizes of a handle do not change *)

Definition sizes (h : handle) : Z * Z * Z := (capacity (dram_cache h), capacity (hbm_cache h), block_bytes h).

Definition fixed {A} (m : HM A) : Prop := ∀ h r h', m h = Some (r, h') → sizes h' = sizes h.

Lemma fixed_ret {A} (a : A) : fixed (mret a).
Proof. by intros h r h' [= _ <-]. Qed.
Lemma fixed_gets {A} (f : handle → A) : fixed (gets f).
Proof. by intros h r h' [= _ <-]. Qed.
Lemma fixed_modify f : (∀ h, sizes (f h) = sizes h) → fixed (modify f).
Proof. intros Hf h r h' [= _ <-]. apply Hf. Qed.
Lemma fixed_bind {A B} (m : HM A) (f : A → HM B) : fixed m → (∀ a, fixed (f a)) → fixed (m ≫= f).
Proof.
  intros Hm Hf h r h' [(a & h1 & E1 & E2)|(e & E & _)]%sm_bind_inv; [|by eapply Hm].
  rewrite (Hf _ _ _ _ E2). by eapply Hm.
Qed.
Lemma fixed_fold {T A} (f : T → A → HM T) t l : (∀ t a, fixed (f t a)) → fixed (sm_fold f t l).
Proof. intros Hf. revert t. induction l as [|a l IH]; intros t; cbn [sm_fold]; [apply fixed_ret|by apply fixed_bind]. Qed.

Lemma allocate_capacity b c slot ev c' : allocate b c = Some (slot, ev, c') → capacity c' = capacity c.
Proof.
  unfold allocate. destruct (entries c !! b); [by intros [= _ _ <-]|]. case_decide.
  - unfold evict. destruct (last (lru c)) as [v|]; [|done]. cbn. destruct (entries c !! v); cbn;
      (destruct (last _); [|done]); by intros [= _ _ <-].
  - cbn. destruct (last (free_slots c)); [|done]. by intros [= _ _ <-].
Qed.

Lemma fixed_allocate_slot b : fixed (allocate_slot_for_load b).
Proof.
  intros h r h'. unfold allocate_slot_for_load. destruct (allocate b (dram_cache h)) as [[[slot ev] c']|] eqn:E; [|done].
  cbn. intros [= _ <-]. unfold sizes. cbn. by rewrite (allocate_capacity _ _ _ _ _ E).
Qed.

Lemma fixed_hbm_allocate b : fixed (hbm_allocate b).
Proof.
  intros h r h'. unfold hbm_allocate. destruct (allocate b (hbm_cache h)) as [[[slot ev] c']|] eqn:E; [|done].
  cbn. intros [= _ <-]. unfold sizes. cbn. by rewrite (allocate_capacity _ _ _ _ _ E).
Qed.

Lemma fixed_dram_get b : fixed (dram_get b).
Proof. intros h r h'. unfold dram_get, get. destruct (entries (dram_cache h) !! b); by intros [= _ <-]. Qed.

Lemma fixed_load fuel b slot : fixed (load_block fuel b slot).
Proof. intros h r h'. unfold load_block. destruct (pread_loop _ _ _ _ _ _) as [[[content x] calls]|]; [|done]. by intros [= _ <-]. Qed.

Lemma fixed_memcpy dst src : fixed (memcpy_async dst src).
Proof. intros h r h'. unfold memcpy_async. destruct (cuda_ok _); by intros [= _ <-]. Qed.

Lemma fixed_cuda_check : fixed cuda_check.
Proof. by intros h r h' [= _ <-]. Qed.

Lemma fixed_residency b : fixed (residency_lookup b).
Proof. by intros h r h' [= _ <-]. Qed.

#[local] Ltac fix_step :=
  first [apply fixed_ret | apply fixed_gets | apply fixed_allocate_slot | apply fixed_hbm_allocate | apply fixed_dram_get
    | apply fixed_load | apply fixed_memcpy | apply fixed_cuda_check | apply fixed_residency
    | apply fixed_modify; intros ?; done | apply fixed_bind; [|intros ?] | case_match].

Lemma fixed_lookup_block fuel b : fixed (lookup_block fuel b).
Proof.
  unfold lookup_block, find_host_slot, load_missing, copy_to_device, gds_load_block_or_posix.
  repeat fix_step; try done. all: apply fixed_modify; intros h; by case_match.
Qed.

Lemma fixed_lookup fuel blocks h rc out h' :
  memtier_lookup_blocks fuel blocks h = Some (rc, out, h') → sizes h' = sizes h.
Proof.
  intros E. assert (fixed (lookup_body fuel blocks)) as F.
  { unfold lookup_body, lookup_loop, synchronize. repeat fix_step. apply fixed_fold. intros t b.
    apply fixed_bind; [apply fixed_lookup_block|intros r; apply fixed_ret]. }
  unfold memtier_lookup_blocks in E. destruct (lookup_body fuel blocks h) as [[[x|e] h1]|] eqn:E1; [..|done]; injection E as _ _ <-; by eapply F.
Qed.

(** ** A whole life *)

(** The lookups of a client on a handle, with the codes returned. *)
Fixpoint lookups_held (fuel : nat) (calls : list (list Z)) (h : handle) (r : resources) : option (list Z * handle * resources) :=
  match calls with
  | [] => Some ([], h, r)
  | blocks :: calls =>
      '(rc, _, h, r) ← lookup_held fuel blocks h r;
      '(rcs, h, r) ← lookups_held fuel calls h r;
      Some (rc :: rcs, h, r)
  end.

Definition failures (rcs : list Z) : Z := zlen (filter (λ rc, rc ≠ 0) rcs).

(** A lookup that returns 0 leaves no stream, one that fails at most one. *)
Lemma lookup_held_streams fuel blocks h r rc out h' r' :
  lookup_held fuel blocks h r = Some (rc, out, h', r') →
  sizes h' = sizes h ∧ r' = take_up 0 0 0 0 (if rc =? 0 then 0 else if cuda_ok (cuda_calls h) then 1 else 0) r.
Proof.
  unfold lookup_held. destruct (memtier_lookup_blocks fuel blocks h) as [[[rc1 out1] h1]|] eqn:E; [|done].
  cbn [mbind option_bind]. intros [= <- <- <- <-]. split; [by eapply fixed_lookup|].
  assert (rc1 = 0 → cuda_ok (cuda_calls h) = true) as Hc.
  { intros ->. revert E. unfold memtier_lookup_blocks, lookup_body, cuda_check, mbind, sm_bind.
    destruct (cuda_ok (cuda_calls h)); [done|]. cbv beta iota. by intros [=]. }
  destruct (Z.eqb_spec rc1 0) as [Hz|Hz]; [rewrite (Hc Hz)|destruct (cuda_ok _)]; unfold take_up; destruct r; cbn; f_equal; lia.
Qed.

Lemma lookups_held_streams fuel calls h r rcs h' r' :
  lookups_held fuel calls h r = Some (rcs, h', r') →
  sizes h' = sizes h ∧ ∃ lost, 0 ≤ lost ≤ failures rcs ∧ r' = take_up 0 0 0 0 lost r.
Proof.
  revert h r rcs. induction calls as [|blocks calls IH]; intros h r rcs; cbn [lookups_held].
  { intros [= <- <- <-]. split; [done|]. exists 0. split; [done|]. unfold take_up. destruct r; cbn. f_equal; lia. }
  destruct (lookup_held fuel blocks h r) as [[[[rc out] h1] r1]|] eqn:E1; [|done]. cbn [mbind option_bind].
  destruct (lookups_held fuel calls h1 r1) as [[[rcs1 h2] r2]|] eqn:E2; [|done]. cbn [mbind option_bind]. intros [= <- <- <-].
  apply lookup_held_streams in E1 as [S1 ->]. apply IH in E2 as [S2 (lost & Hl & ->)]. split; [congruence|].
  unfold failures in *. rewrite filter_cons. exists ((if rc =? 0 then 0 else if cuda_ok (cuda_calls h) then 1 else 0) + lost).
  split; [|unfold take_up; cbn; f_equal; lia].
  destruct (Z.eqb_spec rc 0) as [Hz|Hz]; [rewrite decide_False by tauto; lia|rewrite decide_True by done; cbn [length]].
  destruct (cuda_ok _); lia.
Qed.

(** A handle that is made, used and destroyed gives everything back but a
    stream for some of the lookups that failed. *)
Lemma destroy_gives_back file cfg fuel calls r h r1 rcs h' r2 :
  init_held file cfg r = Some (Some h, r1) → lookups_held fuel calls h r1 = Some (rcs, h', r2) →
  ∃ lost, 0 ≤ lost ≤ failures rcs ∧ memtier_destroy (Some h') r2 = take_up 0 0 0 0 lost r.
Proof.
  intros ->%init_holds [Hs (lost & Hl & ->)]%lookups_held_streams. injection Hs as E1 E2 E3. exists lost. split; [done|].
  unfold memtier_destroy, cache_memory. rewrite E1, E2, E3. unfold take_up. cbn -[wrap]. destruct r; cbn -[wrap]. f_equal; lia.
Qed.
End Theorems.

(** ** What is lost *)

Section Losses.
#[local] Existing Instance reference_posix.

(** CUDA without device memory for the HBM cache. *)
#[program] Definition host_only : Device :=
  {| can_allocate n := n <? 20; cuda_ok _ := true; drained _ := 0%nat; lookup_ms _ := f_zero |}.
Next Obligation.
  intros n. exists false, 0, emin. induction n as [|n IH]; [done|]. by rewrite seq_S, fmap_app, foldl_app, IH.
Qed.

(** The handler returns the null pointer without deleting the handle: when a
    constructor throws, the handle and what it owns are lost, here its host
    memory when the file does not open, and the descriptor too when the device
    has no memory. *)
Lemma failed_init_leaks :
  let _ := host_only in
  option_map snd (init_held (u "missing") (small_config 2 2) nothing_held) =
    Some {| r_handles := 1; r_host := 16; r_fds := 0; r_device := 0; r_streams := 0 |} ∧
  option_map snd (init_held (u "emb.bin") (small_config 2 4) nothing_held) =
    Some {| r_handles := 1; r_host := 16; r_fds := 1; r_device := 0; r_streams := 0 |}.
Proof. split; vm_compute; reflexivity. Qed.

(** A CUDA that creates one stream and refuses the copies on it. *)
#[program] Definition copies_fail : Device :=
  {| can_allocate _ := true; cuda_ok n := (n =? 0)%nat; drained _ := 0%nat; lookup_ms _ := f_zero |}.
Next Obligation.
  intros n. exists false, 0, emin. induction n as [|n IH]; [done|]. by rewrite seq_S, fmap_app, foldl_app, IH.
Qed.

(** The stream of a lookup that throws is never destroyed. *)
Lemma failed_lookup_leaks :
  let _ := copies_fail in
  (p ← init_held (u "emb.bin") (small_config 2 2) nothing_held;
   h ← p.1; q ← lookups_held 16 [[0; 1]] h p.2;
   Some (q.1.1, memtier_destroy (Some q.1.2) q.2)) =
  Some ([-1], {| r_handles := 0; r_host := 0; r_fds := 0; r_device := 0; r_streams := 1 |}).
Proof. vm_compute. reflexivity. Qed.
End Losses.
