(* ===== verification/Uvm.v ===== *)
(** The managed-memory extension (memtier_pytorch/csrc/memtier_uvm.cu).

    The extension reads a slice of a file into a CUDA managed allocation and
    wraps it as a tensor; it counts allocations, bytes and prefetches in global
    counters of type [size_t].  The CUDA runtime and the operating system are
    interfaces: an allocation is an address, a [pread] may return fewer bytes
    than asked for or be interrupted. *)

From S2P Require Import Prelude PyFloat PyText NumPy Posix.

(** ** Interfaces *)

(** The CUDA runtime. The answers of its calls may change from one call to the
    next: [n] is the number of calls made before. *)
Class Cuda := {
  (** The devices visible; [cudaGetDeviceCount] succeeds, and so does selecting
      a device. *)
  device_count : Z;
  device_query : nat → bool;
  (** [cudaMallocManaged], given the allocations the runtime holds. *)
  malloc_managed : nat → gmap Z Z → Z → result Z;
  malloc_managed_fresh n live bytes p : malloc_managed n live bytes = Ok p → p ≠ 0 ∧ live !! p = None;
  malloc_managed_error n live bytes e : malloc_managed n live bytes = Err e → e = RuntimeError;
  (** [cudaFree] succeeds. *)
  cuda_free : nat → Z → bool;
  (** [cudaMemAdvise] succeeds; [cudaMemPrefetchAsync] and the synchronisation
      that follows do. *)
  mem_advise : nat → Z → Z → bool;
  mem_prefetch : nat → Z → Z → bool;
  (** The device is found, and the touch kernel runs without error. *)
  touch_kernel : nat → Z → bool;
  (** The microseconds the n-th measured interval took. *)
  interval_us : nat → Z;
}.

(** ** The global state *)

(** The fields of [struct Stats]. *)
Inductive counter_name : Type :=
| allocated_bytes
| file_read_bytes
| num_allocations
| num_prefetch_gpu
| num_prefetch_cpu
| total_file_read_us
| total_prefetch_us
| total_gpu_touch_us.

#[export] Instance counter_name_eq_dec : EqDecision counter_name.
Proof. solve_decision. Defined.

(** The extension's globals, and the side of the runtime: [cuda_live] are the
    managed allocations it has made and not freed. *)
Record uvm := {
  g_stats : counter_name → Z;
  g_alloc_sizes : gmap Z Z;
  cuda_live : gmap Z Z;
  cuda_calls : nat;              (* calls of the CUDA runtime so far *)
  syscalls : nat;                (* [pread] calls so far *)
  intervals : nat;               (* measured intervals so far *)
}.

Definition set_stats (g : counter_name → Z) (s : uvm) : uvm :=
  {| g_stats := g; g_alloc_sizes := g_alloc_sizes s; cuda_live := cuda_live s; cuda_calls := cuda_calls s;
     syscalls := syscalls s; intervals := intervals s |}.

(** [fetch_add] on a 64-bit counter; [fetch_sub] adds the opposite. *)
Definition fetch_add (c : counter_name) (d : Z) (s : uvm) : uvm :=
  set_stats (λ c', if decide (c' = c) then wrap 64 (g_stats s c + d) else g_stats s c') s.

Definition set_alloc_sizes (m : gmap Z Z) (s : uvm) : uvm :=
  {| g_stats := g_stats s; g_alloc_sizes := m; cuda_live := cuda_live s; cuda_calls := cuda_calls s;
     syscalls := syscalls s; intervals := intervals s |}.

(** A call of the runtime that leaves it with the allocations [live]. *)
Definition cuda_called (live : gmap Z Z) (s : uvm) : uvm :=
  {| g_stats := g_stats s; g_alloc_sizes := g_alloc_sizes s; cuda_live := live; cuda_calls := S (cuda_calls s);
     syscalls := syscalls s; intervals := intervals s |}.

Definition set_syscalls (n : nat) (s : uvm) : uvm :=
  {| g_stats := g_stats s; g_alloc_sizes := g_alloc_sizes s; cuda_live := cuda_live s; cuda_calls := cuda_calls s;
     syscalls := n; intervals := intervals s |}.

Definition next_interval (s : uvm) : uvm :=
  {| g_stats := g_stats s; g_alloc_sizes := g_alloc_sizes s; cuda_live := cuda_live s; cuda_calls := cuda_calls s;
     syscalls := syscalls s; intervals := S (intervals s) |}.

(** A tensor over managed memory: its address, its shape, its bytes. *)
Record tensor := { t_ptr : Z; t_rows : Z; t_cols : Z; t_bytes : list Z }.

(** Operations on the global state; [None]: out of fuel. *)
Abbreviation UM := (SM uvm).

Section Extension.
  Context {PX : Posix} {CU : Cuda}.

  (** A call of the runtime that only succeeds or fails. *)
Definition cuda_check (answer : nat → bool) : UM unit := λ s,
    Some (if answer (cuda_calls s) then Ok () else Err RuntimeError, cuda_called (cuda_live s) s).

Definition ensure_cuda_device (device : Z) : UM unit :=
    _ ← cuda_check device_query;
    if device_count <=? 0 then throw RuntimeError
    else guarded ((0 <=? device) && (device <? device_count)) RuntimeError.

Definition record_allocation (ptr bytes : Z) (s : uvm) : uvm :=
    fetch_add num_allocations 1 (fetch_add allocated_bytes bytes (set_alloc_sizes (<[ptr := bytes]> (g_alloc_sizes s)) s)).

Definition record_free (ptr fallback_bytes : Z) (s : uvm) : uvm :=
    let bytes := default fallback_bytes (g_alloc_sizes s !! ptr) in
    let s := set_alloc_sizes (delete ptr (g_alloc_sizes s)) s in
    if bytes =? 0 then s else fetch_add allocated_bytes (- bytes) s.

  (** [cudaFree] and [cudaMallocManaged]. *)
Definition cudaFree (ptr : Z) (s : uvm) : bool * uvm :=
    let ok := cuda_free (cuda_calls s) ptr in
    (ok, cuda_called (if ok then delete ptr (cuda_live s) else cuda_live s) s).

Definition cuda_malloc (bytes : Z) : UM Z := λ s,
    let r := malloc_managed (cuda_calls s) (cuda_live s) bytes in
    Some (r, cuda_called (match r with Ok p => <[p := bytes]> (cuda_live s) | Err _ => cuda_live s end) s).

Definition cuda_free_noexcept (ptr bytes : Z) (s : uvm) : uvm :=
    if ptr =? 0 then s else
    let '(ok, s) := cudaFree ptr s in
    if ok then record_free ptr bytes s else s.

Definition allocate_managed (bytes device : Z) : UM Z :=
    _ ← ensure_cuda_device device;
    ptr ← cuda_malloc bytes;
    _ ← modify (record_allocation ptr bytes);
    mret ptr.

  (** [fuel] bounds the system calls of one read; the error of [close] is only
      thrown after a complete read. *)
Definition pread_exact (fuel : nat) (path : str) (offset bytes : Z) : UM (list Z) := λ s,
    match file_at path with
    | None => Some (Err RuntimeError, s)
    | Some file =>
        match pread_loop fuel file offset bytes [] (syscalls s) with
        | Some (content, r, calls) =>
            Some (_ ← require_complete r; if os_close calls then Ok content else Err RuntimeError, set_syscalls calls s)
        | None => None
        end
    end.

  (** The microseconds between two readings of the clock, added to a counter. *)
Definition add_interval (c : counter_name) (s : uvm) : uvm :=
    next_interval (fetch_add c (interval_us (intervals s)) s).

Definition load_file_to_managed (fuel : nat) (path : str) (offset rows cols device : Z) : UM tensor :=
    if (rows <=? 0) || (cols <=? 0) then throw ValueError else
    let bytes := wrap 64 (wrap 64 (wrap 64 rows * wrap 64 cols) * 4) in
    ptr ← allocate_managed bytes device;
    content ← on_error (content ← pread_exact fuel path offset bytes;
                        _ ← modify (fetch_add file_read_bytes bytes);
                        _ ← modify (add_interval total_file_read_us);
                        mret content) (cuda_free_noexcept ptr bytes);
    mret {| t_ptr := ptr; t_rows := rows; t_cols := cols; t_bytes := content |}.

  (** The error of [cudaFree] is thrown before the size is forgotten. *)
Definition free_managed (addr : Z) : UM unit :=
    if addr =? 0 then mret () else
    ok ← (λ s, let '(ok, s) := cudaFree addr s in Some (Ok ok, s));
    _ ← guarded ok RuntimeError;
    modify (record_free addr 0).

Definition advise (addr bytes : Z) : UM unit := cuda_check (λ n, mem_advise n addr bytes).
Definition advise_gpu (addr bytes device : Z) : UM unit := _ ← ensure_cuda_device device; advise addr bytes.

Definition prefetch_to_gpu (addr bytes device : Z) : UM unit :=
    _ ← ensure_cuda_device device;
    _ ← cuda_check (λ n, mem_prefetch n addr bytes);
    _ ← modify (fetch_add num_prefetch_gpu 1);
    modify (add_interval total_prefetch_us).

Definition prefetch_to_cpu (addr bytes : Z) : UM unit :=
    _ ← cuda_check (λ n, mem_prefetch n addr bytes);
    _ ← modify (fetch_add num_prefetch_cpu 1);
    modify (add_interval total_prefetch_us).

  (** The tensor's deleter: runs when the last reference to it is dropped. *)
Definition drop_tensor (t : tensor) (bytes : Z) (s : uvm) : uvm := cuda_free_noexcept (t_ptr t) bytes s.

Definition apply_policy (policy : str) (addr bytes device : Z) : UM unit :=
    if decide (policy = u "cpu") then advise addr bytes
    else if decide (policy = u "gpu") then
      _ ← advise_gpu addr bytes device; prefetch_to_gpu addr bytes device
    else if decide (policy = u "accessed_by") then advise_gpu addr bytes device
    else if decide (policy = u "none") then mret ()
    else throw ValueError.

Definition uvm_tensor_from_file (fuel : nat) (path : str) (rows cols offset device : Z) (policy : str) : UM tensor :=
    t ← load_file_to_managed fuel path offset rows cols device;
    let bytes := wrap 64 (wrap 64 (wrap 64 rows * wrap 64 cols) * 4) in
    _ ← on_error (apply_policy policy (t_ptr t) bytes device) (drop_tensor t bytes);
    mret t.

  (** The checks, the kernel and its time; the output tensor lives on the GPU. *)
Definition touch_gpu (t : tensor) : UM unit :=
    _ ← guarded (0 <? t_rows t * t_cols t) RuntimeError;
    _ ← cuda_check (λ n, touch_kernel n (t_ptr t));
    modify (add_interval total_gpu_touch_us).

  (** The dictionary of [get_stats], in insertion order. *)
Definition stat_name (c : counter_name) : str :=
    match c with
    | allocated_bytes => u "allocated_bytes"
    | file_read_bytes => u "file_read_bytes"
    | num_allocations => u "num_allocations"
    | num_prefetch_gpu => u "num_prefetch_gpu"
    | num_prefetch_cpu => u "num_prefetch_cpu"
    | total_file_read_us => u "total_file_read_us"
    | total_prefetch_us => u "total_prefetch_us"
    | total_gpu_touch_us => u "total_gpu_touch_us"
    end.
Definition all_counters : list counter_name :=
    [allocated_bytes; file_read_bytes; num_allocations; num_prefetch_gpu; num_prefetch_cpu; total_file_read_us;
     total_prefetch_us; total_gpu_touch_us].
Definition get_stats (stats : counter_name → Z) : list (str * Z) := (λ c, (stat_name c, stats c)) <$> all_counters.

Definition reset_stats (s : uvm) : uvm := set_stats (λ _, 0) s.
End Extension.

(** ** Lemmas: accounting *)

Definition live_bytes (m : gmap Z Z) : Z := zsum (map_to_list m).*2.

(** The extension's table is what the runtime holds, and the counter of
    allocated bytes counts it, less what was live when the counters were last
    reset, modulo its width. *)
Definition accounted (at_reset : Z) (s : uvm) : Prop :=
  g_alloc_sizes s = cuda_live s ∧ g_stats s allocated_bytes = wrap 64 (live_bytes (cuda_live s) - at_reset).

Lemma live_bytes_insert m p b : m !! p = None → live_bytes (<[p := b]> m) = b + live_bytes m.
Proof.
  intros H. unfold live_bytes. rewrite (zsum_Permutation _ (((p, b) :: map_to_list m).*2)); [done|].
  by rewrite (map_to_list_insert m p b H).
Qed.

(** The states differ in neither the live allocations nor their count. *)
Definition frame (s s' : uvm) : Prop :=
  cuda_live s' = cuda_live s ∧ g_alloc_sizes s' = g_alloc_sizes s ∧ g_stats s' allocated_bytes = g_stats s allocated_bytes.

Lemma frame_refl s : frame s s.
Proof. done. Qed.
Lemma frame_trans s1 s2 s3 : frame s1 s2 → frame s2 s3 → frame s1 s3.
Proof. intros (H1 & H2 & H3) (H4 & H5 & H6). split_and!; congruence. Qed.
Lemma frame_fetch_add c d s : c ≠ allocated_bytes → frame s (fetch_add c d s).
Proof. intros H. split_and!; [done|done|]. cbn. by rewrite decide_False by congruence. Qed.
Lemma frame_accounted z s s' : frame s s' → accounted z s → accounted z s'.
Proof. unfold accounted. by intros (-> & -> & ->). Qed.
Lemma frame_called s : frame s (cuda_called (cuda_live s) s).
Proof. done. Qed.
#[export] Hint Resolve frame_refl frame_fetch_add frame_called : memtier.

(** A computation that leaves the allocations alone. *)
Definition frames {A} (m : UM A) : Prop := ∀ s r s', m s = Some (r, s') → frame s s'.

Lemma frames_ret {A} (a : A) : frames (mret a).
Proof. intros s r s' [= _ <-]. done. Qed.
Lemma frames_throw {A} e : frames (throw e : UM A).
Proof. intros s r s' [= _ <-]. done. Qed.
Lemma frames_guarded b e : frames (guarded b e).
Proof. unfold guarded. destruct b; [apply frames_ret|apply frames_throw]. Qed.
Lemma frames_bind {A B} (m : UM A) (f : A → UM B) : frames m → (∀ a, frames (f a)) → frames (m ≫= f).
Proof.
  intros Hm Hf s r s' [(a & s1 & E1 & E2)|(e & E & _)]%sm_bind_inv; [|by eapply Hm].
  eapply frame_trans; [by eapply Hm|by eapply Hf].
Qed.
Lemma frames_modify f : (∀ s, frame s (f s)) → frames (modify f).
Proof. intros Hf s r s' [= _ <-]. apply Hf. Qed.
Lemma frames_check answer : frames (cuda_check answer).
Proof. intros s r s' [= _ <-]. done. Qed.
#[export] Hint Resolve frames_ret frames_throw frames_guarded frames_bind frames_modify frames_check : memtier.

Section Accounting.
Context {PX : Posix} {CU : Cuda}.

Lemma frame_add_interval c s : c ≠ allocated_bytes → frame s (add_interval c s).
Proof. intros H. exact (frame_fetch_add c (interval_us (intervals s)) s H). Qed.

Lemma frames_ensure device : frames (ensure_cuda_device device).
Proof. apply frames_bind; [apply frames_check|intros _]. case_match; auto with memtier. Qed.

Lemma frames_pread fuel path offset bytes : frames (pread_exact fuel path offset bytes).
Proof.
  intros s r s'. unfold pread_exact. destruct (file_at path) as [file|]; [|by intros [= _ <-]].
  destruct (pread_loop _ _ _ _ _ _) as [[[content r'] calls]|]; [|done]. by intros [= _ <-].
Qed.

(** The part of the load that runs while the allocation may leak. *)
Lemma frames_read fuel path offset bytes :
  frames (content ← pread_exact fuel path offset bytes;
          _ ← modify (fetch_add file_read_bytes bytes);
          _ ← modify (add_interval total_file_read_us);
          mret content).
Proof.
  apply frames_bind; [apply frames_pread|intros c]. apply frames_bind; [|intros _; apply frames_bind; [|auto with memtier]];
    apply frames_modify; intros s; [by apply frame_fetch_add|by apply frame_add_interval].
Qed.

Lemma frames_advise_gpu addr bytes device : frames (advise_gpu addr bytes device).
Proof. apply frames_bind; [apply frames_ensure|intros _; apply frames_check]. Qed.

Lemma frames_prefetch addr bytes device : frames (prefetch_to_gpu addr bytes device).
Proof.
  apply frames_bind; [apply frames_ensure|intros _]. apply frames_bind; [apply frames_check|intros _].
  apply frames_bind; [|intros _]; apply frames_modify; intros s; [by apply frame_fetch_add|by apply frame_add_interval].
Qed.

Lemma frames_apply_policy policy addr bytes device : frames (apply_policy policy addr bytes device).
Proof.
  unfold apply_policy. repeat case_decide; [apply frames_check| |apply frames_advise_gpu|apply frames_ret|apply frames_throw].
  apply frames_bind; [apply frames_advise_gpu|intros _; apply frames_prefetch].
Qed.

(** A new allocation, recorded. *)
Definition allocated (p b : Z) (s : uvm) : uvm := record_allocation p b (cuda_called (<[p := b]> (cuda_live s)) s).

Lemma allocated_accounted z p b s : cuda_live s !! p = None → accounted z s → accounted z (allocated p b s).
Proof.
  intros Hf [Ht Hc]. split; cbn; [by rewrite Ht|]. rewrite live_bytes_insert by done. rewrite Hc, wrap_add_l. f_equal. lia.
Qed.

Lemma record_free_undo z p b s s' :
  cuda_live s !! p = None → accounted z s → frame (allocated p b s) s' →
  frame s (record_free p b (cuda_called (delete p (cuda_live s')) s')).
Proof.
  intros Hf [Ht Ha] (E0 & E1 & E2). unfold record_free. cbn [cuda_called g_alloc_sizes]. rewrite E1. cbn.
  rewrite lookup_insert_eq. cbn.
  assert (g_stats s' allocated_bytes = wrap 64 (g_stats s allocated_bytes + b)) as E3 by (rewrite E2; reflexivity).
  assert (wrap 64 (g_stats s allocated_bytes) = g_stats s allocated_bytes) as Ew.
  { rewrite Ha. apply wrap_small, wrap_in_width. lia. }
  destruct (Z.eqb_spec b 0) as [->|Hb]; split_and!; cbn.
  - rewrite E0. cbn. by rewrite delete_insert_id.
  - rewrite Ht. by rewrite delete_insert_id.
  - by rewrite E3, Z.add_0_r.
  - rewrite E0. cbn. by rewrite delete_insert_id.
  - rewrite Ht. by rewrite delete_insert_id.
  - rewrite E3, wrap_add_l. by replace (g_stats s allocated_bytes + b + - b) with (g_stats s allocated_bytes) by lia.
Qed.

(** Freeing a new allocation takes it back, or changes nothing where the
    runtime refuses. *)
Lemma cuda_free_undo z p b s s' :
  p ≠ 0 → cuda_live s !! p = None → accounted z s → frame (allocated p b s) s' →
  cuda_calls (cuda_free_noexcept p b s') = S (cuda_calls s') ∧
  if cuda_free (cuda_calls s') p then frame s (cuda_free_noexcept p b s') else frame s' (cuda_free_noexcept p b s').
Proof.
  intros Hp Hf Ha Hs. unfold cuda_free_noexcept, cudaFree. rewrite (proj2 (Z.eqb_neq p 0) Hp).
  destruct (cuda_free (cuda_calls s') p); [|by split].
  split; [|by eapply record_free_undo]. unfold record_free. by case_match.
Qed.

(** Freeing touches no other counter. *)
Lemma drop_other t bytes s c : c ≠ allocated_bytes → g_stats (drop_tensor t bytes s) c = g_stats s c.
Proof.
  intros Hc. unfold drop_tensor, cuda_free_noexcept, cudaFree, record_free. repeat case_match; simplify_eq; try done.
  cbn. by rewrite decide_False by done.
Qed.

(** What an operation that returns a tensor does to the allocations; one that
    throws keeps its allocation only if the runtime refuses to free it, which
    it is asked last. *)
Definition owns (bytes : Z) (s : uvm) (r : result tensor) (s' : uvm) : Prop :=
  match r with
  | Ok t => t_ptr t ≠ 0 ∧ cuda_live s !! t_ptr t = None ∧ frame (allocated (t_ptr t) bytes s) s'
  | Err _ => frame s s' ∨ ∃ p n, S n = cuda_calls s' ∧ cuda_free n p = false ∧ cuda_live s !! p = None ∧
      frame (allocated p bytes s) s'
  end.

Lemma owns_undo z p b s s' e :
  p ≠ 0 → cuda_live s !! p = None → accounted z s → frame (allocated p b s) s' →
  owns b s (Err e) (cuda_free_noexcept p b s').
Proof.
  intros Hp Hf Ha Hs. destruct (cuda_free_undo z p b s s' Hp Hf Ha Hs) as [Hn H].
  destruct (cuda_free (cuda_calls s') p) eqn:E; [by left|]. right. exists p, (cuda_calls s').
  split_and!; [done|done|done|by eapply frame_trans].
Qed.

Lemma owns_accounted z bytes s r s' : owns bytes s r s' → accounted z s → accounted z s'.
Proof.
  intros H Ha. destruct r as [t|e].
  - destruct H as (_ & Hf & Hs). eapply frame_accounted; [exact Hs|]. by apply allocated_accounted.
  - destruct H as [Hs|(p & n & _ & _ & Hf & Hs)]; (eapply frame_accounted; [exact Hs|]); [done|by apply allocated_accounted].
Qed.

Lemma allocate_owns bytes device s r s' :
  allocate_managed bytes device s = Some (r, s') →
  match r with Ok p => p ≠ 0 ∧ cuda_live s !! p = None ∧ frame (allocated p bytes s) s' | Err _ => frame s s' end.
Proof.
  unfold allocate_managed. intros [(u1 & s2 & E2 & E)|(e & E & ->)]%sm_bind_inv; [|by eapply frames_ensure].
  apply frames_ensure in E2 as (L2 & T2 & C2). apply sm_bind_inv in E as [(p & s3 & E3 & E)|(e & E & ->)].
  - unfold cuda_malloc in E3. injection E3 as E3 <-. rewrite E3, L2 in *. pose proof E3 as [Hp Hf]%malloc_managed_fresh.
    apply sm_bind_inv in E as [(u3 & s4 & E4 & E)|(e & [=] & _)]. injection E4 as E4. injection E as <- <-. subst s4.
    split_and!; [done|done|]. split_and!; cbn; by rewrite ?T2, ?C2.
  - unfold cuda_malloc in E. injection E as E <-. by rewrite E.
Qed.

Lemma load_file_owns z fuel path offset rows cols device s r s' :
  accounted z s → load_file_to_managed fuel path offset rows cols device s = Some (r, s') →
  owns (wrap 64 (wrap 64 (wrap 64 rows * wrap 64 cols) * 4)) s r s'.
Proof.
  intros Ha. unfold load_file_to_managed. case_match; [by intros [= <- <-]; left|].
  set (bytes := wrap 64 (wrap 64 (wrap 64 rows * wrap 64 cols) * 4)).
  intros [(p & s1 & E1 & E)|(e & E & ->)]%sm_bind_inv; [|left; by apply allocate_owns in E].
  apply allocate_owns in E1 as (Hp & Hf & Hs1).
  apply sm_bind_inv in E as [(c & s2 & E2 & E)|(e & E & ->)].
  - injection E as <- <-. apply on_error_inv in E2 as (s3 & E3 & ->). split_and!; [done|done|].
    eapply frame_trans; [done|]. eapply frames_read, E3.
  - apply on_error_inv in E as (s3 & E3 & ->). apply (owns_undo z p bytes s s3); [done..|].
    eapply frame_trans; [done|]. eapply frames_read, E3.
Qed.

Lemma uvm_tensor_owns z fuel path rows cols offset device policy s r s' :
  accounted z s → uvm_tensor_from_file fuel path rows cols offset device policy s = Some (r, s') →
  owns (wrap 64 (wrap 64 (wrap 64 rows * wrap 64 cols) * 4)) s r s'.
Proof.
  intros Ha. set (bytes := wrap 64 (wrap 64 (wrap 64 rows * wrap 64 cols) * 4)).
  intros [(t & s1 & E1 & E)|(e & E & ->)]%sm_bind_inv; [|by eapply load_file_owns in E].
  eapply load_file_owns in E1 as (Hp & Hf & Hs1); [|done]. fold bytes in Hs1.
  apply sm_bind_inv in E as [(x & s2 & E2 & E)|(e & E & ->)].
  - injection E as <- <-. apply on_error_inv in E2 as (s3 & E3 & ->). split_and!; [done|done|].
    eapply frame_trans; [done|by eapply frames_apply_policy].
  - apply on_error_inv in E as (s3 & E3 & ->). apply (owns_undo z (t_ptr t) bytes s s3); [done..|].
    eapply frame_trans; [done|by eapply frames_apply_policy].
Qed.

(** *** Sequences of calls *)

(** One call of the extension's interface, but for [reset_stats]; a tensor may
    be dropped whose memory [free_managed] has returned already: [cudaFree] then
    refuses its address, unless it has been allocated again. *)
Inductive api_step : uvm → uvm → Prop :=
| StepAllocate bytes device s r s' : allocate_managed bytes device s = Some (r, s') → api_step s s'
| StepFree addr s r s' : free_managed addr s = Some (r, s') → api_step s s'
| StepAdvise addr bytes s r s' : advise addr bytes s = Some (r, s') → api_step s s'
| StepAdviseGpu addr bytes device s r s' : advise_gpu addr bytes device s = Some (r, s') → api_step s s'
| StepPrefetchGpu addr bytes device s r s' : prefetch_to_gpu addr bytes device s = Some (r, s') → api_step s s'
| StepPrefetchCpu addr bytes s r s' : prefetch_to_cpu addr bytes s = Some (r, s') → api_step s s'
| StepLoad fuel path offset rows cols device s r s' :
    load_file_to_managed fuel path offset rows cols device s = Some (r, s') → api_step s s'
| StepTensor fuel path rows cols offset device policy s r s' :
    uvm_tensor_from_file fuel path rows cols offset device policy s = Some (r, s') → api_step s s'
| StepTouch t s r s' : touch_gpu t s = Some (r, s') → api_step s s'
| StepDrop t bytes s :
    (cuda_live s !! t_ptr t = None → cuda_free (cuda_calls s) (t_ptr t) = false) → api_step s (drop_tensor t bytes s).

(** The calls with [reset_stats]; beside the state, the bytes that were live
    when the counters were last reset. *)
Inductive session_call : uvm * Z → uvm * Z → Prop :=
| CallApi s s' z : api_step s s' → session_call (s, z) (s', z)
| CallResetStats s z : session_call (s, z) (reset_stats s, live_bytes (cuda_live s)).

Lemma frames_prefetch_cpu addr bytes : frames (prefetch_to_cpu addr bytes).
Proof.
  apply frames_bind; [apply frames_check|intros _].
  apply frames_bind; [|intros _]; apply frames_modify; intros s; [by apply frame_fetch_add|by apply frame_add_interval].
Qed.

Lemma frames_touch t : frames (touch_gpu t).
Proof.
  apply frames_bind; [apply frames_guarded|intros _]. apply frames_bind; [apply frames_check|intros _].
  apply frames_modify. intros s. by apply frame_add_interval.
Qed.

Lemma live_bytes_delete m p b : m !! p = Some b → live_bytes m = b + live_bytes (delete p m).
Proof. intros H. rewrite <-(insert_delete_id m p b H) at 1. apply live_bytes_insert, lookup_delete_eq. Qed.

Lemma record_free_accounted z p b s :
  (cuda_live s !! p = None → b = 0) → accounted z s → accounted z (record_free p b (cuda_called (delete p (cuda_live s)) s)).
Proof.
  intros Hb [Ht Ha]. unfold accounted, record_free. cbn [cuda_called g_alloc_sizes]. rewrite Ht.
  destruct (cuda_live s !! p) as [b'|] eqn:E; cbn [default from_option id].
  - apply live_bytes_delete in E. destruct (Z.eqb_spec b' 0) as [->|H0]; cbn; (split; [done|]); rewrite Ha, E; [f_equal; lia|].
    rewrite wrap_add_l. f_equal. lia.
  - rewrite (Hb eq_refl). cbn. by rewrite delete_id.
Qed.

Lemma free_managed_accounted z addr s r s' : accounted z s → free_managed addr s = Some (r, s') → accounted z s'.
Proof.
  intros Ha. unfold free_managed. case_match; [by intros [= _ <-]|].
  intros [(ok & s1 & E1 & E)|(e & E & _)]%sm_bind_inv; [|by unfold cudaFree in E].
  unfold cudaFree in E1. injection E1 as <- <-.
  destruct (cuda_free (cuda_calls s) addr); [|by injection E as _ <-].
  injection E as _ <-. by apply record_free_accounted.
Qed.

Lemma drop_accounted z t bytes s :
  (cuda_live s !! t_ptr t = None → cuda_free (cuda_calls s) (t_ptr t) = false) → accounted z s →
  accounted z (drop_tensor t bytes s).
Proof.
  intros Hd Ha. unfold drop_tensor, cuda_free_noexcept, cudaFree. case_match; [done|].
  destruct (cuda_free (cuda_calls s) (t_ptr t)) eqn:E; [|done]. apply record_free_accounted; [|done].
  intros Hn. by apply Hd in Hn.
Qed.

Lemma api_step_accounted z s s' : api_step s s' → accounted z s → accounted z s'.
Proof.
  intros Hs Ha. destruct Hs as [bytes device s r s' E|addr s r s' E|addr bytes s r s' E|addr bytes device s r s' E
    |addr bytes device s r s' E|addr bytes s r s' E|fuel path offset rows cols device s r s' E
    |fuel path rows cols offset device policy s r s' E|t s r s' E|t bytes s E].
  - apply allocate_owns in E. destruct r as [p|e]; [|by eapply frame_accounted].
    destruct E as (_ & Hf & Hs). eapply frame_accounted; [exact Hs|]. by apply allocated_accounted.
  - by eapply free_managed_accounted.
  - by eapply frame_accounted; [eapply frames_check|].
  - by eapply frame_accounted; [eapply frames_advise_gpu|].
  - by eapply frame_accounted; [eapply frames_prefetch|].
  - by eapply frame_accounted; [eapply frames_prefetch_cpu|].
  - eapply load_file_owns in E; [|done]. by eapply owns_accounted.
  - eapply uvm_tensor_owns in E; [|done]. by eapply owns_accounted.
  - by eapply frame_accounted; [eapply frames_touch|].
  - by apply drop_accounted.
Qed.

Lemma session_call_accounted a b : session_call a b → accounted a.2 a.1 → accounted b.2 b.1.
Proof.
  intros [s s' z Hs|s z] Ha; [by eapply api_step_accounted|]. destruct Ha as [Ht _]. split; [done|]. cbn. by rewrite Z.sub_diag.
Qed.

(** [reset_stats] while an allocation is live: freeing it wraps the counter. *)
Lemma reset_then_drop_wraps t bytes s :
  cuda_free (cuda_calls s) (t_ptr t) = true →
  t_ptr t ≠ 0 → g_alloc_sizes s !! t_ptr t = Some bytes → 0 < bytes < 2 ^ 64 →
  g_stats (drop_tensor t bytes (reset_stats s)) allocated_bytes = 2 ^ 64 - bytes.
Proof.
  intros Hfree Hp E Hb. unfold drop_tensor, cuda_free_noexcept, cudaFree. rewrite (proj2 (Z.eqb_neq _ 0) Hp).
  cbn [reset_stats set_stats cuda_calls]. rewrite Hfree. unfold record_free. cbn. rewrite E.
  cbn [default from_option id]. rewrite (proj2 (Z.eqb_neq bytes 0)) by lia.
  change (wrap 64 (0 + - bytes) = 2 ^ 64 - bytes). unfold wrap. rewrite <-(Z_mod_plus_full _ 1), Z.mod_small; lia.
Qed.
End Accounting.

(** ** Lemmas: successful loads *)

(** A device that works: valid, with memory, and no call fails. *)
Record cuda_works `{CU : Cuda} (device : Z) : Prop := {
  cw_device : 0 ≤ device < device_count;
  cw_query : ∀ n, device_query n = true;
  cw_malloc : ∀ n live bytes, is_ok (malloc_managed n live bytes) = true;
  cw_free : ∀ n p, cuda_free n p = true;
  cw_advise : ∀ n p b, mem_advise n p b = true;
  cw_prefetch : ∀ n p b, mem_prefetch n p b = true;
  cw_touch : ∀ n p, touch_kernel n p = true;
}.

Definition POLICIES : list str := [u "none"; u "cpu"; u "gpu"; u "accessed_by"].

(** How a step changes the counters; the times stay machine words. *)
Definition is_time (c : counter_name) : bool :=
  match c with total_file_read_us | total_prefetch_us | total_gpu_touch_us => true | _ => false end.
Definition counted (s s' : uvm) (d : counter_name → Z) : Prop :=
  ∀ c, in_width 64 (g_stats s c) → in_width 64 (g_stats s' c) ∧
    (is_time c = false → g_stats s' c = wrap 64 (g_stats s c + d c)).

Lemma counted_trans s1 s2 s3 d1 d2 : counted s1 s2 d1 → counted s2 s3 d2 → counted s1 s3 (λ c, d1 c + d2 c).
Proof.
  intros H1 H2 c Hw. destruct (H1 c Hw) as [W E]. destruct (H2 c W) as [W' E']. split; [done|].
  intros Hc. rewrite E', E, wrap_add_l by done. f_equal. lia.
Qed.

Lemma counted_ext s s' d d' : counted s s' d → (∀ c, is_time c = false → d c = d' c) → counted s s' d'.
Proof. intros H Hd c Hw. destruct (H c Hw) as [W E]. split; [done|]. intros Hc. by rewrite E, Hd. Qed.

Lemma counted_refl s : counted s s (λ _, 0).
Proof. intros c Hw. split; [done|]. intros _. by rewrite Z.add_0_r, wrap_small. Qed.

Lemma counted_fetch_add c d s : counted s (fetch_add c d s) (λ c', if decide (c' = c) then d else 0).
Proof.
  intros c' Hw. cbn. case_decide; subst.
  - split; [by apply wrap_in_width|done].
  - split; [done|]. intros _. by rewrite Z.add_0_r, wrap_small.
Qed.

Lemma counted_add_interval `{CU : Cuda} c s : is_time c = true → counted s (add_interval c s) (λ _, 0).
Proof.
  intros Hc. apply counted_ext with (d := λ c', if decide (c' = c) then interval_us (intervals s) else 0).
  - exact (counted_fetch_add c (interval_us (intervals s)) s).
  - intros c' Hc'. rewrite decide_False; [done|]. intros ->. congruence.
Qed.

Section Success.
Context {PX : Posix} {CU : Cuda}.
Variable device : Z.
Hypothesis works : cuda_works device.

Lemma check_Ok answer s : (∀ n, answer n = true) → cuda_check answer s = Some (Ok (), cuda_called (cuda_live s) s).
Proof. intros H. unfold cuda_check. by rewrite H. Qed.

Lemma ensure_Ok s : ensure_cuda_device device s = Some (Ok (), cuda_called (cuda_live s) s).
Proof.
  destruct (cw_device _ works) as [H1 H2]. unfold ensure_cuda_device. sm_run ltac:(apply check_Ok, (cw_query _ works)).
  unfold guarded. rewrite (proj2 (Z.leb_gt _ _)) by lia. by rewrite (proj2 (Z.leb_le 0 _) H1), (proj2 (Z.ltb_lt _ _) H2).
Qed.

(** Two calls of the runtime that change nothing else. *)
Lemma advise_gpu_Ok addr bytes s :
  ∃ s', advise_gpu addr bytes device s = Some (Ok (), s') ∧ counted s s' (λ _, 0).
Proof.
  set (s1 := cuda_called (cuda_live s) s). exists (cuda_called (cuda_live s1) s1). split; [|exact (counted_refl s)].
  unfold advise_gpu. sm_run ltac:(apply ensure_Ok). apply check_Ok. intros. apply cw_advise with (1 := works).
Qed.

Lemma prefetch_gpu_Ok addr bytes s :
  ∃ s', prefetch_to_gpu addr bytes device s = Some (Ok (), s') ∧ counted s s' (λ c, if decide (c = num_prefetch_gpu) then 1 else 0).
Proof.
  eexists. split.
  - unfold prefetch_to_gpu. sm_run ltac:(apply ensure_Ok).
    sm_run ltac:(apply check_Ok; intros; apply cw_prefetch with (1 := works)). reflexivity.
  - set (s1 := cuda_called _ _).
    apply counted_ext with (d := λ c, (if decide (c = num_prefetch_gpu) then 1 else 0) + 0); [|intros c _; cbv beta; lia].
    apply counted_trans with (fetch_add num_prefetch_gpu 1 s1); [|by apply counted_add_interval].
    exact (counted_fetch_add num_prefetch_gpu 1 s1).
Qed.

(** The state after the policy of a successful load. *)
Lemma apply_policy_Ok policy addr bytes s :
  policy ∈ POLICIES →
  ∃ s', apply_policy policy addr bytes device s = Some (Ok (), s') ∧
    counted s s' (λ c, if decide (policy = u "gpu") then (if decide (c = num_prefetch_gpu) then 1 else 0) else 0).
Proof.
  intros Hp. unfold apply_policy, POLICIES in *. rewrite !elem_of_cons, elem_of_nil in Hp.
  destruct Hp as [->|[->|[->|[->|[]]]]].
  - exists s. split; [reflexivity|apply counted_refl].
  - exists (cuda_called (cuda_live s) s). split; [apply check_Ok; intros; apply cw_advise with (1 := works)|exact (counted_refl s)].
  - destruct (advise_gpu_Ok addr bytes s) as (s1 & E1 & C1). destruct (prefetch_gpu_Ok addr bytes s1) as (s2 & E2 & C2).
    exists s2. split; [rewrite decide_False, decide_True by done; sm_run ltac:(exact E1); exact E2|].
    eapply counted_ext; [exact (counted_trans _ _ _ _ _ C1 C2)|]. intros c _. cbv beta.
    by rewrite (decide_True (P := u "gpu" = u "gpu")) by done.
  - destruct (advise_gpu_Ok addr bytes s) as (s1 & E1 & C1). exists s1. split; [|exact C1].
    by rewrite !decide_False, decide_True by done.
Qed.

(** The counters a successful load adds to. *)
Definition load_counts (bytes : Z) (policy : str) (c : counter_name) : Z :=
  match c with
  | allocated_bytes | file_read_bytes => bytes
  | num_allocations => 1
  | num_prefetch_gpu => if decide (policy = u "gpu") then 1 else 0
  | _ => 0
  end.

Lemma uvm_tensor_Ok B fuel path file rows cols offset policy s :
  os_reliable B → (∀ n, os_close n = true) → file_at path = Some file → policy ∈ POLICIES → 0 < rows → 0 < cols →
  rows * cols * 4 < 2 ^ 64 →
  0 ≤ offset → offset + rows * cols * 4 ≤ zlen file → rows * cols * 4 * Z.of_nat B ≤ Z.of_nat fuel →
  ∃ t s', uvm_tensor_from_file fuel path rows cols offset device policy s = Some (Ok t, s') ∧
    t_rows t = rows ∧ t_cols t = cols ∧ t_bytes t = py_slice file offset (offset + rows * cols * 4) ∧
    counted s s' (load_counts (rows * cols * 4) policy).
Proof.
  intros HB Hcl Ef Hp Hr Hc Hw Ho Hin Hfuel.
  assert (wrap 64 (wrap 64 (wrap 64 rows * wrap 64 cols) * 4) = rows * cols * 4) as Eb.
  { rewrite !(wrap_small 64 rows), !(wrap_small 64 cols), (wrap_small 64 (rows * cols)), wrap_small;
      unfold in_width; try nia; reflexivity. }
  set (bytes := rows * cols * 4) in *.
  set (q := cuda_called (cuda_live s) s).
  pose proof (cw_malloc _ works (cuda_calls q) (cuda_live q) bytes) as Hm.
  destruct (malloc_managed (cuda_calls q) (cuda_live q) bytes) as [p|] eqn:Em; [|done].
  set (s0 := set_alloc_sizes (<[p:=bytes]> (g_alloc_sizes q)) (cuda_called (<[p:=bytes]> (cuda_live q)) q)).
  set (s1 := allocated p bytes q).
  destruct (pread_loop_reads B file offset bytes HB Ho fuel (syscalls s1) ltac:(lia) Hfuel) as (calls & El).
  set (s2 := add_interval total_file_read_us (fetch_add file_read_bytes bytes (set_syscalls calls s1))).
  set (t := {| t_ptr := p; t_rows := rows; t_cols := cols; t_bytes := py_slice file offset (offset + bytes) |}).
  destruct (apply_policy_Ok policy p bytes s2 Hp) as (s3 & E3 & C3). exists t, s3.
  assert (load_file_to_managed fuel path offset rows cols device s = Some (Ok t, s2)) as Eload.
  { unfold load_file_to_managed. rewrite (proj2 (Z.leb_gt rows 0)), (proj2 (Z.leb_gt cols 0)) by lia. cbn [orb].
    rewrite Eb. sm_run ltac:(unfold allocate_managed; sm_run ltac:(apply ensure_Ok);
      fold q; sm_run ltac:(unfold cuda_malloc; rewrite Em; reflexivity); reflexivity).
    fold (allocated p bytes q). fold s1.
    sm_run ltac:(unfold on_error, pread_exact; unfold mbind, sm_bind; rewrite Ef, El; unfold read_outcome_of;
      rewrite (proj2 (Z.leb_le _ _) Hin); cbn [require_complete result_bind]; rewrite Hcl; reflexivity). reflexivity. }
  split; [|split_and!; [done..|]].
  - unfold uvm_tensor_from_file. sm_run ltac:(exact Eload). rewrite Eb.
    sm_run ltac:(unfold on_error; cbn [t_ptr t]; rewrite E3; reflexivity). reflexivity.
  - eapply counted_ext.
    + apply counted_trans with s2; [apply counted_trans with s1|exact C3].
      * apply counted_trans with (fetch_add allocated_bytes bytes s0);
          [exact (counted_fetch_add allocated_bytes bytes s0)|apply counted_fetch_add].
      * apply counted_trans with (fetch_add file_read_bytes bytes (set_syscalls calls s1));
          [exact (counted_fetch_add file_read_bytes bytes (set_syscalls calls s1))|by apply counted_add_interval].
    + intros c _. unfold load_counts. destruct (decide (policy = u "gpu")); destruct c; cbv beta iota;
        repeat first [rewrite decide_True by done | rewrite decide_False by done]; lia.
Qed.
End Success.

(** C26: [uvm_tensor_from_file] is exception safe. Whatever the operating
    system, the CUDA runtime, the arguments and the policy do: if before the
    call the extension's table is what the runtime holds, and the counter of
    allocated bytes counts it, so it is afterwards. A call that returns has
    made exactly one allocation, of its tensor; the tensor's deleter returns
    it, and puts the table and the counter back, unless the runtime refuses
    the free, which changes nothing. A call that throws holds nothing more than
    before, unless its last call of the runtime refused to free the allocation
    it had made: that one stays allocated, and stays counted. *)
Theorem uvm_tensor_exception_safe `{PX : Posix, CU : Cuda} z fuel path rows cols offset device policy s r s' :
  accounted z s →
  uvm_tensor_from_file fuel path rows cols offset device policy s = Some (r, s') →
  let bytes := wrap 64 (wrap 64 (wrap 64 rows * wrap 64 cols) * 4) in
  accounted z s' ∧
  match r with
  | Err _ => cuda_live s' = cuda_live s ∧ g_stats s' allocated_bytes = g_stats s allocated_bytes ∨
      ∃ p n, S n = cuda_calls s' ∧ cuda_free n p = false ∧
        cuda_live s !! p = None ∧ cuda_live s' = <[p := bytes]> (cuda_live s)
  | Ok t => cuda_live s !! t_ptr t = None ∧ cuda_live s' = <[t_ptr t := bytes]> (cuda_live s) ∧
      let dropped := drop_tensor t bytes s' in
      accounted z dropped ∧
      cuda_live dropped = if cuda_free (cuda_calls s') (t_ptr t) then cuda_live s else cuda_live s'
  end.
Proof.
  intros Ha E bytes. pose proof (uvm_tensor_owns _ _ _ _ _ _ _ _ _ _ _ Ha E) as H. fold bytes in H.
  assert (accounted z s') as Ha' by (by eapply owns_accounted). split; [done|]. destruct r as [t|e].
  - destruct H as (Hp & Hf & Hs). cbv zeta. split_and!; [done|by destruct Hs as (-> & _)|..].
    + apply drop_accounted; [|done]. destruct Hs as (-> & _). cbn. by rewrite lookup_insert_eq.
    + destruct (cuda_free_undo z (t_ptr t) bytes s s' Hp Hf Ha Hs) as [_ H]. unfold drop_tensor. by case_match; apply H.
  - destruct H as [Hs|(p & n & Hn & Hr & Hf & Hs)]; [left; split; by apply Hs|right].
    exists p, n. split_and!; [done..|by apply Hs].
Qed.

(** C40: the counter of allocated bytes never loses count. After any calls of
    the extension, allocations, loads, policies, frees, drops of tensors and
    resets of the counters, in any order and whatever the CUDA runtime and the
    operating system answer, failed frees included, the extension's table is
    exactly what the runtime holds, with its sizes, and the counter is the
    bytes held less those that were held at the last reset, modulo 2^64. So
    it is the bytes held, and zero when everything has been freed, as long as
    the counters are only reset when nothing is held; a reset while [z] bytes
    are held leaves the counter wrapped around to 2^64 - z once they are freed. *)
Theorem extension_accounts `{PX : Posix, CU : Cuda} s s' z :
  accounted 0 s → rtc session_call (s, 0) (s', z) →
  g_alloc_sizes s' = cuda_live s' ∧ g_stats s' allocated_bytes = wrap 64 (live_bytes (cuda_live s') - z) ∧
  (cuda_live s' = ∅ → 0 < z < 2 ^ 64 → g_stats s' allocated_bytes = 2 ^ 64 - z).
Proof.
  intros Ha Hs. assert (accounted z s') as [Ht Hc].
  { assert (∀ a b, rtc session_call a b → accounted a.2 a.1 → accounted b.2 b.1) as Hrtc
      by (induction 1; eauto using session_call_accounted). exact (Hrtc _ _ Hs Ha). }
  split_and!; [done|done|]. intros E Hz. rewrite Hc, E. change (live_bytes ∅) with 0. unfold wrap.
  rewrite <-(Z_mod_plus_full _ 1), Z.mod_small; lia.
Qed.

(** [pread_exact] reads all the bytes or says that the file ends. With an
    operating system that reports no errors and interrupts fewer than [B]
    calls in a row, however short its reads, [B] system calls per byte are
    enough: it returns the bytes of the file from the offset on, or throws when
    the file does not hold them all, or when it cannot be closed. *)
Lemma pread_exact_total `{PX : Posix} B fuel path file offset bytes s :
  os_reliable B → file_at path = Some file → 0 ≤ offset → 0 < bytes → bytes * Z.of_nat B ≤ Z.of_nat fuel →
  ∃ s', pread_exact fuel path offset bytes s =
    Some (if (offset + bytes <=? zlen file) && os_close (syscalls s') then Ok (py_slice file offset (offset + bytes))
          else Err RuntimeError, s').
Proof.
  intros HB Ef Ho Hb Hfuel. unfold pread_exact. rewrite Ef.
  destruct (pread_loop_reads B file offset bytes HB Ho fuel (syscalls s) Hb Hfuel) as (calls & ->).
  exists (set_syscalls calls s). unfold read_outcome_of. cbn [set_syscalls syscalls].
  by destruct (offset + bytes <=? zlen file).
Qed.

(** *** The properties at concrete data *)

#[program] Definition reference_cuda : Cuda := {|
  device_count := 1;
  device_query _ := true;
  malloc_managed _ live bytes := Ok (fresh ({[0]} ∪ dom live));
  cuda_free _ _ := true;
  mem_advise _ _ _ := true;
  mem_prefetch _ _ _ := true;
  touch_kernel _ _ := true;
  interval_us _ := 7;
|}.
Next Obligation.
  intros _ live bytes p [= <-]. pose proof (is_fresh ({[0]} ∪ dom live : gset Z)) as H.
  rewrite not_elem_of_union in H. destruct H as [H0 H]. split; [set_solver|by apply not_elem_of_dom].
Qed.
Next Obligation. done. Qed.

Definition uvm_start : uvm := {| g_stats := λ _, 0; g_alloc_sizes := ∅; cuda_live := ∅; cuda_calls := 0; syscalls := 0; intervals := 0 |}.

Section Witnesses.
#[local] Existing Instance reference_posix.
#[local] Existing Instance reference_cuda.

Definition example_load : option (result tensor * uvm) :=
  uvm_tensor_from_file 100 (u "emb.bin") 2 3 8 0 (u "gpu") uvm_start.
Definition example_tensor : tensor :=
  match example_load with Some (Ok t, _) => t | _ => Build_tensor 0 0 0 [] end.
Definition example_after : uvm := match example_load with Some (_, s) => s | None => uvm_start end.

Lemma uvm_tensor_exception_safe_witness :
  accounted 0 example_after ∧
  cuda_live uvm_start !! t_ptr example_tensor = None ∧
  cuda_live example_after = <[t_ptr example_tensor := 24]> (cuda_live uvm_start) ∧
  let dropped := drop_tensor example_tensor 24 example_after in
  accounted 0 dropped ∧
  cuda_live dropped = (if cuda_free (cuda_calls example_after) (t_ptr example_tensor) then cuda_live uvm_start
                       else cuda_live example_after).
Proof.
  apply (uvm_tensor_exception_safe 0 100 (u "emb.bin") 2 3 8 0 (u "gpu") uvm_start (Ok example_tensor) example_after);
    [by vm_compute|]. unfold example_after, example_tensor, example_load.
  vm_compute uvm_tensor_from_file. reflexivity.
Defined.

(** A load, a reset of the counters, and the drop of the tensor. *)
Lemma extension_accounts_witness :
  let s' := drop_tensor example_tensor 24 (reset_stats example_after) in
  g_alloc_sizes s' = cuda_live s' ∧ g_stats s' allocated_bytes = wrap 64 (live_bytes (cuda_live s') - 24) ∧
  (cuda_live s' = ∅ → 0 < 24 < 2 ^ 64 → g_stats s' allocated_bytes = 2 ^ 64 - 24).
Proof.
  apply (extension_accounts uvm_start); [by vm_compute|].
  eapply rtc_l; [|eapply rtc_l; [|eapply rtc_l; [|apply rtc_refl]]].
  - apply CallApi, (StepTensor 100 (u "emb.bin") 2 3 8 0 (u "gpu") uvm_start (Ok example_tensor) example_after).
    unfold example_after, example_tensor, example_load. vm_compute uvm_tensor_from_file. reflexivity.
  - apply CallResetStats.
  - replace (live_bytes (cuda_live example_after)) with 24 by (vm_compute; reflexivity). apply CallApi, StepDrop.
    intros H. exfalso. revert H. vm_compute. discriminate.
Defined.

Lemma pread_exact_total_witness :
  ∃ s', pread_exact 60 (u "emb.bin") 8 24 uvm_start = Some (Ok (py_slice (py_repeat 40 1) 8 32), s').
Proof.
  apply (pread_exact_total 2 60 (u "emb.bin") (py_repeat 40 1) 8 24 uvm_start reference_reliable eq_refl); lia.
Defined.
End Witnesses.
