(* ===== verification/Analyze.v ===== *)
(** The trace analysis (memtier_embedding_bench/scripts/analyze_trace.py).

    [analyze_trace_file] reads a trace batch by batch and accumulates the
    counters, the reuse of blocks between batches, the LRU simulations and the
    overlap of the ranks; [analyze_step] is one iteration of its loop, and
    [analyze_inv] what it keeps of the batches read so far. *)

From S2P Require Import Prelude PyFloat PyText NumPy Json NdArray Workload TraceReader Stats LruSim.

(** The iteration order of a Python set is some order of its elements. *)
Class PySet := {
  set_order : gset Z → list Z;
  set_order_perm X : set_order X ≡ₚ elements X;
}.

Definition reference_set : PySet := {| set_order := elements; set_order_perm X := reflexivity (elements X) |}.

Definition set_size (X : gset Z) : Z := Z.of_nat (size X).

(** [float(mean(l)) if l else 0.0]. *)
Definition mean_or_zero (l : list Z) : result f64 := if decide (l = []) then Ok f_zero else mean_Z l.
Definition mean_or_zero_f (l : list f64) : result f64 := if decide (l = []) then Ok f_zero else mean_f l.

Definition dram_gb : list Z := [1; 4; 8; 16; 32].

(** [max(1, int(gb * (1024**3) // max(block_bytes, 1)))]. *)
Definition capacity (block_bytes gb : Z) : Z := Z.max 1 ((gb * 1024 ^ 3) `div` Z.max block_bytes 1).
Definition capacities (block_bytes : Z) : list Z := capacity block_bytes <$> dram_gb.

(** The keys of a dictionary built from a list of keys. *)
Definition dict_keys (l : list Z) : list Z :=
  foldl (λ keys k, if decide (k ∈ keys) then keys else keys ++ [k]) [] l.

Record stats := {
  stats_trace_file : str;
  stats_trace_name : str;
  rows_per_block : Z;
  num_batches : Z;
  total_lookups : Z;
  unique_ids : Z;
  unique_blocks : Z;
  id_frequency : coverage_stats;
  block_frequency : coverage_stats;
  estimated_zipf_alpha_ids : f64;
  estimated_zipf_alpha_blocks : f64;
  avg_unique_ids_per_batch : f64;
  avg_unique_blocks_per_batch : f64;
  p50_unique_blocks_per_batch : f64;
  p95_unique_blocks_per_batch : f64;
  block_reuse_rate : f64;
  avg_batches : f64;
  p50_batches : f64;
  p95_batches : f64;
  cache_simulation : list (str * f64);
  avg_overlap_ratio : f64;
  avg_duplicate_blocks : f64;
  stats_metadata : json;
}.

(** The variables of the loop. *)
Record loop := {
  l_id_counter : counter;
  l_block_counter : counter;
  l_unique_blocks : list Z;
  l_unique_ids : list Z;
  l_reuse_ratios : list f64;
  l_reuse_distances : list Z;
  l_last_seen : gmap Z Z;
  l_previous : gset Z;
  l_total : Z;
  l_sims : list (Z * list Z);
  l_hits : gmap Z Z;
  l_sim_total : Z;
  l_overlap : list f64;
  l_duplicates : list Z;
}.

Section Analyze.
  Context {NP : NumPy} {AA : AsArray} {PS : PySet}.
  (** The log-log fit of [np.polyfit]. *)
  Variable polyfit_loglog : list Z → f64.

Definition batch_multi_gpu_overlap (blocks : list Z) (ranks : Z) : result (f64 * Z) :=
    if ranks <=? 0 then Err ValueError else
    let chunks := np_array_split blocks ranks in
    let sets := int_set <$> chunks in
    let union_set := ⋃ sets in
    let total_rank_blocks := zsum (set_size <$> sets) in
    let duplicate := total_rank_blocks - set_size union_set in
    r ← truediv duplicate (Z.max total_rank_blocks 1);
    Ok (r, duplicate).

  (** [for block in current_blocks]: the reuse distances. *)
Definition distance_step (batch_idx : Z) (st : list Z * gmap Z Z) (block : Z) : list Z * gmap Z Z :=
    let '(distances, last_seen) := st in
    (match last_seen !! block with
     | Some t => distances ++ [batch_idx - t]
     | None => distances
     end, <[block := batch_idx]> last_seen).

Definition batch_blocks (ids : list Z) (rpb : Z) : result (list Z) :=
    y ← np_uint64 rpb; Ok (np_unique ((λ x, np_floordiv x y) <$> ids)).

Definition analyze_step (rpb : Z) (st : loop) (item : Z * list Z) : result loop :=
    let '(batch_idx, ids) := item in
    blocks ← batch_blocks ids rpb;
    '(n, sims, hits) ← update_lru_sims blocks (l_sims st) (l_hits st);
    '(overlap_ratio, duplicate_count) ← batch_multi_gpu_overlap blocks 4;
    let current_blocks := int_set blocks in
    ratios ← (if decide (l_previous st = ∅) then Ok (l_reuse_ratios st)
              else r ← reuse_ratio current_blocks (l_previous st); Ok (l_reuse_ratios st ++ [r]));
    let '(distances, last_seen) :=
      foldl (distance_step batch_idx) (l_reuse_distances st, l_last_seen st) (set_order current_blocks) in
    Ok {| l_id_counter := counter_update (l_id_counter st) ids;
          l_block_counter := counter_update (l_block_counter st) blocks;
          l_unique_blocks := l_unique_blocks st ++ [set_size current_blocks];
          l_unique_ids := l_unique_ids st ++ [set_size (int_set ids)];
          l_reuse_ratios := ratios;
          l_reuse_distances := distances;
          l_last_seen := last_seen;
          l_previous := current_blocks;
          l_total := l_total st + zlen ids;
          l_sims := sims;
          l_hits := hits;
          l_sim_total := l_sim_total st + n;
          l_overlap := l_overlap st ++ [overlap_ratio];
          l_duplicates := l_duplicates st ++ [duplicate_count] |}.

Definition loop_init (caps : list Z) : loop :=
    {| l_id_counter := []; l_block_counter := []; l_unique_blocks := []; l_unique_ids := [];
       l_reuse_ratios := []; l_reuse_distances := []; l_last_seen := ∅; l_previous := ∅; l_total := 0;
       l_sims := fresh_sims (dict_keys caps); l_hits := fresh_hits (dict_keys caps); l_sim_total := 0;
       l_overlap := []; l_duplicates := [] |}.

  (** [enumerate] of a generator. *)
Definition enumerate_stream {A} (l : list (result A)) : list (result (Z * A)) :=
    (λ ir : Z * result A, a ← ir.2; Ok (ir.1, a)) <$> enumerate l.

  (** [{str(cap): sim_hits[cap] / max(sim_total, 1) for cap in capacities}]. *)
Definition hit_rates (caps : list Z) (st : loop) : result (list (str * f64)) :=
    foldM (λ rates cap,
      h ← of_option KeyError (l_hits st !! cap);
      r ← truediv h (Z.max (l_sim_total st) 1);
      Ok (dict_set rates (dec cap) r)) [] caps.

Definition analyze_trace_file (file : trace_file) (path stem : str) (rpb topk block_bytes : Z) : result stats :=
    trace ← EmbeddingTrace.init file (Some rpb);
    let caps := capacities block_bytes in
    stream ← EmbeddingTrace.batch_stream trace;
    st ← for_each (analyze_step rpb) (loop_init caps) (enumerate_stream stream);
    rates ← hit_rates caps st;
    nb ← EmbeddingTrace.num_batches trace;
    id_frequency ← coverage (l_id_counter st) topk;
    block_frequency ← coverage (l_block_counter st) topk;
    avg_ids ← mean_or_zero (l_unique_ids st);
    avg_blocks ← mean_or_zero (l_unique_blocks st);
    p50 ← percentile_float (l_unique_blocks st) (lit 50 1);
    p95 ← percentile_float (l_unique_blocks st) (lit 95 1);
    reuse ← mean_or_zero_f (l_reuse_ratios st);
    avg_distance ← mean_or_zero (l_reuse_distances st);
    p50_distance ← percentile_float (l_reuse_distances st) (lit 50 1);
    p95_distance ← percentile_float (l_reuse_distances st) (lit 95 1);
    overlap ← mean_or_zero_f (l_overlap st);
    duplicates ← mean_or_zero (l_duplicates st);
    Ok {| stats_trace_file := path; stats_trace_name := stem; rows_per_block := rpb; num_batches := nb;
          total_lookups := l_total st;
          unique_ids := zlen (l_id_counter st); unique_blocks := zlen (l_block_counter st);
          id_frequency := id_frequency; block_frequency := block_frequency;
          estimated_zipf_alpha_ids := estimate_zipf_slope polyfit_loglog (l_id_counter st) 1000;
          estimated_zipf_alpha_blocks := estimate_zipf_slope polyfit_loglog (l_block_counter st) 1000;
          avg_unique_ids_per_batch := avg_ids; avg_unique_blocks_per_batch := avg_blocks;
          p50_unique_blocks_per_batch := p50; p95_unique_blocks_per_batch := p95;
          block_reuse_rate := reuse;
          avg_batches := avg_distance; p50_batches := p50_distance; p95_batches := p95_distance;
          cache_simulation :=
            (λ gc : Z * Z, (dec gc.1 ++ u "GB", default f_zero (dict_get rates (dec gc.2)))) <$> zip dram_gb caps;
          avg_overlap_ratio := overlap; avg_duplicate_blocks := duplicates;
          stats_metadata := EmbeddingTrace.metadata trace |}.

  (** The rows [write_csv] writes: kind, rank, key, count. *)
Definition write_csv (s : stats) : list (str * Z * Z * Z) :=
    mjoin ((λ kf : str * coverage_stats,
              (λ rp : Z * (Z * Z), (kf.1, rp.1 + 1, rp.2.1, rp.2.2)) <$> enumerate (cov_topk kf.2)) <$>
           [(u "id_frequency", id_frequency s); (u "block_frequency", block_frequency s)]).
End Analyze.

(** A stream without exceptions is the list it yields. *)
Lemma enumerate_stream_Ok {A} (l : list A) : enumerate_stream (Ok <$> l) = Ok <$> enumerate l.
Proof.
  unfold enumerate_stream. induction l as [|x l IH] using rev_ind; [done|].
  rewrite fmap_app. cbn [fmap list_fmap]. rewrite !enumerate_snoc, !fmap_app, length_fmap. f_equal. exact IH.
Qed.

(** ** Lemmas: overlap of the ranks *)

Lemma union_size_disjoint (chunks : list (list Z)) :
  NoDup (concat chunks) →
  set_size (⋃ (int_set <$> chunks)) = zsum (set_size <$> (int_set <$> chunks)) ∧
  (∀ x, x ∈ ⋃ (int_set <$> chunks) ↔ x ∈ concat chunks).
Proof.
  induction chunks as [|c chunks IH]; cbn [concat]; intros ND.
  - split; [done|]. intros x. set_solver.
  - apply NoDup_app in ND as (ND1 & Hd & ND2). destruct (IH ND2) as [IHs IHe].
    rewrite !fmap_cons, union_list_cons. split.
    + unfold set_size. rewrite size_union.
      * change (zsum (Z.of_nat (size (int_set c)) :: ?l)) with (Z.of_nat (size (int_set c)) + zsum l).
        rewrite Nat2Z.inj_add. f_equal. exact IHs.
      * intros x Hx Hx'. apply IHe in Hx'. apply (Hd x); [|done]. unfold int_set in Hx.
        by apply elem_of_list_to_set in Hx.
    + intros x. rewrite elem_of_union, elem_of_app, IHe. unfold int_set. by rewrite elem_of_list_to_set.
Qed.

Lemma overlap_zero `{NP : NumPy} blocks ranks :
  NoDup blocks → 0 < ranks → batch_multi_gpu_overlap blocks ranks = Ok (f_zero, 0).
Proof.
  intros ND Hr. unfold batch_multi_gpu_overlap. rewrite (proj2 (Z.leb_gt ranks 0)) by done.
  destruct (union_size_disjoint (np_array_split blocks ranks)) as [-> _].
  { by rewrite np_array_split_concat. }
  rewrite Z.sub_diag, truediv_zero by lia. done.
Qed.

(** ** Lemmas: reuse distances *)

(** The last of the batches [bs] that holds a block. *)
Definition last_use (bs : list (list Z)) (block : Z) : option Z :=
  foldl (λ acc (ib : Z * list Z), if decide (block ∈ ib.2) then Some ib.1 else acc) None (enumerate bs).

Lemma last_use_snoc bs b block :
  last_use (bs ++ [b]) block = if decide (block ∈ b) then Some (zlen bs) else last_use bs block.
Proof. unfold last_use. by rewrite enumerate_snoc, foldl_app. Qed.

Lemma last_use_spec bs block t :
  last_use bs block = Some t →
  0 ≤ t < zlen bs ∧ (∃ b, bs !! Z.to_nat t = Some b ∧ block ∈ b) ∧
  (∀ t' b, t < t' → bs !! Z.to_nat t' = Some b → block ∉ b).
Proof.
  induction bs as [|b bs IH] using rev_ind; [done|]. rewrite last_use_snoc, length_app. cbn [length].
  case_decide as Hb.
  - intros [= <-]. split; [lia|]. split.
    + exists b. split; [|done]. rewrite lookup_app_r by lia. by rewrite Nat2Z.id, Nat.sub_diag.
    + intros t' b' Ht Hb'. apply lookup_lt_Some in Hb'. rewrite length_app in Hb'. cbn [length] in Hb'. lia.
  - intros H. destruct (IH H) as (H1 & (b' & H2 & H3) & H4). split; [lia|]. split.
    + exists b'. split; [|done]. rewrite lookup_app_l by lia. done.
    + intros t' b'' Ht Hb''. destruct (decide (Z.to_nat t' < length bs)%nat).
      * rewrite lookup_app_l in Hb'' by done. by eapply H4.
      * rewrite lookup_app_r in Hb'' by lia.
        destruct (Z.to_nat t' - length bs)%nat; [|done]. simpl in Hb''. congruence.
Qed.

(** The distances of the batches' blocks, in sorted order within a batch. *)
Definition batch_distances (past : list (list Z)) (b : list Z) : list Z :=
  omap (λ block, (λ t, zlen past - t) <$> last_use past block) b.
Definition distances_spec (bs : list (list Z)) : list Z :=
  (foldl (λ (st : list (list Z) * list Z) b, (st.1 ++ [b], st.2 ++ batch_distances st.1 b)) ([], []) bs).2.

Lemma distances_spec_snoc bs b : distances_spec (bs ++ [b]) = distances_spec bs ++ batch_distances bs b.
Proof.
  unfold distances_spec. rewrite foldl_app. cbn [foldl snd]. f_equal.
  assert (∀ acc, (foldl (λ (st : list (list Z) * list Z) b, (st.1 ++ [b], st.2 ++ batch_distances st.1 b)) acc bs).1 =
            acc.1 ++ bs) as ->; [|done].
  induction bs as [|x bs IH]; intros acc; cbn [foldl]; [by rewrite app_nil_r|]. rewrite IH. cbn [fst].
  by rewrite <-app_assoc.
Qed.

Lemma batch_distances_bounds past b : Forall (λ d, 1 ≤ d ≤ zlen past) (batch_distances past b).
Proof.
  apply Forall_forall. intros d (x & _ & (t & Ht & Hd)%fmap_Some)%list_elem_of_omap.
  apply last_use_spec in Ht as (Ht & _). lia.
Qed.

Lemma distances_spec_bounds bs : Forall (λ d, 1 ≤ d ≤ zlen bs) (distances_spec bs).
Proof.
  induction bs as [|b bs IH] using rev_ind; [constructor|]. rewrite distances_spec_snoc, length_app. cbn [length].
  apply Forall_app_2; [|pose proof (batch_distances_bounds bs b)]; forall_lia.
Qed.

Lemma distances_spec_length bs : zlen (distances_spec bs) ≤ zlen (concat bs).
Proof.
  induction bs as [|b bs IH] using rev_ind; [done|]. rewrite distances_spec_snoc, concat_app, !length_app.
  cbn [concat]. rewrite app_nil_r.
  assert (length (batch_distances bs b) ≤ length b)%nat; [|lia].
  unfold batch_distances. clear. induction b as [|x b IH]; [done|]. cbn. case_match; cbn; lia.
Qed.

Lemma omap_ext_in {A B} (f g : A → option B) (l : list A) : (∀ x, x ∈ l → f x = g x) → omap f l = omap g l.
Proof.
  induction l as [|x l IH]; intros H; [done|]. cbn. rewrite (H x) by left.
  rewrite IH; [done|]. intros y Hy. apply H. by right.
Qed.

(** One pass over the blocks of a batch, in any order. *)
Lemma distance_fold i order d ls :
  NoDup order →
  (foldl (distance_step i) (d, ls) order).1 = d ++ omap (λ b, (λ t, i - t) <$> ls !! b) order ∧
  ∀ b, (foldl (distance_step i) (d, ls) order).2 !! b = if decide (b ∈ order) then Some i else ls !! b.
Proof.
  revert d ls; induction order as [|x order IH]; intros d ls ND; cbn [foldl].
  { cbn. rewrite app_nil_r. split; [done|]. intros b. by rewrite decide_False by apply not_elem_of_nil. }
  apply NoDup_cons in ND as [Hn ND]. cbn [distance_step].
  set (d' := match ls !! x with Some t => d ++ [i - t] | None => d end).
  destruct (IH d' (<[x := i]> ls) ND) as [-> E]. split.
  - assert (omap (λ b, (λ t, i - t) <$> <[x:=i]> ls !! b) order = omap (λ b, (λ t, i - t) <$> ls !! b) order) as ->.
    { apply omap_ext_in. intros b Hb. rewrite lookup_insert_ne; [done|]. by intros ->. }
    subst d'. cbn. destruct (ls !! x); cbn; [by rewrite <-app_assoc|done].
  - intros b. rewrite E. destruct (decide (b = x)) as [->|Hne].
    + rewrite decide_False by done. rewrite lookup_insert_eq. by rewrite decide_True by left.
    + rewrite lookup_insert_ne by done.
      destruct (decide (b ∈ order)); [by rewrite decide_True by (by right)|].
      rewrite decide_False; [done|]. by intros [?|?]%elem_of_cons.
Qed.

(** ** Blocks of a batch *)

(** The blocks of a batch, as a sorted list. *)
Definition blocks_of (rpb : Z) (ids : list Z) : list Z := unique_ref (block_of rpb <$> ids).

Lemma blocks_of_NoDup rpb ids : NoDup (blocks_of rpb ids).
Proof. apply StronglySorted_lt_NoDup, unique_ref_sorted. Qed.
#[export] Hint Resolve blocks_of_NoDup : memtier.

Lemma blocks_u64 rpb l : 0 < rpb → all_u64 l → all_u64 (block_of rpb <$> l).
Proof.
  intros Hr Hu. apply Forall_fmap. refine (Forall_impl _ _ _ Hu _). intros x Hx.
  unfold compose, block_of, in_width in *. pose proof (Z.div_pos x rpb). split; [lia|].
  apply Z.le_lt_trans with x; [|lia]. apply Z.div_le_upper_bound; nia.
Qed.

Lemma unique_ref_length l : zlen (unique_ref l) = set_size (int_set l).
Proof.
  unfold set_size. f_equal. rewrite <-(size_list_to_set (C := gset Z) (unique_ref l)).
  2:{ apply StronglySorted_lt_NoDup, unique_ref_sorted. }
  f_equal. apply set_eq. intros x. unfold int_set. by rewrite !elem_of_list_to_set, unique_ref_elem.
Qed.

Lemma int_set_cons x l : int_set (x :: l) = {[x]} ∪ int_set l.
Proof. done. Qed.

Lemma elem_of_int_set x l : x ∈ int_set l ↔ x ∈ l.
Proof. unfold int_set. apply elem_of_list_to_set. Qed.

Lemma size_int_set_cons x l :
  set_size (int_set (x :: l)) = set_size (int_set l) + (if decide (x ∈ l) then 0 else 1).
Proof.
  rewrite int_set_cons. unfold set_size. case_decide as Hx.
  - rewrite subseteq_union_1_L; [lia|]. apply singleton_subseteq_l. by apply elem_of_int_set.
  - rewrite size_union, size_singleton; [lia|]. apply disjoint_singleton_l. by rewrite elem_of_int_set.
Qed.

Lemma size_int_set_fmap (f : Z → Z) l : set_size (int_set (f <$> l)) ≤ set_size (int_set l).
Proof.
  induction l as [|x l IH]; [done|]. rewrite fmap_cons, !size_int_set_cons.
  destruct (decide (x ∈ l)) as [Hx|Hx]; [|case_decide; lia].
  rewrite decide_True; [lia|]. apply list_elem_of_fmap. by exists x.
Qed.

Lemma size_int_set_le l : set_size (int_set l) ≤ zlen l.
Proof.
  induction l as [|x l IH]; [done|]. rewrite size_int_set_cons. cbn [length]. case_decide; lia.
Qed.

(** A trace written by the converters reads back: the batches are the ids in
    order, and their blocks are the same with and without saved block ids. *)
Lemma written_trace_reads `{NP : NumPy, AA : AsArray} fields array blocks n w b rpb :
  plain_json (JObj fields) →
  dict_get fields (u "batch_size") = Some (JInt b) → dict_get fields (u "bag_size") = Some (JInt w) →
  shape array = [n; w] → nd_wf array → all_u64 (data array) → 0 < w → 0 < b → in_width 64 rpb → 0 < rpb →
  match blocks with
  | Some a => shape a = [n; w] ∧ data a = block_of rpb <$> data array
  | None => True
  end →
  ∃ tr, EmbeddingTrace.init (Npz (Some (json_dumps (JObj fields))) (Some array) blocks) (Some rpb) = Ok tr ∧
    EmbeddingTrace.num_batches tr = Ok (cdiv n b) ∧
    EmbeddingTrace.iter_batches tr = Ok (batches_of (b * w) (data array)) ∧
    EmbeddingTrace.iter_block_batches tr = Ok (blocks_of rpb <$> batches_of (b * w) (data array)).
Proof.
  intros Hp Hbs Hbag Hs Hwf Hu Hw Hb Hr Hr0 Hbl.
  destruct (EmbeddingTrace.init_sample_trace fields array blocks n w b rpb Hp Hbs Hbag Hs Hwf Hw Hb)
    as (tr & Ei & Ht & Erpb & Ebl).
  exists tr. pose proof (EmbeddingTrace.iter_batches_samples _ _ _ _ _ Ht Hu) as Eit.
  pose proof (EmbeddingTrace.num_batches_samples _ _ _ _ _ Ht) as Enb.
  split_and!; [done|done|done|]. unfold EmbeddingTrace.iter_block_batches.
  rewrite Enb. cbn [mbind result_bind].
  assert (zlen (data array) = n * w) as El.
  { destruct Hwf as [_ Hl]. rewrite Hs in Hl. simpl in Hl. lia. }
  assert (cdiv (zlen (data array)) (b * w) = cdiv n b) as Ec.
  { rewrite El. apply cdiv_unique; [nia|]. pose proof (cdiv_spec n b Hb). nia. }
  apply mapM_Ok. unfold batches_of. rewrite Ec, El.
  rewrite <-list_fmap_compose. apply Forall2_fmap_r, Forall_Forall2_diag, Forall_seqZ. intros i Hi.
  unfold compose.
  set (batch := py_slice (data array) (i * (b * w)) (Z.min (n * w) (i * (b * w) + b * w))).
  assert (all_u64 batch) as Hub.
  { apply Forall_forall. intros x Hx. unfold all_u64 in Hu. rewrite Forall_forall in Hu. apply Hu. by eapply py_slice_elem. }
  assert (∀ x, x ∈ batch → np_floordiv x rpb = block_of rpb x) as Hdiv.
  { intros x Hx. apply np_floordiv_pos; [|done]. unfold all_u64 in Hub. rewrite Forall_forall in Hub. by apply Hub. }
  unfold EmbeddingTrace.get_batch_block_ids. rewrite Ebl. destruct blocks as [a|].
  - destruct Hbl as [Esa Eda].
    rewrite (EmbeddingTrace.batch_from_array_samples tr a n w b i); [|done| |lia|done|lia].
    2:{ rewrite <-(EmbeddingTrace.sample_batches_Ok _ _ _ _ _ Ht). apply EmbeddingTrace.sample_batches_ext; congruence. }
    cbn [mbind result_bind]. rewrite Eda, <-py_slice_fmap. fold batch.
    rewrite astype_uint64_id, np_unique_ref; [done|]. apply Forall_fmap. refine (Forall_impl _ _ _ Hub _).
    intros x Hx. unfold compose, block_of, in_width in *. pose proof (Z.div_pos x rpb). split; [lia|].
    apply Z.le_lt_trans with x; [|lia]. apply Z.div_le_upper_bound; nia.
  - rewrite Erpb, (proj2 (Z.eqb_neq rpb 0)) by lia.
    rewrite (EmbeddingTrace.get_batch_ids_samples _ _ _ _ _ i Ht Hu) by lia. cbn [mbind result_bind].
    rewrite np_uint64_small by done. cbn [mbind result_bind]. fold batch. rewrite np_unique_ref.
    unfold blocks_of. do 2 f_equal. apply list_fmap_ext. intros k x Hx. apply Hdiv. by eapply list_elem_of_lookup_2.
Qed.

(** ** The loop invariant *)

Section Loop.
Context {NP : NumPy} {PS : PySet}.
Variable rpb : Z.
Hypothesis rpb_width : in_width 64 rpb.
Hypothesis rpb_pos : 0 < rpb.
Variable caps : list Z.
Hypothesis caps_nonneg : Forall (λ c, 0 ≤ c) (dict_keys caps).
Hypothesis caps_NoDup : NoDup (dict_keys caps).

(** What the loop holds after the batches [seen]. *)
Record analyze_inv (seen : list (list Z)) (st : loop) : Prop := {
  inv_ids : l_id_counter st = counter_update [] (concat seen);
  inv_blocks : l_block_counter st = counter_update [] (concat (blocks_of rpb <$> seen));
  inv_unique_blocks : l_unique_blocks st = (λ b, zlen b) <$> (blocks_of rpb <$> seen);
  inv_unique_ids : l_unique_ids st = (λ ids, set_size (int_set ids)) <$> seen;
  inv_reuse : Forall (λ r, in_unit r = true) (l_reuse_ratios st);
  inv_distances : l_reuse_distances st ≡ₚ distances_spec (blocks_of rpb <$> seen);
  inv_last_seen : ∀ b, l_last_seen st !! b = last_use (blocks_of rpb <$> seen) b;
  inv_total : l_total st = zlen (concat seen);
  inv_sims : l_sims st = (λ c, (c, lru_content c (concat (blocks_of rpb <$> seen)))) <$> dict_keys caps;
  inv_hits : lru_state (dict_keys caps) (concat (blocks_of rpb <$> seen)) (l_hits st);
  inv_sim_total : l_sim_total st = zlen (concat (blocks_of rpb <$> seen));
  inv_overlap : l_overlap st = replicate (length seen) f_zero;
  inv_duplicates : l_duplicates st = replicate (length seen) 0;
}.

Lemma analyze_inv_init : analyze_inv [] (loop_init caps).
Proof.
  split; try done; try (by constructor).
  - apply fresh_sims_content.
  - apply fresh_hits_state.
Qed.

Lemma batch_blocks_Ok ids : all_u64 ids → batch_blocks ids rpb = Ok (blocks_of rpb ids).
Proof.
  intros Hu. unfold batch_blocks. rewrite np_uint64_small by done. cbn [mbind result_bind].
  rewrite np_unique_ref. unfold blocks_of. do 2 f_equal. apply list_fmap_ext. intros i x Hx.
  apply np_floordiv_pos; [|done]. by apply (Forall_lookup_1 _ _ _ _ Hu Hx).
Qed.

Lemma concat_blocks_snoc seen ids :
  concat (blocks_of rpb <$> (seen ++ [ids])) = concat (blocks_of rpb <$> seen) ++ blocks_of rpb ids.
Proof. rewrite fmap_app, concat_app. cbn. by rewrite app_nil_r. Qed.

Lemma analyze_step_Ok seen st ids :
  all_u64 ids → analyze_inv seen st →
  ∃ st', analyze_step rpb st (zlen seen, ids) = Ok st' ∧ analyze_inv (seen ++ [ids]) st'.
Proof.
  intros Hu I. unfold analyze_step. rewrite batch_blocks_Ok by done. cbn [mbind result_bind].
  set (bl := blocks_of rpb ids). rewrite (inv_sims _ _ I).
  destruct (update_lru_sims_spec (dict_keys caps) (concat (blocks_of rpb <$> seen)) (l_hits st) bl)
    as (hits' & -> & Hhits); [done..|apply (inv_hits _ _ I)|]. cbn [mbind result_bind].
  rewrite overlap_zero by (done || apply blocks_of_NoDup). cbn [mbind result_bind].
  assert (∃ ratios, (if decide (l_previous st = ∅) then Ok (l_reuse_ratios st)
            else r ← reuse_ratio (int_set bl) (l_previous st); Ok (l_reuse_ratios st ++ [r])) = Ok ratios ∧
            Forall (λ r, in_unit r = true) ratios) as (ratios & -> & Hratios).
  { case_decide; [exists (l_reuse_ratios st); split; [done|apply (inv_reuse _ _ I)]|].
    destruct (reuse_ratio_Ok (int_set bl) (l_previous st)) as (r & -> & Hr). eexists. split; [done|].
    apply Forall_app_2; [apply (inv_reuse _ _ I)|by repeat constructor]. }
  cbn [mbind result_bind].
  assert (set_order (int_set bl) ≡ₚ bl) as Horder.
  { rewrite set_order_perm. unfold int_set. apply elements_list_to_set, blocks_of_NoDup. }
  assert (NoDup (set_order (int_set bl))) as ND by (rewrite Horder; apply blocks_of_NoDup).
  destruct (distance_fold (zlen seen) _ (l_reuse_distances st) (l_last_seen st) ND) as [Ed Els].
  destruct (foldl _ _ (set_order (int_set bl))) as [distances last_seen]. cbn [fst snd] in Ed, Els.
  eexists. split; [done|].
  assert (blocks_of rpb <$> (seen ++ [ids]) = (blocks_of rpb <$> seen) ++ [bl]) as Esn by (by rewrite fmap_app).
  split; cbn [l_id_counter l_block_counter l_unique_blocks l_unique_ids l_reuse_ratios l_reuse_distances
    l_last_seen l_previous l_total l_sims l_hits l_sim_total l_overlap l_duplicates]; try done.
  - rewrite (inv_ids _ _ I), concat_app. cbn [concat]. rewrite app_nil_r. unfold counter_update. by rewrite foldl_app.
  - rewrite (inv_blocks _ _ I), concat_blocks_snoc. unfold counter_update. by rewrite foldl_app.
  - rewrite (inv_unique_blocks _ _ I), Esn, fmap_app. do 2 f_equal. cbn. unfold set_size.
    by rewrite size_int_set_NoDup by apply blocks_of_NoDup.
  - by rewrite (inv_unique_ids _ _ I), fmap_app.
  - rewrite Ed, Esn, distances_spec_snoc, (inv_distances _ _ I). f_equiv. unfold batch_distances.
    rewrite length_fmap, Horder. apply reflexive_eq, omap_ext_in. intros b _. by rewrite (inv_last_seen _ _ I).
  - intros b. rewrite Els, Esn, last_use_snoc, length_fmap, (inv_last_seen _ _ I).
    destruct (decide (b ∈ bl)) as [Hb|Hb]; [rewrite decide_True by (by rewrite Horder); done|].
    rewrite decide_False by (by rewrite Horder). done.
  - rewrite (inv_total _ _ I), concat_app, length_app. cbn [concat]. rewrite app_nil_r. lia.
  - by rewrite concat_blocks_snoc.
  - rewrite concat_blocks_snoc. apply Hhits.
  - rewrite (inv_sim_total _ _ I), concat_blocks_snoc, length_app. fold bl. lia.
  - by rewrite (inv_overlap _ _ I), length_app, replicate_add.
  - by rewrite (inv_duplicates _ _ I), length_app, replicate_add.
Qed.

Lemma analyze_loop_Ok batches :
  Forall all_u64 batches →
  ∃ st, foldM (analyze_step rpb) (loop_init caps) (enumerate batches) = Ok st ∧ analyze_inv batches st.
Proof.
  induction batches as [|ids batches IH] using rev_ind; intros Hu.
  { exists (loop_init caps). split; [done|apply analyze_inv_init]. }
  apply Forall_app in Hu as [Hu Hi]. apply Forall_cons in Hi as [Hi _].
  destruct (IH Hu) as (st & E & I). destruct (analyze_step_Ok batches st ids Hi I) as (st' & E' & I').
  exists st'. split; [|done]. rewrite enumerate_snoc, foldM_app, E. cbn [mbind result_bind foldM]. by rewrite E'.
Qed.
End Loop.

(** ** Lemmas: capacities and hit rates *)

Lemma capacity_pos bb gb : 1 ≤ capacity bb gb.
Proof. unfold capacity. lia. Qed.

Lemma capacity_mono bb gb1 gb2 : gb1 ≤ gb2 → capacity bb gb1 ≤ capacity bb gb2.
Proof.
  intros H. unfold capacity. apply Z.max_le_compat_l, Z.div_le_mono; [lia|]. nia.
Qed.

Lemma dict_keys_snoc l k : dict_keys (l ++ [k]) = if decide (k ∈ dict_keys l) then dict_keys l else dict_keys l ++ [k].
Proof. unfold dict_keys. by rewrite foldl_app. Qed.

Lemma dict_keys_spec l : NoDup (dict_keys l) ∧ ∀ k, k ∈ dict_keys l ↔ k ∈ l.
Proof.
  induction l as [|x l [ND IH]] using rev_ind; [split; [constructor|done]|]. rewrite dict_keys_snoc. case_decide as Hx.
  - split; [done|]. intros k. rewrite IH, elem_of_app, list_elem_of_singleton. rewrite IH in Hx.
    split; [by left|intros [?| ->]; done].
  - split.
    + apply NoDup_app. split_and!; [done| |apply NoDup_singleton]. by intros k Hk ->%list_elem_of_singleton.
    + intros k. by rewrite !elem_of_app, IH.
Qed.

Lemma capacities_keys bb :
  NoDup (dict_keys (capacities bb)) ∧ Forall (λ c, 0 ≤ c) (dict_keys (capacities bb)).
Proof.
  destruct (dict_keys_spec (capacities bb)) as [ND E]. split; [done|]. apply Forall_forall. intros c Hc.
  apply E, list_elem_of_fmap in Hc as (gb & -> & _). pose proof (capacity_pos bb gb). lia.
Qed.

(** The hit rate of a capacity over the blocks simulated. *)
Definition rate_of (blocks : list Z) (cap : Z) : f64 :=
  match truediv (lru_hits cap [] blocks) (Z.max (zlen blocks) 1) with Ok r => r | Err _ => f_zero end.

Lemma rate_of_Ok blocks cap :
  truediv (lru_hits cap [] blocks) (Z.max (zlen blocks) 1) = Ok (rate_of blocks cap) ∧
  in_unit (rate_of blocks cap) = true.
Proof.
  pose proof (lru_hits_bound cap [] blocks) as B. cbn [app list_to_set] in B. rewrite size_empty in B.
  destruct (truediv_unit (lru_hits cap [] blocks) (Z.max (zlen blocks) 1)) as (r & E & U); [lia|lia|].
  unfold rate_of. by rewrite E.
Qed.

Lemma rate_of_mono blocks c1 c2 : c1 ≤ c2 → fle (rate_of blocks c1) (rate_of blocks c2) = true.
Proof.
  intros H. destruct (rate_of_Ok blocks c1) as [E1 _]. destruct (rate_of_Ok blocks c2) as [E2 _].
  eapply truediv_mono; [| |exact E1|exact E2]; [|apply Z.lt_le_trans with 1; [done|apply Z.le_max_r]].
  split; [|by apply lru_hits_mono].
  apply lru_hits_bound.
Qed.

Lemma hit_rates_Ok st blocks keys caps :
  lru_state keys blocks (l_hits st) → l_sim_total st = zlen blocks → (∀ c, c ∈ caps → c ∈ keys) →
  ∃ rates, hit_rates caps st = Ok rates ∧ ∀ c, c ∈ caps → dict_get rates (dec c) = Some (rate_of blocks c).
Proof.
  intros Hh Ht. unfold hit_rates. rewrite Ht.
  assert (∀ rates0 past, (∀ c, c ∈ past → dict_get rates0 (dec c) = Some (rate_of blocks c)) →
    (∀ c, c ∈ caps → c ∈ keys) → ∃ rates, foldM (λ rates cap,
      h ← of_option KeyError (l_hits st !! cap);
      r ← truediv h (Z.max (zlen blocks) 1); Ok (dict_set rates (dec cap) r)) rates0 caps = Ok rates ∧
    ∀ c, c ∈ past ++ caps → dict_get rates (dec c) = Some (rate_of blocks c)) as Main.
  { induction caps as [|cap caps IH]; intros rates0 past Hp Hk; cbn [foldM].
    { exists rates0. split; [done|]. intros c. by rewrite app_nil_r; apply Hp. }
    rewrite (Hh cap) by (apply Hk; left). cbn [of_option mbind result_bind].
    destruct (rate_of_Ok blocks cap) as [-> _]. cbn [mbind result_bind].
    destruct (IH (dict_set rates0 (dec cap) (rate_of blocks cap)) (past ++ [cap])) as (rates & -> & H).
    - intros c. rewrite dict_get_set, elem_of_app, list_elem_of_singleton. case_decide as Hd.
      + by apply dec_inj in Hd as ->.
      + intros [Hc| ->]; [by apply Hp|done].
    - intros c Hc. apply Hk. by right.
    - exists rates. split; [done|]. intros c Hc. apply H. by rewrite <-app_assoc. }
  intros Hk. destruct (Main [] []) as (rates & E & H); [intros c []%elem_of_nil|done|]. exists rates. eauto.
Qed.

(** ** Lemmas: means *)

Lemma mean_or_zero_Ok l : Forall (λ x, 0 ≤ x ≤ two53) l → ∃ f, mean_or_zero l = Ok f.
Proof.
  intros H. unfold mean_or_zero. case_decide as E; [eauto|]. destruct (mean_Z_bounded l E H) as (f & -> & _). eauto.
Qed.

Lemma mean_or_zero_f_Ok l :
  Forall (λ r, in_unit r = true) l → ∃ f, mean_or_zero_f l = Ok f ∧ in_unit f = true.
Proof.
  intros H. unfold mean_or_zero_f. case_decide as E; [by exists f_zero|]. by apply mean_f_unit.
Qed.

Lemma mean_or_zero_zeros n : mean_or_zero (replicate n 0) = Ok f_zero.
Proof. unfold mean_or_zero. case_decide as E; [done|]. apply mean_Z_zeros. by intros ->. Qed.

Lemma mean_or_zero_f_zeros n : mean_or_zero_f (replicate n f_zero) = Ok f_zero.
Proof. unfold mean_or_zero_f. case_decide as E; [done|]. apply mean_f_zeros. by intros ->. Qed.

Lemma elem_of_concat_length {A} (l : list A) (ls : list (list A)) : l ∈ ls → zlen l ≤ zlen (concat ls).
Proof.
  induction ls as [|k ls IH]; [by intros []%elem_of_nil|]. cbn [concat]. rewrite length_app.
  intros [->|H]%elem_of_cons; [lia|]. specialize (IH H). lia.
Qed.

(** ** The statistics *)

Section Stats.
Context {NP : NumPy} {AA : AsArray} {PS : PySet}.
Variable polyfit_loglog : list Z → f64.

(** A trace the reader can read to the end. *)
Definition readable (file : trace_file) (rpb : Z) (batches : list (list Z)) : Prop :=
  ∃ trace, EmbeddingTrace.init file (Some rpb) = Ok trace ∧ EmbeddingTrace.iter_batches trace = Ok batches.

(** The statistics are computed from the state the loop ends in. *)
Lemma analyze_state file path stem rpb topk bb batches :
  readable file rpb batches → Forall all_u64 batches → in_width 64 rpb → 0 < rpb →
  ∃ st rates, analyze_inv rpb (capacities bb) batches st ∧
    hit_rates (capacities bb) st = Ok rates ∧
    (∀ c, c ∈ capacities bb → dict_get rates (dec c) = Some (rate_of (concat (blocks_of rpb <$> batches)) c)) ∧
    ∀ s, analyze_trace_file polyfit_loglog file path stem rpb topk bb = Ok s →
      cache_simulation s =
        (λ gb, (dec gb ++ u "GB", rate_of (concat (blocks_of rpb <$> batches)) (capacity bb gb))) <$> dram_gb ∧
      total_lookups s = l_total st ∧ unique_ids s = zlen (l_id_counter st) ∧
      unique_blocks s = zlen (l_block_counter st) ∧
      mean_or_zero_f (l_reuse_ratios st) = Ok (block_reuse_rate s) ∧
      mean_or_zero_f (l_overlap st) = Ok (avg_overlap_ratio s) ∧
      mean_or_zero (l_duplicates st) = Ok (avg_duplicate_blocks s).
Proof.
  intros (trace & Ei & Eb) Hu Hw Hp. destruct (capacities_keys bb) as [ND HF].
  destruct (analyze_loop_Ok rpb Hw Hp (capacities bb) HF ND batches Hu) as (st & Est & I).
  destruct (hit_rates_Ok st _ _ (capacities bb) (inv_hits _ _ _ _ I) (inv_sim_total _ _ _ _ I)) as (rates & Er & Hr).
  { intros c Hc. by apply (proj2 (dict_keys_spec _)). }
  exists st, rates. split_and!; [done|done|done|]. intros s. unfold analyze_trace_file.
  rewrite Ei. cbn [mbind result_bind]. rewrite (EmbeddingTrace.batch_stream_Ok _ _ Eb). cbn [mbind result_bind].
  rewrite enumerate_stream_Ok, for_each_Ok, Est. cbn [mbind result_bind].
  rewrite Er. cbn [mbind result_bind]. intros H. inv_res. cbn [cache_simulation total_lookups unique_ids unique_blocks
    block_reuse_rate avg_overlap_ratio avg_duplicate_blocks].
  split_and!; try done. unfold capacities in Hr |- *. unfold dram_gb.
  assert (∀ gb, gb ∈ dram_gb → dict_get rates (dec (capacity bb gb)) =
            Some (rate_of (concat (blocks_of rpb <$> batches)) (capacity bb gb))) as Hg.
  { intros gb Hgb. apply Hr. apply list_elem_of_fmap. eauto. }
  unfold dram_gb in Hg. cbn [fmap list_fmap zip zip_with fst snd].
  rewrite !Hg by set_solver. done.
Qed.

(** The distinct blocks of the batches are the blocks of all the ids. *)
Lemma distinct_blocks rpb batches :
  Z.of_nat (size (list_to_set (concat (blocks_of rpb <$> batches)) : gset Z)) =
  set_size (int_set (block_of rpb <$> concat batches)).
Proof.
  unfold set_size. do 2 f_equal. apply set_eq. intros x. rewrite elem_of_list_to_set, elem_of_int_set.
  induction batches as [|b batches IH]; [done|].
  rewrite fmap_cons. cbn [concat]. rewrite fmap_app, !elem_of_app, IH. unfold blocks_of at 1.
  by rewrite unique_ref_elem.
Qed.

Lemma blocks_length rpb batches : zlen (concat (blocks_of rpb <$> batches)) ≤ zlen (concat batches).
Proof.
  induction batches as [|b batches IH]; [done|]. rewrite fmap_cons. cbn [concat]. rewrite !length_app.
  pose proof (unique_ref_length (block_of rpb <$> b)) as E. pose proof (size_int_set_le (block_of rpb <$> b)) as L.
  rewrite length_fmap in L. unfold blocks_of at 1. lia.
Qed.

Lemma analyze_runs file path stem rpb topk bb batches :
  readable file rpb batches → Forall all_u64 batches → in_width 64 rpb → 0 < rpb →
  zlen batches ≤ two53 → zlen (concat batches) ≤ two53 →
  ∃ s, analyze_trace_file polyfit_loglog file path stem rpb topk bb = Ok s ∧
    total_lookups s = zlen (concat batches) ∧
    unique_ids s = set_size (int_set (concat batches)) ∧
    unique_blocks s = set_size (int_set (block_of rpb <$> concat batches)) ∧
    unique_blocks s ≤ unique_ids s ≤ total_lookups s ∧
    in_unit (block_reuse_rate s) = true.
Proof.
  intros HR Hu Hw Hp Hlb Hl.
  destruct (analyze_state file path stem rpb topk bb batches HR Hu Hw Hp) as (st & rates & I & Er & _ & Hs).
  assert (∃ s, analyze_trace_file polyfit_loglog file path stem rpb topk bb = Ok s) as [s Es].
  { clear Hs. destruct HR as (trace & Ei & Eb).
    assert (∃ nb, EmbeddingTrace.num_batches trace = Ok nb) as [nb Enb]
      by (unfold EmbeddingTrace.iter_batches in Eb; inv_res; eauto).
    destruct (capacities_keys bb) as [ND HF].
    destruct (analyze_loop_Ok rpb Hw Hp (capacities bb) HF ND batches Hu) as (st' & Est & I').
    clear st rates I Er. rename st' into st, I' into I.
    destruct (hit_rates_Ok st _ _ (capacities bb) (inv_hits _ _ _ _ I) (inv_sim_total _ _ _ _ I)) as (rates & Er & _).
    { intros c Hc. by apply (proj2 (dict_keys_spec _)). }
    pose proof (blocks_length rpb batches) as Hbl.
    pose proof (counter_update_spec [] (concat batches) counter_nil_wf) as (W1 & _ & _).
    pose proof (counter_update_spec [] (concat (blocks_of rpb <$> batches)) counter_nil_wf) as (W2 & _ & _).
    rewrite <-(inv_ids _ _ _ _ I) in W1. rewrite <-(inv_blocks _ _ _ _ I) in W2.
    assert (zlen (l_id_counter st) ≤ two53) as L1.
    { rewrite (inv_ids _ _ _ _ I), counter_distinct. pose proof (size_int_set_le (concat batches)) as H.
      unfold set_size, int_set in H. lia. }
    assert (zlen (l_block_counter st) ≤ two53) as L2.
    { rewrite (inv_blocks _ _ _ _ I), counter_distinct. pose proof (size_int_set_le (concat (blocks_of rpb <$> batches))) as H.
      unfold set_size, int_set in H. lia. }
    destruct (coverage_Ok _ topk W1 L1) as (cov1 & Ec1). destruct (coverage_Ok _ topk W2 L2) as (cov2 & Ec2).
    assert (Forall (λ x, 0 ≤ x ≤ two53) (l_unique_ids st)) as B1.
    { rewrite (inv_unique_ids _ _ _ _ I). apply Forall_fmap, Forall_forall. intros ids Hin. cbv beta delta [compose].
      pose proof (size_int_set_le ids). apply (elem_of_concat_length _ _) in Hin. unfold set_size in *. lia. }
    assert (Forall (λ x, 0 ≤ x ≤ two53) (l_unique_blocks st)) as B2.
    { rewrite (inv_unique_blocks _ _ _ _ I). apply Forall_fmap, Forall_forall. intros b Hin. cbv beta delta [compose].
      apply (elem_of_concat_length _ _) in Hin. lia. }
    assert (Forall (λ x, 0 ≤ x ≤ two53) (l_reuse_distances st) ∧ zlen (l_reuse_distances st) ≤ two53) as [B3 L3].
    { rewrite (inv_distances _ _ _ _ I). pose proof (distances_spec_bounds (blocks_of rpb <$> batches)) as B.
      pose proof (distances_spec_length (blocks_of rpb <$> batches)). rewrite length_fmap in B.
      split; [forall_lia|lia]. }
    assert (zlen (l_unique_blocks st) ≤ two53) as L4 by (rewrite (inv_unique_blocks _ _ _ _ I), !length_fmap; lia).
    destruct (mean_or_zero_Ok _ B1) as (? & E1). destruct (mean_or_zero_Ok _ B2) as (? & E2).
    destruct (mean_or_zero_Ok _ B3) as (? & E3).
    destruct (mean_or_zero_f_Ok _ (inv_reuse _ _ _ _ I)) as (? & E4 & _).
    destruct (percentile_float_Ok _ _ percentage_50 L4 B2) as (? & P1).
    destruct (percentile_float_Ok _ _ percentage_95 L4 B2) as (? & P2).
    destruct (percentile_float_Ok _ _ percentage_50 L3 B3) as (? & P3).
    destruct (percentile_float_Ok _ _ percentage_95 L3 B3) as (? & P4).
    unfold analyze_trace_file. rewrite Ei. cbn [mbind result_bind].
    rewrite (EmbeddingTrace.batch_stream_Ok _ _ Eb). cbn [mbind result_bind].
    rewrite enumerate_stream_Ok, for_each_Ok, Est. cbn [mbind result_bind]. rewrite Er. cbn [mbind result_bind]. rewrite Enb. cbn [mbind result_bind].
    rewrite Ec1. cbn [mbind result_bind]. rewrite Ec2. cbn [mbind result_bind]. rewrite E1. cbn [mbind result_bind].
    rewrite E2. cbn [mbind result_bind]. rewrite P1. cbn [mbind result_bind]. rewrite P2. cbn [mbind result_bind].
    rewrite E4. cbn [mbind result_bind]. rewrite E3. cbn [mbind result_bind]. rewrite P3. cbn [mbind result_bind].
    rewrite P4. cbn [mbind result_bind]. rewrite (inv_overlap _ _ _ _ I), (inv_duplicates _ _ _ _ I).
    rewrite mean_or_zero_zeros, mean_or_zero_f_zeros. eexists. reflexivity. }
  exists s. destruct (Hs s Es) as (_ & Et & Eid & Ebl & Ereuse & _ & _).
  destruct (mean_or_zero_f_Ok _ (inv_reuse _ _ _ _ I)) as (r & E & U). rewrite E in Ereuse. injection Ereuse as <-.
  assert (unique_ids s = set_size (int_set (concat batches))) as Hi.
  { rewrite Eid, (inv_ids _ _ _ _ I), counter_distinct. done. }
  assert (unique_blocks s = set_size (int_set (block_of rpb <$> concat batches))) as Hb.
  { rewrite Ebl, (inv_blocks _ _ _ _ I), counter_distinct. apply distinct_blocks. }
  assert (total_lookups s = zlen (concat batches)) as Ht by (by rewrite Et, (inv_total _ _ _ _ I)).
  split_and!; try done; rewrite ?Hi, ?Hb, ?Ht.
  - apply size_int_set_fmap.
  - apply size_int_set_le.
Qed.

(** C11: on a readable trace the analysis terminates with statistics, and they
    are consistent: every lookup is counted, the distinct ids and blocks are
    those of the trace, and blocks <= ids <= lookups; the block reuse rate is
    in [0, 1]. *)
Theorem analyze_trace_file_total file path stem rpb topk bb batches :
  readable file rpb batches → Forall all_u64 batches → in_width 64 rpb → 0 < rpb →
  zlen batches ≤ two53 → zlen (concat batches) ≤ two53 →
  ∃ s, analyze_trace_file polyfit_loglog file path stem rpb topk bb = Ok s ∧
    total_lookups s = zlen (concat batches) ∧
    unique_ids s = set_size (int_set (concat batches)) ∧
    unique_blocks s = set_size (int_set (block_of rpb <$> concat batches)) ∧
    unique_blocks s ≤ unique_ids s ≤ total_lookups s ∧
    in_unit (block_reuse_rate s) = true.
Proof. apply analyze_runs. Qed.

(** The simulated hit rates are ratios in [0, 1], and they grow with the
    size of the simulated DRAM cache (1, 4, 8, 16, 32 GB). *)
Lemma cache_simulation_monotone file path stem rpb topk bb batches s :
  readable file rpb batches → Forall all_u64 batches → in_width 64 rpb → 0 < rpb →
  analyze_trace_file polyfit_loglog file path stem rpb topk bb = Ok s →
  ∃ rates, cache_simulation s = zip [u "1GB"; u "4GB"; u "8GB"; u "16GB"; u "32GB"] rates ∧
    length rates = 5%nat ∧ Forall (λ r, in_unit r = true) rates ∧
    StronglySorted (λ r1 r2, fle r1 r2 = true) rates.
Proof.
  intros HR Hu Hw Hp Es.
  destruct (analyze_state file path stem rpb topk bb batches HR Hu Hw Hp) as (st & rates & _ & _ & _ & Hs).
  destruct (Hs s Es) as (Ec & _). set (bl := concat (blocks_of rpb <$> batches)) in *.
  exists ((λ gb, rate_of bl (capacity bb gb)) <$> dram_gb). split; [exact Ec|]. split; [done|]. split.
  - apply Forall_fmap, Forall_forall. intros gb _. apply rate_of_Ok.
  - assert (∀ g1 g2, g1 ≤ g2 → fle (rate_of bl (capacity bb g1)) (rate_of bl (capacity bb g2)) = true) as Hm.
    { intros g1 g2 Hg. by apply rate_of_mono, capacity_mono. }
    unfold dram_gb. cbn [fmap list_fmap]. repeat (constructor; [|repeat constructor; apply Hm; lia]). constructor.
Qed.

(** The overlap the analysis reports between ranks is always zero: the
    blocks it splits among the ranks are already distinct, so no rank shares a
    block with another, whatever the trace. *)
Lemma multi_gpu_overlap_always_zero file path stem rpb topk bb batches s :
  readable file rpb batches → Forall all_u64 batches → in_width 64 rpb → 0 < rpb →
  analyze_trace_file polyfit_loglog file path stem rpb topk bb = Ok s →
  avg_overlap_ratio s = f_zero ∧ avg_duplicate_blocks s = f_zero.
Proof.
  intros HR Hu Hw Hp Es.
  destruct (analyze_state file path stem rpb topk bb batches HR Hu Hw Hp) as (st & rates & I & _ & _ & Hs).
  destruct (Hs s Es) as (_ & _ & _ & _ & _ & Eo & Ed).
  rewrite (inv_overlap _ _ _ _ I), mean_or_zero_f_zeros in Eo.
  rewrite (inv_duplicates _ _ _ _ I), mean_or_zero_zeros in Ed. split; congruence.
Qed.

(** The reuse distances the loop collects are, in some order, the distances
    of each batch's blocks to the last earlier batch that held them, each at
    least one batch and at most the number of batches. *)
Lemma reuse_distances_exact rpb bb batches st :
  in_width 64 rpb → 0 < rpb → Forall all_u64 batches →
  foldM (analyze_step rpb) (loop_init (capacities bb)) (enumerate batches) = Ok st →
  l_reuse_distances st ≡ₚ distances_spec (blocks_of rpb <$> batches) ∧
  Forall (λ d, 1 ≤ d ≤ zlen batches) (l_reuse_distances st) ∧
  (∀ b t, l_last_seen st !! b = Some t →
     0 ≤ t < zlen batches ∧ ∃ ids, batches !! Z.to_nat t = Some ids ∧ b ∈ block_of rpb <$> ids).
Proof.
  intros Hw Hp Hu Est. destruct (capacities_keys bb) as [ND HF].
  destruct (analyze_loop_Ok rpb Hw Hp (capacities bb) HF ND batches Hu) as (st' & Est' & I).
  rewrite Est in Est'. injection Est' as <-. split_and!; [apply (inv_distances _ _ _ _ I)|..].
  - rewrite (inv_distances _ _ _ _ I). pose proof (distances_spec_bounds (blocks_of rpb <$> batches)) as B.
    by rewrite length_fmap in B.
  - intros b t Hb. rewrite (inv_last_seen _ _ _ _ I) in Hb.
    apply last_use_spec in Hb as (Ht & (bl & Hbl & Hin) & _). rewrite length_fmap in Ht. split; [done|].
    apply list_lookup_fmap_Some in Hbl as (ids & -> & Hids). exists ids. split; [done|].
    unfold blocks_of in Hin. by rewrite unique_ref_elem in Hin.
Qed.
End Stats.

(** ** The iteration order of sets does not matter *)

(** Loop states that differ at most in the order of the reuse distances. *)
Definition loop_eqv (a b : loop) : Prop :=
  l_reuse_distances a ≡ₚ l_reuse_distances b ∧
  l_id_counter a = l_id_counter b ∧ l_block_counter a = l_block_counter b ∧
  l_unique_blocks a = l_unique_blocks b ∧ l_unique_ids a = l_unique_ids b ∧
  l_reuse_ratios a = l_reuse_ratios b ∧ l_last_seen a = l_last_seen b ∧ l_previous a = l_previous b ∧
  l_total a = l_total b ∧ l_sims a = l_sims b ∧ l_hits a = l_hits b ∧ l_sim_total a = l_sim_total b ∧
  l_overlap a = l_overlap b ∧ l_duplicates a = l_duplicates b.

Definition result_eqv {A} (R : relation A) (r1 r2 : result A) : Prop :=
  match r1, r2 with Ok a, Ok b => R a b | Err e, Err e' => e = e' | _, _ => False end.

Lemma result_eqv_bind {A B} (R : relation A) (S : relation B) (r1 r2 : result A) (f1 f2 : A → result B) :
  result_eqv R r1 r2 → (∀ a b, R a b → result_eqv S (f1 a) (f2 b)) → result_eqv S (r1 ≫= f1) (r2 ≫= f2).
Proof. destruct r1, r2; simpl; [auto|done|done|by intros ->]. Qed.

Lemma result_eqv_same {A B} (S : relation B) (r : result A) (f1 f2 : A → result B) :
  (∀ a, result_eqv S (f1 a) (f2 a)) → result_eqv S (r ≫= f1) (r ≫= f2).
Proof. intros H. destruct r; simpl; [apply H|done]. Qed.

Lemma foldM_eqv {S A} (R : relation S) (f1 f2 : S → A → result S) l s1 s2 :
  (∀ a b x, R a b → result_eqv R (f1 a x) (f2 b x)) → R s1 s2 → result_eqv R (foldM f1 s1 l) (foldM f2 s2 l).
Proof.
  intros Hf. revert s1 s2; induction l as [|x l IH]; intros s1 s2 Hs; cbn [foldM]; [done|].
  eapply result_eqv_bind; [by apply Hf|]. intros a b. apply IH.
Qed.

Lemma result_eqv_eq {A} (r1 r2 : result A) : result_eqv eq r1 r2 → r1 = r2.
Proof. destruct r1, r2; simpl; [by intros ->|done|done|by intros ->]. Qed.

Section Order.
Context {NP : NumPy} {AA : AsArray}.
Variables PS1 PS2 : PySet.

Lemma distance_fold_eqv i X d1 d2 ls :
  d1 ≡ₚ d2 →
  (foldl (distance_step i) (d1, ls) (@set_order PS1 X)).1 ≡ₚ (foldl (distance_step i) (d2, ls) (@set_order PS2 X)).1 ∧
  (foldl (distance_step i) (d1, ls) (@set_order PS1 X)).2 = (foldl (distance_step i) (d2, ls) (@set_order PS2 X)).2.
Proof.
  intros Hd.
  assert (∀ PS, NoDup (@set_order PS X)) as ND by (intros PS; rewrite set_order_perm; apply NoDup_elements).
  destruct (distance_fold i _ d1 ls (ND PS1)) as [-> E1]. destruct (distance_fold i _ d2 ls (ND PS2)) as [-> E2].
  split; [by rewrite Hd, !set_order_perm|]. apply map_eq. intros b. rewrite E1, E2.
  destruct (decide (b ∈ @set_order PS1 X)) as [Hb|Hb]; rewrite set_order_perm in Hb.
  - by rewrite decide_True by (by rewrite set_order_perm).
  - by rewrite decide_False by (by rewrite set_order_perm).
Qed.

Lemma analyze_step_eqv rpb a b item :
  loop_eqv a b → result_eqv loop_eqv (@analyze_step NP PS1 rpb a item) (@analyze_step NP PS2 rpb b item).
Proof.
  destruct a, b, item as [i ids]. intros (Hd & ? & ? & ? & ? & ? & ? & ? & ? & ? & ? & ? & ? & ?).
  cbn [l_id_counter l_block_counter l_unique_blocks l_unique_ids l_reuse_ratios l_reuse_distances
    l_last_seen l_previous l_total l_sims l_hits l_sim_total l_overlap l_duplicates] in *. subst.
  unfold analyze_step. cbn [l_id_counter l_block_counter l_unique_blocks l_unique_ids l_reuse_ratios l_reuse_distances
    l_last_seen l_previous l_total l_sims l_hits l_sim_total l_overlap l_duplicates].
  apply result_eqv_same. intros bl. apply result_eqv_same. intros [[n sims] hits].
  apply result_eqv_same. intros [r dup]. apply result_eqv_same. intros ratios.
  destruct (distance_fold_eqv i (int_set bl) _ _ l_last_seen1 Hd) as [Ed El].
  destruct (foldl _ _ (@set_order PS1 (int_set bl))), (foldl _ _ (@set_order PS2 (int_set bl))).
  cbn [fst snd] in Ed, El. subst. by repeat split.
Qed.

Lemma mean_or_zero_Permutation l k : l ≡ₚ k → mean_or_zero l = mean_or_zero k.
Proof.
  intros H. unfold mean_or_zero. rewrite (mean_Z_Permutation _ _ H). destruct (decide (l = [])) as [->|Hl].
  - apply Permutation_nil_l in H. by subst.
  - rewrite decide_False; [done|]. intros ->. by apply Permutation_nil_r in H.
Qed.

Lemma percentile_float_Permutation l k pct : l ≡ₚ k → percentile_float l pct = percentile_float k pct.
Proof. intros H. unfold percentile_float. by rewrite (percentile_Permutation _ _ _ H). Qed.

Lemma hit_rates_ext caps a b : l_hits a = l_hits b → l_sim_total a = l_sim_total b → hit_rates caps a = hit_rates caps b.
Proof. intros H1 H2. unfold hit_rates. by rewrite H1, H2. Qed.

(** The statistics do not depend on the order in which Python iterates the
    set of a batch's blocks: for any two orders [analyze_trace_file] returns
    the same statistics or raises the same exception. *)
Lemma analyze_set_order_irrelevant polyfit_loglog file path stem rpb topk bb :
  @analyze_trace_file NP AA PS1 polyfit_loglog file path stem rpb topk bb =
  @analyze_trace_file NP AA PS2 polyfit_loglog file path stem rpb topk bb.
Proof.
  apply result_eqv_eq. unfold analyze_trace_file.
  apply result_eqv_same. intros trace. apply result_eqv_same. intros batches.
  eapply (result_eqv_bind loop_eqv).
  { apply foldM_eqv; [|by repeat split]. intros a b r Hab. apply result_eqv_same. intros item. by apply analyze_step_eqv. }
  intros a b (Hd & E1 & E2 & E3 & E4 & E5 & _ & _ & E6 & _ & E7 & E8 & E9 & E10).
  rewrite (hit_rates_ext _ a b E7 E8), E1, E2, E3, E4, E5, E6, E9, E10.
  rewrite (mean_or_zero_Permutation _ _ Hd), !(percentile_float_Permutation _ _ _ Hd).
  do 14 (apply result_eqv_same; intros ?). done.
Qed.
End Order.

(** *** The properties at a concrete trace *)

Section Witnesses.
#[local] Existing Instance reference_numpy.
#[local] Existing Instance reference_asarray.
#[local] Existing Instance reference_set.

Definition example_file : trace_file := Npy (nd_matrix 3 [[1; 9; 17]; [4; 5; 30]; [9; 9; 2]]) None.
Definition example_batches : list (list Z) := [[1; 9; 17]; [4; 5; 30]; [9; 9; 2]].
Definition flat_slope (freqs : list Z) : f64 := f_zero.

Lemma example_readable : readable example_file 8 example_batches.
Proof.
  exists (EmbeddingTrace.Mk (Some 8) (JObj []) None (Some (nd_matrix 3 example_batches)) None).
  split; reflexivity.
Qed.

Lemma example_batches_u64 : Forall all_u64 example_batches.
Proof. repeat constructor; unfold in_width; lia. Qed.

Lemma analyze_trace_file_total_witness :
  ∃ s, analyze_trace_file flat_slope example_file (u "t.npy") (u "t") 8 10 1024 = Ok s ∧
    total_lookups s = zlen (concat example_batches) ∧
    unique_ids s = set_size (int_set (concat example_batches)) ∧
    unique_blocks s = set_size (int_set (block_of 8 <$> concat example_batches)) ∧
    unique_blocks s ≤ unique_ids s ≤ total_lookups s ∧
    in_unit (block_reuse_rate s) = true.
Proof.
  apply analyze_trace_file_total; [apply example_readable|apply example_batches_u64|unfold in_width; lia|lia|
    vm_compute; congruence|vm_compute; congruence].
Defined.

Definition example_stats : stats :=
  match analyze_trace_file flat_slope example_file (u "t.npy") (u "t") 8 10 1024 with
  | Ok s => s
  | Err _ => Build_stats [] [] 0 0 0 0 0 (Build_coverage_stats [] []) (Build_coverage_stats [] []) f_zero f_zero
      f_zero f_zero f_zero f_zero f_zero f_zero f_zero f_zero [] f_zero f_zero JNull
  end.

Lemma example_stats_Ok :
  analyze_trace_file flat_slope example_file (u "t.npy") (u "t") 8 10 1024 = Ok example_stats.
Proof. vm_compute. reflexivity. Qed.

Lemma cache_simulation_monotone_witness :
  ∃ rates, cache_simulation example_stats = zip [u "1GB"; u "4GB"; u "8GB"; u "16GB"; u "32GB"] rates ∧
    length rates = 5%nat ∧ Forall (λ r, in_unit r = true) rates ∧
    StronglySorted (λ r1 r2, fle r1 r2 = true) rates.
Proof.
  apply (cache_simulation_monotone flat_slope example_file (u "t.npy") (u "t") 8 10 1024 example_batches);
    [apply example_readable|apply example_batches_u64|unfold in_width; lia|lia|apply example_stats_Ok].
Defined.

Lemma multi_gpu_overlap_always_zero_witness :
  avg_overlap_ratio example_stats = f_zero ∧ avg_duplicate_blocks example_stats = f_zero.
Proof.
  apply (multi_gpu_overlap_always_zero flat_slope example_file (u "t.npy") (u "t") 8 10 1024 example_batches);
    [apply example_readable|apply example_batches_u64|unfold in_width; lia|lia|apply example_stats_Ok].
Defined.

Definition example_loop : loop :=
  match foldM (analyze_step 8) (loop_init (capacities 1024)) (enumerate example_batches) with
  | Ok st => st | Err _ => loop_init [] end.

Lemma reuse_distances_exact_witness :
  l_reuse_distances example_loop ≡ₚ distances_spec (blocks_of 8 <$> example_batches) ∧
  Forall (λ d, 1 ≤ d ≤ zlen example_batches) (l_reuse_distances example_loop) ∧
  (∀ b t, l_last_seen example_loop !! b = Some t →
     0 ≤ t < zlen example_batches ∧ ∃ ids, example_batches !! Z.to_nat t = Some ids ∧ b ∈ block_of 8 <$> ids).
Proof.
  apply (reuse_distances_exact 8 1024); [unfold in_width; lia|lia|apply example_batches_u64|vm_compute; reflexivity].
Defined.
End Witnesses.
