(* ===== verification/Bench.v ===== *)
(** What the benchmark runs measure
    (memtier_embedding_bench/python/baseline_cpu_staging.py and
    memtier_embedding.py: the same code in both).

    [open_batches] chooses between a recorded trace and a synthetic one;
    [measure_batch] counts the unique ids and blocks of a batch and its reuse
    of the previous blocks; [summarize] turns counts and latencies into the
    reported statistics. *)

From S2P Require Import Prelude PyFloat PyText NumPy Json NdArray Workload TraceReader Stats LruSim Analyze.

(** ** Latencies *)

Definition f_le (x y : f64) : Prop := fle x y = true.
#[export] Instance f_le_dec : RelDecision f_le.
Proof. intros x y. unfold f_le. apply _. Defined.

(** [percentile(latencies, pct)]. *)
Definition percentile_f (values : list f64) (pct : f64) : result f64 :=
  default f_zero <$> percentile f_le values pct.

(** [(time.perf_counter() - start) * 1000.0]. *)
Definition elapsed_ms (start stop : f64) : f64 := fmul (fsub stop start) (lit 1000 1).

Record latency_stats := {
  avg_latency_ms : f64;
  p50_latency_ms : f64;
  p95_latency_ms : f64;
  throughput_lookups_per_sec : f64;
}.

Definition summarize_latencies (latencies : list f64) (lookups : Z) : result latency_stats :=
  total_s ← fdiv (f_sum latencies) (lit 1000 1);
  avg ← mean_or_zero_f latencies;
  p50 ← percentile_f latencies (lit 50 1);
  p95 ← percentile_f latencies (lit 95 1);
  n ← of_Z lookups;
  throughput ← fdiv n (f_max total_s (lit 1 1000000000000));
  Ok {| avg_latency_ms := avg; p50_latency_ms := p50; p95_latency_ms := p95;
        throughput_lookups_per_sec := throughput |}.

(** ** Counts of the batches *)

Record measures := {
  previous_blocks : gset Z;
  unique_ids_per_batch : list Z;
  unique_blocks_per_batch : list Z;
  block_reuse_ratios : list f64;
  all_unique_ids : gset Z;
  all_unique_blocks : gset Z;
  total_lookups : Z;
}.

Definition measure_init : measures :=
  {| previous_blocks := ∅; unique_ids_per_batch := []; unique_blocks_per_batch := []; block_reuse_ratios := [];
     all_unique_ids := ∅; all_unique_blocks := ∅; total_lookups := 0 |}.

(** The counting part of the loop body. *)
Definition measure_batch (m : measures) (batch blocks : list Z) : result measures :=
  let block_set := int_set blocks in
  let id_set := int_set batch in
  ratios ← (if decide (previous_blocks m = ∅) then Ok (block_reuse_ratios m)
            else r ← reuse_ratio block_set (previous_blocks m); Ok (block_reuse_ratios m ++ [r]));
  Ok {| previous_blocks := block_set;
        unique_ids_per_batch := unique_ids_per_batch m ++ [set_size id_set];
        unique_blocks_per_batch := unique_blocks_per_batch m ++ [set_size block_set];
        block_reuse_ratios := ratios;
        all_unique_ids := all_unique_ids m ∪ id_set;
        all_unique_blocks := all_unique_blocks m ∪ block_set;
        total_lookups := total_lookups m + zlen batch |}.

Record summary := {
  num_unique_ids : Z;
  num_unique_blocks : Z;
  avg_unique_ids_per_batch : f64;
  avg_unique_blocks_per_batch : f64;
  p95_unique_blocks_per_batch : option Z;   (* [None]: the literal 0.0 *)
  block_reuse_ratio : f64;
}.

Definition summarize (m : measures) : result summary :=
  ids ← mean_or_zero (unique_ids_per_batch m);
  blocks ← mean_or_zero (unique_blocks_per_batch m);
  p95 ← percentile Z.le (unique_blocks_per_batch m) (lit 95 1);
  reuse ← mean_or_zero_f (block_reuse_ratios m);
  Ok {| num_unique_ids := set_size (all_unique_ids m); num_unique_blocks := set_size (all_unique_blocks m);
        avg_unique_ids_per_batch := ids; avg_unique_blocks_per_batch := blocks;
        p95_unique_blocks_per_batch := p95; block_reuse_ratio := reuse |}.

(** ** The batches of a run *)

(** The arguments that choose the trace: a recorded file (its contents and its
    stem), or the parameters of a synthetic one. *)
Record trace_args := {
  trace_file_arg : option (result trace_file * str);   (* [args.trace_file or args.trace] *)
  ta_num_embeddings : Z;
  ta_batch_size : Z;
  ta_bag_size : Z;
  ta_num_batches : Z;
  dist : str;
  zipf_alpha : f64;
  overlap_ratio : f64;
  seed : Z;
}.

(** The batches as they will be read, their number, the metadata, and the name
    the trace has. *)
Record opened_trace := {
  ot_batches : result (list (result (list Z)));
  ot_num_batches : Z;
  ot_metadata : json;
  ot_name : result json;   (* raises when the metadata are not an object *)
}.

Section Open.
  Context {NP : NumPy} {AA : AsArray} {RG : Rng}.

Definition open_recorded (file : result trace_file) (stem : str) (rows_per_block : Z) : result opened_trace :=
    file ← file;
    trace_reader ← EmbeddingTrace.init file (Some rows_per_block);
    n ← EmbeddingTrace.num_batches trace_reader;
    let metadata := EmbeddingTrace.metadata trace_reader in
    Ok {| ot_batches := EmbeddingTrace.batch_stream trace_reader; ot_num_batches := n;
          ot_metadata := metadata;
          ot_name := match metadata with
                     | JObj d => Ok (default (JStr stem) (dict_get d (u "trace_name")))
                     | _ => Err AttributeError
                     end |}.

Definition open_synthetic (args : trace_args) : result opened_trace :=
    trace ← generate_ids (ta_num_embeddings args) (ta_batch_size args) (ta_bag_size args) (ta_num_batches args)
              (dist args) (zipf_alpha args) (overlap_ratio args) (seed args);
    Ok {| ot_batches := Ok (Ok <$> trace); ot_num_batches := zlen trace;
          ot_metadata := JObj []; ot_name := Ok (JStr (u "synthetic_" ++ dist args)) |}.

Definition open_batches (args : trace_args) (rows_per_block : Z) : result opened_trace :=
    match trace_file_arg args with
    | Some (file, stem) => open_recorded file stem rows_per_block
    | None => open_synthetic args
    end.
End Open.

(** ** Lemmas *)

Lemma percentile_f_Ok values pct :
  percentage pct → zlen values ≤ two53 → ∃ v, percentile_f values pct = Ok v ∧ (v ∈ values ∨ values = []).
Proof.
  intros P Hl. unfold percentile_f. destruct (decide (values = [])) as [->|Hne].
  { exists f_zero. split; [done|by right]. }
  assert (1 ≤ zlen values) by (destruct values; [done|cbn [length]; lia]).
  destruct (percentile_index_Ok pct (zlen values) P) as (k & Ek & Hk); [lia|].
  destruct (percentile_Ok f_le values pct k Hne Ek Hk) as (v & -> & _ & Hv). exists v. split; [done|by left].
Qed.

Lemma elapsed_ms_wf start stop : f_wf (elapsed_ms start stop) = true.
Proof. apply fmul_wf. Qed.

Lemma summarize_latencies_Ok latencies lookups :
  Forall (λ f, f_wf f = true) latencies → zlen latencies ≤ two53 → 0 ≤ lookups ≤ two53 →
  ∃ s, summarize_latencies latencies lookups = Ok s.
Proof.
  intros Hw Hl Hn. unfold summarize_latencies.
  assert (∃ t, fdiv (f_sum latencies) (lit 1000 1) = Ok t) as (t & Et).
  { change (lit 1000 1) with (Fin false 8796093022208000 (-43)). destruct (f_sum latencies); cbn [fdiv]; eauto. }
  assert (∃ a, mean_or_zero_f latencies = Ok a) as (a & Ea).
  { unfold mean_or_zero_f. case_decide; [eauto|by apply mean_f_total]. }
  destruct (percentile_f_Ok latencies (lit 50 1) percentage_50 Hl) as (p50 & E50 & _).
  destruct (percentile_f_Ok latencies (lit 95 1) percentage_95 Hl) as (p95 & E95 & _).
  destruct (of_Z_small lookups Hn) as (n & En).
  assert (∃ m e, lit 1 1000000000000 = Fin false m e ∧ 0 < m) as (m & e & El & Hm)
    by (eexists _, _; split; [vm_compute; reflexivity|done]).
  destruct (fdiv_max_Ok n t m e Hm) as (th & Eth).
  eexists. run_step ltac:(exact Et). run_step ltac:(exact Ea). run_step ltac:(exact E50). run_step ltac:(exact E95).
  run_step ltac:(exact En). rewrite El. run_step ltac:(exact Eth). reflexivity.
Qed.

(** Everything reported is a well-formed float. *)
Lemma percentile_f_wf values pct v :
  Forall (λ f, f_wf f = true) values → percentile_f values pct = Ok v → f_wf v = true.
Proof.
  unfold percentile_f, percentile. intros Hw. case_decide; [by intros [= <-]|]. intros E.
  destruct (percentile_index _ _) as [k|]; [|done]. cbn [mbind result_bind] in E.
  destruct (py_index _ k) as [x|] eqn:Ex; [|done]. injection E as <-. cbn [default from_option id].
  apply py_index_elem in Ex. rewrite merge_sort_Permutation in Ex. rewrite Forall_forall in Hw. by apply Hw.
Qed.

Lemma mean_or_zero_wf l f : mean_or_zero l = Ok f → f_wf f = true.
Proof. unfold mean_or_zero. case_decide; [by intros [= <-]|apply mean_Z_wf]. Qed.

Lemma mean_or_zero_f_wf l f : mean_or_zero_f l = Ok f → f_wf f = true.
Proof. unfold mean_or_zero_f. case_decide; [by intros [= <-]|apply mean_f_wf]. Qed.

Lemma summarize_latencies_wf latencies lookups l :
  Forall (λ f, f_wf f = true) latencies → summarize_latencies latencies lookups = Ok l →
  f_wf (avg_latency_ms l) = true ∧ f_wf (p50_latency_ms l) = true ∧ f_wf (p95_latency_ms l) = true ∧
  f_wf (throughput_lookups_per_sec l) = true.
Proof.
  intros Hw E. unfold summarize_latencies in E. inv_run E. simplify_eq. cbn.
  split_and!; eauto using mean_or_zero_f_wf, percentile_f_wf, fdiv_wf.
Qed.

Lemma summarize_wf m s :
  summarize m = Ok s →
  f_wf (avg_unique_ids_per_batch s) = true ∧ f_wf (avg_unique_blocks_per_batch s) = true ∧ f_wf (block_reuse_ratio s) = true.
Proof. intros E. unfold summarize in E. inv_run E. simplify_eq. cbn. split_and!; eauto using mean_or_zero_wf, mean_or_zero_f_wf. Qed.

(** What has been measured after the batches [bs]. *)
Record measured (rpb : Z) (bs : list (list Z)) (m : measures) : Prop := {
  md_previous : previous_blocks m = int_set (blocks_of rpb (default [] (last bs)));
  md_ids : unique_ids_per_batch m = (λ b, set_size (int_set b)) <$> bs;
  md_blocks : unique_blocks_per_batch m = (λ b, zlen (blocks_of rpb b)) <$> bs;
  md_ratios : Forall (λ f, in_unit f = true) (block_reuse_ratios m);
  md_nratios : zlen (block_reuse_ratios m) ≤ zlen bs;
  md_all_ids : all_unique_ids m = int_set (concat bs);
  md_all_blocks : all_unique_blocks m = int_set (block_of rpb <$> concat bs);
  md_lookups : total_lookups m = zlen (concat bs);
}.

Lemma measured_init rpb : measured rpb [] measure_init.
Proof. by split. Qed.

Lemma set_size_blocks rpb b : set_size (int_set (blocks_of rpb b)) = zlen (blocks_of rpb b).
Proof. unfold set_size. by rewrite size_int_set_NoDup by auto with memtier. Qed.

Lemma int_set_app l k : int_set (l ++ k) = int_set l ∪ int_set k.
Proof. unfold int_set. apply list_to_set_app_L. Qed.

Lemma int_set_blocks_of rpb b : int_set (blocks_of rpb b) = int_set (block_of rpb <$> b).
Proof. apply set_eq. intros x. unfold blocks_of. by rewrite !elem_of_int_set, unique_ref_elem. Qed.

Lemma blocks_of_elem rpb b x : x ∈ blocks_of rpb b ↔ ∃ id, id ∈ b ∧ x = block_of rpb id.
Proof. unfold blocks_of. rewrite unique_ref_elem, list_elem_of_fmap. naive_solver. Qed.

Lemma measure_batch_Ok rpb bs m b :
  measured rpb bs m → ∃ m', measure_batch m b (blocks_of rpb b) = Ok m' ∧ measured rpb (bs ++ [b]) m'.
Proof.
  intros [Hp Hi Hb Hr Hn Hai Hab Hl]. unfold measure_batch.
  assert (∃ rs, (if decide (previous_blocks m = ∅) then Ok (block_reuse_ratios m)
            else r ← reuse_ratio (int_set (blocks_of rpb b)) (previous_blocks m); Ok (block_reuse_ratios m ++ [r])) = Ok rs ∧
            Forall (λ f, in_unit f = true) rs ∧ zlen rs ≤ zlen bs + 1) as (rs & Ers & Hrs & Hlen).
  { case_decide; [eexists; split; [done|split; [done|lia]]|].
    destruct (reuse_ratio_Ok (int_set (blocks_of rpb b)) (previous_blocks m)) as (r & -> & Hu).
    eexists. split; [reflexivity|]. split; [apply Forall_app_2; [done|by constructor]|]. rewrite length_app. simpl. lia. }
  eexists. split; [run_step ltac:(exact Ers); reflexivity|]. split; cbn [previous_blocks unique_ids_per_batch
    unique_blocks_per_batch block_reuse_ratios all_unique_ids all_unique_blocks total_lookups].
  - by rewrite last_snoc.
  - by rewrite Hi, fmap_app.
  - by rewrite Hb, fmap_app, set_size_blocks.
  - done.
  - rewrite length_app. simpl. lia.
  - rewrite Hai, concat_app, int_set_app. cbn [concat]. by rewrite app_nil_r.
  - rewrite Hab, concat_app, fmap_app, int_set_app. cbn [concat]. by rewrite app_nil_r, int_set_blocks_of.
  - rewrite Hl, concat_app, length_app. cbn [concat]. rewrite app_nil_r. lia.
Qed.

Lemma summarize_Ok rpb bs m :
  measured rpb bs m → zlen bs ≤ two53 → zlen (concat bs) ≤ two53 →
  ∃ s, summarize m = Ok s ∧ num_unique_ids s = set_size (int_set (concat bs)) ∧
    num_unique_blocks s = set_size (int_set (block_of rpb <$> concat bs)).
Proof.
  intros [_ Hi Hb Hr Hnr Hai Hab _] Hn Hl.
  assert (∀ b, b ∈ bs → zlen b ≤ two53) as Hlen.
  { intros b (l1 & l2 & ->)%list_elem_of_split. rewrite concat_app, length_app in Hl. cbn [concat] in Hl.
    rewrite length_app in Hl. lia. }
  assert (∃ f, mean_or_zero (unique_ids_per_batch m) = Ok f) as (f1 & E1).
  { apply mean_or_zero_Ok. rewrite Hi. apply Forall_fmap, Forall_forall. intros b Hbs. specialize (Hlen b Hbs).
    unfold compose. pose proof (size_int_set_le b). unfold set_size in *. lia. }
  assert (Forall (λ x, 0 ≤ x ≤ two53) (unique_blocks_per_batch m)) as Hbl.
  { rewrite Hb. apply Forall_fmap, Forall_forall. intros b Hbs. specialize (Hlen b Hbs). unfold compose, blocks_of.
    rewrite unique_ref_length. pose proof (size_int_set_le (block_of rpb <$> b)) as H. rewrite length_fmap in H.
    unfold set_size in *. lia. }
  destruct (mean_or_zero_Ok _ Hbl) as (f2 & E2).
  assert (∃ p, percentile Z.le (unique_blocks_per_batch m) (lit 95 1) = Ok p) as (p & E3).
  { destruct (decide (unique_blocks_per_batch m = [])) as [->|Hne]; [by exists None|].
    assert (1 ≤ zlen (unique_blocks_per_batch m) ≤ two53) as Hlm.
    { split; [destruct (unique_blocks_per_batch m); [done|cbn [length]; lia]|]. rewrite Hb, length_fmap. done. }
    destruct (percentile_index_Ok (lit 95 1) _ percentage_95 Hlm) as (k & Ek & Hk).
    destruct (percentile_Ok Z.le _ _ _ Hne Ek Hk) as (v & -> & _). eauto. }
  assert (∃ f, mean_or_zero_f (block_reuse_ratios m) = Ok f) as (f4 & E4).
  { unfold mean_or_zero_f. case_decide as Hne; [eauto|]. destruct (mean_f_unit _ Hne Hr) as (f & -> & _). eauto. }
  eexists. split_and!.
  - unfold summarize. run_step ltac:(exact E1). run_step ltac:(exact E2). run_step ltac:(exact E3).
    run_step ltac:(exact E4). reflexivity.
  - cbn [num_unique_ids]. by rewrite Hai.
  - cbn [num_unique_blocks]. by rewrite Hab.
Qed.

(** Distinct blocks of the run, of the batches, and lookups. *)
Lemma unique_blocks_le rpb bs :
  set_size (int_set (block_of rpb <$> concat bs)) ≤ zsum ((λ b, zlen (blocks_of rpb b)) <$> bs) ≤ zlen (concat bs).
Proof.
  induction bs as [|b bs IH]; [done|]. cbn [concat]. rewrite fmap_cons, fmap_app, int_set_app, length_app.
  change (zsum (?x :: ?l)) with (x + zsum l). unfold set_size in *.
  pose proof (size_union_alt (int_set (block_of rpb <$> b)) (int_set (block_of rpb <$> concat bs))) as E.
  pose proof (set_size_blocks rpb b) as Eb. rewrite int_set_blocks_of in Eb. unfold set_size in Eb.
  assert (size (int_set (block_of rpb <$> concat bs) ∖ int_set (block_of rpb <$> b)) ≤
            size (int_set (block_of rpb <$> concat bs)))%nat by (apply subseteq_size; set_solver).
  pose proof (size_int_set_le (block_of rpb <$> b)) as Hle. unfold set_size in Hle. rewrite length_fmap in Hle. lia.
Qed.
