(* ===== verification/CpuStaging.v ===== *)
(** The CPU staging baseline (memtier_embedding_bench/python/baseline_cpu_staging.py).

    [run] reads every unique block of every batch from the embedding file with
    [pread], optionally copies it to the GPU, and reports counts and
    latencies.  The clock, whether a GPU is there, and the files are
    parameters.  [run_staging] also returns what the run asked of the system:
    the calls of [os.pread] and the tensors copied. *)

From S2P Require Import Prelude PyFloat PyText NumPy Json NdArray Workload TraceReader Stats LruSim Analyze Bench.

(** [os.pread(fd, n, offset)] on a regular file: the bytes from the offset on,
    at most [n] and at most what one system call transfers. *)
Definition max_transfer : Z := 0x7ffff000.
Definition pread (file : list Z) (n offset : Z) : result (list Z) :=
  if (n <? - 2 ^ 63) || (2 ^ 63 <=? n) || (offset <? - 2 ^ 63) || (2 ^ 63 <=? offset) then Err OverflowError
  else if (n <? 0) || (offset <? 0) then Err OSError
  else Ok (py_slice file offset (offset + Z.min n max_transfer)).

Record staging_args := {
  sa_trace : trace_args;
  sa_trace_source : str;
  embedding_file : result (list Z);
  embedding_dim : Z;
  sa_rows_per_block : Z;
  dtype_size : Z;
  sa_dtype : option str;
  cuda_copy : bool;
}.

Definition dtype_size_of (args : staging_args) : Z :=
  if decide (sa_dtype args = Some (u "fp16")) then 2
  else if decide (sa_dtype args = Some (u "fp32")) then 4
  else dtype_size args.

(** The counters of the reads, the [os.pread] calls that made them (offset and
    bytes returned), and the bytes of the tensors copied to the GPU. *)
Record io := {
  bytes_read : Z;
  posix_reads : Z;
  dram_to_gpu : Z;
  preads : list (Z * list Z);
  gpu_copies : list (list Z);
}.

(** The variables of the loop over the batches; [ticks] counts the readings of
    the clock. *)
Record staging := {
  s_measures : measures;
  latencies : list f64;
  s_io : io;
  ticks : Z;
}.

Definition staging_init : staging :=
  {| s_measures := measure_init; latencies := [];
     s_io := {| bytes_read := 0; posix_reads := 0; dram_to_gpu := 0; preads := []; gpu_copies := [] |}; ticks := 0 |}.

(** One block. *)
Definition read_block (file : list Z) (block_bytes : Z) (copy : bool) (st : io) (block_id : Z) : result io :=
  let offset := block_id * block_bytes in
  data ← pread file block_bytes offset;
  if negb (zlen data =? block_bytes) then Err RuntimeError
  else Ok {| bytes_read := bytes_read st + zlen data; posix_reads := posix_reads st + 1;
             dram_to_gpu := if copy then dram_to_gpu st + block_bytes else dram_to_gpu st;
             preads := preads st ++ [(offset, data)];
             gpu_copies := if copy then gpu_copies st ++ [data] else gpu_copies st |}.

Section Staging.
  Context {NP : NumPy} {AA : AsArray} {RG : Rng}.
  (** The readings of [time.perf_counter], and whether a GPU is there. *)
  Variable clock : Z → f64.
  Variable cuda_available : bool.

Definition staging_step (file : list Z) (rows_per_block block_bytes : Z) (copy : bool) (st : staging) (batch : list Z)
    : result staging :=
    blocks ← ids_to_blocks batch rows_per_block;
    m ← measure_batch (s_measures st) batch blocks;
    let start := clock (ticks st) in
    io ← foldM (read_block file block_bytes copy) (s_io st) blocks;
    Ok {| s_measures := m; latencies := latencies st ++ [elapsed_ms start (clock (ticks st + 1))];
          s_io := io; ticks := ticks st + 2 |}.

Definition staging_result (args : staging_args) (trace_name : json) (num_batches : Z) (copy : bool) (st : staging)
    (l : latency_stats) (s : summary) : list (str * json) :=
    let ta := sa_trace args in
    [(u "system", JStr (u "cpu_staging")); (u "dist", JStr (dist ta)); (u "zipf_alpha", JFloat (zipf_alpha ta));
     (u "num_embeddings", JInt (ta_num_embeddings ta)); (u "embedding_dim", JInt (embedding_dim args));
     (u "rows_per_block", JInt (sa_rows_per_block args)); (u "batch_size", JInt (ta_batch_size ta));
     (u "bag_size", JInt (ta_bag_size ta)); (u "num_batches", JInt num_batches);
     (u "avg_latency_ms", JFloat (avg_latency_ms l)); (u "p50_latency_ms", JFloat (p50_latency_ms l));
     (u "p95_latency_ms", JFloat (p95_latency_ms l));
     (u "throughput_lookups_per_sec", JFloat (throughput_lookups_per_sec l));
     (u "hbm_hit_rate", JFloat f_zero); (u "dram_hit_rate", JFloat f_zero);
     (u "ssd_read_bytes", JInt (bytes_read (s_io st))); (u "dram_to_gpu_bytes", JInt (dram_to_gpu (s_io st)));
     (u "posix_reads", JInt (posix_reads (s_io st))); (u "trace_source", JStr (sa_trace_source args));
     (u "trace_name", trace_name); (u "num_unique_ids", JInt (num_unique_ids s));
     (u "num_unique_blocks", JInt (num_unique_blocks s));
     (u "avg_unique_ids_per_batch", JFloat (avg_unique_ids_per_batch s));
     (u "avg_unique_blocks_per_batch", JFloat (avg_unique_blocks_per_batch s));
     (u "p95_unique_blocks_per_batch", match p95_unique_blocks_per_batch s with
                                      | Some z => JInt z
                                      | None => JFloat f_zero
                                      end);
     (u "block_reuse_ratio", JFloat (block_reuse_ratio s)); (u "gds_reads", JInt 0);
     (u "cuda_copy_enabled", JBool copy)].

Definition run_staging (args : staging_args) : result (list (str * json) * io) :=
    let rows_per_block := sa_rows_per_block args in
    trace ← open_batches (sa_trace args) rows_per_block;
    trace_name ← ot_name trace;
    let block_bytes := rows_per_block * embedding_dim args * dtype_size_of args in
    file ← embedding_file args;
    let use_torch_copy := cuda_copy args && cuda_available in
    batches ← ot_batches trace;
    st ← for_each (staging_step file rows_per_block block_bytes use_torch_copy) staging_init batches;
    l ← summarize_latencies (latencies st) (total_lookups (s_measures st));
    s ← summarize (s_measures st);
    Ok (staging_result args trace_name (ot_num_batches trace) use_torch_copy st l s, s_io st).

  (** What [run] returns. *)
Definition run (args : staging_args) : result (list (str * json)) := r ← run_staging args; Ok r.1.
End Staging.

(** ** Lemmas *)

(** The block lies in the file. *)
Definition complete_block (file : list Z) (block_bytes block : Z) : Prop := (block + 1) * block_bytes ≤ zlen file.
#[export] Instance complete_block_dec file bb b : Decision (complete_block file bb b).
Proof. unfold complete_block. apply _. Defined.

Section Reads.
Variables (file : list Z) (bb : Z) (copy : bool).
Hypothesis bb_range : 0 < bb ≤ max_transfer.
Hypothesis file_size : zlen file < 2 ^ 63.

Lemma pread_Ok off : 0 ≤ off ≤ zlen file → pread file bb off = Ok (py_slice file off (off + bb)).
Proof.
  intros Ho. unfold pread, max_transfer in *.
  destruct (Z.ltb_spec bb (- 2 ^ 63)); [lia|]. destruct (Z.leb_spec (2 ^ 63) bb); [lia|].
  destruct (Z.ltb_spec off (- 2 ^ 63)); [lia|]. destruct (Z.leb_spec (2 ^ 63) off); [lia|].
  destruct (Z.ltb_spec bb 0); [lia|]. destruct (Z.ltb_spec off 0); [lia|]. cbn [orb]. by rewrite Z.min_l by lia.
Qed.

(** The bytes of a block. *)
Definition block_of_file (b : Z) : list Z := py_slice file (b * bb) ((b + 1) * bb).

(** After reading the blocks [bs]. *)
Definition io_after (st : io) (bs : list Z) : io :=
  {| bytes_read := bytes_read st + zlen bs * bb; posix_reads := posix_reads st + zlen bs;
     dram_to_gpu := if copy then dram_to_gpu st + zlen bs * bb else dram_to_gpu st;
     preads := preads st ++ ((λ b, (b * bb, block_of_file b)) <$> bs);
     gpu_copies := if copy then gpu_copies st ++ (block_of_file <$> bs) else gpu_copies st |}.

Lemma read_block_complete st b :
  0 ≤ b → complete_block file bb b → read_block file bb copy st b = Ok (io_after st [b]).
Proof.
  intros Hb Hc. unfold complete_block in Hc. unfold read_block. cbv zeta. rewrite pread_Ok by nia. cbn [mbind result_bind].
  assert (zlen (py_slice file (b * bb) (b * bb + bb)) = bb) as -> by (rewrite length_py_slice by nia; nia).
  rewrite Z.eqb_refl. unfold io_after, block_of_file. cbn -[Z.add Z.mul py_slice].
  replace ((b + 1) * bb) with (b * bb + bb) by lia. replace (Z.of_nat 1 * bb) with bb by lia. done.
Qed.

Lemma read_block_short st b :
  0 ≤ b → b * bb ≤ zlen file → ¬ complete_block file bb b → read_block file bb copy st b = Err RuntimeError.
Proof.
  intros Hb Hin Hc. unfold complete_block in Hc. unfold read_block. cbv zeta.
  rewrite pread_Ok by nia. cbn [mbind result_bind].
  assert (zlen (py_slice file (b * bb) (b * bb + bb)) ≠ bb) as Hne by (rewrite length_py_slice by nia; nia).
  by rewrite (proj2 (Z.eqb_neq _ _) Hne).
Qed.

Lemma read_blocks_complete st bs :
  Forall (λ b, 0 ≤ b ∧ complete_block file bb b) bs → foldM (read_block file bb copy) st bs = Ok (io_after st bs).
Proof.
  intros HF. revert st. induction HF as [|b bs [Hb Hc] _ IH]; intros st.
  { cbn. unfold io_after. cbn -[Z.add Z.mul]. rewrite !app_nil_r. destruct st, copy; cbn -[Z.add Z.mul]; f_equal; f_equal; (done || nia). }
  cbn [foldM]. rewrite read_block_complete by done. cbn [mbind result_bind]. rewrite IH. unfold io_after. cbn -[Z.add Z.mul].
  destruct copy; cbn -[Z.add Z.mul]; f_equal; f_equal; first [by rewrite <-app_assoc|nia].
Qed.

Lemma read_blocks_short st bs :
  Forall (λ b, 0 ≤ b ∧ b * bb ≤ zlen file) bs → ¬ Forall (complete_block file bb) bs →
  foldM (read_block file bb copy) st bs = Err RuntimeError.
Proof.
  intros HF Hn. rewrite Forall_forall in HF. apply (foldM_err (λ _, True) (complete_block file bb)); [| |done|done].
  - intros st' b Hb _ Hc. eexists. split; [|done]. apply read_block_complete; [by apply HF|done].
  - intros s b Hb _ Hc. apply read_block_short; [by apply HF..|done].
Qed.
End Reads.

Section Runs.
Context {NP : NumPy} {AA : AsArray} {RG : Rng}.
Variable clock : Z → f64.
Variable cuda_available : bool.
Variable args : staging_args.
Let rpb := sa_rows_per_block args.
Let bb := rpb * embedding_dim args * dtype_size_of args.
Let copy := cuda_copy args && cuda_available.

(** What a run needs: a trace that opens to readable batches of 64-bit ids, a
    readable embedding file, and block sizes one [pread] can transfer. *)
Record valid_staging (trace : opened_trace) (name : json) (bs : list (list Z)) (file : list Z) : Prop := {
  vs_trace : open_batches (sa_trace args) rpb = Ok trace;
  vs_name : ot_name trace = Ok name;
  vs_batches : ot_batches trace = Ok (Ok <$> bs);
  vs_u64 : Forall all_u64 bs;
  vs_file : embedding_file args = Ok file;
  vs_rpb : in_width 64 rpb;
  vs_rpb_pos : 0 < rpb;
  vs_bb : 0 < bb ≤ max_transfer;
  vs_size : zlen file < 2 ^ 63;
}.

(** The state after the batches [bs]. *)
Record staged (file : list Z) (bs : list (list Z)) (st : staging) : Prop := {
  sg_measured : measured rpb bs (s_measures st);
  sg_latencies : Forall (λ f, f_wf f = true) (latencies st);
  sg_nlat : zlen (latencies st) = zlen bs;
  sg_io : s_io st = io_after file bb copy (s_io staging_init) (concat (blocks_of rpb <$> bs));
}.

Lemma staged_init file : staged file [] staging_init.
Proof. split; [apply measured_init|done..|]. unfold io_after. cbn. by destruct copy. Qed.

Lemma io_after_app file st bs1 bs2 :
  io_after file bb copy (io_after file bb copy st bs1) bs2 = io_after file bb copy st (bs1 ++ bs2).
Proof.
  unfold io_after. cbn -[Z.add Z.mul]. rewrite length_app, Nat2Z.inj_add, !fmap_app, <-!app_assoc.
  destruct copy; cbn -[Z.add Z.mul]; f_equal; try lia; by rewrite ?app_assoc.
Qed.

Section Steps.
Variable file : list Z.
Hypothesis rpb_width : in_width 64 rpb.
Hypothesis rpb_pos : 0 < rpb.
Hypothesis bb_range : 0 < bb ≤ max_transfer.
Hypothesis file_size : zlen file < 2 ^ 63.

Lemma staging_step_blocks st bs b :
  measured rpb bs (s_measures st) → all_u64 b →
  ids_to_blocks b rpb = Ok (blocks_of rpb b) ∧ Forall (λ x, 0 ≤ x) (blocks_of rpb b) ∧
  ∃ m, measure_batch (s_measures st) b (blocks_of rpb b) = Ok m ∧ measured rpb (bs ++ [b]) m.
Proof.
  intros Hm Hu. split_and!; [by apply ids_to_blocks_Ok| |by apply measure_batch_Ok].
  apply Forall_forall. intros x (id & Hid & ->)%blocks_of_elem. unfold all_u64, in_width in Hu.
  rewrite Forall_forall in Hu. specialize (Hu id Hid). apply Z.div_pos; lia.
Qed.

Lemma staging_step_Ok bs st b :
  staged file bs st → all_u64 b → Forall (complete_block file bb) (blocks_of rpb b) →
  ∃ st', staging_step clock file rpb bb copy st b = Ok st' ∧ staged file (bs ++ [b]) st'.
Proof.
  intros [Hm Hl Hn Hio] Hu Hc.
  destruct (staging_step_blocks st bs b Hm Hu) as (Eb & Hpos & m & Em & Hm').
  eexists. split.
  - unfold staging_step. run_step ltac:(exact Eb). run_step ltac:(exact Em).
    run_step ltac:(apply read_blocks_complete; [done|done|by apply Forall_and]). reflexivity.
  - split; cbn [s_measures latencies s_io].
    + done.
    + apply Forall_app_2; [done|]. constructor; [apply elapsed_ms_wf|constructor].
    + rewrite !length_app. simpl. lia.
    + rewrite Hio, io_after_app, fmap_app, concat_app. cbn [fmap list_fmap concat]. by rewrite app_nil_r.
Qed.

Lemma staging_step_short bs st b :
  measured rpb bs (s_measures st) → all_u64 b → Forall (λ x, x * bb ≤ zlen file) (blocks_of rpb b) →
  ¬ Forall (complete_block file bb) (blocks_of rpb b) →
  staging_step clock file rpb bb copy st b = Err RuntimeError.
Proof.
  intros Hm Hu Hin Hc. destruct (staging_step_blocks st bs b Hm Hu) as (Eb & Hpos & m & Em & _).
  unfold staging_step. run_step ltac:(exact Eb). run_step ltac:(exact Em).
  rewrite read_blocks_short; [done..| |done]. by apply Forall_and.
Qed.

Lemma staging_loop_Ok bs :
  Forall all_u64 bs → Forall (λ b, Forall (complete_block file bb) (blocks_of rpb b)) bs →
  ∃ st, foldM (staging_step clock file rpb bb copy) staging_init bs = Ok st ∧ staged file bs st.
Proof.
  induction bs as [|b bs IH] using rev_ind; intros Hu Hc.
  - exists staging_init. split; [done|apply staged_init].
  - apply Forall_app in Hu as [Hu Hub%Forall_inv]. apply Forall_app in Hc as [Hc Hcb%Forall_inv].
    destruct (IH Hu Hc) as (st & E & Hst). destruct (staging_step_Ok bs st b Hst Hub Hcb) as (st' & E' & Hst').
    exists st'. split; [|done]. rewrite foldM_app. run_step ltac:(exact E). cbn [foldM].
    run_step ltac:(exact E'). done.
Qed.

Lemma staging_loop_short bs :
  Forall all_u64 bs → Forall (λ b, Forall (λ x, x * bb ≤ zlen file) (blocks_of rpb b)) bs →
  ¬ Forall (λ b, Forall (complete_block file bb) (blocks_of rpb b)) bs →
  foldM (staging_step clock file rpb bb copy) staging_init bs = Err RuntimeError.
Proof.
  intros Hu Hin Hn. rewrite Forall_forall in Hu, Hin.
  apply (foldM_err (λ st, ∃ seen, staged file seen st) (λ b, Forall (complete_block file bb) (blocks_of rpb b)));
    [| |exists []; apply staged_init|done].
  - intros st b Hb (seen & Hst) Hc. destruct (staging_step_Ok seen st b Hst) as (st' & E & H'); [by apply Hu|done|].
    eauto.
  - intros st b Hb (seen & [Hm _ _ _]) Hc. by apply (staging_step_short seen); [|apply Hu|apply Hin|].
Qed.
End Steps.

Lemma run_loop trace name bs file :
  valid_staging trace name bs file →
  run_staging clock cuda_available args =
    (st ← foldM (staging_step clock file rpb bb copy) staging_init bs;
     l ← summarize_latencies (latencies st) (total_lookups (s_measures st));
     s ← summarize (s_measures st);
     Ok (staging_result args name (ot_num_batches trace) copy st l s, s_io st)).
Proof.
  intros [Et En Eb _ Ef _ _ _ _]. unfold run_staging. fold rpb. run_step ltac:(exact Et). run_step ltac:(exact En).
  run_step ltac:(exact Ef). run_step ltac:(exact Eb). by rewrite for_each_Ok.
Qed.
End Runs.

(** C24: CPU staging reads each distinct block of each batch once. On a trace
    whose blocks all lie in the embedding file, the run returns.  Its pread
    calls are, batch after batch, one per distinct block, in order, at the
    offset of the block, and each returned the bytes of the block; when copying
    is enabled these bytes, in the same order, are the tensors copied to the
    GPU, else none is.  It reports as many POSIX reads as there were calls,
    block_bytes bytes for each, the same amount copied when copying is enabled
    (else none), and the distinct ids and blocks of the whole trace. *)
Theorem staging_reads_every_block `{NP : NumPy, AA : AsArray, RG : Rng} clock cuda_available args trace name bs file :
  valid_staging args trace name bs file →
  let rpb := sa_rows_per_block args in
  let block_bytes := rpb * embedding_dim args * dtype_size_of args in
  let blocks := concat (blocks_of rpb <$> bs) in
  let bytes_of b := py_slice file (b * block_bytes) ((b + 1) * block_bytes) in
  let reads := zsum ((λ b, zlen (blocks_of rpb b)) <$> bs) in
  let distinct := set_size (int_set (block_of rpb <$> concat bs)) in
  Forall (λ id, (block_of rpb id + 1) * block_bytes ≤ zlen file) (concat bs) →
  zlen bs ≤ two53 → zlen (concat bs) ≤ two53 →
  ∃ res io, run_staging clock cuda_available args = Ok (res, io) ∧ run clock cuda_available args = Ok res ∧
    preads io = (λ b, (b * block_bytes, bytes_of b)) <$> blocks ∧
    Forall (λ b, zlen (bytes_of b) = block_bytes) blocks ∧
    gpu_copies io = (if cuda_copy args && cuda_available then bytes_of <$> blocks else []) ∧
    dict_get res (u "posix_reads") = Some (JInt reads) ∧
    dict_get res (u "ssd_read_bytes") = Some (JInt (reads * block_bytes)) ∧
    dict_get res (u "dram_to_gpu_bytes") =
      Some (JInt (if cuda_copy args && cuda_available then reads * block_bytes else 0)) ∧
    dict_get res (u "num_unique_ids") = Some (JInt (set_size (int_set (concat bs)))) ∧
    dict_get res (u "num_unique_blocks") = Some (JInt distinct) ∧
    distinct ≤ reads ≤ zlen (concat bs).
Proof.
  intros V rpb block_bytes blocks bytes_of reads distinct Hin Hn Hl.
  pose proof (run_loop clock cuda_available args trace name bs file V) as Erun. destruct V as [_ _ _ Hu _ Hw Hr Hbb Hsz].
  assert (Forall (λ b, Forall (complete_block file block_bytes) (blocks_of rpb b)) bs) as Hblocks.
  { apply Forall_concat in Hin. refine (Forall_impl _ _ _ Hin _). intros b Hb. apply Forall_forall.
    intros x (id & Hid & ->)%blocks_of_elem. rewrite Forall_forall in Hb. by apply Hb. }
  destruct (staging_loop_Ok clock cuda_available args file Hw Hr Hbb Hsz bs Hu Hblocks) as (st & E & [Hm Hlat Hnl Hio]).
  fold rpb in Hio. change (rpb * embedding_dim args * dtype_size_of args) with block_bytes in Hio. fold blocks in Hio.
  assert (zlen blocks = reads) as Elen.
  { unfold blocks, reads. clear. induction bs as [|b bs IH]; cbn [fmap list_fmap concat]; [done|]. rewrite length_app, Nat2Z.inj_add, IH. done. }
  destruct (summarize_latencies_Ok (latencies st) (total_lookups (s_measures st)) Hlat) as (l & E2);
    [lia|rewrite (md_lookups _ _ _ Hm); lia|].
  destruct (summarize_Ok _ _ _ Hm Hn Hl) as (s & E3 & Ei & Eb).
  exists (staging_result args name (ot_num_batches trace) (cuda_copy args && cuda_available) st l s), (s_io st).
  assert (run_staging clock cuda_available args =
    Ok (staging_result args name (ot_num_batches trace) (cuda_copy args && cuda_available) st l s, s_io st)) as Er.
  { rewrite Erun. run_step ltac:(exact E). run_step ltac:(exact E2). run_step ltac:(exact E3). reflexivity. }
  assert (posix_reads (s_io st) = reads ∧ bytes_read (s_io st) = reads * block_bytes ∧
    dram_to_gpu (s_io st) = if cuda_copy args && cuda_available then reads * block_bytes else 0) as (Ep & Ey & Eg).
  { rewrite Hio. cbn -[Z.mul]. rewrite Elen. destruct (cuda_copy args && cuda_available); split_and!; lia. }
  split_and!; [exact Er|unfold run; by rewrite Er|by rewrite Hio| |by rewrite Hio| | | | | |apply unique_blocks_le..].
  - apply Forall_forall. intros b (l0 & Hb & (b0 & -> & Hb0)%list_elem_of_fmap)%elem_of_concat.
    rewrite Forall_forall in Hblocks. specialize (Hblocks b0 Hb0). rewrite Forall_forall in Hblocks. specialize (Hblocks b Hb).
    apply blocks_of_elem in Hb as (id & Hid & ->). rewrite Forall_forall in Hu. specialize (Hu b0 Hb0).
    unfold all_u64, in_width in Hu. rewrite Forall_forall in Hu. specialize (Hu id Hid).
    assert (0 ≤ block_of rpb id) by (apply Z.div_pos; lia). unfold complete_block, bytes_of in *. rewrite length_py_slice by nia. nia.
  - change (Some (JInt (posix_reads (s_io st))) = Some (JInt reads)). by rewrite Ep.
  - change (Some (JInt (bytes_read (s_io st))) = Some (JInt (reads * block_bytes))). by rewrite Ey.
  - change (Some (JInt (dram_to_gpu (s_io st))) =
      Some (JInt (if cuda_copy args && cuda_available then reads * block_bytes else 0))). by rewrite Eg.
  - change (Some (JInt (num_unique_ids s)) = Some (JInt (set_size (int_set (concat bs))))). by rewrite Ei.
  - change (Some (JInt (num_unique_blocks s)) = Some (JInt distinct)). by rewrite Eb.
Qed.

(** A table whose rows do not fill the last block breaks the baseline. With
    an embedding file of exactly [n] rows, ids below [n], and a lookup in a
    block that reaches past row [n], the run raises RuntimeError (the short
    read), whatever else the trace holds. *)
Lemma staging_partial_block_raises `{NP : NumPy, AA : AsArray, RG : Rng} clock cuda_available args trace name bs file n :
  valid_staging args trace name bs file →
  zlen file = n * (embedding_dim args * dtype_size_of args) →
  Forall (λ id, id < n) (concat bs) →
  Exists (λ id, n < (block_of (sa_rows_per_block args) id + 1) * sa_rows_per_block args) (concat bs) →
  run clock cuda_available args = Err RuntimeError.
Proof.
  intros V Hfile Hids Hex. unfold run. rewrite (run_loop clock cuda_available args trace name bs file V).
  destruct V as [_ _ _ Hu _ Hw Hr Hbb Hsz]. set (rpb := sa_rows_per_block args) in *.
  set (row := embedding_dim args * dtype_size_of args) in *.
  assert (rpb * embedding_dim args * dtype_size_of args = rpb * row) as Ebb by (unfold row; lia).
  assert (0 < row) as Hrow by nia.
  assert (∀ b x, b ∈ bs → x ∈ b → 0 ≤ x < n) as Hrange.
  { intros b x Hb Hx. rewrite Forall_forall in Hu. specialize (Hu b Hb). unfold all_u64, in_width in Hu.
    rewrite Forall_forall in Hu, Hids. specialize (Hu x Hx).
    assert (x ∈ concat bs) as Hc by (apply elem_of_concat; eauto). specialize (Hids x Hc). lia. }
  rewrite (staging_loop_short clock cuda_available args file Hw Hr Hbb Hsz bs Hu); [done| |].
  - fold rpb. rewrite Ebb. apply Forall_forall. intros b Hb. apply Forall_forall.
    intros x (id & Hid & ->)%blocks_of_elem. fold rpb. specialize (Hrange b id Hb Hid).
    pose proof (Z.mul_div_le id rpb Hr). unfold block_of. nia.
  - fold rpb. rewrite Ebb, Forall_forall. intros Hall.
    apply Exists_exists in Hex as (id & (b & Hid & Hb)%elem_of_concat & Hpast).
    specialize (Hall b Hb). rewrite Forall_forall in Hall.
    specialize (Hall (block_of rpb id)). unfold complete_block in Hall.
    assert (block_of rpb id ∈ blocks_of rpb b) as Hin by (apply blocks_of_elem; eauto). specialize (Hall Hin). nia.
Qed.

(** *** The properties at concrete data *)

Section Witnesses.
#[local] Existing Instance reference_numpy.
#[local] Existing Instance reference_asarray.
#[local] Existing Instance reference_rng.

(** Two batches over four rows of one fp16 number, two rows per block. *)
Definition example_trace (ids : list (list Z)) : trace_args :=
  {| trace_file_arg := Some (Ok (Npy (nd_matrix 2 ids) None), u "t"); ta_num_embeddings := 4; ta_batch_size := 1;
     ta_bag_size := 2; ta_num_batches := 2; dist := u "uniform"; zipf_alpha := f_one; overlap_ratio := f_zero;
     seed := 1 |}.
Definition example_staging (ids : list (list Z)) (rows : Z) : staging_args :=
  {| sa_trace := example_trace ids; sa_trace_source := u "synthetic"; embedding_file := Ok (seqZ 0 (rows * 2));
     embedding_dim := 1; sa_rows_per_block := 2; dtype_size := 4; sa_dtype := Some (u "fp16"); cuda_copy := true |}.
Definition example_clock (i : Z) : f64 := round_signed i 1000.
Definition example_opened (ids : list (list Z)) : opened_trace :=
  match open_batches (example_trace ids) 2 with Ok t => t | Err _ => Build_opened_trace (Ok []) 0 JNull (Ok JNull) end.

Lemma example_staging_valid : valid_staging (example_staging [[0; 1]; [3; 0]] 4) (example_opened [[0; 1]; [3; 0]])
  (JStr (u "t")) [[0; 1]; [3; 0]] (seqZ 0 8).
Proof.
  split; [vm_compute; reflexivity..| |reflexivity|split; vm_compute; congruence|done|split; vm_compute; congruence|done].
  repeat constructor; unfold in_width; lia.
Qed.

Lemma example_partial_valid : valid_staging (example_staging [[0; 1]; [2; 0]] 3) (example_opened [[0; 1]; [2; 0]])
  (JStr (u "t")) [[0; 1]; [2; 0]] (seqZ 0 6).
Proof.
  split; [vm_compute; reflexivity..| |reflexivity|split; vm_compute; congruence|done|split; vm_compute; congruence|done].
  repeat constructor; unfold in_width; lia.
Qed.

Lemma staging_reads_every_block_witness :
  ∃ res io, run_staging example_clock true (example_staging [[0; 1]; [3; 0]] 4) = Ok (res, io) ∧
    preads io = [(0, [0; 1; 2; 3]); (0, [0; 1; 2; 3]); (4, [4; 5; 6; 7])] ∧
    gpu_copies io = [[0; 1; 2; 3]; [0; 1; 2; 3]; [4; 5; 6; 7]] ∧
    dict_get res (u "posix_reads") = Some (JInt 3) ∧
    dict_get res (u "ssd_read_bytes") = Some (JInt 12).
Proof.
  destruct (staging_reads_every_block example_clock true _ _ _ _ _ example_staging_valid)
    as (res & io & E & _ & Ep & _ & Eg & Er & Eb & _);
    [repeat constructor; vm_compute; congruence|vm_compute; congruence|vm_compute; congruence|].
  exists res, io. split; [exact E|]. split; [rewrite Ep; vm_compute; reflexivity|]. split; [rewrite Eg; vm_compute; reflexivity|].
  split; [rewrite Er|rewrite Eb]; vm_compute; reflexivity.
Defined.

Lemma staging_partial_block_raises_witness :
  run example_clock true (example_staging [[0; 1]; [2; 0]] 3) = Err RuntimeError.
Proof.
  apply (staging_partial_block_raises example_clock true _ _ _ _ _ 3 example_partial_valid);
    [reflexivity|repeat constructor; vm_compute; congruence|].
  apply Exists_exists. exists 2. split; [right; right; left|vm_compute; done].
Defined.
End Witnesses.
