(* ===== verification/MemTierBag.v ===== *)
(** The MemTier runner (memtier_embedding_bench/python/memtier_embedding.py).

    [MemTierEmbeddingBag] calls the shared library through ctypes; [run] looks
    up the unique blocks of every batch of a trace, reads the library's metrics
    and reports rates and latencies.  The library is the interface
    [EmbeddingLib]; the clock and what exists on disk are parameters. *)

From S2P Require Import Prelude PyFloat PyText NumPy Json NdArray Workload TraceReader Stats LruSim Analyze Bench.
From S2P Require Import Posix SlotCache Runtime RuntimeData Metrics RuntimeLib.

(** ** ctypes *)

(** [c_uint64], [c_uint32] and [c_int] of a Python int keep its low bits. *)
Definition c_uint64 (z : Z) : Z := wrap 64 z.
Definition c_uint32 (z : Z) : Z := wrap 32 z.
Definition c_int (z : Z) : Z := let w := wrap 32 z in if w <? 2 ^ 31 then w else w - 2 ^ 32.

Definition MemTierEmbeddingConfig (num_embeddings embedding_dim rows_per_block dtype_size dram_cache_bytes
    hbm_cache_bytes enable_gds enable_prefetch : Z) : embedding_config :=
  {| num_embeddings := c_uint64 num_embeddings; Runtime.embedding_dim := c_uint32 embedding_dim;
     Runtime.rows_per_block := c_uint32 rows_per_block; Runtime.dtype_size := c_uint32 dtype_size;
     dram_cache_bytes := c_uint64 dram_cache_bytes; hbm_cache_bytes := c_uint64 hbm_cache_bytes;
     Runtime.enable_gds := c_int enable_gds; Runtime.enable_prefetch := c_int enable_prefetch |}.

(** The candidate paths under [root]: the first that exists, or the first. *)
Definition library_candidates (root : str) : list str :=
  [root ++ u "/build/libmemtier_embedding.so"; root ++ u "/build/Release/libmemtier_embedding.so";
   root ++ u "/libmemtier_embedding.so"].

Definition default_library_path (exists_path : str → bool) (root : str) : str :=
  match list_find (λ p, Is_true (exists_path p)) (library_candidates root) with
  | Some (_, candidate) => candidate
  | None => root ++ u "/build/libmemtier_embedding.so"
  end.

(** ** MemTierEmbeddingBag *)

Section Bag.
  Context {EL : EmbeddingLib}.

Record bag := { b_rows_per_block : Z; b_handle : option lib }.

  (** [__init__]: [cdll] is whether [ctypes.CDLL] loads the library. *)
Definition bag_init (cdll : bool) (embedding_file : str) (num_embeddings embedding_dim rows_per_block dtype_size
      dram_cache_bytes hbm_cache_bytes : Z) (enable_gds enable_prefetch : bool) : result bag :=
    _ ← raise_unless cdll OSError;
    let cfg := MemTierEmbeddingConfig num_embeddings embedding_dim rows_per_block dtype_size dram_cache_bytes
                 hbm_cache_bytes (Z.b2z enable_gds) (Z.b2z enable_prefetch) in
    match lib_init embedding_file cfg with
    | Some l => Ok {| b_rows_per_block := rows_per_block; b_handle := Some l |}
    | None => Err RuntimeError
    end.

  (** The pointers and the paths; a null handle makes the library return -1. *)
Definition lookup_blocks (block_ids : list Z) : SM bag (list Z * list Z) := λ b,
    match b_handle b with
    | None => Some (Err RuntimeError, b)
    | Some l =>
        let '(rc, out, l) := lib_lookup (astype_uint64 block_ids) l in
        Some (if rc =? 0 then Ok (out.*1, out.*2) else Err RuntimeError,
              {| b_rows_per_block := b_rows_per_block b; b_handle := Some l |})
    end.

Record forward_result := { num_blocks : Z; latency_ms : f64; paths : list Z; device_ptrs : list Z }.

Context {NP : NumPy}.

  (** [start] and [stop] are the readings of the clock around the lookup. *)
Definition forward (ids : list Z) (bag_size : Z) (mode : str) (start stop : f64) : SM bag forward_result :=
    _ ← guarded (bool_decide (mode = u "sum") || bool_decide (mode = u "mean")) ValueError;
    rpb ← gets b_rows_per_block;
    block_ids ← lift (ids_to_blocks ids rpb);
    '(ptrs, paths) ← lookup_blocks block_ids;
    mret {| num_blocks := zlen block_ids; latency_ms := elapsed_ms start stop; paths := paths; device_ptrs := ptrs |}.

Definition bag_metrics : SM bag json := λ b,
    match b_handle b with
    | None => Some (Err RuntimeError, b)
    | Some l =>
        match lib_metrics l 8192 with
        | None => Some (Err RuntimeError, b)
        | Some text => Some (json_loads text, b)
        end
    end.

  (** [close], and so [__exit__] and [__del__]: the handle is dropped, once. *)
Definition close (b : bag) : bag := {| b_rows_per_block := b_rows_per_block b; b_handle := None |}.
End Bag.

(** ** run *)

Record memtier_args := {
  ma_trace : trace_args;
  trace_name_arg : option str;
  ma_trace_source : str;
  (** [--num-embeddings] was given (a synthetic trace cannot be made without). *)
  num_embeddings_given : bool;
  ma_embedding_file : str;
  embedding_dim : Z;
  rows_per_block : Z;
  dtype_size : Z;
  dram_cache_gb : f64;
  hbm_cache_gb : f64;
  mode : str;
  ma_enable_gds : bool;
  ma_enable_prefetch : bool;
  cdll_loads : bool;
}.

(** [int(gb * (1024**3))]. *)
Definition gb_to_bytes (gb : f64) : result Z := f_int (fmul gb (lit (2 ^ 30) 1)).

Record run_state := { r_measures : measures; r_latencies : list f64; r_ticks : Z }.

Definition run_init : run_state := {| r_measures := measure_init; r_latencies := []; r_ticks := 0 |}.

(** [int(metrics.get(k, 0))]. *)
Definition metric_int (metrics : json) (k : str) : result Z :=
  match metrics with
  | JObj d => match dict_get d k with Some v => py_int_json v | None => Ok 0 end
  | _ => Err AttributeError
  end.

Section Run.
  Context {EL : EmbeddingLib} {NP : NumPy} {AA : AsArray} {RG : Rng}.
  Variable clock : Z → f64.

  (** The body of the loop over the batches. *)
Definition run_batch (args : memtier_args) (st : run_state) (batch : list Z) : SM bag run_state :=
    blocks ← lift (ids_to_blocks batch (rows_per_block args));
    m ← lift (measure_batch (r_measures st) batch blocks);
    out ← forward batch (ta_bag_size (ma_trace args)) (mode args) (clock (r_ticks st)) (clock (r_ticks st + 1));
    mret {| r_measures := m; r_latencies := r_latencies st ++ [latency_ms out]; r_ticks := r_ticks st + 2 |}.

  (** The loop over a generator whose batches may raise, and the metrics. *)
Definition run_batches (args : memtier_args) (batches : list (result (list Z))) : SM bag (run_state * json) :=
    st ← sm_fold (λ st r, batch ← lift r; run_batch args st batch) run_init batches;
    metrics ← bag_metrics;
    mret (st, metrics).

  (** [with MemTierEmbeddingBag(...) as mt]: closed on every way out. *)
Definition with_bag {A} (b : bag) (m : SM bag A) : result A :=
    match m b with Some (r, _) => r | None => Err RuntimeError end.

Definition total_num_embeddings (args : memtier_args) (metadata : json) : result Z :=
    if num_embeddings_given args then Ok (ta_num_embeddings (ma_trace args)) else
    match metadata with
    | JObj d => py_int_json (py_or (default (JInt 0) (dict_get d (u "total_num_embeddings"))) (JInt 0))
    | _ => Err AttributeError
    end.

Definition memtier_result (args : memtier_args) (trace_name : json) (num_embeddings num_batches : Z) (metrics : json)
    (l : latency_stats) (s : summary) : result (list (str * json)) :=
    posix ← metric_int metrics (u "posix_reads");
    hbm ← metric_int metrics (u "hbm_hits");
    dram ← metric_int metrics (u "dram_hits");
    gds ← metric_int metrics (u "gds_reads");
    let denom := Z.max (hbm + dram + posix + gds) 1 in
    hbm_rate ← truediv hbm denom;
    dram_rate ← truediv dram denom;
    ssd_bytes ← metric_int metrics (u "bytes_read_from_ssd");
    gpu_bytes ← metric_int metrics (u "bytes_copied_dram_to_gpu");
    cache_rate ← truediv dram (Z.max (dram + posix) 1);
    traffic ← truediv ssd_bytes
                (Z.max (num_unique_blocks s * rows_per_block args * embedding_dim args * dtype_size args) 1);
    let ta := ma_trace args in
    Ok [(u "system", JStr (u "memtier")); (u "trace_source", JStr (ma_trace_source args)); (u "trace_name", trace_name);
        (u "dist", JStr (dist ta)); (u "zipf_alpha", JFloat (zipf_alpha ta)); (u "num_embeddings", JInt num_embeddings);
        (u "embedding_dim", JInt (embedding_dim args)); (u "rows_per_block", JInt (rows_per_block args));
        (u "batch_size", JInt (ta_batch_size ta)); (u "bag_size", JInt (ta_bag_size ta));
        (u "num_batches", JInt num_batches); (u "avg_latency_ms", JFloat (avg_latency_ms l));
        (u "p50_latency_ms", JFloat (p50_latency_ms l)); (u "p95_latency_ms", JFloat (p95_latency_ms l));
        (u "throughput_lookups_per_sec", JFloat (throughput_lookups_per_sec l));
        (u "hbm_hit_rate", JFloat hbm_rate); (u "dram_hit_rate", JFloat dram_rate);
        (u "ssd_read_bytes", JInt ssd_bytes); (u "dram_to_gpu_bytes", JInt gpu_bytes); (u "posix_reads", JInt posix);
        (u "gds_reads", JInt gds); (u "num_unique_ids", JInt (num_unique_ids s));
        (u "num_unique_blocks", JInt (num_unique_blocks s));
        (u "avg_unique_ids_per_batch", JFloat (avg_unique_ids_per_batch s));
        (u "avg_unique_blocks_per_batch", JFloat (avg_unique_blocks_per_batch s));
        (u "p95_unique_blocks_per_batch", match p95_unique_blocks_per_batch s with
                                         | Some z => JInt z
                                         | None => JFloat f_zero
                                         end);
        (u "block_reuse_ratio", JFloat (block_reuse_ratio s)); (u "dram_cache_hit_rate", JFloat cache_rate);
        (u "ssd_traffic_reduction_vs_cpu_staging", JFloat (fsub f_one traffic)); (u "metrics", metrics)].

Definition run (args : memtier_args) : result (list (str * json)) :=
    trace ← open_batches (ma_trace args) (rows_per_block args);
    trace_name ← match trace_name_arg args with
                 | Some ((_ :: _) as name) => Ok (JStr name)
                 | _ => ot_name trace
                 end;
    num_embeddings ← total_num_embeddings args (ot_metadata trace);
    if num_embeddings =? 0 then Err ValueError else
    dram_bytes ← gb_to_bytes (dram_cache_gb args);
    hbm_bytes ← gb_to_bytes (hbm_cache_gb args);
    mt ← bag_init (cdll_loads args) (ma_embedding_file args) num_embeddings (embedding_dim args) (rows_per_block args)
           (dtype_size args) dram_bytes hbm_bytes (ma_enable_gds args) (ma_enable_prefetch args);
    '(st, metrics) ← with_bag mt (batches ← lift (ot_batches trace); run_batches args batches);
    l ← summarize_latencies (r_latencies st) (total_lookups (r_measures st));
    s ← summarize (r_measures st);
    memtier_result args trace_name num_embeddings (ot_num_batches trace) metrics l s.
End Run.

(** ** Lemmas *)

Section Lookups.
Context {EL : EmbeddingLib}.

(** The lookups of these batches of blocks, one after another, all return 0. *)
Fixpoint lookups_succeed (l : lib) (bss : list (list Z)) : Prop :=
  match bss with
  | [] => True
  | blocks :: bss => let '(rc, _, l') := lib_lookup blocks l in rc = 0 ∧ lookups_succeed l' bss
  end.

(** The library after them. *)
Definition after_lookups (l : lib) (bss : list (list Z)) : lib := foldl (λ l blocks, (lib_lookup blocks l).2) l bss.

Lemma lookups_succeed_snoc l bss blocks :
  lookups_succeed l (bss ++ [blocks]) ↔
  lookups_succeed l bss ∧ (lib_lookup blocks (after_lookups l bss)).1.1 = 0.
Proof.
  revert l; induction bss as [|b bss IH]; intros l; cbn [app lookups_succeed after_lookups foldl].
  - destruct (lib_lookup blocks l) as [[rc out] l']. cbn. tauto.
  - destruct (lib_lookup b l) as [[rc out] l'] eqn:E. cbn [snd]. rewrite IH. unfold after_lookups. tauto.
Qed.

Lemma after_lookups_snoc l bss blocks : after_lookups l (bss ++ [blocks]) = (lib_lookup blocks (after_lookups l bss)).2.
Proof. unfold after_lookups. by rewrite foldl_app. Qed.

(** What the counters say after lookups of [n] blocks in all: [h] hits in HBM,
    [d] in DRAM, [p] reads. *)
Record accounted (bb : Z) (l : lib) (n h d p : Z) : Prop := {
  ac_ok : lib_ok l;
  ac_bytes : lib_block_bytes l = bb;
  ac_sum : h + d + p = n ∧ 0 ≤ h ∧ 0 ≤ d ∧ 0 ≤ p;
  ac_hbm : lib_count l hbm_hits = wrap 64 h;
  ac_dram : lib_count l dram_hits = wrap 64 d;
  ac_posix : lib_count l posix_reads = wrap 64 p;
  ac_gds : lib_count l gds_reads = 0;
  ac_read : lib_count l bytes_read_from_ssd = wrap 64 (p * bb);
  ac_copied : lib_count l bytes_copied_dram_to_gpu = wrap 64 ((d + p) * bb);
  ac_seen : set_size (lib_seen l) ≤ p;
}.

Lemma accounted_lookup bb l n h d p blocks out l' :
  accounted bb l n h d p → Forall (λ b, 0 ≤ b < UINT64_MAX) blocks → lib_lookup blocks l = (0, out, l') →
  lib_seen l' = lib_seen l ∪ int_set blocks ∧
  ∃ h' d' p', accounted bb l' (n + zlen blocks) h' d' p' ∧ h ≤ h' ∧ d ≤ d' ∧ p ≤ p'.
Proof.
  intros [Hok Hbb [Hn Hpos] Eh Ed Ep Eg Er Ec Hs] Hb E.
  destruct (lib_lookup_ok blocks l out l' Hok Hb E) as (Hok' & Hbb' & Hseen & _ & Hsum & Hnew & E1 & E2 & E3 & E4 & E5 & E6).
  split; [done|]. exists (h + coded HBM_HIT out.*2), (d + coded DRAM_HIT out.*2), (p + coded POSIX_READ out.*2).
  assert (0 ≤ coded HBM_HIT out.*2 ∧ 0 ≤ coded DRAM_HIT out.*2 ∧ 0 ≤ coded POSIX_READ out.*2) as (P1 & P2 & P3)
    by (unfold coded; lia).
  split; [|lia]. split; [done|congruence|lia|..].
  - by rewrite E1, Eh, wrap_add_l.
  - by rewrite E2, Ed, wrap_add_l.
  - by rewrite E3, Ep, wrap_add_l.
  - by rewrite E4, Eg.
  - rewrite E5, Er, wrap_add_l, Hbb. f_equal. lia.
  - rewrite E6, Ec, wrap_add_l, Hbb. f_equal. lia.
  - rewrite Hseen. unfold set_size in *.
    pose proof (size_union_alt (lib_seen l) (list_to_set blocks)) as Hu. lia.
Qed.
End Lookups.

Section Runs.
Context {EL : EmbeddingLib} {NP : NumPy} {AA : AsArray} {RG : Rng}.
Variable clock : Z → f64.
Variable args : memtier_args.
Let rpb := rows_per_block args.
Let bb := rpb * embedding_dim args * dtype_size args.

(** What a run needs: a trace that opens to readable batches of ids, sizes that
    fit their fields, a library that loads and initializes. *)
Record valid_memtier (trace : opened_trace) (name : json) (bs : list (list Z)) (num dram hbm : Z) (l : lib) : Prop := {
  vm_trace : open_batches (ma_trace args) rpb = Ok trace;
  vm_name : (match trace_name_arg args with Some ((_ :: _) as name) => Ok (JStr name) | _ => ot_name trace end) = Ok name;
  vm_batches : ot_batches trace = Ok (Ok <$> bs);
  vm_ids : Forall (Forall (λ id, 0 ≤ id < UINT64_MAX)) bs;
  vm_num : total_num_embeddings args (ot_metadata trace) = Ok num;
  vm_num_nonzero : num ≠ 0;
  vm_dram : gb_to_bytes (dram_cache_gb args) = Ok dram;
  vm_hbm : gb_to_bytes (hbm_cache_gb args) = Ok hbm;
  vm_cdll : cdll_loads args = true;
  vm_init : lib_init (ma_embedding_file args)
              (MemTierEmbeddingConfig num (embedding_dim args) rpb (dtype_size args) dram hbm
                 (Z.b2z (ma_enable_gds args)) (Z.b2z (ma_enable_prefetch args))) = Some l;
  vm_mode : mode args = u "sum" ∨ mode args = u "mean";
  vm_rpb : 0 < rpb < 2 ^ 32;
  vm_dim : 0 < embedding_dim args < 2 ^ 32;
  vm_dtype : 0 < dtype_size args < 2 ^ 32;
  vm_bb : bb < 2 ^ 64;
}.

Lemma ids_u64 batch : Forall (λ id, 0 ≤ id < UINT64_MAX) batch → all_u64 batch.
Proof. intros H. unfold all_u64, in_width. refine (Forall_impl _ _ _ H _). unfold UINT64_MAX. lia. Qed.

Section Loop.
Hypothesis rpb_range : 0 < rpb < 2 ^ 32.
Hypothesis mode_ok : mode args = u "sum" ∨ mode args = u "mean".

Lemma blocks_in_range batch :
  Forall (λ id, 0 ≤ id < UINT64_MAX) batch → Forall (λ b, 0 ≤ b < UINT64_MAX) (blocks_of rpb batch).
Proof.
  intros H. rewrite Forall_forall in H. apply Forall_forall. intros x (id & Hid & ->)%blocks_of_elem.
  specialize (H id Hid). unfold block_of. split; [apply Z.div_pos; lia|].
  apply Z.le_lt_trans with id; [|lia]. apply Z.div_le_upper_bound; nia.
Qed.

Lemma batch_blocks batch : Forall (λ id, 0 ≤ id < UINT64_MAX) batch → ids_to_blocks batch rpb = Ok (blocks_of rpb batch).
Proof. intros H. apply ids_to_blocks_Ok; [by apply ids_u64|unfold in_width; lia|lia]. Qed.

(** One batch, up to the return code of its lookup. *)
Lemma run_batch_eq st bs batch l :
  measured rpb bs (r_measures st) → Forall (λ id, 0 ≤ id < UINT64_MAX) batch →
  let '(rc, out, l') := lib_lookup (blocks_of rpb batch) l in
  ∃ m lat, measured rpb (bs ++ [batch]) m ∧ f_wf lat = true ∧
    run_batch clock args st batch {| b_rows_per_block := rpb; b_handle := Some l |} =
      Some (if rc =? 0 then Ok {| r_measures := m; r_latencies := r_latencies st ++ [lat]; r_ticks := r_ticks st + 2 |}
            else Err RuntimeError, {| b_rows_per_block := rpb; b_handle := Some l' |}).
Proof.
  intros Hm Hids. destruct (lib_lookup (blocks_of rpb batch) l) as [[rc out] l'] eqn:E.
  destruct (measure_batch_Ok rpb bs (r_measures st) batch Hm) as (m & Em & Hm').
  exists m, (elapsed_ms (clock (r_ticks st)) (clock (r_ticks st + 1))). split; [done|]. split; [apply elapsed_ms_wf|].
  unfold run_batch. fold rpb. eapply sm_step; [unfold lift; rewrite (batch_blocks batch Hids); reflexivity|]. cbv beta.
  eapply sm_step; [unfold lift; rewrite Em; reflexivity|]. cbv beta.
  assert (lookup_blocks (blocks_of rpb batch) {| b_rows_per_block := rpb; b_handle := Some l |} =
    Some (if rc =? 0 then Ok (out.*1, out.*2) else Err RuntimeError, {| b_rows_per_block := rpb; b_handle := Some l' |})) as El.
  { unfold lookup_blocks. cbn [b_handle].
    assert (astype_uint64 (blocks_of rpb batch) = blocks_of rpb batch) as ->.
    { apply astype_uint64_id. pose proof (blocks_in_range batch Hids) as H. unfold all_u64.
      refine (Forall_impl _ _ _ H _). unfold UINT64_MAX, in_width. lia. }
    by rewrite E. }
  unfold mbind at 1, sm_bind at 1.
  assert (forward batch (ta_bag_size (ma_trace args)) (mode args) (clock (r_ticks st)) (clock (r_ticks st + 1))
      {| b_rows_per_block := rpb; b_handle := Some l |} =
    Some (if rc =? 0 then Ok {| num_blocks := zlen (blocks_of rpb batch);
                                latency_ms := elapsed_ms (clock (r_ticks st)) (clock (r_ticks st + 1));
                                paths := out.*2; device_ptrs := out.*1 |} else Err RuntimeError,
          {| b_rows_per_block := rpb; b_handle := Some l' |})) as ->.
  { unfold forward. eapply sm_step.
    { unfold guarded. assert (bool_decide (mode args = u "sum") || bool_decide (mode args = u "mean") = true) as ->; [|reflexivity].
      apply orb_true_iff. rewrite !bool_decide_eq_true. exact mode_ok. }
    cbv beta. eapply sm_step; [reflexivity|]. cbv beta. cbn [b_rows_per_block].
    eapply sm_step; [unfold lift; rewrite (batch_blocks batch Hids); reflexivity|]. cbv beta.
    unfold mbind, sm_bind. rewrite El. by destruct (rc =? 0). }
  by destruct (rc =? 0).
Qed.

Definition block_lists (bs : list (list Z)) : list (list Z) := blocks_of rpb <$> bs.
Definition block_lookups (bs : list (list Z)) : Z := zsum ((λ b, zlen (blocks_of rpb b)) <$> bs).

Definition loop_body (st : run_state) (r : result (list Z)) : SM bag run_state := batch ← lift r; run_batch clock args st batch.

(** After the batches [bs]. *)
Record after_batches (l0 : lib) (bs : list (list Z)) (st : run_state) : Prop := {
  ab_measured : measured rpb bs (r_measures st);
  ab_latencies : Forall (λ f, f_wf f = true) (r_latencies st);
  ab_count : zlen (r_latencies st) = zlen bs;
}.

Lemma loop_Ok l0 bs :
  Forall (Forall (λ id, 0 ≤ id < UINT64_MAX)) bs → lookups_succeed l0 (block_lists bs) →
  ∃ st, sm_fold loop_body run_init (Ok <$> bs) {| b_rows_per_block := rpb; b_handle := Some l0 |} =
      Some (Ok st, {| b_rows_per_block := rpb; b_handle := Some (after_lookups l0 (block_lists bs)) |}) ∧
    after_batches l0 bs st.
Proof.
  unfold block_lists. induction bs as [|batch bs IH] using rev_ind; intros Hids Hl.
  - exists run_init. split; [done|]. split; [apply measured_init|constructor|done].
  - apply Forall_app in Hids as [Hids Hb%Forall_inv]. rewrite fmap_app in Hl.
    apply lookups_succeed_snoc in Hl as [Hl Hrc]. destruct (IH Hids Hl) as (st & E & [Hm Hw Hn]).
    pose proof (run_batch_eq st bs batch (after_lookups l0 (blocks_of rpb <$> bs)) Hm Hb) as H.
    rewrite !fmap_app. cbn [fmap list_fmap]. rewrite after_lookups_snoc.
    destruct (lib_lookup (blocks_of rpb batch) (after_lookups l0 (blocks_of rpb <$> bs))) as [[rc out] l'].
    cbn [fst snd] in *. subst rc. destruct H as (m & lat & Hm' & Hlat & Eb). eexists. split.
    + eapply sm_fold_snoc; [exact E|]. unfold loop_body. eapply sm_step; [reflexivity|]. exact Eb.
    + split; cbn [r_measures r_latencies]; [done|by apply Forall_app; split; [|constructor]|].
      rewrite !length_app. cbn [length]. lia.
Qed.

(** A batch whose lookup fails ends the run. *)
Lemma loop_fails l0 bs1 batch bs2 :
  Forall (Forall (λ id, 0 ≤ id < UINT64_MAX)) (bs1 ++ [batch]) → lookups_succeed l0 (block_lists bs1) →
  (lib_lookup (blocks_of rpb batch) (after_lookups l0 (block_lists bs1))).1.1 ≠ 0 →
  ∃ b, sm_fold loop_body run_init (Ok <$> (bs1 ++ batch :: bs2)) {| b_rows_per_block := rpb; b_handle := Some l0 |} =
    Some (Err RuntimeError, b).
Proof.
  intros Hids Hl Hrc. apply Forall_app in Hids as [Hids Hb%Forall_inv].
  destruct (loop_Ok l0 bs1 Hids Hl) as (st & E & [Hm _ _]).
  pose proof (run_batch_eq st bs1 batch (after_lookups l0 (block_lists bs1)) Hm Hb) as H.
  destruct (lib_lookup (blocks_of rpb batch) _) as [[rc out] l']. cbn [fst] in Hrc. destruct H as (m & lat & _ & _ & Eb).
  rewrite (proj2 (Z.eqb_neq rc 0) Hrc) in Eb. eexists.
  rewrite fmap_app, fmap_cons. generalize (Ok (A := list Z) <$> bs2). intros rest.
  assert (∀ stream s b, sm_fold loop_body s stream b = Some (Ok st, {| b_rows_per_block := rpb;
    b_handle := Some (after_lookups l0 (block_lists bs1)) |}) →
    sm_fold loop_body s (stream ++ Ok batch :: rest) b = Some (Err RuntimeError, {| b_rows_per_block := rpb; b_handle := Some l' |})) as Happ.
  { induction stream as [|r stream IH]; intros s b; cbn [app sm_fold].
    - intros [= -> ->]. unfold mbind at 1, sm_bind at 1. unfold loop_body at 1.
      unfold mbind at 1, sm_bind at 1. cbn [lift]. rewrite Eb. reflexivity.
    - unfold mbind, sm_bind. destruct (loop_body s r b) as [[[s'|e] b']|]; [apply IH|done..]. }
  by apply Happ.
Qed.

(** What the counters say after the batches. *)
Lemma loop_accounted l0 bs :
  lib_ok l0 → lib_block_bytes l0 = bb → (∀ c, lib_count l0 c = 0) → lib_seen l0 = ∅ →
  Forall (Forall (λ id, 0 ≤ id < UINT64_MAX)) bs → lookups_succeed l0 (block_lists bs) →
  lib_seen (after_lookups l0 (block_lists bs)) = int_set (block_of rpb <$> concat bs) ∧
  ∃ h d p, accounted bb (after_lookups l0 (block_lists bs)) (block_lookups bs) h d p.
Proof.
  intros Hok Hbb Hc Hs. unfold block_lists, block_lookups. induction bs as [|batch bs IH] using rev_ind; intros Hids Hl.
  - change (after_lookups l0 (blocks_of rpb <$> [])) with l0. split; [by rewrite Hs|].
    exists 0, 0, 0. split; rewrite ?Hc, ?Hs; done.
  - apply Forall_app in Hids as [Hids Hb%Forall_inv]. rewrite fmap_app in Hl.
    apply lookups_succeed_snoc in Hl as [Hl Hrc]. destruct (IH Hids Hl) as (Hseen & h & d & p & Ha).
    rewrite !fmap_app, zsum_app. cbn [fmap list_fmap]. rewrite after_lookups_snoc.
    destruct (lib_lookup (blocks_of rpb batch) (after_lookups l0 (blocks_of rpb <$> bs))) as [[rc out] l'] eqn:E.
    cbn [fst snd] in *. subst rc.
    destruct (accounted_lookup bb _ _ h d p _ out l' Ha (blocks_in_range batch Hb) E) as (Hseen' & h' & d' & p' & Ha' & _).
    split.
    + rewrite Hseen', Hseen, int_set_blocks_of, concat_app, fmap_app, int_set_app. cbn [concat]. by rewrite app_nil_r.
    + exists h', d', p'. replace (zsum [zlen (blocks_of rpb batch)]) with (zlen (blocks_of rpb batch)) by (cbn; lia). done.
Qed.
End Loop.

(** The run up to its loop. *)
Lemma memtier_loop trace name bs num dram hbm l :
  valid_memtier trace name bs num dram hbm l →
  run clock args =
    ('(st, metrics) ← with_bag {| b_rows_per_block := rpb; b_handle := Some l |} (run_batches clock args (Ok <$> bs));
     l ← summarize_latencies (r_latencies st) (total_lookups (r_measures st));
     s ← summarize (r_measures st);
     memtier_result args name num (ot_num_batches trace) metrics l s).
Proof.
  intros [Et En Eb _ Enum Hnz Ed Eh Ec Ei _ _ _ _ _]. unfold run. fold rpb.
  run_step ltac:(exact Et). run_step ltac:(exact En). run_step ltac:(exact Enum).
  rewrite (proj2 (Z.eqb_neq num 0) Hnz). run_step ltac:(exact Ed). run_step ltac:(exact Eh).
  eapply bind_step; [unfold bag_init; rewrite Ec; cbn [raise_unless mbind result_bind]; rewrite Ei; reflexivity|].
  cbv beta iota. by rewrite Eb.
Qed.

Lemma config_bytes trace name bs num dram hbm l :
  valid_memtier trace name bs num dram hbm l → lib_block_bytes l = bb ∧ lib_ok l ∧ (∀ c, lib_count l c = 0) ∧ lib_seen l = ∅.
Proof.
  intros V. destruct (lib_init_ok _ _ _ (vm_init _ _ _ _ _ _ _ V)) as (Hok & -> & Hc & Hs). split; [|done].
  pose proof (vm_rpb _ _ _ _ _ _ _ V) as Hr. pose proof (vm_dim _ _ _ _ _ _ _ V) as Hd.
  pose proof (vm_dtype _ _ _ _ _ _ _ V) as Ht. pose proof (vm_bb _ _ _ _ _ _ _ V) as Hb. unfold bb in *.
  unfold block_size_bytes, MemTierEmbeddingConfig, c_uint32.
  cbn [Runtime.rows_per_block Runtime.embedding_dim Runtime.dtype_size].
  rewrite !(wrap_small 32) by (unfold in_width; lia).
  rewrite (wrap_small 64 (rpb * _)) by (unfold in_width; nia). by rewrite wrap_small by (unfold in_width; nia).
Qed.

(** A report, in terms of the hits and reads of the run. *)
Definition reports (bs : list (list Z)) (h d p : Z) (res : list (str * json)) : Prop :=
  let distinct := set_size (int_set (block_of rpb <$> concat bs)) in
  h + d + p = block_lookups bs ∧ 0 ≤ h ∧ 0 ≤ d ∧ distinct ≤ p ∧
  ∃ r1 r2 r3 t,
    truediv h (Z.max (h + d + p) 1) = Ok r1 ∧ truediv d (Z.max (h + d + p) 1) = Ok r2 ∧
    truediv d (Z.max (d + p) 1) = Ok r3 ∧ truediv (p * bb) (Z.max (distinct * bb) 1) = Ok t ∧
    dict_get res (u "hbm_hit_rate") = Some (JFloat r1) ∧ dict_get res (u "dram_hit_rate") = Some (JFloat r2) ∧
    dict_get res (u "dram_cache_hit_rate") = Some (JFloat r3) ∧
    dict_get res (u "ssd_traffic_reduction_vs_cpu_staging") = Some (JFloat (fsub f_one t)) ∧
    dict_get res (u "posix_reads") = Some (JInt p) ∧ dict_get res (u "ssd_read_bytes") = Some (JInt (p * bb)) ∧
    dict_get res (u "dram_to_gpu_bytes") = Some (JInt ((d + p) * bb)) ∧
    dict_get res (u "num_unique_blocks") = Some (JInt distinct).

Lemma metric_int_get d c v : dict_get d (metric_name c) = Some (JInt v) → metric_int (JObj d) (metric_name c) = Ok v.
Proof. unfold metric_int. by intros ->. Qed.

Lemma batches_metrics stream b st l' text metrics :
  sm_fold loop_body run_init stream b = Some (Ok st, {| b_rows_per_block := rpb; b_handle := Some l' |}) →
  lib_metrics l' 8192 = Some text → json_loads text = Ok metrics →
  run_batches clock args stream b = Some (Ok (st, metrics), {| b_rows_per_block := rpb; b_handle := Some l' |}).
Proof.
  intros E Et El. unfold run_batches. eapply sm_step; [exact E|]. cbv beta.
  eapply sm_step; [|reflexivity]. unfold bag_metrics. cbn [b_handle]. by rewrite Et, El.
Qed.

Lemma run_reports trace name bs num dram hbm l :
  valid_memtier trace name bs num dram hbm l → lookups_succeed l (block_lists bs) →
  block_lookups bs * bb < 2 ^ 64 → zlen bs ≤ two53 → zlen (concat bs) ≤ two53 →
  ∃ res h d p, run clock args = Ok res ∧ reports bs h d p res.
Proof.
  intros V Hl Hbytes Hn Hc. rewrite (memtier_loop trace name bs num dram hbm l V).
  destruct (config_bytes trace name bs num dram hbm l V) as (Hbb & Hok & Hz & Hs0).
  pose proof (vm_rpb _ _ _ _ _ _ _ V) as Hr. pose proof (vm_mode _ _ _ _ _ _ _ V) as Hmode.
  pose proof (vm_ids _ _ _ _ _ _ _ V) as Hids.
  pose proof (vm_dim _ _ _ _ _ _ _ V) as Hd. pose proof (vm_dtype _ _ _ _ _ _ _ V) as Ht.
  assert (0 < bb) as Hbpos by (unfold bb; nia).
  destruct (loop_Ok Hr Hmode l bs Hids Hl) as (st & E & [Hm Hlat Hnl]).
  destruct (loop_accounted Hr l bs Hok Hbb Hz Hs0 Hids Hl) as (Hseen & h & d & p & [Aok Abb [Asum Apos] A1 A2 A3 A4 A5 A6 A7]).
  set (l' := after_lookups l (block_lists bs)) in *.
  pose proof (unique_blocks_le rpb bs) as Hu. fold (block_lookups bs) in Hu.
  set (distinct := set_size (int_set (block_of rpb <$> concat bs))) in *.
  assert (block_lookups bs < 2 ^ 64) as Hlt by nia.
  rewrite wrap_small in A1, A2, A3 by (unfold in_width; lia). rewrite wrap_small in A5, A6 by (unfold in_width; nia).
  rewrite Hseen in A7. fold distinct in A7.
  destruct (lib_metrics_ok l' Aok) as (text & ms & Etext & Eload & Hget).
  destruct (summarize_latencies_Ok (r_latencies st) (total_lookups (r_measures st)) Hlat) as (ls & E2);
    [lia|rewrite (md_lookups _ _ _ Hm); lia|].
  destruct (summarize_Ok _ _ _ Hm Hn Hc) as (s & E3 & Ei & Eb). fold distinct in Eb.
  destruct (truediv_unit h (Z.max (h + d + p) 1)) as (r1 & R1 & _); [lia|lia|].
  destruct (truediv_unit d (Z.max (h + d + p) 1)) as (r2 & R2 & _); [lia|lia|].
  destruct (truediv_unit d (Z.max (d + p) 1)) as (r3 & R3 & _); [lia|lia|].
  assert (0 ≤ distinct) as Hd0 by (unfold distinct, set_size; lia).
  destruct (truediv_bounded (p * bb) (Z.max (distinct * bb) 1)) as (t & R4 & _); [nia|lia| |].
  { destruct (Z.eq_dec distinct 0) as [E0|]; [|unfold two53 in *; nia].
    assert (block_lookups bs = 0) as Hb0; [|nia].
    assert (concat bs = []) as Ec.
    { destruct (concat bs) as [|x xs]; [done|]. unfold distinct, set_size in E0.
      assert (int_set (block_of rpb <$> x :: xs) ≡ ∅) as He by (apply size_empty_iff; lia).
      assert (block_of rpb x ∈ int_set (block_of rpb <$> x :: xs)) as Hin by (apply elem_of_int_set; left). set_solver. }
    rewrite Ec in Hu. cbn in Hu. lia. }
  assert (∀ c v, lib_count l' c = v → metric_int (JObj ms) (metric_name c) = Ok v) as Hmi.
  { intros c v <-. apply metric_int_get, Hget. }
  eexists _, h, d, p. split.
  - eapply bind_step.
    { unfold with_bag. rewrite (batches_metrics _ _ _ _ text (JObj ms) E Etext Eload). reflexivity. }
    cbv beta iota. run_step ltac:(exact E2). run_step ltac:(exact E3). unfold memtier_result.
    run_step ltac:(exact (Hmi posix_reads p A3)). run_step ltac:(exact (Hmi hbm_hits h A1)).
    run_step ltac:(exact (Hmi dram_hits d A2)). run_step ltac:(exact (Hmi gds_reads 0 A4)).
    rewrite Z.add_0_r. run_step ltac:(exact R1). run_step ltac:(exact R2).
    run_step ltac:(exact (Hmi bytes_read_from_ssd _ A5)). run_step ltac:(exact (Hmi bytes_copied_dram_to_gpu _ A6)).
    run_step ltac:(exact R3). rewrite Eb. eapply bind_step; [|reflexivity].
    replace (distinct * rows_per_block args * embedding_dim args * dtype_size args) with (distinct * bb) by (unfold bb, rpb; lia).
    exact R4.
  - split; [lia|]. split; [lia|]. split; [lia|]. split; [fold distinct; lia|]. fold distinct.
    exists r1, r2, r3, t. rewrite <-Eb. split_and!; try assumption; try reflexivity. by rewrite Eb.
Qed.

(** A run whose trace reads well but whose library refuses a batch. *)
Lemma run_fails trace name bs num dram hbm l bs1 batch bs2 :
  valid_memtier trace name bs num dram hbm l → bs = bs1 ++ batch :: bs2 → lookups_succeed l (block_lists bs1) →
  (lib_lookup (blocks_of rpb batch) (after_lookups l (block_lists bs1))).1.1 ≠ 0 →
  run clock args = Err RuntimeError.
Proof.
  intros V -> Hl Hrc. rewrite (memtier_loop _ _ _ _ _ _ _ V).
  pose proof (vm_ids _ _ _ _ _ _ _ V) as Hids. rewrite cons_middle, app_assoc in Hids. apply Forall_app in Hids as [Hids _].
  destruct (loop_fails (vm_rpb _ _ _ _ _ _ _ V) (vm_mode _ _ _ _ _ _ _ V) l bs1 batch bs2 Hids Hl Hrc) as (b & E).
  assert (run_batches clock args (Ok <$> (bs1 ++ batch :: bs2)) {| b_rows_per_block := rpb; b_handle := Some l |}
    = Some (Err RuntimeError, b)) as Eb.
  { unfold run_batches. unfold mbind at 1, sm_bind at 1. unfold loop_body in E. by rewrite E. }
  unfold with_bag. by rewrite Eb.
Qed.
End Runs.

(** C10: a MemTier run reports what the library did. On a valid run whose lookups
    all return 0, with fewer than 2^64 bytes looked up, the run returns; the
    [p] POSIX reads it reports, with the hits [h] in HBM and [d] in DRAM, add up
    to the distinct blocks of the batches, one by one what CPU staging reads for
    the same trace; [p] is at least the number of distinct blocks of the trace;
    the bytes reported are those of [p] blocks read and [d + p] copied; and every
    rate is the rounded quotient of these counts and lies in [0, 1]. *)
Theorem memtier_run_accounts `{EL : EmbeddingLib, NP : NumPy, AA : AsArray, RG : Rng} clock args trace name bs num dram hbm l :
  valid_memtier args trace name bs num dram hbm l → lookups_succeed l (block_lists args bs) →
  let rpb := rows_per_block args in
  let block_bytes := rpb * embedding_dim args * dtype_size args in
  let staging_reads := zsum ((λ b, zlen (blocks_of rpb b)) <$> bs) in
  staging_reads * block_bytes < 2 ^ 64 → zlen bs ≤ two53 → zlen (concat bs) ≤ two53 →
  ∃ res h d p r1 r2 r3, run clock args = Ok res ∧
    h + d + p = staging_reads ∧ 0 ≤ h ∧ 0 ≤ d ∧ set_size (int_set (block_of rpb <$> concat bs)) ≤ p ∧
    dict_get res (u "posix_reads") = Some (JInt p) ∧
    dict_get res (u "ssd_read_bytes") = Some (JInt (p * block_bytes)) ∧
    dict_get res (u "dram_to_gpu_bytes") = Some (JInt ((d + p) * block_bytes)) ∧
    dict_get res (u "hbm_hit_rate") = Some (JFloat r1) ∧ truediv h (Z.max staging_reads 1) = Ok r1 ∧
    dict_get res (u "dram_hit_rate") = Some (JFloat r2) ∧ truediv d (Z.max staging_reads 1) = Ok r2 ∧
    dict_get res (u "dram_cache_hit_rate") = Some (JFloat r3) ∧ truediv d (Z.max (d + p) 1) = Ok r3 ∧
    in_unit r1 = true ∧ in_unit r2 = true ∧ in_unit r3 = true.
Proof.
  intros V Hl rpb block_bytes staging_reads Hb Hn Hc.
  destruct (run_reports clock args trace name bs num dram hbm l V Hl Hb Hn Hc) as
    (res & h & d & p & E & Hsum & Hh & Hd & Hp & r1 & r2 & r3 & t & R1 & R2 & R3 & _ & D1 & D2 & D3 & _ & D5 & D6 & D7 & _).
  assert (0 ≤ p) by (unfold set_size in Hp; lia).
  unfold block_lookups in Hsum. fold rpb staging_reads in Hsum. rewrite Hsum in R1, R2.
  destruct (truediv_unit h (Z.max staging_reads 1)) as (f1 & F1 & U1); [lia|lia|].
  destruct (truediv_unit d (Z.max staging_reads 1)) as (f2 & F2 & U2); [lia|lia|].
  destruct (truediv_unit d (Z.max (d + p) 1)) as (f3 & F3 & U3); [lia|lia|].
  exists res, h, d, p, r1, r2, r3. split_and!; try assumption; congruence.
Qed.

(** The traffic reduction reported is never a reduction. The run divides
    the bytes read by those of the distinct blocks of the whole trace, each of
    which has to be read at least once, so for any trace with a lookup the field
    ssd_traffic_reduction_vs_cpu_staging is at most zero, although the run never
    reads more blocks than CPU staging does. *)
Lemma reported_reduction_not_positive `{EL : EmbeddingLib, NP : NumPy, AA : AsArray, RG : Rng} clock args trace name bs num
    dram hbm l :
  valid_memtier args trace name bs num dram hbm l → lookups_succeed l (block_lists args bs) →
  zsum ((λ b, zlen (blocks_of (rows_per_block args) b)) <$> bs)
    * (rows_per_block args * embedding_dim args * dtype_size args) < 2 ^ 64 →
  zlen bs ≤ two53 → zlen (concat bs) ≤ two53 → concat bs ≠ [] →
  ∃ res p f, run clock args = Ok res ∧
    dict_get res (u "posix_reads") = Some (JInt p) ∧ p ≤ zsum ((λ b, zlen (blocks_of (rows_per_block args) b)) <$> bs) ∧
    dict_get res (u "ssd_traffic_reduction_vs_cpu_staging") = Some (JFloat f) ∧ fle f f_zero = true.
Proof.
  intros V Hl Hb Hn Hc Hne.
  destruct (run_reports clock args trace name bs num dram hbm l V Hl Hb Hn Hc) as
    (res & h & d & p & E & Hsum & Hh & Hd & Hp & r1 & r2 & r3 & t & _ & _ & _ & R4 & _ & _ & _ & D4 & D5 & _ & _ & _).
  unfold block_lookups in Hsum. exists res, p, (fsub f_one t). split_and!; [done|done|lia|done|].
  pose proof (vm_rpb _ _ _ _ _ _ _ _ V) as Hr. pose proof (vm_dim _ _ _ _ _ _ _ _ V) as Hdim.
  pose proof (vm_dtype _ _ _ _ _ _ _ _ V) as Ht. pose proof (unique_blocks_le (rows_per_block args) bs) as Hu.
  set (bb := rows_per_block args * embedding_dim args * dtype_size args) in *. assert (0 < bb) as Hbb by (unfold bb; nia).
  set (distinct := set_size (int_set (block_of (rows_per_block args) <$> concat bs))) in *.
  assert (1 ≤ distinct) as Hd1.
  { unfold distinct, set_size. destruct (concat bs) as [|x xs]; [done|].
    assert (size (int_set (block_of (rows_per_block args) <$> x :: xs)) ≠ 0%nat); [|lia].
    intros E0%size_empty_inv. assert (block_of (rows_per_block args) x ∈ int_set (block_of (rows_per_block args) <$> x :: xs))
      by (apply elem_of_int_set; left). set_solver. }
  destruct (truediv_ge_one (p * bb) (Z.max (distinct * bb) 1)) as (s & m & e & R & Hge); [lia|nia|unfold two53 in *; nia|].
  rewrite R in R4. injection R4 as <-. by apply fsub_one_nonpos.
Qed.

(** C29: a lookup the library refuses ends the run with RuntimeError, whichever
    batch it is, and whatever the other batches hold. *)
Theorem failed_lookup_raises `{EL : EmbeddingLib, NP : NumPy, AA : AsArray, RG : Rng} clock args trace name bs num dram hbm l
    bs1 batch bs2 :
  valid_memtier args trace name bs num dram hbm l → bs = bs1 ++ batch :: bs2 →
  lookups_succeed l (block_lists args bs1) →
  (lib_lookup (blocks_of (rows_per_block args) batch) (after_lookups l (block_lists args bs1))).1.1 ≠ 0 →
  run clock args = Err RuntimeError.
Proof. apply run_fails. Qed.

(** *** The properties at concrete data *)

Section Witnesses.
#[local] Existing Instance reference_numpy.
#[local] Existing Instance reference_asarray.
#[local] Existing Instance reference_rng.
#[local] Existing Instance reference_posix.
#[local] Existing Instance example_device.
Definition example_lib : EmbeddingLib := runtime_lib 2 (proj2 reference_reliable) 4096.
#[local] Existing Instance example_lib.

(** Two batches over ten rows of two fp16 numbers, two rows per block, with
    room for three blocks in DRAM and four in HBM. *)
Definition example_args (ids : list (list Z)) : memtier_args :=
  {| ma_trace := {| trace_file_arg := Some (Ok (Npy (nd_matrix 2 ids) None), u "t"); ta_num_embeddings := 10;
                    ta_batch_size := 1; ta_bag_size := 2; ta_num_batches := 2; dist := u "uniform";
                    zipf_alpha := f_one; overlap_ratio := f_zero; seed := 1 |};
     trace_name_arg := None; ma_trace_source := u "synthetic"; num_embeddings_given := true;
     ma_embedding_file := u "emb.bin"; embedding_dim := 2; rows_per_block := 2; dtype_size := 2;
     dram_cache_gb := lit 24 (2 ^ 30); hbm_cache_gb := lit 32 (2 ^ 30); mode := u "sum"; ma_enable_gds := false;
     ma_enable_prefetch := false; cdll_loads := true |}.
Definition example_clock (i : Z) : f64 := round_signed i 1000.
Definition example_opened (ids : list (list Z)) : opened_trace :=
  match open_batches (ma_trace (example_args ids)) 2 with
  | Ok t => t
  | Err _ => Build_opened_trace (Ok []) 0 JNull (Ok JNull)
  end.
Definition example_library : lib := (example_handle, ∅).

Lemma example_valid_of ids :
  open_batches (ma_trace (example_args ids)) 2 = Ok (example_opened ids) →
  ot_name (example_opened ids) = Ok (JStr (u "t")) → ot_batches (example_opened ids) = Ok (Ok <$> ids) →
  Forall (Forall (λ id, 0 ≤ id < UINT64_MAX)) ids →
  valid_memtier (example_args ids) (example_opened ids) (JStr (u "t")) ids 10 24 32 example_library.
Proof.
  intros E1 E2 E3 E4. split; try done; try (vm_compute; reflexivity); try (left; reflexivity); try (cbn; lia).
Qed.

Lemma example_run_valid : valid_memtier (example_args [[0; 3]; [2; 9]]) (example_opened [[0; 3]; [2; 9]]) (JStr (u "t"))
  [[0; 3]; [2; 9]] 10 24 32 example_library.
Proof.
  apply example_valid_of; [vm_compute; reflexivity..|]. repeat constructor; unfold UINT64_MAX; lia.
Qed.

Lemma example_past_end : valid_memtier (example_args [[0; 3]; [2; 11]]) (example_opened [[0; 3]; [2; 11]]) (JStr (u "t"))
  [[0; 3]; [2; 11]] 10 24 32 example_library.
Proof.
  apply example_valid_of; [vm_compute; reflexivity..|]. repeat constructor; unfold UINT64_MAX; lia.
Qed.

Lemma example_lookups : lookups_succeed example_library (block_lists (example_args [[0; 3]; [2; 9]]) [[0; 3]; [2; 9]]).
Proof. vm_compute. split_and!; reflexivity. Qed.

Lemma memtier_run_accounts_witness :
  ∃ res h d p r1 r2 r3, run example_clock (example_args [[0; 3]; [2; 9]]) = Ok res ∧
    h + d + p = 4 ∧ 0 ≤ h ∧ 0 ≤ d ∧ 3 ≤ p ∧
    dict_get res (u "posix_reads") = Some (JInt p) ∧
    dict_get res (u "ssd_read_bytes") = Some (JInt (p * 8)) ∧
    dict_get res (u "dram_to_gpu_bytes") = Some (JInt ((d + p) * 8)) ∧
    dict_get res (u "hbm_hit_rate") = Some (JFloat r1) ∧ truediv h 4 = Ok r1 ∧
    dict_get res (u "dram_hit_rate") = Some (JFloat r2) ∧ truediv d 4 = Ok r2 ∧
    dict_get res (u "dram_cache_hit_rate") = Some (JFloat r3) ∧ truediv d (Z.max (d + p) 1) = Ok r3 ∧
    in_unit r1 = true ∧ in_unit r2 = true ∧ in_unit r3 = true.
Proof.
  apply (memtier_run_accounts example_clock _ _ _ _ _ _ _ _ example_run_valid example_lookups); vm_compute; congruence.
Defined.

Lemma reported_reduction_not_positive_witness :
  ∃ res p f, run example_clock (example_args [[0; 3]; [2; 9]]) = Ok res ∧
    dict_get res (u "posix_reads") = Some (JInt p) ∧ p ≤ 4 ∧
    dict_get res (u "ssd_traffic_reduction_vs_cpu_staging") = Some (JFloat f) ∧ fle f f_zero = true.
Proof.
  apply (reported_reduction_not_positive example_clock _ _ _ _ _ _ _ _ example_run_valid example_lookups);
    [vm_compute; reflexivity|vm_compute; congruence|vm_compute; congruence|discriminate].
Defined.

Lemma failed_lookup_raises_witness : run example_clock (example_args [[0; 3]; [2; 11]]) = Err RuntimeError.
Proof.
  apply (failed_lookup_raises example_clock _ _ _ _ _ _ _ _ [[0; 3]] [2; 11] [] example_past_end);
    [reflexivity|vm_compute; split; reflexivity|vm_compute; discriminate].
Defined.
End Witnesses.
