(* ===== verification/Ffi.v ===== *)
(** The boundary between the Python wrappers and the C libraries: the types
    that python/memtier/_ctypes.py ([_Lib._bind]) and
    memtier_embedding_bench/python/memtier_embedding.py ([_bind_api],
    [MemTierEmbeddingConfig]) declare, against the headers
    include/memtier/memtier.h and memtier_embedding_bench/include/memtier_api.h.

    Integers have the sizes of 64-bit Linux; a structure lays its fields out in
    order, each at a multiple of its size.  [bindings_match_headers] shows that
    every function bound is declared with these parameters and this result, and
    [config_crosses_boundary] that the library reads, from the memory the wrapper
    fills, the configuration whose fields are the arguments at their widths: the
    record that [MemTierBag.MemTierEmbeddingConfig] makes. *)

From S2P Require Import Prelude PyText Blake2b Posix Bench Runtime MemTierBag.

(** ** Types *)

(** The types of [ctypes] that the wrappers use. *)
Inductive ctype : Type :=
| ct_void_p
| ct_char_p
| ct_int
| ct_size_t
| ct_uint32
| ct_uint64
| ct_config                       (* the class [MemTierEmbeddingConfig] *)
| POINTER (t : ctype).

(** The types of the declarations in C. *)
Inductive c_type : Type :=
| T_char
| T_int
| T_enum
| T_size_t
| T_uint32_t
| T_uint64_t
| T_void
| T_opaque                       (* a structure that only its library knows *)
| T_config                       (* [memtier_embedding_config_t] *)
| T_ptr (t : c_type).

(** A value of this [ctypes] type is one of this C type. *)
Fixpoint passes (p : ctype) (c : c_type) : bool :=
  match p, c with
  | ct_void_p, T_ptr _ => true
  | ct_char_p, T_ptr T_char => true
  | ct_int, T_int | ct_int, T_enum => true
  | ct_size_t, T_size_t => true
  | ct_uint32, T_uint32_t => true
  | ct_uint64, T_uint64_t => true
  | ct_config, T_config => true
  | POINTER p, T_ptr c => passes p c
  | _, _ => false
  end.

(** A result; [None] is the [restype] of a function without one. *)
Definition returns (p : option ctype) (c : c_type) : bool :=
  match p, c with None, T_void => true | Some p, c => passes p c | None, _ => false end.

(** ** The bindings *)

Definition binding : Type := str * list ctype * option ctype.

(** [MemTierEmbeddingBag._bind_api] *)
Definition bind_api : list binding :=
  [(u "memtier_init_embedding", [ct_char_p; POINTER ct_config], Some ct_void_p);
   (u "memtier_lookup_blocks", [ct_void_p; POINTER ct_uint64; ct_size_t; POINTER ct_void_p; POINTER ct_int], Some ct_int);
   (u "memtier_release_blocks", [ct_void_p; POINTER ct_uint64; ct_size_t], Some ct_int);
   (u "memtier_get_metrics", [ct_void_p; ct_char_p; ct_size_t], Some ct_int);
   (u "memtier_destroy", [ct_void_p], None)].

(** [_Lib._bind] *)
Definition bind : list binding :=
  [(u "memtier_init", [ct_void_p; POINTER ct_void_p], Some ct_int);
   (u "memtier_finalize", [ct_void_p], Some ct_int);
   (u "memtier_read", [ct_void_p; ct_char_p; ct_uint64; ct_size_t; ct_void_p; ct_int], Some ct_int);
   (u "memtier_strerror", [ct_int], Some ct_char_p)].

(** ** The headers *)

Definition declaration : Type := str * list c_type * c_type.

(** memtier_api.h *)
Definition embedding_header : list declaration :=
  [(u "memtier_init_embedding", [T_ptr T_char; T_ptr T_config], T_ptr T_opaque);
   (u "memtier_lookup_blocks", [T_ptr T_opaque; T_ptr T_uint64_t; T_size_t; T_ptr (T_ptr T_void); T_ptr T_enum], T_int);
   (u "memtier_prefetch_blocks", [T_ptr T_opaque; T_ptr T_uint64_t; T_size_t], T_int);
   (u "memtier_release_blocks", [T_ptr T_opaque; T_ptr T_uint64_t; T_size_t], T_int);
   (u "memtier_get_metrics", [T_ptr T_opaque; T_ptr T_char; T_size_t], T_int);
   (u "memtier_destroy", [T_ptr T_opaque], T_void)].

(** memtier.h, the functions that package memtier calls. *)
Definition memtier_header : list declaration :=
  [(u "memtier_init", [T_ptr T_opaque; T_ptr (T_ptr T_opaque)], T_int);
   (u "memtier_finalize", [T_ptr T_opaque], T_int);
   (u "memtier_read", [T_ptr T_opaque; T_ptr T_char; T_uint64_t; T_size_t; T_ptr T_void; T_enum], T_int);
   (u "memtier_strerror", [T_int], T_ptr T_char)].

(** The function is declared with this signature. *)
Definition declared (header : list declaration) (b : binding) : Prop :=
  ∃ params result, (b.1.1, params, result) ∈ header ∧ Forall2 (λ p c, passes p c = true) b.1.2 params ∧ returns b.2 result = true.

(** ** Structures *)

Definition field_size (t : ctype) : Z :=
  match t with ct_int | ct_uint32 => 4 | _ => 8 end.
Definition c_field_size (t : c_type) : Z :=
  match t with T_char => 1 | T_int | T_enum | T_uint32_t => 4 | _ => 8 end.

(** The offsets of fields of these sizes, from [at_] on. *)
Fixpoint offsets (at_ : Z) (sizes : list Z) : list Z :=
  match sizes with
  | [] => []
  | n :: sizes => let o := cdiv at_ n * n in o :: offsets (o + n) sizes
  end.

(** [MemTierEmbeddingConfig._fields_] *)
Definition _fields_ : list (str * ctype) :=
  [(u "num_embeddings", ct_uint64); (u "embedding_dim", ct_uint32); (u "rows_per_block", ct_uint32); (u "dtype_size", ct_uint32);
   (u "dram_cache_bytes", ct_uint64); (u "hbm_cache_bytes", ct_uint64); (u "enable_gds", ct_int); (u "enable_prefetch", ct_int)].

(** [memtier_embedding_config_t] *)
Definition config_members : list (str * c_type) :=
  [(u "num_embeddings", T_uint64_t); (u "embedding_dim", T_uint32_t); (u "rows_per_block", T_uint32_t);
   (u "dtype_size", T_uint32_t); (u "dram_cache_bytes", T_uint64_t); (u "hbm_cache_bytes", T_uint64_t);
   (u "enable_gds", T_int); (u "enable_prefetch", T_int)].

(** The memory of a structure whose fields have these sizes: a field keeps the
    low bytes of its value, little-endian; padding is zero. *)
Fixpoint pack (at_ : Z) (sizes values : list Z) : list Z :=
  match sizes, values with
  | n :: sizes, v :: values =>
      let o := cdiv at_ n * n in
      py_repeat (o - at_) 0 ++ to_bytes_le_n (Z.to_nat n) v ++ pack (o + n) sizes values
  | _, _ => []
  end.

(** A field of a C structure; [int] is signed. *)
Definition read_field (memory : list Z) (o : Z) (t : c_type) : Z :=
  let v := of_bytes_le (py_slice memory o (o + c_field_size t)) in
  match t with T_int | T_enum => if v <? 2 ^ 31 then v else v - 2 ^ 32 | _ => v end.

(** The structure that the wrapper passes, and what the library finds in it. *)
Definition config_memory (values : list Z) : list Z := pack 0 (field_size ∘ snd <$> _fields_) values.

Definition read_config (memory : list Z) : option embedding_config :=
  match zip_with (read_field memory) (offsets 0 (c_field_size ∘ snd <$> config_members)) (snd <$> config_members) with
  | [ne; ed; rpb; ds; dram; hbm; gds; pf] =>
      Some {| Runtime.num_embeddings := ne; Runtime.embedding_dim := ed; Runtime.rows_per_block := rpb; Runtime.dtype_size := ds;
              Runtime.dram_cache_bytes := dram; Runtime.hbm_cache_bytes := hbm; Runtime.enable_gds := gds; Runtime.enable_prefetch := pf |}
  | _ => None
  end.

(** ** Lemmas *)

Lemma of_to_bytes_low n z : of_bytes_le (to_bytes_le_n n z) = z `mod` 256 ^ Z.of_nat n.
Proof.
  revert z; induction n as [|n IH]; intros z; simpl to_bytes_le_n; simpl of_bytes_le; [by rewrite Z.mod_1_r|].
  rewrite IH, Nat2Z.inj_succ, Z.pow_succ_r, Z.rem_mul_r by lia. lia.
Qed.

Lemma py_slice_mid {A} (l1 l2 l3 : list A) : py_slice (l1 ++ l2 ++ l3) (zlen l1) (zlen l1 + zlen l2) = l2.
Proof.
  rewrite py_slice_nonneg by lia. rewrite !Nat2Z.id.
  rewrite drop_app_length. replace (Z.to_nat _) with (length l2) by lia. apply take_app_length.
Qed.

(** A field is read back as the low bytes of what was written there. *)
Lemma read_pack sizes : ∀ before at_ values i n o v,
  Forall (λ n, 0 < n) sizes → zlen before = at_ → zlen values = zlen sizes →
  sizes !! i = Some n → offsets at_ sizes !! i = Some o → values !! i = Some v →
  of_bytes_le (py_slice (before ++ pack at_ sizes values) o (o + n)) = v `mod` 256 ^ n.
Proof.
  induction sizes as [|m sizes IH]; intros before at_ [|w values] i n o v Hpos Hb Hlen Hn Ho Hv;
    simpl in *; try done.
  apply Forall_cons in Hpos as [Hm Hpos]. pose proof (cdiv_spec at_ m Hm) as Hc.
  set (p := py_repeat (cdiv at_ m * m - at_) 0).
  assert (zlen (before ++ p) = cdiv at_ m * m) as Hp.
  { rewrite length_app. unfold p, py_repeat. rewrite length_replicate. lia. }
  assert (zlen (to_bytes_le_n (Z.to_nat m) w) = m) as Hw by (rewrite length_to_bytes_le_n; lia).
  destruct i as [|i]; simpl in *.
  - simplify_eq. pose proof (py_slice_mid (before ++ p) (to_bytes_le_n (Z.to_nat n) v)
      (pack (cdiv (zlen before) n * n + n) sizes values)) as E.
    rewrite Hp, Hw, <-app_assoc in E. rewrite E, of_to_bytes_low. f_equal. f_equal. lia.
  - rewrite !app_assoc. apply (IH _ _ values i); try done; [|lia].
    rewrite length_app. lia.
Qed.

(** Every function that the wrappers bind is declared in the header of its
    library with these parameters and this result. *)
Lemma bindings_match_headers :
  Forall (declared embedding_header) bind_api ∧ Forall (declared memtier_header) bind.
Proof.
  unfold bind_api, bind. split; rewrite !Forall_cons, Forall_nil; split_and?; try done;
    (do 2 eexists; split;
     [rewrite list_elem_of_In; simpl; eauto 10|split; [simpl; by repeat constructor|done]]).
Qed.

Lemma low_bytes w z : 0 ≤ w → z `mod` 256 ^ w = wrap (8 * w) z.
Proof. intros. unfold wrap. by rewrite Z.pow_mul_r by lia. Qed.

(** The fields of the structure, read from its memory. *)
Lemma read_written i n o v values :
  zlen values = 8 → (field_size ∘ snd <$> _fields_) !! i = Some n →
  offsets 0 (field_size ∘ snd <$> _fields_) !! i = Some o → values !! i = Some v →
  of_bytes_le (py_slice (config_memory values) o (o + n)) = wrap (8 * n) v.
Proof.
  intros Hl Hn Ho Hv. rewrite <-low_bytes.
  - apply (read_pack _ [] 0 values i n o v); try done. repeat constructor; done.
  - apply list_elem_of_lookup_2 in Hn. revert n Hn. apply Forall_forall. by repeat constructor.
Qed.

(** C36: the configuration crosses the boundary to the library unchanged. From
    the memory of the structure that the wrapper fills with Python ints of any
    size, at the offsets and widths of its ctypes fields, the library, at those
    of its C header, reads each field as that int at its width, signed for the two
    switches: the configuration that [MemTierEmbeddingConfig] makes of them. *)
Theorem config_crosses_boundary ne ed rpb ds dram hbm gds pf :
  read_config (config_memory [ne; ed; rpb; ds; dram; hbm; gds; pf]) =
  Some (MemTierEmbeddingConfig ne ed rpb ds dram hbm gds pf).
Proof.
  unfold read_config. set (values := [ne; _; _; _; _; _; _; _]). set (mem := config_memory values).
  assert (∀ i n o v, (field_size ∘ snd <$> _fields_) !! i = Some n →
    offsets 0 (field_size ∘ snd <$> _fields_) !! i = Some o → values !! i = Some v →
    of_bytes_le (py_slice mem o (o + n)) = wrap (8 * n) v) as R by (intros; by eapply read_written).
  change (offsets 0 (c_field_size ∘ snd <$> config_members)) with [0; 8; 12; 16; 24; 32; 40; 44].
  cbn -[of_bytes_le mem read_field Z.add]. unfold read_field, c_field_size.
  rewrite (R 0%nat 8 0 ne eq_refl eq_refl eq_refl), (R 1%nat 4 8 ed eq_refl eq_refl eq_refl).
  rewrite (R 2%nat 4 12 rpb eq_refl eq_refl eq_refl), (R 3%nat 4 16 ds eq_refl eq_refl eq_refl).
  rewrite (R 4%nat 8 24 dram eq_refl eq_refl eq_refl), (R 5%nat 8 32 hbm eq_refl eq_refl eq_refl).
  rewrite (R 6%nat 4 40 gds eq_refl eq_refl eq_refl), (R 7%nat 4 44 pf eq_refl eq_refl eq_refl).
  done.
Qed.
