(* ===== verification/ExperimentFile.v ===== *)
(** Two helpers of the C++ library: the experiment files that its examples and
    benchmarks read (src/file_prep.cpp, [memtier_prepare_experiment_file]) and
    its log (src/logger.cpp, [log_message]).

    The operating system is an interface: [mkdir], [open] and [write] may fail,
    and a [write] may take fewer bytes than it is given.  [prepared_file] states
    what a call leaves behind, [whole_writes] the bytes of the file when every
    write takes all it is given, and [short_write_shifts] that they are others
    when one does not; [threshold_is_fixed] and [logs_monotone] are about the
    log. *)

From S2P Require Import Prelude PyText.

(** ** The experiment file *)

Inductive mkdir_outcome : Type := Made | Eexist | MkdirFailed.

Class WritableDisk := {
  os_mkdir : str → mkdir_outcome;
  os_creates : str → bool;                (* [open] of the path, truncated *)
  (** What the n-th [write] of [len] bytes takes; [None] is an error. *)
  os_write : nat → Z → option Z;
  os_write_some n len k : 0 < len → os_write n len = Some k → 0 ≤ k ≤ len;
}.

Definition block : Z := 2 ^ 20.

(** [buf]: byte [i] is [i % 251]. *)
Definition buf : list Z := (λ i, i `mod` 251) <$> seqZ 0 block.

Section Prepare.
  Context {D : WritableDisk}.

  (** The loop of writes: [written] holds what the file has, [calls] counts the
      writes.  Every write starts at the beginning of [buf]. *)
Fixpoint write_loop (fuel : nat) (size_bytes : Z) (calls : nat) (written : list Z) : option (Z * list Z) :=
    if size_bytes <=? zlen written then Some (0, written) else
    match fuel with
    | O => None
    | S fuel =>
        let n := Z.min block (size_bytes - zlen written) in
        match os_write calls n with
        | None => Some (-4, written)
        | Some w => write_loop fuel size_bytes (S calls) (written ++ take (Z.to_nat w) buf)
        end
    end.

  (** The status, and the file written with its path; a null argument is
      [None]. *)
Definition memtier_prepare_experiment_file (fuel : nat) (dir name : option str) (size_bytes : Z)
    : option (Z * option (str * list Z)) :=
    match dir, name with
    | Some dir, Some name =>
        if size_bytes =? 0 then Some (-1, None) else
        match os_mkdir dir with
        | MkdirFailed => Some (-2, None)
        | Made | Eexist =>
            let path := dir ++ u "/" ++ name in
            if os_creates path then
              '(rc, written) ← write_loop fuel size_bytes O [];
              Some (rc, Some (path, written))
            else Some (-3, None)
        end
    | _, _ => Some (-1, None)
    end.

  (** Every write takes something. *)
Definition writes_progress : Prop := ∀ n len k, 0 < len → os_write n len = Some k → 0 < k.

  (** Every write takes all it is given. *)
Definition writes_whole : Prop := ∀ n len, 0 < len → os_write n len = Some len.
End Prepare.

(** ** The log *)

Definition level_number (l : str) : option Z :=
  if decide (l = u "ERROR") then Some 0
  else if decide (l = u "WARN") then Some 1
  else if decide (l = u "INFO") then Some 2
  else if decide (l = u "DEBUG") then Some 3
  else None.

(** The initialiser of [threshold], from MEMTIER_LOG_LEVEL. *)
Definition log_threshold (env : option str) : Z :=
  match env with Some v => default 1 (level_number v) | None => 1 end.

(** The static variable [threshold], unset before the first call, and the text
    that the call appends to standard error. *)
Definition log_message (env : option str) (level msg : str) (threshold : option Z) : option Z * str :=
  let t := default (log_threshold env) threshold in
  let lvl := default 1 (level_number level) in
  (Some t, if lvl <=? t then u "[memtier][" ++ level ++ u "] " ++ msg ++ [10] else []).

(** A sequence of calls, each in its environment. *)
Definition log_messages (calls : list (option str * str * str)) (threshold : option Z) : option Z * str :=
  foldl (λ st c, let r := log_message c.1.1 c.1.2 c.2 st.1 in (r.1, st.2 ++ r.2)) (threshold, []) calls.

(** ** Lemmas: the experiment file *)

Lemma length_buf : zlen buf = block.
Proof. unfold buf. rewrite length_fmap, length_seqZ. unfold block. lia. Qed.

Lemma lookup_buf i : 0 ≤ i < block → buf !! Z.to_nat i = Some (i `mod` 251).
Proof.
  intros Hi. unfold buf. rewrite list_lookup_fmap, lookup_seqZ_lt by (unfold block in *; lia).
  simpl. do 2 f_equal. lia.
Qed.

Lemma buf_bytes : Forall (λ b, 0 ≤ b < 251) buf.
Proof.
  unfold buf. apply Forall_fmap, Forall_forall. intros i _. apply Z.mod_pos_bound. lia.
Qed.

Section PrepareLemmas.
  Context {D : WritableDisk}.

  (** With fuel for as many writes as bytes missing, the loop returns: 0 with
      all the bytes, or -4 after the write that failed. *)
Lemma write_loop_returns fuel size calls written :
    writes_progress → zlen written ≤ size → size - zlen written ≤ Z.of_nat fuel →
    Forall (λ b, 0 ≤ b < 251) written →
    ∃ rc c, write_loop fuel size calls written = Some (rc, written ++ c) ∧ Forall (λ b, 0 ≤ b < 251) c ∧
      (rc = 0 ∧ zlen (written ++ c) = size ∨ rc = -4 ∧ zlen (written ++ c) < size).
  Proof.
    intros P. revert calls written; induction fuel as [|fuel IH]; intros calls written Hw Hf Hb; simpl.
    - rewrite (proj2 (Z.leb_le _ _)) by lia. exists 0, []. rewrite app_nil_r. split_and!; [done|done|]. lia.
    - destruct (Z.leb_spec size (zlen written)).
      { exists 0, []. rewrite app_nil_r. split_and!; [done|done|]. lia. }
      set (n := Z.min block (size - zlen written)). assert (0 < n) as Hn by (unfold n, block; lia).
      destruct (os_write calls n) as [w|] eqn:E.
      2: { exists (-4), []. rewrite app_nil_r. split_and!; [done|done|]. lia. }
      pose proof (P _ _ _ Hn E) as Hw0. pose proof (os_write_some _ _ _ Hn E) as Hw1.
      assert (zlen (take (Z.to_nat w) buf) = w) as Ht.
      { rewrite length_take. pose proof length_buf. lia. }
      destruct (IH (S calls) (written ++ take (Z.to_nat w) buf)) as (rc & c & -> & Hc & Hrc).
      { rewrite length_app. lia. }
      { rewrite length_app. lia. }
      { apply Forall_app. split; [done|]. apply Forall_take, buf_bytes. }
      exists rc, (take (Z.to_nat w) buf ++ c). rewrite <-app_assoc in *.
      split_and!; [done| |done]. apply Forall_app. split; [apply Forall_take, buf_bytes|done].
  Qed.

  (** Writes that progress end: the call returns one of its five codes, and with
      0 the path holds [size] bytes. *)
Lemma prepared_file fuel dir name size :
    writes_progress → 0 ≤ size ≤ Z.of_nat fuel →
    ∃ rc f, memtier_prepare_experiment_file fuel dir name size = Some (rc, f) ∧ -4 ≤ rc ≤ 0 ∧
      (rc = 0 → ∃ d n c, dir = Some d ∧ name = Some n ∧ f = Some (d ++ u "/" ++ n, c) ∧ zlen c = size ∧ size ≠ 0).
  Proof.
    intros P Hs. unfold memtier_prepare_experiment_file.
    destruct dir as [d|], name as [n|]; try by (do 2 eexists; split_and!; [done|lia..]).
    destruct (Z.eqb_spec size 0); [by do 2 eexists; split_and!; [done|lia..]|].
    assert (∃ rc c, write_loop fuel size O [] = Some (rc, c) ∧ (rc = 0 ∧ zlen c = size ∨ rc = -4)) as (rc & c & E & H).
    { destruct (write_loop_returns fuel size O [] P) as (rc & c & E & _ & H); simpl in *; try lia; [constructor|].
      exists rc, c. split; [done|]. lia. }
    rewrite E. destruct (os_mkdir d), (os_creates (d ++ u "/" ++ n)); cbn [mbind option_bind];
      do 2 eexists; (split_and!; [done|lia..|]); try lia; intros ->; eauto 10 with lia.
  Qed.

  (** Whole writes: byte [i] of the file is [(i % 2^20) % 251]. *)
Lemma whole_writes fuel size calls written c :
    writes_whole → (block | zlen written) ∨ size ≤ zlen written →
    (∀ i, 0 ≤ i < zlen written → written !! Z.to_nat i = Some (i `mod` block `mod` 251)) →
    write_loop fuel size calls written = Some (0, c) →
    ∀ i, 0 ≤ i < zlen c → c !! Z.to_nat i = Some (i `mod` block `mod` 251).
  Proof.
    intros W. revert calls written; induction fuel as [|fuel IH]; intros calls written Hd Hi; simpl.
    { destruct (_ <=? _); [|done]. by intros [= <-]. }
    destruct (Z.leb_spec size (zlen written)) as [|Hlt]; [by intros [= <-]|].
    destruct Hd as [Hd|]; [|lia]. set (n := Z.min block (size - zlen written)).
    assert (0 < n ≤ block) as Hn by (unfold n, block in *; lia). rewrite W by lia.
    assert (zlen (take (Z.to_nat n) buf) = n) as Ht by (rewrite length_take; pose proof length_buf; lia).
    apply IH; rewrite length_app.
    - unfold n in *. destruct (Z.min_spec block (size - zlen written)) as [[? E]|[? E]]; rewrite E in *.
      + left. rewrite Nat2Z.inj_add, Ht. apply Z.divide_add_r; [done|]. by exists 1.
      + right. lia.
    - intros i Hib. destruct (decide (i < zlen written)) as [Hl|Hl].
      + rewrite lookup_app_l by lia. apply Hi. lia.
      + rewrite lookup_app_r by lia. replace (_ - _)%nat with (Z.to_nat (i - zlen written)) by lia.
        rewrite lookup_take_lt by lia. rewrite lookup_buf by lia. do 2 f_equal.
        destruct Hd as [q Hq]. rewrite (Z.mod_unique i block q (i - zlen written)); [done|left; lia|lia].
  Qed.
End PrepareLemmas.

(** A disk whose first write takes one byte. *)
Definition short_disk : WritableDisk.
Proof.
  refine {| os_mkdir := λ _, Made; os_creates := λ _, true; os_write := λ n len, Some (if (n =? 0)%nat then 1 else len) |}.
  abstract (intros n len k Hl; destruct (n =? 0)%nat; intros [= <-]; lia).
Defined.

Lemma write_loop_step `{D : WritableDisk} fuel size calls written w :
  zlen written < size → os_write calls (Z.min block (size - zlen written)) = Some w →
  write_loop (S fuel) size calls written = write_loop fuel size (S calls) (written ++ take (Z.to_nat w) buf).
Proof.
  intros H E. cbn [write_loop]. rewrite (proj2 (Z.leb_gt size (zlen written))) by done. by rewrite E.
Qed.

(** After a short write the pattern starts again: the second byte is 0, not 1. *)
Lemma short_write_shifts :
  memtier_prepare_experiment_file (D := short_disk) 3 (Some (u "d")) (Some (u "f")) 4 =
  Some (0, Some (u "d/f", [0; 0; 1; 2])).
Proof.
  assert (∀ n, (n ≤ 251)%nat → take n buf = seqZ 0 (Z.of_nat n)) as T.
  { intros n Hn. apply list_eq. intros i. destruct (decide (i < n)%nat) as [Hi|Hi].
    - rewrite lookup_take_lt by done. pose proof (lookup_buf (Z.of_nat i)) as L. rewrite Nat2Z.id in L.
      rewrite L by (unfold block; lia). rewrite lookup_seqZ_lt by lia. rewrite Z.mod_small by lia. f_equal; lia.
    - rewrite lookup_take_ge by lia. symmetry. apply lookup_seqZ_ge. lia. }
  assert (∀ k, 0 ≤ k < 251 → take (Z.to_nat k) buf = seqZ 0 k) as T' by (intros k ?; rewrite T by lia; f_equal; lia).
  assert (write_loop (D := short_disk) 3 4 O [] = Some (0, [0; 0; 1; 2])) as E.
  { rewrite (write_loop_step 2 4 0 [] 1) by done. rewrite T' by done.
    rewrite (write_loop_step 1 4 1 _ 3) by done. rewrite T' by done. reflexivity. }
  unfold memtier_prepare_experiment_file. change (os_mkdir _) with Made. change (os_creates _) with true.
  rewrite (proj2 (Z.eqb_neq 4 0)) by done. cbv beta iota zeta. rewrite E. reflexivity.
Qed.

(** ** Lemmas: the log *)

(** The environment counts at the first call only. *)
Lemma threshold_is_fixed env calls level msg :
  (log_messages ((env, level, msg) :: calls) None).1 = Some (log_threshold env).
Proof.
  unfold log_messages. simpl.
  enough (∀ t text, (foldl (λ st c, let r := log_message c.1.1 c.1.2 c.2 st.1 in (r.1, st.2 ++ r.2)) (Some t, text) calls).1
          = Some t) as E by apply E.
  induction calls as [|c calls IH]; intros t text; simpl; [done|]. apply IH.
Qed.

(** What is logged at a threshold is logged, the same, at a higher one. *)
Lemma logs_monotone env level msg t t' :
  t ≤ t' → (log_message env level msg (Some t)).2 = [] ∨
  (log_message env level msg (Some t)).2 = (log_message env level msg (Some t')).2.
Proof.
  intros H. unfold log_message. simpl. destruct (Z.leb_spec (default 1 (level_number level)) t); [|by left].
  right. by rewrite (proj2 (Z.leb_le _ t')) by lia.
Qed.
