(* ===== verification/EmbFile.v ===== *)
(** The embedding files the benchmarks read
    (memtier_embedding_bench/scripts/generate_embedding_file.py and
    [ensure_binary_file] of memtier_pytorch/examples/run_memtier_dataloader.py).

    Both write a row-major table chunk by chunk.  The numbers themselves come
    from NumPy: an interface gives their bytes. *)

From S2P Require Import Prelude PyFloat PyText Json NdArray.

(** [range(start, stop, step)] for a positive step, cut into chunks: the first
    row and the number of rows of each. *)
Definition chunks (n rows_per_chunk : Z) : list (Z * Z) :=
  (λ start, (start, Z.min rows_per_chunk (n - start))) <$> arange 0 n rows_per_chunk.

(** ** [generate_embedding_file] *)

Class Normals := {
  nrng : Type;
  (** [np.random.default_rng(seed)]. *)
  normal_rng : Z → result nrng;
  normal_rng_Ok seed : 0 ≤ seed → is_ok (normal_rng seed) = true;
  (** [rng.standard_normal((rows, dim), dtype=np.float32)]. *)
  f32_array : Type;
  standard_normal : nrng → Z → Z → f32_array * nrng;
  (** [chunk.nbytes]. *)
  f32_nbytes : f32_array → Z;
  f32_nbytes_eq rng rows dim : 0 ≤ rows → 0 ≤ dim → f32_nbytes (standard_normal rng rows dim).1 = rows * dim * 4;
  (** [chunk.astype(dtype).tobytes(order="C")], the dtype given by its size. *)
  array_tobytes : Z → f32_array → list Z;
  array_tobytes_length itemsize rng rows dim :
    0 ≤ rows → 0 ≤ dim → 0 ≤ itemsize →
    zlen (array_tobytes itemsize (standard_normal rng rows dim).1) = rows * dim * itemsize;
}.

(** The item size of the dtype. *)
Definition dtype_from_arg (name : str) : result Z :=
  if decide (name = u "fp16") then Ok 2
  else if decide (name = u "fp32") then Ok 4
  else Err ValueError.

Definition rows_per_chunk (chunk_mb row_bytes : Z) : Z := Z.max 1 ((chunk_mb * 1024 * 1024) `div` row_bytes).

Section Generate.
  Context {NM : Normals}.

  (** The loop's state: the bytes written so far, the generator, the size of the
      array [chunk] is bound to, and the most bytes the arrays took at once. *)
Record writer := { w_file : list Z; w_rng : nrng; w_chunk : Z; w_peak : Z }.

  (** One iteration: [chunk] is still the array of the iteration before while
      the float32 array is generated and cast, in place when it is float32
      already ([copy=False]); then the bytes object is a second copy of [chunk]. *)
Definition write_chunk (embedding_dim itemsize : Z) (st : writer) (chunk : Z * Z) : writer :=
    let '(array, rng) := standard_normal (w_rng st) chunk.2 embedding_dim in
    let bytes := array_tobytes itemsize array in
    let cast := if itemsize =? 4 then 0 else zlen bytes in
    {| w_file := w_file st ++ bytes; w_rng := rng; w_chunk := zlen bytes;
       w_peak := Z.max (w_peak st) (Z.max (w_chunk st + f32_nbytes array + cast) (zlen bytes + zlen bytes)) |}.

Definition embedding_metadata (num_embeddings embedding_dim : Z) (dtype : str) (itemsize size seed : Z)
    : list (str * json) :=
    [(u "num_embeddings", JInt num_embeddings); (u "embedding_dim", JInt embedding_dim);
     (u "dtype", JStr dtype); (u "dtype_size", JInt itemsize); (u "file_size_bytes", JInt size);
     (u "layout", JStr (u "row_major")); (u "seed", JInt seed)].

  (** The bytes of the file, the metadata, and the most memory the arrays took. *)
Definition generate_embedding_file (num_embeddings embedding_dim : Z) (dtype : str) (seed chunk_mb : Z)
    : result (list Z * list (str * json) * Z) :=
    if (num_embeddings <=? 0) || (embedding_dim <=? 0) || (chunk_mb <=? 0) then Err ValueError else
    itemsize ← dtype_from_arg dtype;
    let row_bytes := embedding_dim * itemsize in
    let rows_per_chunk := rows_per_chunk chunk_mb row_bytes in
    rng ← normal_rng seed;
    let w := foldl (write_chunk embedding_dim itemsize) {| w_file := []; w_rng := rng; w_chunk := 0; w_peak := 0 |}
               (chunks num_embeddings rows_per_chunk) in
    Ok (w_file w, embedding_metadata num_embeddings embedding_dim dtype itemsize (zlen (w_file w)) seed, w_peak w).
End Generate.

(** ** [ensure_binary_file] *)

(** [m[off : off + len(data)] = data] on the bytes of a map. *)
Definition splice {A} (l : list A) (off : Z) (data : list A) : list A :=
  py_slice l 0 off ++ data ++ py_slice l (off + zlen data) (zlen l).

Class Memmap := {
  (** [np.memmap(path, mode="w+", dtype=np.float32, shape=(rows, dim))]: the
      bytes mapped. *)
  memmap_create : Z → Z → result (list Z);
  memmap_create_Ok rows dim :
    0 < rows → 0 < dim → memmap_create rows dim = Ok (py_repeat (rows * dim * 4) 0);
  (** The bytes of element [i] of [np.arange(lo, hi, dtype=np.float32) / div]
      stored as float32. *)
  arange_value : Z → Z → Z → Z → list Z;
  arange_value_length lo hi div i : zlen (arange_value lo hi div i) = 4;
}.

Section Ensure.
  Context {MM : Memmap}.

Definition chunk_bytes (dim : Z) (chunk : Z * Z) : list Z :=
    let lo := chunk.1 * dim in let hi := (chunk.1 + chunk.2) * dim in
    concat (arange_value lo hi (Z.max dim 1) <$> seqZ 0 (hi - lo)).

  (** [mmap[start:end] = values]. *)
Definition fill_chunk (dim : Z) (mmap : list Z) (chunk : Z * Z) : list Z :=
    splice mmap (chunk.1 * dim * 4) (chunk_bytes dim chunk).

Definition file_chunk_rows (rows : Z) : Z := Z.max 1 (Z.min rows 65536).

  (** The file afterwards; [existing] is what the path holds before. *)
Definition ensure_binary_file (existing : option (list Z)) (rows dim : Z) : result (list Z) :=
    let expected_bytes := rows * dim * 4 in
    let generate :=
      mmap ← memmap_create rows dim;
      Ok (foldl (fill_chunk dim) mmap (chunks rows (file_chunk_rows rows))) in
    match existing with
    | Some file => if zlen file =? expected_bytes then Ok file else generate
    | None => generate
    end.
End Ensure.

(** ** Lemmas: chunks *)

(** The invariant rule for a pass over the chunks, indexed by the rows and the
    chunks done: the chunks are consecutive, non-empty, and cover the rows. *)
Lemma chunks_ind {S} (P : Z → list (Z * Z) → S → Prop) (f : S → Z * Z → S) s n c :
  0 ≤ n → 0 < c → P 0 [] s →
  (∀ start rows done s, 0 ≤ start → 0 < rows ≤ c → start + rows ≤ n → P start done s →
     P (start + rows) (done ++ [(start, rows)]) (f s (start, rows))) →
  P n (chunks n c) (foldl f s (chunks n c)).
Proof.
  intros Hn Hc H0 Hstep. unfold chunks, arange. rewrite Z.sub_0_r, <-list_fmap_compose. set (q := cdiv n c).
  assert (0 ≤ q) as Hq by (by apply cdiv_nonneg). pose proof (cdiv_spec n c Hc) as Hs. fold q in Hs.
  set (g := (λ start, (start, Z.min c (n - start))) ∘ (λ k, 0 + k * c)).
  assert (∀ m, 0 ≤ m → m ≤ q → P (Z.min n (m * c)) (g <$> seqZ 0 m) (foldl f s (g <$> seqZ 0 m))) as H.
  { intros m Hm. pattern m. apply natlike_ind; [| |done].
    - intros _. rewrite Z.mul_0_l, Z.min_r by lia. exact H0.
    - clear m Hm. intros m Hm IH Hle. rewrite seqZ_snoc, fmap_app, foldl_app by done. cbn [fmap list_fmap foldl].
      assert (m * c ≤ (q - 1) * c) by nia. change (g m) with (m * c, Z.min c (n - m * c)).
      replace (Z.min n (Z.succ m * c)) with (m * c + Z.min c (n - m * c)) by nia.
      apply Hstep; [nia|lia|lia|]. rewrite Z.min_r in IH by lia. apply IH. lia. }
  specialize (H q Hq ltac:(lia)). by rewrite Z.min_l in H by nia.
Qed.

Lemma chunks_rows n c :
  0 ≤ n → 0 < c → zsum (chunks n c).*2 = n ∧ Forall (λ k : Z * Z, 0 < k.2 ≤ c) (chunks n c).
Proof.
  intros Hn Hc. apply (chunks_ind (λ r done (_ : unit), zsum done.*2 = r ∧ Forall (λ k : Z * Z, 0 < k.2 ≤ c) done)
    (λ _ _, ()) ()); [done|done|by split|].
  intros start rows ks _ _ Hr _ [E HF]. rewrite fmap_app, zsum_app, E. split; [simpl; lia|].
  apply Forall_app_2; [done|]. by constructor.
Qed.

Lemma rows_per_chunk_bound chunk_mb row_bytes k :
  0 < row_bytes → k ≤ rows_per_chunk chunk_mb row_bytes →
  k * row_bytes ≤ Z.max row_bytes (chunk_mb * 1024 * 1024).
Proof.
  intros Hr Hk. unfold rows_per_chunk in Hk.
  pose proof (Z.mul_div_le (chunk_mb * 1024 * 1024) row_bytes Hr). nia.
Qed.

Lemma splice_zeros (l data : list Z) n :
  zlen data ≤ n → splice (l ++ py_repeat n 0) (zlen l) data = l ++ data ++ py_repeat (n - zlen data) 0.
Proof.
  intros Hn. unfold splice, py_repeat. rewrite !py_slice_nonneg by lia. rewrite Z.sub_0_r, !Nat2Z.id.
  change (drop (Z.to_nat 0) ?l) with l.
  rewrite take_app_length. f_equal. f_equal.
  rewrite drop_app_ge by lia. rewrite drop_replicate, take_ge; rewrite ?length_replicate, ?length_app, ?length_replicate; f_equal; lia.
Qed.

Section Files.
Context {NM : Normals} {MM : Memmap}.

(** The first chunk is the largest. *)
Lemma chunks_head n c : 0 < n → 0 < c → ∃ ks, chunks n c = (0, Z.min n c) :: ks.
Proof.
  intros Hn Hc. unfold chunks, arange. rewrite Z.sub_0_r. pose proof (cdiv_pos n c Hn Hc) as Hq.
  rewrite seqZ_cons by lia. eexists. rewrite !fmap_cons. f_equal. f_equal. lia.
Qed.

Lemma write_chunks_length dim itemsize rng n c :
  0 < n → 0 < c → 0 ≤ dim → itemsize = 2 ∨ itemsize = 4 →
  let w := foldl (write_chunk dim itemsize) {| w_file := []; w_rng := rng; w_chunk := 0; w_peak := 0 |} (chunks n c) in
  zlen (w_file w) = n * (dim * itemsize) ∧ 4 * (Z.min n c * dim) ≤ w_peak w ≤ 8 * (Z.min n c * dim).
Proof.
  intros Hn Hc Hd Hi w. set (m := Z.min n c * dim). assert (0 ≤ m) as Hm by (unfold m; nia).
  assert (zlen (w_file w) = n * (dim * itemsize) ∧ 0 ≤ w_chunk w ≤ m * itemsize ∧
    Forall (λ k : Z * Z, 4 * (k.2 * dim) ≤ w_peak w) (chunks n c) ∧ w_peak w ≤ 8 * m) as (H1 & _ & H2 & H3).
  { apply (chunks_ind (λ r ks w, zlen (w_file w) = r * (dim * itemsize) ∧ 0 ≤ w_chunk w ≤ m * itemsize ∧
      Forall (λ k : Z * Z, 4 * (k.2 * dim) ≤ w_peak w) ks ∧ w_peak w ≤ 8 * m));
      [lia|done|cbn; split_and!; try lia; constructor|].
    intros start rows ks [file s prev peak] Hs Hr Hle (E & Hp & Hl & Hu). unfold write_chunk. cbn [snd fst w_file w_rng w_chunk w_peak] in *.
    pose proof (array_tobytes_length itemsize s rows dim ltac:(lia) Hd ltac:(lia)) as El.
    pose proof (f32_nbytes_eq s rows dim ltac:(lia) Hd) as Eb.
    destruct (standard_normal s rows dim) as [a s']. cbn [fst w_file w_rng w_chunk w_peak] in *.
    assert (rows * dim ≤ m) as Hm2 by (apply Z.mul_le_mono_nonneg_r; lia). assert (0 ≤ rows * dim) by nia.
    set (rd := rows * dim) in *. set (x := array_tobytes itemsize a) in *.
    assert (if itemsize =? 4 then itemsize = 4 else itemsize = 2) as Hi' by (by destruct Hi as [->| ->]).
    split_and!; [rewrite length_app; lia|destruct (itemsize =? 4); subst itemsize; lia|destruct (itemsize =? 4); subst itemsize; lia|..].
    - apply Forall_app_2; [eapply Forall_impl; [exact Hl|]; intros k Hk; cbv beta in *; lia|].
      constructor; [|constructor]. cbn [snd]. fold rd. destruct (itemsize =? 4); subst itemsize; lia.
    - destruct (itemsize =? 4); subst itemsize; lia. }
  destruct (chunks_head n c Hn Hc) as [ks Eks]. rewrite Eks in H2. apply Forall_inv in H2. cbn [snd] in H2. fold m in H2. done.
Qed.

Lemma chunk_bytes_length dim k : 0 ≤ dim → 0 ≤ k.2 → zlen (chunk_bytes dim k) = k.2 * dim * 4.
Proof.
  intros Hd Hk. unfold chunk_bytes. replace ((k.1 + k.2) * dim - k.1 * dim) with (k.2 * dim) by lia.
  assert (∀ m, zlen (concat (arange_value (k.1 * dim) ((k.1 + k.2) * dim) (Z.max dim 1) <$> m)) = zlen m * 4) as H.
  { induction m as [|x m IH]; [done|]. rewrite fmap_cons. cbn [concat]. rewrite length_app.
    pose proof (arange_value_length (k.1 * dim) ((k.1 + k.2) * dim) (Z.max dim 1) x). cbn [length]. lia. }
  rewrite H, length_seqZ. nia.
Qed.

Lemma fill_chunks dim n c :
  0 ≤ n → 0 < c → 0 ≤ dim →
  foldl (fill_chunk dim) (py_repeat (n * dim * 4) 0) (chunks n c) = concat (chunk_bytes dim <$> chunks n c).
Proof.
  intros Hn Hc Hd.
  pose proof (chunks_ind (λ r ks mmap, mmap = concat (chunk_bytes dim <$> ks) ++ py_repeat ((n - r) * dim * 4) 0 ∧
      zlen (concat (chunk_bytes dim <$> ks)) = r * dim * 4) (fill_chunk dim) (py_repeat (n * dim * 4) 0) n c Hn Hc) as H.
  destruct H as [-> _].
  - by rewrite Z.sub_0_r.
  - intros start rows ks mmap Hs Hr Hle [-> El].
    pose proof (chunk_bytes_length dim (start, rows) Hd ltac:(simpl; lia)) as Ec. cbn [snd] in Ec.
    rewrite fmap_app, concat_app. cbn [fmap list_fmap concat]. rewrite app_nil_r. split.
    + unfold fill_chunk. cbn [fst]. rewrite <-El, splice_zeros by nia. rewrite <-app_assoc. do 3 f_equal. nia.
    + rewrite length_app. nia.
  - rewrite Z.sub_diag. by rewrite app_nil_r.
Qed.
End Files.

(** [generate_embedding_file] writes the whole table. For positive sizes, a
    known dtype and a seed NumPy accepts, it returns; the file holds exactly
    num_embeddings * embedding_dim numbers of the dtype, and the metadata say its
    real size. The rows of a chunk take at most chunk_mb MiB of the file (or are
    one row, when a row is larger than that), but memory holds more: four to
    eight bytes for each number of the largest chunk, whatever the dtype. *)
Lemma generated_file_complete `{NM : Normals} n dim dtype itemsize seed chunk_mb :
  0 < n → 0 < dim → 0 < chunk_mb → dtype_from_arg dtype = Ok itemsize → 0 ≤ seed →
  let rows := Z.min n (rows_per_chunk chunk_mb (dim * itemsize)) in
  ∃ file metadata peak, generate_embedding_file n dim dtype seed chunk_mb = Ok (file, metadata, peak) ∧
    zlen file = n * dim * itemsize ∧
    dict_get metadata (u "file_size_bytes") = Some (JInt (zlen file)) ∧
    dict_get metadata (u "dtype_size") = Some (JInt itemsize) ∧
    0 < rows * (dim * itemsize) ≤ Z.max (dim * itemsize) (chunk_mb * 1024 * 1024) ∧
    4 * (rows * dim) ≤ peak ≤ 8 * (rows * dim).
Proof.
  intros Hn Hd Hm Et Hs rows. assert (itemsize = 2 ∨ itemsize = 4) as Hi.
  { unfold dtype_from_arg in Et. repeat case_decide; simplify_eq; lia. }
  set (c := rows_per_chunk chunk_mb (dim * itemsize)) in *. assert (0 < c) as Hc by (unfold c, rows_per_chunk; lia).
  pose proof (normal_rng_Ok seed Hs) as Hr. destruct (normal_rng seed) as [rng|] eqn:Er; [|done].
  destruct (write_chunks_length dim itemsize rng n c Hn Hc ltac:(lia) Hi) as [El Hp].
  set (w := foldl _ _ _) in *. fold rows in Hp.
  exists (w_file w), (embedding_metadata n dim dtype itemsize (zlen (w_file w)) seed), (w_peak w). split_and!.
  - unfold generate_embedding_file. destruct (Z.leb_spec n 0), (Z.leb_spec dim 0), (Z.leb_spec chunk_mb 0); try lia.
    cbn [orb]. run_step ltac:(exact Et). run_step ltac:(exact Er). reflexivity.
  - lia.
  - reflexivity.
  - reflexivity.
  - unfold rows. nia.
  - apply rows_per_chunk_bound; [nia|]. fold c. unfold rows. lia.
  - lia.
  - lia.
Qed.

(** The float32 array of an fp16 chunk is twice [chunk_mb]: with rows that fill
    it exactly, and enough of them, more than that is held. *)
Lemma fp16_chunk_memory `{NM : Normals} n dim seed chunk_mb :
  0 < dim → 0 < chunk_mb → 0 ≤ seed → (dim * 2 | chunk_mb * 1024 * 1024) → chunk_mb * 1024 * 1024 ≤ n * (dim * 2) →
  ∃ file metadata peak, generate_embedding_file n dim (u "fp16") seed chunk_mb = Ok (file, metadata, peak) ∧
    2 * (chunk_mb * 1024 * 1024) ≤ peak.
Proof.
  intros Hd Hm Hs [q Hq] Hn.
  destruct (generated_file_complete n dim (u "fp16") 2 seed chunk_mb) as (file & metadata & peak & E & _ & _ & _ & _ & Hp); [nia|done|done|done|done|].
  exists file, metadata, peak. split; [done|].
  assert (rows_per_chunk chunk_mb (dim * 2) = q) as Er.
  { unfold rows_per_chunk. rewrite Hq, Z.div_mul by lia. nia. }
  rewrite Er in Hp. assert (q ≤ n) by nia. rewrite Z.min_r in Hp by done. lia.
Qed.

(** [ensure_binary_file] leaves a file of the expected size: one that has
    it already is kept as it is, any other is replaced by the row-major values
    of all the chunks, with no byte left unwritten. *)
Lemma ensured_file_complete `{MM : Memmap} existing rows dim :
  0 < rows → 0 < dim →
  ∃ file, ensure_binary_file existing rows dim = Ok file ∧ zlen file = rows * dim * 4 ∧
    (existing = Some file ∨ file = concat (chunk_bytes dim <$> chunks rows (file_chunk_rows rows))).
Proof.
  intros Hr Hd. assert (0 < file_chunk_rows rows) as Hc by (unfold file_chunk_rows; lia).
  set (gen := concat (chunk_bytes dim <$> chunks rows (file_chunk_rows rows))).
  assert (zlen gen = rows * dim * 4) as El.
  { pose proof (chunks_ind (λ r ks (_ : unit), zlen (concat (chunk_bytes dim <$> ks)) = r * dim * 4) (λ _ _, ()) ()
      rows (file_chunk_rows rows) ltac:(lia) Hc) as H. apply H; [done|].
    intros start rs ks _ _ Hrs _ E. rewrite fmap_app, concat_app, length_app. cbn [fmap list_fmap concat].
    rewrite app_nil_r. pose proof (chunk_bytes_length dim (start, rs) ltac:(lia) ltac:(simpl; lia)) as Ec. cbn [snd] in Ec. lia. }
  assert ((mmap ← memmap_create rows dim;
           Ok (foldl (fill_chunk dim) mmap (chunks rows (file_chunk_rows rows)))) = Ok gen) as Eg.
  { run_step ltac:(by apply memmap_create_Ok). f_equal. apply fill_chunks; lia. }
  unfold ensure_binary_file. destruct existing as [file|].
  - destruct (Z.eqb_spec (zlen file) (rows * dim * 4)); [exists file; by split_and!; [| |left]|].
    exists gen. by split_and!; [| |right].
  - exists gen. by split_and!; [| |right].
Qed.

(** *** The properties at concrete data *)

(** Zero bytes of the right length. *)
#[program] Definition reference_normals : Normals := {|
  nrng := unit;
  normal_rng seed := if 0 <=? seed then Ok () else Err ValueError;
  f32_array := Z;
  standard_normal _ rows dim := (rows * dim, ());
  f32_nbytes size := size * 4;
  array_tobytes itemsize size := py_repeat (size * itemsize) 0;
|}.
Next Obligation. intros seed Hs. cbv beta. by rewrite (proj2 (Z.leb_le 0 seed) Hs). Qed.
Next Obligation. done. Qed.
Next Obligation.
  intros itemsize rng rows dim Hr Hd Hi. cbn [fst]. unfold py_repeat. rewrite length_replicate.
  assert (0 ≤ rows * dim * itemsize) by (repeat apply Z.mul_nonneg_nonneg; done). lia.
Qed.

#[program] Definition reference_memmap : Memmap := {|
  memmap_create rows dim := if (rows <=? 0) || (dim <=? 0) then Err ValueError else Ok (py_repeat (rows * dim * 4) 0);
  arange_value lo hi div i := [i; lo; hi; div];
|}.
Next Obligation.
  intros rows dim Hr Hd. cbv beta. destruct (Z.leb_spec rows 0), (Z.leb_spec dim 0); try lia. done.
Qed.
Next Obligation. done. Qed.

Lemma generated_file_complete_witness :
  ∃ file metadata peak, @generate_embedding_file reference_normals 5 3 (u "fp16") 7 1 = Ok (file, metadata, peak) ∧
    zlen file = 30 ∧
    dict_get metadata (u "file_size_bytes") = Some (JInt (zlen file)) ∧
    dict_get metadata (u "dtype_size") = Some (JInt 2) ∧
    0 < 5 * 6 ≤ 1048576 ∧ 4 * (5 * 3) ≤ peak ≤ 8 * (5 * 3).
Proof.
  apply (@generated_file_complete reference_normals 5 3 (u "fp16") 2 7 1); [lia|lia|lia|reflexivity|lia].
Defined.

Lemma ensured_file_complete_witness :
  ∃ file, @ensure_binary_file reference_memmap (Some [1; 2]) 3 2 = Ok file ∧ zlen file = 24 ∧
    (Some [1; 2] = Some file ∨ file = concat (@chunk_bytes reference_memmap 2 <$> chunks 3 (file_chunk_rows 3))).
Proof. apply (@ensured_file_complete reference_memmap (Some [1; 2]) 3 2); lia. Defined.
