(* ===== verification/FileDataset.v ===== *)
(** The file-backed datasets and their benchmark
    (memtier_pytorch/memtier/dataset.py and benchmark.py).

    [MemTierFileDataset] reads each batch through the managed-memory extension
    (file Uvm), [BaselineNumpyDataset] through NumPy; [run_uvm] and
    [run_baseline] iterate over them as a [DataLoader] without workers does,
    one item per index in order. *)

From S2P Require Import Prelude PyFloat PyText NumPy Posix Uvm.

(** ** Batches of rows *)

(** [math.ceil(self.rows / self.batch_rows)]. *)
Definition dataset_len (rows batch_rows : Z) : result Z := q ← truediv rows batch_rows; f_ceil q.

(** The guard of [__getitem__], the start row and the rows of the batch. *)
Definition batch_span (rows batch_rows idx : Z) : result (Z * Z) :=
  if idx <? 0 then Err IndexError else
  n ← dataset_len rows batch_rows;
  if n <=? idx then Err IndexError else
  let start_row := idx * batch_rows in
  Ok (start_row, Z.min batch_rows (rows - start_row)).

Definition sizes_positive (rows cols batch_rows : Z) : bool :=
  negb ((rows <=? 0) || (cols <=? 0) || (batch_rows <=? 0)).

(** ** [BaselineNumpyDataset] *)

(** A float32 array: its shape and its bytes. *)
Record f32_batch := { b_rows : Z; b_cols : Z; b_bytes : list Z }.

Record numpy_dataset := {
  n_path : str;
  n_rows : Z;
  n_cols : Z;
  n_batch_rows : Z;
  n_memmap : option (list Z);   (* the mapped bytes *)
}.

Section Numpy.
  Context {PX : Posix}.

Definition numpy_init (path : str) (rows cols batch_rows : Z) (use_memmap : bool) : result numpy_dataset :=
    if negb (sizes_positive rows cols batch_rows) then Err ValueError else
    memmap ← (if use_memmap then
                file ← of_option OSError (file_at path);
                if zlen file <? rows * cols * 4 then Err ValueError
                else Ok (Some (py_slice file 0 (rows * cols * 4)))
              else Ok None);
    Ok {| n_path := path; n_rows := rows; n_cols := cols; n_batch_rows := batch_rows; n_memmap := memmap |}.

  (** [np.fromfile(path, count, offset)]: whole elements, as many as there are. *)
Definition fromfile (file : list Z) (count offset : Z) : list Z :=
    let available := (zlen (py_slice file offset (zlen file))) `div` 4 in
    py_slice file offset (offset + 4 * Z.min count available).

Definition numpy_getitem (ds : numpy_dataset) (idx : Z) : result f32_batch :=
    '(start_row, actual_rows) ← batch_span (n_rows ds) (n_batch_rows ds) idx;
    match n_memmap ds with
    | Some mapped =>
        Ok {| b_rows := actual_rows; b_cols := n_cols ds;
              b_bytes := py_slice mapped (start_row * (n_cols ds * 4)) ((start_row + actual_rows) * (n_cols ds * 4)) |}
    | None =>
        let offset := start_row * n_cols ds * 4 in
        file ← of_option OSError (file_at (n_path ds));
        let array := fromfile file (actual_rows * n_cols ds) offset in
        if negb (zlen array =? actual_rows * n_cols ds * 4) then Err ValueError
        else Ok {| b_rows := actual_rows; b_cols := n_cols ds; b_bytes := array |}
    end.
End Numpy.

(** ** [MemTierFileDataset] *)

Record file_dataset := {
  d_path : str;
  d_rows : Z;
  d_cols : Z;
  d_batch_rows : Z;
  d_device : Z;
  d_policy : str;
}.

Definition memtier_init (path : str) (rows cols batch_rows device : Z) (policy : str) : result file_dataset :=
  if negb (sizes_positive rows cols batch_rows) then Err ValueError
  else if bool_decide (policy ∈ POLICIES) then
    Ok {| d_path := path; d_rows := rows; d_cols := cols; d_batch_rows := batch_rows;
          d_device := device; d_policy := policy |}
  else Err ValueError.

Section Memtier.
  Context {PX : Posix} {CU : Cuda}.
  (** Whether the extension has been built, and the fuel of one read. *)
  Variable extension_built : bool.
  Variable fuel : nat.

  (** [require_extension] of the package's __init__.py. *)
Definition require_extension : UM unit := guarded extension_built RuntimeError.

Definition memtier_getitem (ds : file_dataset) (idx : Z) : UM tensor :=
    '(start_row, actual_rows) ← lift (batch_span (d_rows ds) (d_batch_rows ds) idx);
    let offset := start_row * d_cols ds * 4 in
    _ ← require_extension;
    uvm_tensor_from_file fuel (d_path ds) actual_rows (d_cols ds) offset (d_device ds) (d_policy ds).

(** ** The benchmark *)

Record benchmark_result := {
  name : str;
  num_batches : Z;
  total_bytes : Z;
  total_s : f64;
  end_to_end_batch_ms : f64;
  effective_gb_s : f64;
  file_read_ms : f64;
  prefetch_ms : f64;
  gpu_touch_ms : f64;
  extension_stats : option (counter_name → Z);   (* [None]: the empty dict *)
}.

Definition require_cuda (device : Z) : result unit :=
    if device_count <=? 0 then Err RuntimeError
    else if (device <? 0) || (device_count <=? device) then Err RuntimeError else Ok ().

  (** [stats.get(key, 0) / 1000.0]. *)
Definition stat_ms (stats : option (counter_name → Z)) (c : counter_name) : result f64 :=
    us ← of_Z (match stats with Some g => g c | None => 0 end); fdiv us (lit 1000 1).

Definition bench_result (name : str) (num_batches total_bytes : Z) (elapsed_s : f64)
    (stats : option (counter_name → Z)) : result benchmark_result :=
    n ← of_Z (Z.max num_batches 1);
    batch_ms ← fdiv (fmul elapsed_s (lit 1000 1)) n;
    bytes ← of_Z total_bytes;
    bytes_s ← fdiv bytes (f_max elapsed_s (lit 1 1000000000000));
    gb_s ← fdiv bytes_s (lit 1000000000 1);
    read ← stat_ms stats total_file_read_us;
    prefetch ← stat_ms stats total_prefetch_us;
    touch ← stat_ms stats total_gpu_touch_us;
    Ok {| name := name; num_batches := num_batches; total_bytes := total_bytes; total_s := elapsed_s;
          end_to_end_batch_ms := batch_ms; effective_gb_s := gb_s; file_read_ms := read;
          prefetch_ms := prefetch; gpu_touch_ms := touch; extension_stats := stats |}.

  (** One iteration of the loop of [run_uvm]: the totals so far; the batch is
      dropped at its end. *)
Definition uvm_batch (ds : file_dataset) (st : Z * Z) (idx : Z) : UM (Z * Z) :=
    let '(total, batches) := st in
    batch ← memtier_getitem ds idx;
    _ ← touch_gpu batch;
    _ ← modify (drop_tensor batch (wrap 64 (wrap 64 (wrap 64 (t_rows batch) * wrap 64 (t_cols batch)) * 4)));
    mret (total + t_rows batch * t_cols batch * 4, batches + 1).

  (** [begin] and [stop] are the two readings of the clock. *)
Definition run_uvm (path : str) (rows cols batch_rows device : Z) (policy : str) (begin stop : f64)
    : UM benchmark_result :=
    _ ← lift (require_cuda device);
    _ ← require_extension;
    _ ← modify reset_stats;
    dataset ← lift (memtier_init path rows cols batch_rows device policy);
    n ← lift (dataset_len rows batch_rows);
    '(total, batches) ← sm_fold (uvm_batch dataset) (0, 0) (seqZ 0 n);
    stats ← (λ s, Some (Ok (g_stats s), s));
    let name := if decide (policy = u "gpu") then u "uvm_prefetch" else u "uvm_" ++ policy in
    lift (bench_result name batches total (fsub stop begin) (Some stats)).

  (** One iteration of the loop of [run_baseline]; the copy to the GPU is not
      observed. *)
Definition baseline_batch (ds : numpy_dataset) (st : Z * Z) (idx : Z) : result (Z * Z) :=
    let '(total, batches) := st in
    batch ← numpy_getitem ds idx;
    Ok (total + b_rows batch * b_cols batch * 4, batches + 1).

Definition run_baseline (path : str) (rows cols batch_rows device : Z) (begin stop : f64) : result benchmark_result :=
    _ ← require_cuda device;
    dataset ← numpy_init path rows cols batch_rows true;
    n ← dataset_len rows batch_rows;
    '(total, batches) ← foldM (baseline_batch dataset) (0, 0) (seqZ 0 n);
    bench_result (u "baseline") batches total (fsub stop begin) None.

  (** [run_all]: the baseline, then managed memory without and with prefetch;
      [clock] gives the two readings of each run. *)
Definition run_all (clock : Z → f64) (path : str) (rows cols batch_rows device : Z) : UM (list benchmark_result) :=
    a ← lift (run_baseline path rows cols batch_rows device (clock 0) (clock 1));
    b ← run_uvm path rows cols batch_rows device (u "none") (clock 2) (clock 3);
    c ← run_uvm path rows cols batch_rows device (u "gpu") (clock 4) (clock 5);
    mret [a; b; c].
End Memtier.

(** ** Lemmas: spans *)

Section Spans.
Variables rows batch_rows : Z.
Hypothesis rows_range : 0 < rows < two53.
Hypothesis batch_range : 0 < batch_rows ≤ two53.

Lemma dataset_len_Ok : dataset_len rows batch_rows = Ok (cdiv rows batch_rows).
Proof. by apply ceil_truediv_exact. Qed.

Lemma batch_span_Ok idx :
  0 ≤ idx < cdiv rows batch_rows →
  batch_span rows batch_rows idx = Ok (idx * batch_rows, Z.min batch_rows (rows - idx * batch_rows)).
Proof.
  intros Hi. unfold batch_span. destruct (Z.ltb_spec idx 0); [lia|]. rewrite dataset_len_Ok.
  cbn [mbind result_bind]. by rewrite (proj2 (Z.leb_gt _ _)) by lia.
Qed.

Lemma batch_span_out idx : ¬ 0 ≤ idx < cdiv rows batch_rows → batch_span rows batch_rows idx = Err IndexError.
Proof.
  intros Hi. unfold batch_span. destruct (Z.ltb_spec idx 0); [done|]. rewrite dataset_len_Ok.
  cbn [mbind result_bind]. by rewrite (proj2 (Z.leb_le _ _)) by lia.
Qed.

(** The rows of a batch lie in the table. *)
Lemma span_bounds idx :
  0 ≤ idx < cdiv rows batch_rows →
  0 ≤ idx * batch_rows ∧ 0 < Z.min batch_rows (rows - idx * batch_rows) ∧
  idx * batch_rows + Z.min batch_rows (rows - idx * batch_rows) = Z.min rows ((idx + 1) * batch_rows).
Proof.
  intros Hi. pose proof (cdiv_spec rows batch_rows ltac:(lia)).
  assert (idx * batch_rows ≤ (cdiv rows batch_rows - 1) * batch_rows) by nia. nia.
Qed.

(** Slices of [w] bytes per row, batch after batch. *)
Lemma batches_concat {A} (file : list A) w m :
  0 ≤ w → 0 ≤ m ≤ cdiv rows batch_rows →
  concat ((λ idx, py_slice file (idx * batch_rows * w)
             ((idx * batch_rows + Z.min batch_rows (rows - idx * batch_rows)) * w)) <$> seqZ 0 m) =
    py_slice file 0 (Z.min rows (m * batch_rows) * w) ∧
  zsum ((λ idx, Z.min batch_rows (rows - idx * batch_rows)) <$> seqZ 0 m) = Z.min rows (m * batch_rows).
Proof.
  intros Hw [Hm0 Hm]. revert Hm. pattern m. apply natlike_ind; [| |done]; clear m Hm0.
  - intros _. rewrite Z.min_r by lia. simpl. rewrite py_slice_nonneg by lia. done.
  - intros m Hm IH Hle. destruct IH as [IH1 IH2]; [lia|].
    destruct (span_bounds m) as (H0 & H1 & H2); [lia|].
    rewrite seqZ_snoc, !fmap_app, concat_app, zsum_app, IH1, IH2 by done. cbn [fmap list_fmap concat zsum foldr].
    rewrite app_nil_r, H2. replace (Z.succ m) with (m + 1) by lia.
    assert (Z.min rows (m * batch_rows) = m * batch_rows) as -> by lia. split; [|lia].
    apply py_slice_app; nia.
Qed.
End Spans.

Lemma py_slice_prefix {A} (l : list A) n i j : 0 ≤ i → 0 ≤ j ≤ n → py_slice (py_slice l 0 n) i j = py_slice l i j.
Proof.
  intros Hi Hj. rewrite !py_slice_nonneg by lia. rewrite Z.sub_0_r. change (drop (Z.to_nat 0) l) with l.
  rewrite skipn_firstn_comm, take_take. f_equal. lia.
Qed.

(** ** Lemmas: the NumPy dataset *)

(** The batch at [idx] of the table in [file]. *)
Definition table_batch (file : list Z) (rows cols batch_rows idx : Z) : f32_batch :=
  let actual := Z.min batch_rows (rows - idx * batch_rows) in
  {| b_rows := actual; b_cols := cols;
     b_bytes := py_slice file (idx * batch_rows * (cols * 4)) ((idx * batch_rows + actual) * (cols * 4)) |}.

Section NumpyLemmas.
Context {PX : Posix}.
Variables (path : str) (file : list Z) (rows cols batch_rows : Z).
Hypothesis path_file : file_at path = Some file.
Hypothesis rows_range : 0 < rows < two53.
Hypothesis batch_range : 0 < batch_rows ≤ two53.
Hypothesis cols_pos : 0 < cols.
Hypothesis file_holds : rows * cols * 4 ≤ zlen file.

Lemma numpy_init_Ok use_memmap :
  numpy_init path rows cols batch_rows use_memmap =
    Ok {| n_path := path; n_rows := rows; n_cols := cols; n_batch_rows := batch_rows;
          n_memmap := if use_memmap then Some (py_slice file 0 (rows * cols * 4)) else None |}.
Proof.
  unfold numpy_init, sizes_positive.
  rewrite (proj2 (Z.leb_gt rows 0)), (proj2 (Z.leb_gt cols 0)), (proj2 (Z.leb_gt batch_rows 0)) by lia.
  cbn [orb negb]. destruct use_memmap; [|done]. rewrite path_file. cbn [of_option mbind result_bind].
  by rewrite (proj2 (Z.ltb_ge _ _)) by lia.
Qed.

Lemma fromfile_Ok count offset :
  0 ≤ offset → 0 ≤ count → offset + 4 * count ≤ zlen file → fromfile file count offset = py_slice file offset (offset + 4 * count).
Proof.
  intros Ho Hc Hin. unfold fromfile. rewrite length_py_slice by lia. do 2 f_equal.
  assert (count ≤ Z.max 0 (zlen file `min` zlen file - offset) `div` 4); [|lia].
  apply Z.div_le_lower_bound; lia.
Qed.

Lemma numpy_getitem_Ok use_memmap ds idx :
  numpy_init path rows cols batch_rows use_memmap = Ok ds → 0 ≤ idx < cdiv rows batch_rows →
  numpy_getitem ds idx = Ok (table_batch file rows cols batch_rows idx).
Proof.
  rewrite numpy_init_Ok. intros [= <-] Hi. unfold numpy_getitem. cbn [n_rows n_cols n_batch_rows n_memmap n_path].
  rewrite batch_span_Ok by done. cbn [mbind result_bind].
  destruct (span_bounds rows batch_rows rows_range batch_range idx Hi) as (H0 & H1 & H2). unfold table_batch.
  set (actual := Z.min batch_rows (rows - idx * batch_rows)) in *. clearbody actual.
  set (start := idx * batch_rows) in *. clearbody start.
  destruct use_memmap.
  - rewrite py_slice_prefix; [done|nia|]. split; [nia|]. assert (start + actual ≤ rows) by lia. nia.
  - rewrite path_file. cbn [of_option mbind result_bind].
    assert (start * cols * 4 + 4 * (actual * cols) ≤ zlen file) as Hin by (assert (start + actual ≤ rows) by lia; nia).
    rewrite fromfile_Ok by nia.
    assert (zlen (py_slice file (start * cols * 4) (start * cols * 4 + 4 * (actual * cols))) = actual * cols * 4) as ->
      by (rewrite length_py_slice by nia; nia).
    rewrite Z.eqb_refl. cbn [negb]. do 3 f_equal; lia.
Qed.

Lemma numpy_getitem_out use_memmap ds idx :
  numpy_init path rows cols batch_rows use_memmap = Ok ds → ¬ 0 ≤ idx < cdiv rows batch_rows →
  numpy_getitem ds idx = Err IndexError.
Proof.
  rewrite numpy_init_Ok. intros [= <-] Hi. unfold numpy_getitem. cbn [n_rows n_batch_rows].
  by rewrite batch_span_out.
Qed.

Lemma numpy_batches use_memmap ds :
  numpy_init path rows cols batch_rows use_memmap = Ok ds →
  mapM (numpy_getitem ds) (seqZ 0 (cdiv rows batch_rows)) =
    Ok (table_batch file rows cols batch_rows <$> seqZ 0 (cdiv rows batch_rows)).
Proof.
  intros E. apply mapM_Ok, Forall2_fmap_r, Forall_Forall2_diag, Forall_seqZ. intros idx Hi.
  by eapply numpy_getitem_Ok; [|lia].
Qed.
End NumpyLemmas.

(** ** Lemmas: the managed-memory dataset *)

(** What a run on managed memory needs: a table in the file, a known policy, a
    working device, a reliable system, and fuel for a batch. *)
Record uvm_ready `{PX : Posix, CU : Cuda} (B fuel : nat) (path : str) (file : list Z)
    (rows cols batch_rows device : Z) (policy : str) : Prop := {
  ur_file : file_at path = Some file;
  ur_rows : 0 < rows < two53;
  ur_batch : 0 < batch_rows ≤ two53;
  ur_cols : 0 < cols;
  ur_holds : rows * cols * 4 ≤ zlen file;
  ur_width : rows * cols * 4 < 2 ^ 64;
  ur_policy : policy ∈ POLICIES;
  ur_works : cuda_works device;
  ur_os : os_reliable B;
  ur_close : ∀ n, os_close n = true;
  ur_fuel : batch_rows * cols * 4 * Z.of_nat B ≤ Z.of_nat fuel;
}.

Section MemtierLemmas.
Context {PX : Posix} {CU : Cuda}.
Variables (B fuel : nat) (path : str) (file : list Z) (rows cols batch_rows device : Z) (policy : str).
Hypothesis ready : uvm_ready B fuel path file rows cols batch_rows device policy.

Let ds := {| d_path := path; d_rows := rows; d_cols := cols; d_batch_rows := batch_rows;
             d_device := device; d_policy := policy |}.

Lemma memtier_init_Ok : memtier_init path rows cols batch_rows device policy = Ok ds.
Proof.
  destruct ready. unfold memtier_init, sizes_positive.
  rewrite (proj2 (Z.leb_gt rows 0)), (proj2 (Z.leb_gt cols 0)), (proj2 (Z.leb_gt batch_rows 0)) by lia.
  cbn [orb negb]. by rewrite bool_decide_true.
Qed.

Lemma memtier_getitem_Ok idx s :
  0 ≤ idx < cdiv rows batch_rows →
  let b := table_batch file rows cols batch_rows idx in
  ∃ t s', memtier_getitem true fuel ds idx s = Some (Ok t, s') ∧
    t_rows t = b_rows b ∧ t_cols t = b_cols b ∧ t_bytes t = b_bytes b ∧
    counted s s' (load_counts (b_rows b * cols * 4) policy).
Proof.
  intros Hi b. pose proof (ur_rows _ _ _ _ _ _ _ _ _ ready) as Hr. pose proof (ur_batch _ _ _ _ _ _ _ _ _ ready) as Hb.
  destruct (span_bounds rows batch_rows Hr Hb idx Hi) as (H0 & H1 & H2).
  destruct ready as [Ef _ _ Hc Hin Hw Hp Hcu HB Hcl Hfuel].
  set (actual := Z.min batch_rows (rows - idx * batch_rows)) in *.
  assert (idx * batch_rows + actual ≤ rows) as Hle by lia. assert (actual ≤ batch_rows) as Hab by lia.
  destruct (uvm_tensor_Ok device Hcu B fuel path file actual cols (idx * batch_rows * cols * 4) policy s HB Hcl Ef Hp H1 Hc)
    as (t & s' & E & E1 & E2 & E3 & E4); [nia|nia|nia| |].
  { apply Z.le_trans with (batch_rows * cols * 4 * Z.of_nat B); [|done]. apply Z.mul_le_mono_nonneg_r; [lia|nia]. }
  exists t, s'. split_and!; [|done|done| |done].
  - unfold memtier_getitem, lift. cbn [d_rows d_batch_rows d_cols d_path d_device d_policy ds].
    eapply sm_step; [rewrite (batch_span_Ok rows batch_rows Hr Hb idx Hi); reflexivity|]. cbv beta iota zeta.
    eapply sm_step; [reflexivity|]. exact E.
  - rewrite E3. unfold b, table_batch. cbn [b_bytes]. fold actual. f_equal; lia.
Qed.

Lemma memtier_getitem_out idx s :
  ¬ 0 ≤ idx < cdiv rows batch_rows → memtier_getitem true fuel ds idx s = Some (Err IndexError, s).
Proof.
  intros Hi. unfold memtier_getitem, lift, mbind, sm_bind. cbn [d_rows d_batch_rows ds].
  by rewrite (batch_span_out _ _ (ur_rows _ _ _ _ _ _ _ _ _ ready) (ur_batch _ _ _ _ _ _ _ _ _ ready)).
Qed.

(** What an iteration of the benchmark adds to the counters. *)
Definition batch_counts (bytes : Z) (c : counter_name) : Z :=
  match c with allocated_bytes => 0 | _ => load_counts bytes policy c end.

Lemma uvm_batch_Ok z idx total batches s :
  accounted z s → 0 ≤ idx < cdiv rows batch_rows →
  let bytes := b_rows (table_batch file rows cols batch_rows idx) * cols * 4 in
  ∃ s', uvm_batch true fuel ds (total, batches) idx s = Some (Ok (total + bytes, batches + 1), s') ∧
    frame s s' ∧ counted s s' (batch_counts bytes).
Proof.
  intros Ha Hi bytes. destruct (memtier_getitem_Ok idx s Hi) as (t & s1 & E & E1 & E2 & E3 & E4). fold bytes in E4.
  pose proof (ur_rows _ _ _ _ _ _ _ _ _ ready) as Hr. pose proof (ur_batch _ _ _ _ _ _ _ _ _ ready) as Hb.
  destruct (span_bounds rows batch_rows Hr Hb idx Hi) as (H0 & H1 & H2).
  pose proof (ur_works _ _ _ _ _ _ _ _ _ ready) as Hcu. pose proof (ur_cols _ _ _ _ _ _ _ _ _ ready) as Hc.
  pose proof (ur_width _ _ _ _ _ _ _ _ _ ready) as Hw.
  assert (t_rows t * t_cols t * 4 = bytes) as Eb by (rewrite E1, E2; reflexivity).
  assert (0 < bytes < 2 ^ 64) as Hbytes.
  { unfold bytes, table_batch. cbn [b_rows]. set (actual := Z.min batch_rows _) in *.
    assert (actual ≤ rows) by lia. nia. }
  assert (owns (wrap 64 (wrap 64 (wrap 64 (t_rows t) * wrap 64 (t_cols t)) * 4)) s (Ok t) s1) as Ho.
  { unfold memtier_getitem, lift in E. apply sm_bind_inv in E as [([st ac] & s2 & E0 & E)|(e & _ & [=])].
    injection E0 as E0 <-. rewrite (batch_span_Ok rows batch_rows Hr Hb idx Hi) in E0. injection E0 as <- <-.
    apply sm_bind_inv in E as [(x & s2 & E5 & E)|(e & _ & [=])]. injection E5 as _ <-.
    eapply uvm_tensor_owns in E; [|done]. rewrite E1, E2. exact E. }
  destruct Ho as (Hp & Hf & Hs1).
  set (s2 := add_interval total_gpu_touch_us (cuda_called (cuda_live s1) s1)).
  set (s3 := drop_tensor t (wrap 64 (wrap 64 (wrap 64 (t_rows t) * wrap 64 (t_cols t)) * 4)) s2).
  assert (frame s s3) as Hs3.
  { assert (frame (allocated (t_ptr t) (wrap 64 (wrap 64 (wrap 64 (t_rows t) * wrap 64 (t_cols t)) * 4)) s) s2) as Hs2
      by (eapply frame_trans; [done|by apply (frame_add_interval total_gpu_touch_us (cuda_called (cuda_live s1) s1))]).
    destruct (cuda_free_undo z (t_ptr t) _ s s2 Hp Hf Ha Hs2) as [_ H]. by rewrite (cw_free _ Hcu) in H. }
  exists s3. split_and!; [|exact Hs3|].
  - unfold uvm_batch. eapply sm_step; [exact E|]. cbv beta.
    eapply sm_step; [unfold touch_gpu, guarded; rewrite (proj2 (Z.ltb_lt 0 _)) by nia;
      sm_run ltac:(reflexivity); sm_run ltac:(apply check_Ok; intros; apply (cw_touch _ Hcu)); reflexivity|]. cbv beta. eapply sm_step; [reflexivity|]. cbv beta.
    by rewrite Eb.
  - intros c Hcw. destruct (decide (c = allocated_bytes)) as [->|Hne].
    + destruct Hs3 as (_ & _ & ->). split; [done|]. intros _. by rewrite Z.add_0_r, wrap_small.
    + unfold s3. rewrite drop_other by done.
      destruct (counted_trans _ _ _ _ _ E4 (counted_add_interval total_gpu_touch_us (cuda_called (cuda_live s1) s1) eq_refl) c Hcw) as [W E7].
      split; [done|]. intros Hc0. fold s2 in E7. rewrite (E7 Hc0). rewrite Z.add_0_r. by destruct c.
Qed.

(** The counters and the totals after [m] batches. *)
Definition bytes_of_batches (m : Z) : Z := Z.min rows (m * batch_rows) * cols * 4.
Definition loop_counts (m : Z) (c : counter_name) : Z :=
  match c with
  | file_read_bytes => bytes_of_batches m
  | num_allocations => m
  | num_prefetch_gpu => if decide (policy = u "gpu") then m else 0
  | _ => 0
  end.

Lemma uvm_loop z m s :
  accounted z s → 0 ≤ m ≤ cdiv rows batch_rows →
  ∃ s', sm_fold (uvm_batch true fuel ds) (0, 0) (seqZ 0 m) s = Some (Ok (bytes_of_batches m, m), s') ∧
    frame s s' ∧ counted s s' (loop_counts m).
Proof.
  intros Ha [Hm0 Hm]. revert Hm. pattern m. apply natlike_ind; [| |done]; clear m Hm0.
  - intros _. exists s. unfold bytes_of_batches. pose proof (ur_rows _ _ _ _ _ _ _ _ _ ready).
    rewrite Z.min_r by lia. split_and!; [done|done|]. apply counted_ext with (d := λ _, 0); [apply counted_refl|].
    intros c _. unfold loop_counts, bytes_of_batches. rewrite Z.min_r by lia. destruct c; try case_decide; lia.
  - intros m Hm IH Hle. destruct IH as (s1 & E & F & C); [lia|].
    destruct (uvm_batch_Ok z m (bytes_of_batches m) m s1) as (s2 & E2 & F2 & C2);
      [by eapply frame_accounted|lia|].
    pose proof (span_bounds rows batch_rows (ur_rows _ _ _ _ _ _ _ _ _ ready) (ur_batch _ _ _ _ _ _ _ _ _ ready) m
      ltac:(lia)) as (H0 & H1 & H2).
    assert (bytes_of_batches m + b_rows (table_batch file rows cols batch_rows m) * cols * 4 =
      bytes_of_batches (Z.succ m)) as Eb.
    { unfold bytes_of_batches, table_batch. cbn [b_rows]. replace (Z.succ m) with (m + 1) by lia. lia. }
    exists s2. split_and!.
    + rewrite seqZ_snoc by done. eapply sm_fold_snoc; [exact E|]. by rewrite E2, Eb.
    + by eapply frame_trans.
    + eapply counted_ext; [exact (counted_trans _ _ _ _ _ C C2)|]. intros c Hc. cbv beta.
      unfold loop_counts, batch_counts, load_counts. destruct c; try done; try case_decide; lia.
Qed.
End MemtierLemmas.

(** The batches of the NumPy dataset are the table. For a file that holds
    the table, mapped or read with fromfile alike, there are
    ceil(rows / batch_rows) items; each has 1 to batch_rows rows, together they
    have all the rows, and their bytes concatenate to the first rows * cols * 4
    bytes of the file. Every other index raises IndexError. *)
Lemma numpy_dataset_covers `{PX : Posix} path file rows cols batch_rows use_memmap :
  file_at path = Some file → 0 < rows < two53 → 0 < batch_rows ≤ two53 → 0 < cols → rows * cols * 4 ≤ zlen file →
  ∃ ds n batches, numpy_init path rows cols batch_rows use_memmap = Ok ds ∧
    dataset_len rows batch_rows = Ok n ∧ n = cdiv rows batch_rows ∧
    mapM (numpy_getitem ds) (seqZ 0 n) = Ok batches ∧
    Forall (λ b, 0 < b_rows b ≤ batch_rows ∧ b_cols b = cols) batches ∧
    zsum (b_rows <$> batches) = rows ∧ concat (b_bytes <$> batches) = py_slice file 0 (rows * cols * 4) ∧
    (∀ idx, ¬ 0 ≤ idx < n → numpy_getitem ds idx = Err IndexError).
Proof.
  intros Ef Hr Hb Hc Hin. set (n := cdiv rows batch_rows).
  assert (Z.min rows (n * batch_rows) = rows) as En by (pose proof (cdiv_spec rows batch_rows ltac:(lia)); lia).
  destruct (batches_concat rows batch_rows Hr Hb file (cols * 4) n) as [E1 E2]; [lia|split; [by apply cdiv_nonneg; lia|done]|].
  pose proof (numpy_init_Ok path file rows cols batch_rows Ef Hr Hb Hc Hin use_memmap) as Ei. eexists _, n, _. split_and!.
  - exact Ei.
  - by apply dataset_len_Ok.
  - done.
  - by eapply numpy_batches.
  - apply Forall_fmap, Forall_seqZ. intros idx Hi. split; [|done]. cbn [b_rows table_batch compose].
    destruct (span_bounds rows batch_rows Hr Hb idx) as (H0 & H1 & H2); [unfold n in *; lia|]. unfold compose, table_batch.
    cbn [b_rows]. lia.
  - rewrite <-list_fmap_compose. rewrite En in E2. exact E2.
  - rewrite <-list_fmap_compose. rewrite En in E1. rewrite <-Z.mul_assoc. exact E1.
  - intros idx Hi. by eapply numpy_getitem_out.
Qed.

(** C28: both datasets return the same data. On a ready device the item of
    [MemTierFileDataset] at an index, read by the extension, has the shape and
    the bytes of the item of [BaselineNumpyDataset] at that index, in either of
    its modes, and both raise IndexError for the same indices. *)
Theorem datasets_agree `{PX : Posix, CU : Cuda} B fuel path file rows cols batch_rows device policy use_memmap idx s :
  uvm_ready B fuel path file rows cols batch_rows device policy →
  ∃ ds ds', memtier_init path rows cols batch_rows device policy = Ok ds ∧
    numpy_init path rows cols batch_rows use_memmap = Ok ds' ∧
    match numpy_getitem ds' idx with
    | Ok b => ∃ t s', memtier_getitem true fuel ds idx s = Some (Ok t, s') ∧
        {| b_rows := t_rows t; b_cols := t_cols t; b_bytes := t_bytes t |} = b
    | Err e => e = IndexError ∧ memtier_getitem true fuel ds idx s = Some (Err IndexError, s)
    end.
Proof.
  intros R. pose proof R as [Ef Hr Hb Hc Hin _ _ _ _ _].
  pose proof (numpy_init_Ok path file rows cols batch_rows Ef Hr Hb Hc Hin use_memmap) as Ei.
  eexists _, _. split_and!; [by eapply memtier_init_Ok|exact Ei|].
  destruct (decide (0 ≤ idx < cdiv rows batch_rows)) as [Hi|Hi].
  - rewrite (numpy_getitem_Ok path file rows cols batch_rows Ef Hr Hb Hc Hin use_memmap _ idx Ei Hi).
    destruct (memtier_getitem_Ok _ _ _ _ _ _ _ _ _ R idx s Hi) as (t & s' & E & E1 & E2 & E3 & _).
    exists t, s'. split; [exact E|]. by rewrite E1, E2, E3.
  - rewrite (numpy_getitem_out path file rows cols batch_rows Ef Hr Hb Hc Hin use_memmap _ idx Ei Hi).
    split; [done|]. by eapply memtier_getitem_out.
Qed.

(** The report never raises on machine-word counters. *)
Lemma bench_result_Ok name n bytes elapsed stats :
  0 ≤ n ≤ two53 → 0 ≤ bytes < 2 ^ 64 →
  match stats with Some g => ∀ c, in_width 64 (g c) | None => True end →
  ∃ r, bench_result name n bytes elapsed stats = Ok r ∧
    num_batches r = n ∧ total_bytes r = bytes ∧ extension_stats r = stats.
Proof.
  intros Hn Hb Hs.
  destruct (of_Z_exact (Z.max n 1)) as (m & e & En & Hcan & Ev); [unfold two53 in *; lia|].
  assert (0 < m) as Hm.
  { apply canonical_spec in Hcan as ([Hm _] & _). destruct (Z.eq_dec m 0) as [->|]; [|lia].
    assert (fnum (Fin false 0 e) = 0) as E0 by (cbn; unfold shl; lia). rewrite E0 in Ev.
    pose proof (fden_pos (Fin false 0 e)). nia. }
  destruct (fdiv_pos_Ok (fmul elapsed (lit 1000 1)) m e Hm) as (f1 & E1).
  destruct (of_Z_u64 bytes Hb) as (f2 & E2).
  assert (∃ m e, lit 1 1000000000000 = Fin false m e ∧ 0 < m) as (m' & e' & El & Hm')
    by (eexists _, _; split; [vm_compute; reflexivity|done]).
  destruct (fdiv_max_Ok f2 elapsed m' e' Hm') as (f3 & E3).
  destruct (fdiv_pos_Ok f3 8388608000000000 (-23) ltac:(lia)) as (f4 & E4).
  assert (∀ c, ∃ f, stat_ms stats c = Ok f) as Hms.
  { intros c. unfold stat_ms. destruct (of_Z_u64 (match stats with Some g => g c | None => 0 end)) as (f & ->).
    { destruct stats as [g|]; [apply Hs|lia]. }
    apply (fdiv_pos_Ok f 8796093022208000 (-43) ltac:(lia)). }
  destruct (Hms total_file_read_us) as (f5 & E5). destruct (Hms total_prefetch_us) as (f6 & E6).
  destruct (Hms total_gpu_touch_us) as (f7 & E7).
  eexists. split.
  - unfold bench_result. run_step ltac:(exact En). run_step ltac:(exact E1). run_step ltac:(exact E2).
    rewrite El. run_step ltac:(exact E3). change (lit 1000000000 1) with (Fin false 8388608000000000 (-23)).
    run_step ltac:(exact E4). run_step ltac:(exact E5). run_step ltac:(exact E6). run_step ltac:(exact E7). reflexivity.
  - cbn [num_batches total_bytes extension_stats]. split; [|split]; reflexivity.
Qed.

Lemma bench_result_name nm n bytes elapsed stats r : bench_result nm n bytes elapsed stats = Ok r → name r = nm.
Proof. unfold bench_result. intros H. inv_run H. by injection H as <-. Qed.

(** The run through NumPy. *)
Lemma run_baseline_Ok `{PX : Posix, CU : Cuda} path file rows cols batch_rows device begin stop :
  file_at path = Some file → 0 < rows < two53 → 0 < batch_rows ≤ two53 → 0 < cols → rows * cols * 4 ≤ zlen file →
  rows * cols * 4 < 2 ^ 64 → 0 ≤ device < device_count →
  ∃ r, run_baseline path rows cols batch_rows device begin stop = Ok r ∧ name r = u "baseline" ∧
    num_batches r = cdiv rows batch_rows ∧ total_bytes r = rows * cols * 4 ∧ extension_stats r = None.
Proof.
  intros Ef Hr Hb Hc Hin Hw Hd. set (n := cdiv rows batch_rows). pose proof (cdiv_spec rows batch_rows ltac:(lia)) as Hn.
  fold n in Hn. assert (0 < n < two53) as Hn53 by (split; [by apply cdiv_pos; lia|nia]).
  pose proof (numpy_init_Ok path file rows cols batch_rows Ef Hr Hb Hc Hin true) as Ei. set (ds := Build_numpy_dataset _ _ _ _ _) in Ei.
  destruct (foldM_range_total (λ k st, st = (Z.min rows (k * batch_rows) * cols * 4, k)) (baseline_batch ds) n (0, 0))
    as (st & Est & ->); [lia| |f_equal; lia|].
  - intros k st Hk ->. unfold baseline_batch.
    rewrite (numpy_getitem_Ok path file rows cols batch_rows Ef Hr Hb Hc Hin true ds k Ei Hk). cbn [mbind result_bind].
    eexists. split; [reflexivity|]. destruct (span_bounds rows batch_rows Hr Hb k Hk) as (H0 & H1 & H2).
    cbn [table_batch b_rows b_cols]. f_equal. nia.
  - destruct (bench_result_Ok (u "baseline") n (rows * cols * 4) (fsub stop begin) None) as (r & Er & E1 & E2 & E3); [lia|nia|done|].
    exists r. split; [|split_and!; [by eapply bench_result_name|done..]].
    unfold run_baseline, require_cuda. rewrite (proj2 (Z.leb_gt device_count 0)), (proj2 (Z.ltb_ge device 0)),
      (proj2 (Z.leb_gt device_count device)) by lia. cbn [orb mbind result_bind]. rewrite Ei. cbn [mbind result_bind].
    rewrite dataset_len_Ok by done. cbn [mbind result_bind]. fold n. rewrite Est. cbn [mbind result_bind].
    rewrite Z.min_l by nia. exact Er.
Qed.

(** The run on managed memory, and what it counts. *)
Lemma run_uvm_Ok `{PX : Posix, CU : Cuda} B fuel path file rows cols batch_rows device policy begin stop s :
  uvm_ready B fuel path file rows cols batch_rows device policy → g_alloc_sizes s = ∅ → cuda_live s = ∅ →
  ∃ r s' stats, run_uvm true fuel path rows cols batch_rows device policy begin stop s = Some (Ok r, s') ∧
    name r = (if decide (policy = u "gpu") then u "uvm_prefetch" else u "uvm_" ++ policy) ∧
    num_batches r = cdiv rows batch_rows ∧ total_bytes r = rows * cols * 4 ∧ extension_stats r = Some stats ∧
    stats file_read_bytes = rows * cols * 4 ∧ stats num_allocations = cdiv rows batch_rows ∧
    stats num_prefetch_gpu = (if decide (policy = u "gpu") then cdiv rows batch_rows else 0) ∧
    stats allocated_bytes = 0 ∧ g_alloc_sizes s' = ∅ ∧ cuda_live s' = ∅.
Proof.
  intros R Hs Hl. pose proof R as [Ef Hr Hb Hc Hin Hw Hp Hcu HB Hcl Hfuel]. set (n := cdiv rows batch_rows).
  pose proof (cdiv_spec rows batch_rows ltac:(lia)) as Hn. fold n in Hn.
  assert (0 < n < two53) as Hn53 by (split; [by apply cdiv_pos; lia|nia]).
  assert (accounted 0 (reset_stats s)) as Ha by (unfold accounted, reset_stats; cbn; by rewrite Hs, Hl).
  destruct (uvm_loop B fuel path file rows cols batch_rows device policy R 0 n (reset_stats s) Ha) as (s' & El & (F1 & F2 & F3) & C);
    [unfold n in *; lia|].
  assert (bytes_of_batches rows cols batch_rows n = rows * cols * 4) as Ebytes.
  { unfold bytes_of_batches. by rewrite Z.min_l by nia. }
  rewrite Ebytes in El.
  assert (∀ c, in_width 64 (g_stats (reset_stats s) c)) as Hw0 by (intros c; cbn; unfold in_width; lia).
  destruct (bench_result_Ok (if decide (policy = u "gpu") then u "uvm_prefetch" else u "uvm_" ++ policy) n
    (rows * cols * 4) (fsub stop begin) (Some (g_stats s'))) as (r & Er & Er1 & Er2 & Er3);
    [lia|nia|intros c; by apply C|].
  assert (∀ c, is_time c = false → 0 ≤ loop_counts rows cols batch_rows policy n c < 2 ^ 64 →
    g_stats s' c = loop_counts rows cols batch_rows policy n c) as Hcnt.
  { intros c Hc0 Hrng. rewrite (proj2 (C c (Hw0 c)) Hc0). by apply wrap_small. }
  exists r, s', (g_stats s'). split_and!; try done.
  - unfold run_uvm, lift.
    eapply sm_step; [unfold require_cuda; destruct (cw_device _ Hcu);
      rewrite (proj2 (Z.leb_gt device_count 0)), (proj2 (Z.ltb_ge device 0)), (proj2 (Z.leb_gt device_count device)) by lia;
      reflexivity|]. cbv beta.
    eapply sm_step; [reflexivity|]. cbv beta. eapply sm_step; [reflexivity|]. cbv beta.
    eapply sm_step; [by erewrite memtier_init_Ok|]. cbv beta.
    eapply sm_step; [by rewrite dataset_len_Ok|]. cbv beta. fold n.
    eapply sm_step; [exact El|]. cbv beta iota. eapply sm_step; [reflexivity|]. cbv beta. by rewrite Er.
  - by eapply bench_result_name.
  - rewrite Hcnt; cbn [loop_counts]; rewrite ?Ebytes; [done|done|nia].
  - rewrite Hcnt; cbn [loop_counts]; [done|done|unfold two53 in *; lia].
  - rewrite Hcnt; cbn [loop_counts]; [done|done|case_decide; unfold two53 in *; lia].
  - by rewrite F2.
  - by rewrite F1.
Qed.

(** The managed-memory benchmark accounts for all it does. Starting without
    live managed allocations, a run over a table in the file returns; it
    reports ceil(rows / batch_rows) batches and rows * cols * 4 bytes, the
    extension's counters report as many bytes read, one allocation per batch
    and one GPU prefetch per batch under the gpu policy (else none), and no
    managed allocation is left. *)
Lemma run_uvm_accounts `{PX : Posix, CU : Cuda} B fuel path file rows cols batch_rows device policy begin stop s :
  uvm_ready B fuel path file rows cols batch_rows device policy → g_alloc_sizes s = ∅ → cuda_live s = ∅ →
  ∃ r s' stats, run_uvm true fuel path rows cols batch_rows device policy begin stop s = Some (Ok r, s') ∧
    num_batches r = cdiv rows batch_rows ∧ total_bytes r = rows * cols * 4 ∧ extension_stats r = Some stats ∧
    stats file_read_bytes = rows * cols * 4 ∧ stats num_allocations = cdiv rows batch_rows ∧
    stats num_prefetch_gpu = (if decide (policy = u "gpu") then cdiv rows batch_rows else 0) ∧
    stats allocated_bytes = 0 ∧ g_alloc_sizes s' = ∅ ∧ cuda_live s' = ∅.
Proof.
  intros R Hs Hl. destruct (run_uvm_Ok B fuel path file rows cols batch_rows device policy begin stop s R Hs Hl)
    as (r & s' & stats & E & _ & H). by exists r, s', stats.
Qed.

(** *** The properties at concrete data *)

Section Witnesses.
#[local] Existing Instance reference_posix.
#[local] Existing Instance reference_cuda.

Lemma reference_ready : uvm_ready 2 100 (u "emb.bin") (py_repeat 40 1) 5 2 2 0 (u "gpu").
Proof.
  assert (cuda_works 0) by (split; try done; simpl; lia).
  split; try done; try (unfold two53; lia).
  - unfold POLICIES. right. right. left.
  - exact reference_reliable.
Qed.

Lemma numpy_dataset_covers_witness :
  ∃ ds n batches, numpy_init (u "emb.bin") 5 2 2 false = Ok ds ∧
    dataset_len 5 2 = Ok n ∧ n = cdiv 5 2 ∧
    mapM (numpy_getitem ds) (seqZ 0 n) = Ok batches ∧
    Forall (λ b, 0 < b_rows b ≤ 2 ∧ b_cols b = 2) batches ∧
    zsum (b_rows <$> batches) = 5 ∧ concat (b_bytes <$> batches) = py_slice (py_repeat 40 1) 0 40 ∧
    (∀ idx, ¬ 0 ≤ idx < n → numpy_getitem ds idx = Err IndexError).
Proof.
  apply (numpy_dataset_covers (u "emb.bin") (py_repeat 40 1) 5 2 2 false);
    [reflexivity|unfold two53; lia|unfold two53; lia|lia|vm_compute; congruence].
Defined.

Lemma datasets_agree_witness :
  ∃ ds ds', memtier_init (u "emb.bin") 5 2 2 0 (u "gpu") = Ok ds ∧
    numpy_init (u "emb.bin") 5 2 2 true = Ok ds' ∧
    match numpy_getitem ds' 2 with
    | Ok b => ∃ t s', memtier_getitem true 100 ds 2 uvm_start = Some (Ok t, s') ∧
        {| b_rows := t_rows t; b_cols := t_cols t; b_bytes := t_bytes t |} = b
    | Err e => e = IndexError ∧ memtier_getitem true 100 ds 2 uvm_start = Some (Err IndexError, uvm_start)
    end.
Proof.
  apply (datasets_agree 2 100 (u "emb.bin") (py_repeat 40 1) 5 2 2 0 (u "gpu") true 2 uvm_start). exact reference_ready.
Defined.

Lemma run_uvm_accounts_witness :
  ∃ r s' stats, run_uvm true 100 (u "emb.bin") 5 2 2 0 (u "gpu") f_zero f_one uvm_start = Some (Ok r, s') ∧
    num_batches r = cdiv 5 2 ∧ total_bytes r = 40 ∧ extension_stats r = Some stats ∧
    stats file_read_bytes = 40 ∧ stats num_allocations = cdiv 5 2 ∧
    stats num_prefetch_gpu = (if decide (u "gpu" = u "gpu") then cdiv 5 2 else 0) ∧
    stats allocated_bytes = 0 ∧ g_alloc_sizes s' = ∅ ∧ cuda_live s' = ∅.
Proof.
  apply (run_uvm_accounts 2 100 (u "emb.bin") (py_repeat 40 1) 5 2 2 0 (u "gpu") f_zero f_one uvm_start reference_ready); reflexivity.
Defined.
End Witnesses.
