(* ===== verification/DlrmConvert.v ===== *)
(** Conversion of DLRM sparse ids to a trace
    (memtier_embedding_bench/scripts/convert_dlrm_trace.py).

    [load_sparse] brings every input format to a matrix of 64-bit ids,
    [apply_id_mapping] maps them into the embedding table, [convert] writes the
    trace and its statistics. *)

From S2P Require Import Prelude PyFloat PyText NumPy Json NdArray Workload TraceReader Criteo Stats LruSim Analyze.

Definition KEY_CANDIDATES : list str :=
  [u "sparse_ids"; u "sparse"; u "X_cat"; u "cat"; u "lS_i"; u "indices"].

(** [detect_format(path, requested)], the path given by its suffix. *)
Definition detect_format (suffix requested : str) : result str :=
  if negb (bool_decide (requested = u "auto")) then Ok requested else
  let suffix := lower suffix in
  if decide (suffix = u ".npy") then Ok (u "npy")
  else if decide (suffix = u ".npz") then Ok (u "npz")
  else if decide (suffix = u ".jsonl") then Ok (u "jsonl")
  else Err ValueError.

(** What the input path gives when it is read in each format. *)
Record sparse_input := {
  in_npy : result ndarray;
  in_npz : result (list (str * ndarray));
  in_text : result str;
}.

(** The lines of a text file, universal newlines. *)
Fixpoint text_lines (s : str) : list str :=
  match s with
  | [] => []
  | c :: s' =>
      if c =? 10 then [10] :: text_lines s'
      else if c =? 13 then
        match s' with
        | d :: s'' => if d =? 10 then [10] :: text_lines s'' else [10] :: text_lines s'
        | [] => [[10]]
        end
      else match text_lines s' with
           | w :: ws => (c :: w) :: ws
           | [] => [[c]]
           end
  end.

(** [row.get("sparse_ids") or row.get("ids") or row.get("sparse")]. *)
Definition sparse_field (row : json) : result json :=
  a ← meta_get row (u "sparse_ids");
  if truthy a then Ok a else
  b ← meta_get row (u "ids");
  if truthy b then Ok b else meta_get row (u "sparse").

(** The loop over the lines, with its early exit. *)
Fixpoint read_rows (max_samples : option Z) (rows : list json) (lines : list str) : result (list json) :=
  match lines with
  | [] => Ok rows
  | line :: lines =>
      if decide (strip line = []) then read_rows max_samples rows lines
      else
        row ← json_loads line;
        v ← sparse_field row;
        let rows := rows ++ [v] in
        match max_samples with
        | Some m => if negb (m =? 0) && (m <=? zlen rows) then Ok rows else read_rows max_samples rows lines
        | None => read_rows max_samples rows lines
        end
  end.

(** The reshape to two dimensions. *)
Definition as_matrix (arr : ndarray) : result ndarray :=
  match shape arr with
  | [a; b; c] => Ok (NdArray [a * b; c] (data arr))
  | [_] => Ok (NdArray [zlen (data arr); 1] (data arr))
  | [_; _] => Ok arr
  | _ => Err ValueError
  end.

(** [arr[:m]] on a matrix. *)
Definition take_rows (arr : ndarray) (m : Z) : ndarray :=
  match shape arr with
  | n :: rest =>
      let k := slice_bound n m in NdArray (k :: rest) (py_slice (data arr) 0 (k * prod rest))
  | [] => arr
  end.

(** The first of the candidate keys an archive holds. *)
Definition find_key {A} (archive : list (str * A)) : option A :=
  foldr (λ k rest, match dict_get archive k with Some v => Some v | None => rest end) None KEY_CANDIDATES.

Record convert_args := {
  input_suffix : str;
  input_name : str;
  input_format : str;
  output_path : str;
  output_stem : str;
  output_suffix : str;
  (** What [EmbeddingTrace(args.output)] read before the run. *)
  output_before : result trace_file;
  arg_rows_per_block : Z;
  num_embeddings : option Z;
  arg_batch_size : Z;
  field_offset_mode : str;
  hash_size : option str;
  max_samples : option Z;
  arg_topk : Z;
  arg_block_bytes : Z;
}.

(** What [convert] writes: the archive, its side arrays, the statistics. *)
Record conversion := {
  payload : trace_file;
  payload_offsets : list Z;
  payload_field_offsets : list Z;
  payload_hash_sizes : list Z;
  written_stats : stats;
  written_csv : list (str * Z * Z * Z);
}.

(** [o if o else None] for an [int | None]: zero is false. *)
Definition opt_nonzero (o : option Z) : option Z :=
  match o with Some z => if z =? 0 then None else Some z | None => None end.
Definition opt_nonempty (o : option str) : option str :=
  match o with Some [] => None | _ => o end.

(** [int(ids.max()) if ids.size else 0]. *)
Definition max_id (ids : list Z) : Z := foldr Z.max 0 ids.

Section Convert.
  Context {NP : NumPy} {AA : AsArray} {PS : PySet}.
  Variable polyfit_loglog : list Z → f64.

Definition load_sparse (inp : sparse_input) (fmt : str) (max_samples : option Z) : result ndarray :=
    arr ← (if decide (fmt = u "npy") then in_npy inp
           else if decide (fmt = u "npz") then
             archive ← in_npz inp; of_option ValueError (find_key archive)
           else if decide (fmt = u "jsonl") then
             text ← in_text inp;
             rows ← read_rows max_samples [] (text_lines text);
             np_asarray_json (JList rows)
           else Err ValueError);
    arr ← as_matrix arr;
    let arr := match opt_nonzero max_samples with Some m => take_rows arr m | None => arr end in
    Ok (nd_astype_uint64 arr).

Definition mapping_sizes (ids : ndarray) (num_fields : Z) (args : convert_args) : result (list Z) :=
    match opt_nonempty (hash_size args) with
    | Some value => parse_hash_sizes value num_fields
    | None =>
        match opt_nonzero (num_embeddings args) with
        | Some n => if num_fields =? 0 then Err ZeroDivisionError
                    else Ok (py_repeat num_fields (Z.max 1 (n `div` num_fields)))
        | None => Ok (py_repeat num_fields (max_id (data ids) + 1))
        end
    end.

  (** [np.uint64(offsets[field]) + (ids[:, field] % np.uint64(hash_sizes[field]))]:
      the constants of a column, and an element of it. *)
Definition column_consts (offsets sizes : list Z) (field : Z) : result (Z * Z) :=
    o ← py_index offsets field; o ← np_uint64 o;
    h ← py_index sizes field; h ← np_uint64 h;
    Ok (o, h).
Definition map_element (consts : list (Z * Z)) (k : nat) (id : Z) : Z :=
    match consts !! (k `mod` length consts)%nat with
    | Some (o, h) => wrap 64 (o + np_mod id h)
    | None => id
    end.

Definition apply_id_mapping (ids : ndarray) (args : convert_args)
    : result (ndarray * list Z * list Z * Z) :=
    num_fields ← shape_at ids 1;
    sizes ← mapping_sizes ids num_fields args;
    let offsets := field_offsets_from_hash_sizes sizes in
    let total := default (zsum sizes) (opt_nonzero (num_embeddings args)) in
    mapped ← (if decide (field_offset_mode args = u "per_field_offset") then
                consts ← mapM (column_consts offsets sizes) (seqZ 0 num_fields);
                Ok (imap (map_element consts) (data ids))
              else if decide (field_offset_mode args = u "shared_hash") then
                t ← np_uint64 total; Ok ((λ id, np_mod id t) <$> data ids)
              else if decide (field_offset_mode args = u "direct") then
                let total := default (if decide (data ids = []) then 0 else max_id (data ids) + 1)
                               (opt_nonzero (num_embeddings args)) in
                t ← np_uint64 (Z.max total 1); Ok ((λ id, np_mod id t) <$> data ids)
              else Err ValueError);
    Ok (NdArray (shape ids) mapped, offsets, sizes, total).

Definition convert_metadata (args : convert_args) (fmt : str) (n bag : Z) (sizes offsets : list Z) (total : Z)
    : list (str * json) :=
    [(u "trace_source", JStr (u "dlrm")); (u "trace_name", JStr (output_stem args));
     (u "input_file", JStr (input_name args)); (u "input_format", JStr fmt);
     (u "num_samples", JInt n); (u "num_fields", JInt bag); (u "batch_size", JInt (arg_batch_size args));
     (u "bag_size", JInt bag); (u "rows_per_block", JInt (arg_rows_per_block args));
     (u "field_offset_mode", JStr (field_offset_mode args));
     (u "hash_sizes", json_row sizes); (u "field_offsets", json_row offsets);
     (u "total_num_embeddings", JInt total); (u "trace_layout", JStr (u "samples_by_fields"))].

Definition convert (inp : sparse_input) (args : convert_args) : result conversion :=
    fmt ← detect_format (input_suffix args) (input_format args);
    raw ← load_sparse inp fmt (max_samples args);
    '(ids, offsets, sizes, total) ← apply_id_mapping raw args;
    y ← np_uint64 (arg_rows_per_block args);
    let block_ids := NdArray (shape ids) ((λ x, np_floordiv x y) <$> data ids) in
    bag ← shape_at ids 1;
    n ← shape_at ids 0;
    embedding_offsets ← np_arange 0 (n * bag + 1) bag;
    let metadata := JObj (convert_metadata args fmt n bag sizes offsets total) in
    field_offsets ← np_asarray_uint 64 offsets;
    hash_sizes ← np_asarray_uint 64 sizes;
    let file := Npz (Some (json_dumps metadata)) (Some ids)
                  (Some (NdArray (shape block_ids) (astype_uint64 (data block_ids)))) in
    analysed ← opened_after_savez (output_suffix args) (output_before args) file;
    s ← analyze_trace_file polyfit_loglog analysed (output_path args) (output_stem args)
          (arg_rows_per_block args) (arg_topk args) (arg_block_bytes args);
    Ok {| payload := file; payload_offsets := embedding_offsets; payload_field_offsets := field_offsets;
          payload_hash_sizes := hash_sizes; written_stats := s; written_csv := write_csv s |}.
End Convert.

(** ** Lemmas: the mapping *)

Lemma max_id_spec l x : x ∈ l → x ≤ max_id l.
Proof.
  induction l as [|y l IH]; [by intros ?%elem_of_nil|]. unfold max_id in *. cbn [foldr].
  intros [->|Hx]%elem_of_cons; [lia|]. specialize (IH Hx). lia.
Qed.

Lemma max_id_nonneg l : 0 ≤ max_id l.
Proof.
  unfold max_id. induction l as [|y l IH]; cbn [foldr]; [done|]. lia.
Qed.

Lemma mapping_sizes_Ok ids w args sizes :
  0 ≤ w → mapping_sizes ids w args = Ok sizes → zlen sizes = w ∧ Forall (λ x, 0 < x) sizes.
Proof.
  intros Hw. unfold mapping_sizes. destruct (opt_nonempty (hash_size args)); [by apply parse_hash_sizes_Ok|].
  assert (∀ x, 0 < x → zlen (py_repeat w x) = w ∧ Forall (λ x, 0 < x) (py_repeat w x)) as Hrep.
  { intros x Hx. unfold py_repeat. rewrite length_replicate. split; [lia|]. by apply Forall_replicate. }
  destruct (opt_nonzero (num_embeddings args)).
  - case_match; [done|]. intros [= <-]. apply Hrep. lia.
  - intros [= <-]. apply Hrep. pose proof (max_id_nonneg (data ids)). lia.
Qed.

Section Mapping.
Context {NP : NumPy}.

Lemma column_consts_Ok sizes f :
  Forall (λ x, 0 < x) sizes → zsum sizes < 2 ^ 64 → 0 ≤ f < zlen sizes →
  ∃ o h, column_consts (field_offsets_from_hash_sizes sizes) sizes f = Ok (o, h) ∧
    o = zsum (take (Z.to_nat f) sizes) ∧ sizes !! Z.to_nat f = Some h ∧ 0 ≤ o ∧ 0 < h ∧ o + h ≤ zsum sizes.
Proof.
  intros Hp Hs Hf.
  destruct (lookup_lt_is_Some_2 sizes (Z.to_nat f)) as [h Hh]; [lia|].
  assert (Forall (λ x, 0 ≤ x) sizes) as Hn by forall_lia.
  pose proof (zsum_take_mono 0 (Z.to_nat f) sizes Hn ltac:(lia)) as H0. simpl in H0.
  pose proof (zsum_take_mono (S (Z.to_nat f)) (length sizes) sizes Hn ltac:(lia)) as H1.
  rewrite (zsum_take_S _ _ _ Hh), firstn_all in H1.
  assert (0 < h) by (rewrite Forall_forall in Hp; eapply Hp, list_elem_of_lookup_2; done).
  exists (zsum (take (Z.to_nat f) sizes)), h. split_and!; [|done|done|done|done|lia].
  unfold column_consts, field_offsets_from_hash_sizes.
  rewrite (py_index_nonneg (offsets_from 0 sizes) f (zsum (take (Z.to_nat f) sizes))); [|lia|by rewrite offsets_from_lookup by lia].
  cbn [mbind result_bind]. rewrite np_uint64_small by (unfold in_width; lia). cbn [mbind result_bind].
  rewrite (py_index_nonneg sizes f h) by (done || lia). cbn [mbind result_bind].
  by rewrite np_uint64_small by (unfold in_width; lia).
Qed.

(** The constants of every column. *)
Definition consts_of (sizes : list Z) : list (Z * Z) := zip (field_offsets_from_hash_sizes sizes) sizes.

Lemma all_consts_Ok sizes :
  Forall (λ x, 0 < x) sizes → zsum sizes < 2 ^ 64 →
  mapM (column_consts (field_offsets_from_hash_sizes sizes) sizes) (seqZ 0 (zlen sizes)) = Ok (consts_of sizes).
Proof.
  intros Hp Hs. apply mapM_Ok. apply Forall2_same_length_lookup_2.
  { unfold consts_of, field_offsets_from_hash_sizes.
    rewrite length_seqZ, length_zip_with, length_offsets_from. lia. }
  intros k f [o h] Hk Hc. apply lookup_seqZ in Hk as [-> Hk]. rewrite Z.add_0_l.
  destruct (column_consts_Ok sizes (Z.of_nat k) Hp Hs ltac:(lia)) as (o' & h' & -> & -> & Hh & _).
  rewrite Nat2Z.id in *. unfold consts_of in Hc. apply lookup_zip_with_Some in Hc as (? & ? & [= <- <-] & Ho & Hh').
  unfold field_offsets_from_hash_sizes in Ho. rewrite offsets_from_lookup in Ho by lia. simplify_eq. do 2 f_equal; lia.
Qed.

Lemma map_element_in_range sizes k id :
  Forall (λ x, 0 < x) sizes → zsum sizes < 2 ^ 64 → sizes ≠ [] → in_width 64 id →
  in_field_range sizes (Z.of_nat (k `mod` length sizes)) (map_element (consts_of sizes) k id).
Proof.
  intros Hp Hs Hne Hid.
  assert (length (consts_of sizes) = length sizes) as El.
  { unfold consts_of, field_offsets_from_hash_sizes. rewrite length_zip_with, length_offsets_from. lia. }
  assert (k `mod` length sizes < length sizes)%nat as Hk by (apply Nat.mod_upper_bound; by destruct sizes).
  destruct (column_consts_Ok sizes (Z.of_nat (k `mod` length sizes)) Hp Hs ltac:(lia))
    as (o & h & _ & Ho & Hh & Ho0 & Hh0 & Hoh). rewrite Nat2Z.id in *.
  unfold map_element. rewrite El.
  assert (consts_of sizes !! (k `mod` length sizes)%nat = Some (o, h)) as ->.
  { unfold consts_of, field_offsets_from_hash_sizes. apply lookup_zip_with_Some.
    exists o, h. split_and!; [done| |done]. rewrite offsets_from_lookup by done. by rewrite Ho. }
  rewrite np_mod_pos by done. pose proof (Z.mod_pos_bound id h Hh0).
  rewrite wrap_small by (unfold in_width; lia). apply in_field_range_spec. rewrite Nat2Z.id.
  exists o, h. split_and!; [|done|lia|lia]. unfold field_offsets_from_hash_sizes.
  rewrite offsets_from_lookup by done. by rewrite Ho.
Qed.

(** Every mapping keeps the shape and gives 64-bit ids. *)
Lemma apply_id_mapping_shape ids n w args mapped offsets sizes total :
  shape ids = [n; w] → nd_wf ids → all_u64 (data ids) →
  apply_id_mapping ids args = Ok (mapped, offsets, sizes, total) →
  shape mapped = [n; w] ∧ nd_wf mapped ∧ all_u64 (data mapped) ∧ mapping_sizes ids w args = Ok sizes ∧
  offsets = field_offsets_from_hash_sizes sizes.
Proof.
  intros Hs [Hp Hl] Hu H. unfold apply_id_mapping, shape_at in H. rewrite Hs in H.
  change (py_index [n; w] 1) with (Ok w) in H. cbn [mbind result_bind] in H.
  destruct (mapping_sizes ids w args) as [sizes'|] eqn:Es; cbn [mbind result_bind] in H; [|done].
  set (r := if decide (field_offset_mode args = u "per_field_offset") then _ else _) in H.
  assert (∀ m, r = Ok m → length m = length (data ids) ∧ all_u64 m) as Hr.
  { intros m Em. subst r. assert (∀ t, in_width 64 t → all_u64 ((λ id, np_mod id t) <$> data ids)) as Hmod.
    { intros t Ht. apply Forall_fmap. refine (Forall_impl _ _ _ Hu _). intros x Hx. by apply np_mod_width. }
    case_decide; [|case_decide; [|case_decide; [|done]]]; inv_res.
    - rewrite length_imap. split; [done|]. apply Forall_lookup. intros k y Hy.
      apply list_lookup_imap_Some in Hy as (z & Hz & ->). unfold map_element.
      case_match; [|by eapply Forall_lookup_1]. destruct p. by apply wrap_in_width.
    - rewrite length_fmap. split; [done|]. apply Hmod. by eapply np_uint64_width.
    - rewrite length_fmap. split; [done|]. apply Hmod. by eapply np_uint64_width. }
  destruct r as [m|]; cbn [mbind result_bind] in H; [|done]. injection H as <- <- <- <-.
  destruct (Hr m eq_refl) as [Em Um]. cbn [shape data].
  assert (nd_wf (NdArray [n; w] m)) by (rewrite <-Hs; split; cbn [shape data]; [done|by rewrite Em]).
  repeat (split; [done|]). done.
Qed.
End Mapping.

(** ** Reading a trace back after the conversion *)

Definition plain_args (args : convert_args) (fmt : str) : Prop :=
  plain_text (output_stem args) ∧ plain_text (input_name args) ∧ plain_text fmt ∧
  plain_text (field_offset_mode args).

Lemma convert_metadata_plain args fmt n bag sizes offsets total :
  plain_args args fmt → plain_json (JObj (convert_metadata args fmt n bag sizes offsets total)).
Proof.
  intros (P1 & P2 & P3 & P4). apply plain_json_obj. split.
  - apply (bool_decide_unpack _). vm_compute. exact I.
  - unfold convert_metadata.
    repeat (apply Forall_cons_2; [split; [by apply plain_text_check|]; cbn [fst snd];
      first [done | by apply plain_json_row | by apply plain_text_check]|]).
    apply Forall_nil_2.
Qed.

Lemma convert_metadata_get args fmt n bag sizes offsets total :
  dict_get (convert_metadata args fmt n bag sizes offsets total) (u "batch_size") = Some (JInt (arg_batch_size args)) ∧
  dict_get (convert_metadata args fmt n bag sizes offsets total) (u "bag_size") = Some (JInt bag).
Proof. split; reflexivity. Qed.

(** Converters never write ids that the reader gives back differently. *)
Section Roundtrip.
Context {NP : NumPy} {AA : AsArray} {PS : PySet}.
Variable polyfit_loglog : list Z → f64.

Definition written_file (args : convert_args) (fmt : str) (n w : Z) (mapped : ndarray)
    (sizes offsets : list Z) (total : Z) : trace_file :=
  Npz (Some (json_dumps (JObj (convert_metadata args fmt n w sizes offsets total)))) (Some mapped)
    (Some (NdArray [n; w] (block_of (arg_rows_per_block args) <$> data mapped))).

(** [convert], its steps known to succeed. *)
Lemma convert_Ok inp args fmt raw n w mapped offsets sizes total s :
  detect_format (input_suffix args) (input_format args) = Ok fmt →
  load_sparse inp fmt (max_samples args) = Ok raw →
  apply_id_mapping raw args = Ok (mapped, offsets, sizes, total) →
  shape mapped = [n; w] → all_u64 (data mapped) → 0 < w → n * w < two53 →
  offsets = field_offsets_from_hash_sizes sizes → Forall (λ x, 0 < x) sizes → zsum sizes < 2 ^ 64 →
  in_width 64 (arg_rows_per_block args) → 0 < arg_rows_per_block args → output_suffix args = u ".npz" →
  analyze_trace_file polyfit_loglog (written_file args fmt n w mapped sizes offsets total)
    (output_path args) (output_stem args) (arg_rows_per_block args) (arg_topk args) (arg_block_bytes args) = Ok s →
  convert polyfit_loglog inp args = Ok
    {| payload := written_file args fmt n w mapped sizes offsets total;
       payload_offsets := arange 0 (n * w + 1) w;
       payload_field_offsets := offsets; payload_hash_sizes := sizes; written_stats := s;
       written_csv := write_csv s |}.
Proof.
  intros Ef El Em Esm Hum Hw Hnw Eo Hpos Hz Hr Hr0 Esuf Ean. unfold convert.
  destruct (sizes_in_width sizes Hpos Hz) as [W1 W2]. rewrite <-Eo in W1.
  run_step ltac:(exact Ef). run_step ltac:(exact El). run_step ltac:(exact Em).
  run_step ltac:(by apply np_uint64_small).
  run_step ltac:(unfold shape_at; rewrite Esm; reflexivity).
  run_step ltac:(unfold shape_at; rewrite Esm; reflexivity).
  run_step ltac:(apply np_arange_pos; unfold two53 in *; lia).
  run_step ltac:(by apply np_asarray_uint_small). run_step ltac:(by apply np_asarray_uint_small).
  assert ((λ x, np_floordiv x (arg_rows_per_block args)) <$> data mapped =
          block_of (arg_rows_per_block args) <$> data mapped) as Eb.
  { apply list_fmap_ext. intros i x Hx. apply np_floordiv_pos; [|done]. exact (Forall_lookup_1 _ _ _ _ Hum Hx). }
  cbn [shape data]. rewrite Eb, Esm. rewrite astype_uint64_id by (by apply blocks_u64).
  run_step ltac:(unfold opened_after_savez; by rewrite decide_True).
  run_step ltac:(exact Ean). done.
Qed.

(** C23: a converted trace reads back: for valid arguments, with an output
    named .npz, [convert] returns,
    and reading the archive it wrote with the trace reader gives the mapped
    ids, in order, in batches of batch_size samples, and the saved block ids
    are the blocks of each batch. *)
Theorem convert_read_roundtrip inp args fmt raw n w mapped offsets sizes total :
  detect_format (input_suffix args) (input_format args) = Ok fmt →
  load_sparse inp fmt (max_samples args) = Ok raw →
  shape raw = [n; w] → nd_wf raw → all_u64 (data raw) → 0 < w → n * w < two53 →
  apply_id_mapping raw args = Ok (mapped, offsets, sizes, total) → zsum sizes < 2 ^ 64 →
  in_width 64 (arg_rows_per_block args) → 0 < arg_rows_per_block args → 0 < arg_batch_size args →
  plain_args args fmt → output_suffix args = u ".npz" →
  ∃ conv tr batches,
    convert polyfit_loglog inp args = Ok conv ∧
    EmbeddingTrace.init (payload conv) (Some (arg_rows_per_block args)) = Ok tr ∧
    EmbeddingTrace.iter_batches tr = Ok batches ∧ concat batches = data mapped ∧
    zlen batches = cdiv n (arg_batch_size args) ∧
    EmbeddingTrace.iter_block_batches tr = Ok (blocks_of (arg_rows_per_block args) <$> batches).
Proof.
  intros Ef El Es Hwf Hu Hw Hnw Em Hz Hr Hr0 Hb HP Esuf.
  destruct (apply_id_mapping_shape raw n w args mapped offsets sizes total Es Hwf Hu Em)
    as (Esm & Hwfm & Hum & Esz & Eo).
  destruct (mapping_sizes_Ok raw w args sizes ltac:(lia) Esz) as [Hlen Hpos].
  set (rpb := arg_rows_per_block args) in *. set (b := arg_batch_size args) in *.
  assert (0 ≤ n ∧ zlen (data mapped) = n * w) as [Hn Hlm].
  { destruct Hwfm as [Hp Hl]. rewrite Esm in Hp, Hl. apply Forall_cons in Hp as [? _]. simpl in Hl. split; lia. }
  destruct (written_trace_reads (convert_metadata args fmt n w sizes offsets total) mapped
    (Some (NdArray [n; w] (block_of rpb <$> data mapped))) n w b rpb) as (tr & Ei & Enb & Eit & Ebl);
    [by apply convert_metadata_plain|apply convert_metadata_get|apply convert_metadata_get|done|done|done|done|done|
     done|done|split; reflexivity|].
  change (Npz _ _ _) with (written_file args fmt n w mapped sizes offsets total) in Ei.
  set (file := written_file args fmt n w mapped sizes offsets total) in *.
  set (batches := batches_of (b * w) (data mapped)) in *.
  assert (concat batches = data mapped) as Ec by (apply batches_of_concat; nia).
  assert (zlen batches = cdiv n b) as Elb.
  { unfold EmbeddingTrace.iter_batches in Eit. rewrite Enb in Eit. cbn [mbind result_bind] in Eit.
    apply mapM_Ok, Forall2_length in Eit. rewrite length_seqZ in Eit. pose proof (cdiv_nonneg n b Hn Hb). lia. }
  assert (Forall all_u64 batches) as Hub.
  { apply Forall_forall. intros l Hl. apply Forall_forall. intros x Hx. unfold all_u64 in Hum.
    rewrite Forall_forall in Hum. apply Hum. rewrite <-Ec. apply list_elem_of_In, in_concat.
    exists l. by rewrite <-!list_elem_of_In. }
  assert (cdiv n b ≤ n) as Hcn by (pose proof (cdiv_spec n b Hb); nia).
  destruct (analyze_runs polyfit_loglog file (output_path args) (output_stem args) rpb (arg_topk args)
    (arg_block_bytes args) batches) as (s & Ean & _); [by exists tr|done|done|done|nia|rewrite Ec; nia|].
  pose proof (convert_Ok inp args fmt raw n w mapped offsets sizes total s Ef El Em Esm Hum Hw Hnw Eo Hpos Hz Hr Hr0 Esuf Ean) as Ecv.
  eexists _, tr, batches. split_and!; [exact Ecv|done|done|done|done|done].
Qed.

(** An output that is not named [.npz] is written next to its name, so the
    statistics are those of what the name held before the run, if it held a
    trace, and otherwise the run fails after it has written its archive. *)
Lemma convert_analyses_old_file inp args conv :
  convert polyfit_loglog inp args = Ok conv → output_suffix args ≠ u ".npz" →
  ∃ old, output_before args = Ok old ∧
    analyze_trace_file polyfit_loglog old (output_path args) (output_stem args)
      (arg_rows_per_block args) (arg_topk args) (arg_block_bytes args) = Ok (written_stats conv).
Proof.
  intros H Hs. unfold convert in H. inv_run H; simplify_eq.
  match goal with E : opened_after_savez _ _ _ = Ok _ |- _ => unfold opened_after_savez in E; rewrite decide_False in E by done end.
  eauto.
Qed.
End Roundtrip.

Section Ranges.
Context {NP : NumPy}.

Lemma imap_lookup_Some (f : nat → Z → Z) l k y :
  imap f l !! k = Some y → ∃ x, l !! k = Some x ∧ y = f k x.
Proof. intros (x & Hx & ->)%list_lookup_imap_Some. eauto. Qed.

Lemma apply_per_field ids n w args sizes :
  shape ids = [n; w] → field_offset_mode args = u "per_field_offset" → mapping_sizes ids w args = Ok sizes →
  0 ≤ w → zsum sizes < 2 ^ 64 →
  apply_id_mapping ids args =
    Ok (NdArray [n; w] (imap (map_element (consts_of sizes)) (data ids)),
        field_offsets_from_hash_sizes sizes, sizes, default (zsum sizes) (opt_nonzero (num_embeddings args))).
Proof.
  intros Es Em Esz Hw Hz. destruct (mapping_sizes_Ok ids w args sizes Hw Esz) as [Hl Hp].
  unfold apply_id_mapping. run_step ltac:(unfold shape_at; rewrite Es; reflexivity).
  run_step ltac:(exact Esz). rewrite decide_True by done.
  run_step ltac:(eapply bind_step; [rewrite <-Hl; by apply all_consts_Ok|reflexivity]). by rewrite Es.
Qed.

(** Per-field mapping puts every id in the range of its column: the element
    of row r and column f is in [offset_f, offset_f + size_f), so below the sum
    of the sizes, for hash sizes that sum below 2^64. *)
Lemma per_field_mapping_in_range ids n w args sizes :
  shape ids = [n; w] → all_u64 (data ids) → 0 < w →
  field_offset_mode args = u "per_field_offset" → mapping_sizes ids w args = Ok sizes → zsum sizes < 2 ^ 64 →
  ∃ mapped offsets total, apply_id_mapping ids args = Ok (mapped, offsets, sizes, total) ∧
    shape mapped = [n; w] ∧ length (data mapped) = length (data ids) ∧
    ∀ k id, data mapped !! k = Some id →
      in_field_range sizes (Z.of_nat (k `mod` Z.to_nat w)) id ∧ 0 ≤ id < zsum sizes.
Proof.
  intros Es Hu Hw Em Esz Hz. destruct (mapping_sizes_Ok ids w args sizes ltac:(lia) Esz) as [Hl Hp].
  eexists _, _, _. split; [apply (apply_per_field ids n w args sizes); [done|done|done|lia|done]|].
  cbn [shape data]. split; [done|]. split; [apply length_imap|].
  intros k id (x & Hx & ->)%imap_lookup_Some.
  assert (in_field_range sizes (Z.of_nat (k `mod` Z.to_nat w)) (map_element (consts_of sizes) k x)) as Hr.
  { replace (Z.to_nat w) with (length sizes) by lia. apply map_element_in_range; [done|done| |].
    - intros ->. simpl in Hl. lia.
    - exact (Forall_lookup_1 _ _ _ _ Hu Hx). }
  split; [done|]. by eapply in_field_range_total.
Qed.

(** With fewer embeddings than fields, per-field mapping leaves the table:
    each field gets one row, so the id of the last column is its offset w - 1,
    which is not below the total_num_embeddings the metadata report. *)
Lemma reported_total_too_small ids n w args e :
  shape ids = [n; w] → nd_wf ids → all_u64 (data ids) → 0 < n → 0 < e < w → w < 2 ^ 64 →
  field_offset_mode args = u "per_field_offset" → hash_size args = None → num_embeddings args = Some e →
  ∃ mapped offsets sizes id, apply_id_mapping ids args = Ok (mapped, offsets, sizes, e) ∧
    id ∈ data mapped ∧ e ≤ id.
Proof.
  intros Es [Hp Hl] Hu Hn He Hw Em Eh En.
  set (sizes := py_repeat w 1).
  assert (opt_nonzero (num_embeddings args) = Some e) as Eo.
  { rewrite En. cbn. by rewrite (proj2 (Z.eqb_neq e 0)) by lia. }
  assert (mapping_sizes ids w args = Ok sizes) as Esz.
  { unfold mapping_sizes. rewrite Eh. cbn [opt_nonempty]. rewrite Eo, (proj2 (Z.eqb_neq w 0)) by lia.
    rewrite Z.div_small by lia. done. }
  assert (zsum sizes = w) as Ez by (unfold sizes, py_repeat; rewrite zsum_replicate; lia).
  assert (length sizes = Z.to_nat w) as Els by (unfold sizes, py_repeat; apply length_replicate).
  rewrite Es in Hl. simpl in Hl.
  destruct (lookup_lt_is_Some_2 (data ids) (Z.to_nat (w - 1))) as [x Hx]; [nia|].
  eexists _, _, sizes, (map_element (consts_of sizes) (Z.to_nat (w - 1)) x). split_and!.
  - rewrite (apply_per_field ids n w args sizes); [|done|done|done|lia|lia]. by rewrite Eo.
  - cbn [data]. apply (list_elem_of_lookup_2 _ (Z.to_nat (w - 1))). by rewrite list_lookup_imap, Hx.
  - assert (Forall (λ x, 0 < x) sizes) as Hpos by (unfold sizes, py_repeat; by apply Forall_replicate).
    assert (in_field_range sizes (Z.of_nat (Z.to_nat (w - 1) `mod` length sizes))
              (map_element (consts_of sizes) (Z.to_nat (w - 1)) x)) as Hr.
    { apply map_element_in_range; [done|lia| |exact (Forall_lookup_1 _ _ _ _ Hu Hx)].
      intros E. rewrite E in Els. simpl in Els. lia. }
    rewrite Nat.mod_small in Hr by lia. destruct Hr as [_ [Hr _]].
    assert (zsum (take (Z.to_nat (w - 1)) sizes) = w - 1) as Et.
    { unfold sizes, py_repeat. rewrite take_replicate, zsum_replicate. lia. }
    rewrite Nat2Z.id, Et in Hr. lia.
Qed.
End Ranges.

(** *** The properties at concrete data *)

Section Witnesses.
#[local] Existing Instance reference_numpy.
#[local] Existing Instance reference_asarray.
#[local] Existing Instance reference_set.

Definition example_args (mode : str) (emb : option Z) (sizes : option str) : convert_args :=
  {| input_suffix := u ".NPY"; input_name := u "in.NPY"; input_format := u "auto"; output_path := u "o.npz";
     output_stem := u "o"; output_suffix := u ".npz"; output_before := Err OSError; arg_rows_per_block := 4; num_embeddings := emb; arg_batch_size := 2;
     field_offset_mode := mode; hash_size := sizes; max_samples := None; arg_topk := 5; arg_block_bytes := 64 |}.
Definition example_raw : ndarray := nd_matrix 3 [[1; 20; 300]; [4; 50; 6]; [7; 8; 900]].
Definition example_input : sparse_input :=
  {| in_npy := Ok example_raw; in_npz := Err OSError; in_text := Err OSError |}.

Lemma example_raw_u64 : all_u64 (data example_raw).
Proof. repeat constructor; unfold in_width; lia. Qed.
Lemma example_raw_wf : nd_wf example_raw.
Proof. apply nd_matrix_wf; [lia|repeat constructor]. Qed.

Definition example_mapped : ndarray := nd_matrix 3 [[1; 20; 300]; [4; 50; 6]; [7; 8; 900]].

Lemma convert_read_roundtrip_witness :
  ∃ conv tr batches,
    convert (λ _, f_zero) example_input (example_args (u "direct") None None) = Ok conv ∧
    EmbeddingTrace.init (payload conv) (Some 4) = Ok tr ∧
    EmbeddingTrace.iter_batches tr = Ok batches ∧ concat batches = data example_mapped ∧
    zlen batches = cdiv 3 2 ∧
    EmbeddingTrace.iter_block_batches tr = Ok (blocks_of 4 <$> batches).
Proof.
  apply (convert_read_roundtrip (λ _, f_zero) example_input (example_args (u "direct") None None) (u "npy")
    example_raw 3 3 example_mapped [0; 901; 1802] [901; 901; 901] 2703);
    [reflexivity|reflexivity|reflexivity|apply example_raw_wf|apply example_raw_u64|lia|vm_compute; reflexivity|
     vm_compute; reflexivity|vm_compute; reflexivity|split; [vm_compute; congruence|vm_compute; reflexivity]|vm_compute; reflexivity|
     vm_compute; reflexivity| |reflexivity].
  repeat split; apply plain_text_check; reflexivity.
Defined.

Lemma per_field_mapping_in_range_witness :
  ∃ mapped offsets total,
    apply_id_mapping example_raw (example_args (u "per_field_offset") None (Some (u "10,20,30"))) =
      Ok (mapped, offsets, [10; 20; 30], total) ∧
    shape mapped = [3; 3] ∧ length (data mapped) = length (data example_raw) ∧
    ∀ k id, data mapped !! k = Some id →
      in_field_range [10; 20; 30] (Z.of_nat (k `mod` Z.to_nat 3)) id ∧ 0 ≤ id < zsum [10; 20; 30].
Proof.
  apply (per_field_mapping_in_range example_raw 3 3); [reflexivity|apply example_raw_u64|lia|reflexivity|
    vm_compute; reflexivity|vm_compute; reflexivity].
Defined.

Lemma reported_total_too_small_witness :
  ∃ mapped offsets sizes id,
    apply_id_mapping example_raw (example_args (u "per_field_offset") (Some 2) None) = Ok (mapped, offsets, sizes, 2) ∧
    id ∈ data mapped ∧ 2 ≤ id.
Proof.
  apply (reported_total_too_small example_raw 3 3); [reflexivity|apply example_raw_wf|apply example_raw_u64|lia|lia|
    vm_compute; reflexivity|reflexivity|reflexivity|reflexivity].
Defined.
End Witnesses.
