(* ===== verification/Preprocess.v ===== *)
(** Preprocessing of raw Criteo rows into a trace
    (memtier_embedding_bench/scripts/preprocess_criteo_trace.py).

    [preprocess] hashes the rows of the input files into ids, cuts or pads them
    to the bag size, and writes the trace with its metadata and statistics. *)

From S2P Require Import Prelude PyFloat PyText NumPy Json NdArray Workload TraceReader Criteo Stats LruSim Analyze.

(** The width of the dtype. *)
Definition dtype_from_name (name : str) : result Z :=
  if decide (name = u "uint32") then Ok 32
  else if decide (name = u "uint64") then Ok 64
  else Err ValueError.

Record preprocess_args := {
  input : option str;
  input_glob : option str;
  pp_output_path : str;
  pp_output_stem : str;
  pp_output_suffix : str;
  (** What [EmbeddingTrace(args.output)] read before the run. *)
  pp_output_before : result trace_file;
  pp_max_samples : option Z;
  num_fields : Z;
  pp_batch_size : Z;
  pp_bag_size : Z;
  pp_hash_size : str;
  global_id_mode : str;
  pp_rows_per_block : Z;
  drop_empty : bool;
  save_ids : bool;
  save_blocks : bool;
  dtype : str;
  pp_seed : Z;
  pp_topk : Z;
  pp_block_bytes : Z;
}.

(** What is written: the archive, its side arrays, the statistics. *)
Record preprocessed := {
  pp_payload : trace_file;
  pp_offsets : list Z;
  pp_labels : list Z;
  pp_field_offsets : list Z;
  pp_hash_sizes : list Z;
  pp_stats : stats;
  pp_csv : list (str * Z * Z * Z);
}.

Section Preprocess.
  Context {NP : NumPy} {AA : AsArray} {PS : PySet}.
  Variable polyfit_loglog : list Z → f64.
  (** [glob.glob], and the decoded lines of a file. *)
  Variable glob : str → list str.
  Variable open_lines : str → result (list str).

Definition input_paths (single pattern : option str) : result (list str) :=
    let paths := match single with Some p => [p] | None => [] end in
    let paths := match pattern with
                 | Some ((_ :: _) as pat) => paths ++ merge_sort str_le (glob pat)
                 | _ => paths
                 end in
    if decide (paths = []) then Err ValueError else Ok paths.

  (** The ids of one row: hashed, padded when empty columns are dropped, cut to
      the bag size. *)
Definition row_ids (args : preprocess_args) (hash_sizes field_offsets : list Z) (cats : list str)
    : result (list Z) :=
    ids ← categorical_to_ids cats hash_sizes field_offsets (global_id_mode args) (drop_empty args) (pp_seed args);
    let ids := if drop_empty args && (zlen ids <? pp_bag_size args)
               then ids ++ py_repeat (pp_bag_size args - zlen ids) 0 else ids in
    Ok (py_slice ids 0 (pp_bag_size args)).

  (** [-1 if label is None else int(label)]. *)
Definition label_value (label : option Z) : Z := default (-1) label.

  (** The loop over the rows from row [idx] on, with its early exit. *)
Fixpoint preprocess_rows (args : preprocess_args) (hash_sizes field_offsets : list Z) (idx : Z)
    (ids_rows : list (list Z)) (labels : list Z) (rows : list (result (option Z * list str)))
    : result (list (list Z) * list Z) :=
    match rows with
    | [] => Ok (ids_rows, labels)
    | row :: rows =>
        '(label, cats) ← row;
        ids ← row_ids args hash_sizes field_offsets cats;
        let ids_rows := ids_rows ++ [ids] in
        let labels := labels ++ [label_value label] in
        match pp_max_samples args with
        | Some m => if negb (m =? 0) && (m <=? idx) then Ok (ids_rows, labels)
                    else preprocess_rows args hash_sizes field_offsets (idx + 1) ids_rows labels rows
        | None => preprocess_rows args hash_sizes field_offsets (idx + 1) ids_rows labels rows
        end
    end.

Definition preprocess_metadata (args : preprocess_args) (paths : list str) (n w : Z)
    (hash_sizes field_offsets : list Z) : list (str * json) :=
    [(u "trace_source", JStr (u "criteo")); (u "trace_name", JStr (pp_output_stem args));
     (u "input_files", JList (JStr <$> paths));
     (u "num_samples", JInt n); (u "num_fields", JInt w);
     (u "batch_size", JInt (pp_batch_size args)); (u "bag_size", JInt (pp_bag_size args));
     (u "rows_per_block", JInt (pp_rows_per_block args));
     (u "hash_sizes", json_row hash_sizes); (u "field_offsets", json_row field_offsets);
     (u "global_id_mode", JStr (global_id_mode args));
     (u "total_num_embeddings", JInt (zsum hash_sizes));
     (u "drop_empty", JBool (drop_empty args)); (u "dtype", JStr (dtype args));
     (u "trace_layout", JStr (u "samples_by_fields"))].

  (** The archive, from the matrix of ids. *)
Definition preprocess_payload (args : preprocess_args) (metadata : json) (ids block_ids : ndarray) : trace_file :=
    Npz (Some (json_dumps metadata)) (if save_ids args then Some ids else None)
      (if save_blocks args then Some block_ids else None).

Definition preprocess (args : preprocess_args) : result preprocessed :=
    paths ← input_paths (input args) (input_glob args);
    hash_sizes ← parse_hash_sizes (pp_hash_size args) (num_fields args);
    let field_offsets := field_offsets_from_hash_sizes hash_sizes in
    bits ← dtype_from_name (dtype args);
    '(ids_rows, labels) ← preprocess_rows args hash_sizes field_offsets 1 [] []
                            (iter_criteo_rows (open_lines <$> paths) (num_fields args));
    if decide (ids_rows = []) then Err RuntimeError else
    ids ← np_asarray_rows bits ids_rows;
    rpb ← np_uint64 (pp_rows_per_block args);
    let block_ids := NdArray (shape ids)
                       (wrap bits <$> ((λ x, np_floordiv x rpb) <$> astype_uint64 (data ids))) in
    n ← shape_at ids 0;
    w ← shape_at ids 1;
    offsets ← np_arange 0 (n * w + 1) w;
    let metadata := JObj (preprocess_metadata args paths n w hash_sizes field_offsets) in
    labels ← np_asarray_int8 labels;
    fo ← np_asarray_uint 64 field_offsets;
    hs ← np_asarray_uint 64 hash_sizes;
    let file := preprocess_payload args metadata ids block_ids in
    analysed ← opened_after_savez (pp_output_suffix args) (pp_output_before args) file;
    s ← analyze_trace_file polyfit_loglog analysed (pp_output_path args) (pp_output_stem args)
          (pp_rows_per_block args) (pp_topk args) (pp_block_bytes args);
    Ok {| pp_payload := file; pp_offsets := offsets; pp_labels := labels; pp_field_offsets := fo;
          pp_hash_sizes := hs; pp_stats := s; pp_csv := write_csv s |}.

(** ** Lemmas: rows *)

(** The width of the rows: every row has it, whatever the line. *)
Definition row_width (args : preprocess_args) : Z :=
  if drop_empty args then pp_bag_size args else Z.min (num_fields args) (pp_bag_size args).

Definition valid_mode (mode : str) : Prop := mode = u "per_field_offset" ∨ mode = u "shared_hash".

Lemma zlen_kept_all cats : zlen (kept false (enumerate cats)) = zlen cats.
Proof.
  unfold kept. rewrite filter_all.
  - unfold enumerate. rewrite length_zip_with, length_seqZ. lia.
  - apply Forall_true. intros x. by rewrite andb_false_r.
Qed.

Lemma categorical_Ok args sizes cats :
  valid_mode (global_id_mode args) → seed_ok (pp_seed args) = true →
  Forall (λ x, 0 < x) sizes → 0 < zsum sizes → zlen cats = zlen sizes →
  ∃ ids, categorical_to_ids cats sizes (field_offsets_from_hash_sizes sizes) (global_id_mode args)
           (drop_empty args) (pp_seed args) = Ok ids ∧
    Forall (λ id, 0 ≤ id < zsum sizes) ids ∧ (drop_empty args = false → zlen ids = zlen cats).
Proof.
  intros [-> | ->] Hs Hp Hz Hl.
  - destruct (per_field_ids cats sizes (drop_empty args) (pp_seed args) Hs Hp ltac:(lia)) as (ids & E & HF & HB).
    exists ids. split_and!; [done|done|]. intros Hd. rewrite Hd in HF. apply Forall2_length in HF.
    pose proof (zlen_kept_all cats). lia.
  - destruct (shared_ids cats sizes (field_offsets_from_hash_sizes sizes) (drop_empty args) (pp_seed args) Hs Hz)
      as (ids & E & Hlen & HB).
    exists ids. split_and!; [done|done|]. intros Hd. rewrite Hd in Hlen. by rewrite Hlen, zlen_kept_all.
Qed.

Lemma row_ids_Ok args sizes cats :
  valid_mode (global_id_mode args) → seed_ok (pp_seed args) = true →
  Forall (λ x, 0 < x) sizes → 0 < zsum sizes → zlen cats = zlen sizes → zlen sizes = num_fields args →
  0 ≤ pp_bag_size args →
  ∃ ids, row_ids args sizes (field_offsets_from_hash_sizes sizes) cats = Ok ids ∧
    zlen ids = row_width args ∧ Forall (λ id, 0 ≤ id < zsum sizes) ids.
Proof.
  intros Hm Hs Hp Hz Hl Hn Hb. destruct (categorical_Ok args sizes cats Hm Hs Hp Hz Hl) as (ids & E & HB & Hlen).
  unfold row_ids. rewrite E. cbn [mbind result_bind]. eexists. split; [done|].
  set (ids' := if drop_empty args && (zlen ids <? pp_bag_size args) then _ else ids).
  assert (Forall (λ id, 0 ≤ id < zsum sizes) ids') as HB'.
  { subst ids'. case_match; [|done]. apply Forall_app_2; [done|]. unfold py_repeat. apply Forall_replicate. lia. }
  split.
  - rewrite length_py_slice by lia. unfold row_width. subst ids'.
    destruct (drop_empty args); cbn [andb].
    + destruct (Z.ltb_spec (zlen ids) (pp_bag_size args)); [|lia].
      rewrite length_app. unfold py_repeat. rewrite length_replicate. lia.
    + rewrite Hlen by done. lia.
  - apply Forall_forall. intros x Hx. rewrite Forall_forall in HB'. apply HB'. by eapply py_slice_elem.
Qed.

(** The rows a sample limit lets through, from row [idx] on. *)
Definition limit_rows {A} (max_samples : option Z) (idx : Z) (rows : list A) : list A :=
  match max_samples with
  | Some m => if m =? 0 then rows else take (Z.to_nat (Z.max 1 (m - idx + 1))) rows
  | None => rows
  end.

Lemma limit_rows_cons {A} m idx (row : A) rows :
  limit_rows m idx (row :: rows) =
    row :: (match m with
            | Some m' => if negb (m' =? 0) && (m' <=? idx) then [] else limit_rows m (idx + 1) rows
            | None => rows end).
Proof.
  unfold limit_rows. destruct m as [m|]; [|done]. destruct (Z.eqb_spec m 0); cbn [negb andb]; [done|].
  destruct (Z.leb_spec m idx).
  - by replace (Z.to_nat (Z.max 1 (m - idx + 1))) with 1%nat by lia.
  - replace (Z.to_nat (Z.max 1 (m - idx + 1))) with (S (Z.to_nat (Z.max 1 (m - (idx + 1) + 1)))) by lia. done.
Qed.

Lemma limit_rows_Forall {A} (P : A → Prop) m idx rows : Forall P rows → Forall P (limit_rows m idx rows).
Proof. intros H. unfold limit_rows. repeat case_match; [done| |done]. by apply Forall_take. Qed.

(** The loop appends the ids and the label of each of these rows. *)
Lemma preprocess_rows_Ok args sizes offs parsed idx acc labels :
  Forall (λ p : option Z * list str, ∃ ids, row_ids args sizes offs p.2 = Ok ids) parsed →
  ∃ ids_rows,
    preprocess_rows args sizes offs idx acc labels (Ok <$> parsed) =
      Ok (acc ++ ids_rows,
          labels ++ ((λ p : option Z * list str, label_value p.1) <$> limit_rows (pp_max_samples args) idx parsed)) ∧
    Forall2 (λ (p : option Z * list str) ids, row_ids args sizes offs p.2 = Ok ids)
      (limit_rows (pp_max_samples args) idx parsed) ids_rows.
Proof.
  intros H. revert idx acc labels; induction H as [|[label cats] parsed [ids E] H IH]; intros idx acc labels.
  { exists []. assert (limit_rows (pp_max_samples args) idx (@nil (option Z * list str)) = []) as ->.
    { unfold limit_rows. repeat case_match; try done. apply take_nil. }
    cbn. rewrite !app_nil_r. split; [done|constructor]. }
  rewrite fmap_cons. cbn [preprocess_rows mbind result_bind]. cbn [snd] in E. rewrite E. cbn [mbind result_bind].
  rewrite limit_rows_cons.
  destruct (pp_max_samples args) as [m|] eqn:Em.
  - destruct (negb (m =? 0) && (m <=? idx)).
    + exists [ids]. split; [done|]. by repeat constructor.
    + destruct (IH (idx + 1) (acc ++ [ids]) (labels ++ [label_value label])) as (rows & -> & HF).
      exists (ids :: rows). rewrite fmap_cons, <-!app_assoc. split; [done|]. by constructor.
  - destruct (IH (idx + 1) (acc ++ [ids]) (labels ++ [label_value label])) as (rows & -> & HF).
    exists (ids :: rows). rewrite fmap_cons, <-!app_assoc. split; [done|]. by constructor.
Qed.

Lemma Forall_Ok_fmap {A} (P : A → Prop) (rows : list (result A)) :
  Forall (λ r, ∃ a, r = Ok a ∧ P a) rows → ∃ parsed, rows = Ok <$> parsed ∧ Forall P parsed.
Proof.
  induction 1 as [|r rows (a & -> & Ha) _ (parsed & -> & HP)]; [by exists []|].
  exists (a :: parsed). by rewrite fmap_cons; auto.
Qed.

(** ** Lemmas: the archive *)

Lemma dtype_width name bits : dtype_from_name name = Ok bits → 0 < bits ≤ 64.
Proof. unfold dtype_from_name. repeat case_decide; intros [= <-]; lia. Qed.

Lemma preprocess_metadata_plain args paths n w sizes offs :
  plain_text (pp_output_stem args) → Forall plain_text paths → plain_text (global_id_mode args) →
  plain_text (dtype args) →
  plain_json (JObj (preprocess_metadata args paths n w sizes offs)).
Proof.
  intros P1 P2 P3 P4. apply plain_json_obj. split.
  - apply (bool_decide_unpack _). vm_compute. exact I.
  - assert (plain_json (JList (JStr <$> paths))) by (apply plain_json_list; by apply Forall_fmap).
    unfold preprocess_metadata.
    repeat (apply Forall_cons_2; [split; [by apply plain_text_check|]; cbn [fst snd];
      first [done | by apply plain_json_row | by apply plain_text_check]|]).
    apply Forall_nil_2.
Qed.

Lemma preprocess_metadata_get args paths n w sizes offs :
  dict_get (preprocess_metadata args paths n w sizes offs) (u "batch_size") = Some (JInt (pp_batch_size args)) ∧
  dict_get (preprocess_metadata args paths n w sizes offs) (u "bag_size") = Some (JInt (pp_bag_size args)).
Proof. split; reflexivity. Qed.

(** What [preprocess] needs of its arguments and its input. *)
Record valid_run (args : preprocess_args) (paths : list str) (files : list (list str))
    (sizes : list Z) (bits : Z) (parsed : list (option Z * list str)) : Prop := {
  vr_paths : input_paths (input args) (input_glob args) = Ok paths;
  vr_files : open_lines <$> paths = Ok <$> files;
  vr_sizes : parse_hash_sizes (pp_hash_size args) (num_fields args) = Ok sizes;
  vr_bits : dtype_from_name (dtype args) = Ok bits;
  vr_mode : valid_mode (global_id_mode args);
  vr_seed : seed_ok (pp_seed args) = true;
  vr_fields : 0 < num_fields args;
  vr_bag : 0 < pp_bag_size args;
  vr_batch : 0 < pp_batch_size args;
  vr_rpb : in_width 64 (pp_rows_per_block args);
  vr_rpb_pos : 0 < pp_rows_per_block args;
  vr_total : zsum sizes ≤ 2 ^ bits;
  vr_total64 : zsum sizes < 2 ^ 64;
  vr_parsed : iter_criteo_rows (Ok <$> files) (num_fields args) = Ok <$> parsed;
  vr_some : parsed ≠ [];
  vr_count : zlen (limit_rows (pp_max_samples args) 1 parsed) * row_width args < two53;
  vr_suffix : pp_output_suffix args = u ".npz";
  vr_labels : Forall (λ p : option Z * list str, -128 ≤ label_value p.1 < 128) parsed;
  vr_plain : plain_text (pp_output_stem args) ∧ Forall plain_text paths ∧ plain_text (global_id_mode args) ∧
             plain_text (dtype args);
}.

Section Runs.
Variables (args : preprocess_args) (paths : list str) (files : list (list str)).
Variables (sizes : list Z) (bits : Z) (parsed : list (option Z * list str)).
Hypothesis V : valid_run args paths files sizes bits parsed.

Let offs := field_offsets_from_hash_sizes sizes.
Let rows_in := limit_rows (pp_max_samples args) 1 parsed.
Let w := row_width args.

Lemma run_sizes : zlen sizes = num_fields args ∧ Forall (λ x, 0 < x) sizes ∧ 0 < zsum sizes ∧ 0 < w.
Proof.
  pose proof (vr_fields _ _ _ _ _ _ V) as Hf. pose proof (vr_bag _ _ _ _ _ _ V) as Hb.
  destruct (parse_hash_sizes_Ok (pp_hash_size args) (num_fields args) sizes ltac:(lia) (vr_sizes _ _ _ _ _ _ V)) as [Hl Hp]. split_and!; [done|done| |].
  - destruct sizes as [|x l]; [simpl in Hl; lia|]. apply Forall_cons in Hp as [Hx Hp].
    assert (0 ≤ zsum l) by (apply zsum_nonneg; forall_lia). simpl. unfold zsum in *. lia.
  - unfold w, row_width. case_match; lia.
Qed.

(** The rows of ids of the run. *)
Lemma run_rows :
  ∃ ids_rows,
    preprocess_rows args sizes offs 1 [] [] (iter_criteo_rows (open_lines <$> paths) (num_fields args)) =
      Ok (ids_rows, (λ p : option Z * list str, label_value p.1) <$> rows_in) ∧
    Forall2 (λ (p : option Z * list str) ids, row_ids args sizes offs p.2 = Ok ids) rows_in ids_rows ∧
    rectangular w ids_rows ∧ Forall (Forall (λ id, 0 ≤ id < zsum sizes)) ids_rows ∧ ids_rows ≠ [].
Proof.
  destruct run_sizes as (Hl & Hp & Hz & _).
  pose proof (vr_fields _ _ _ _ _ _ V) as Hf. pose proof (vr_bag _ _ _ _ _ _ V) as Hb.
  assert (Forall (λ p : option Z * list str, ∃ ids, row_ids args sizes offs p.2 = Ok ids ∧ zlen ids = w ∧
            Forall (λ id, 0 ≤ id < zsum sizes) ids) parsed) as HR.
  { destruct (iter_criteo_rows_Ok files (num_fields args)) as [HC _]; [lia|].
    rewrite (vr_parsed _ _ _ _ _ _ V), Forall_fmap in HC.
    refine (Forall_impl _ _ _ HC _). intros [label cats] (label' & cats' & [= <- <-] & Hc). cbn [snd].
    apply row_ids_Ok; [apply V|apply V|done|done|lia|done|lia]. }
  rewrite (vr_files _ _ _ _ _ _ V), (vr_parsed _ _ _ _ _ _ V).
  destruct (preprocess_rows_Ok args sizes offs parsed 1 [] []) as (ids_rows & E & HF).
  { refine (Forall_impl _ _ _ HR _). intros p (ids & ? & _). eauto. }
  exists ids_rows. split; [exact E|]. split; [exact HF|].
  assert (Forall (λ ids, zlen ids = w ∧ Forall (λ id, 0 ≤ id < zsum sizes) ids) ids_rows) as HB.
  { apply (limit_rows_Forall _ (pp_max_samples args) 1) in HR.
    clear E. induction HF as [|p ids ps idss Hpi _ IH]; [constructor|].
    apply Forall_cons in HR as [(ids' & E' & Hw & HB) HR]. rewrite Hpi in E'. injection E' as <-.
    constructor; [done|by apply IH]. }
  split; [|split].
  - refine (Forall_impl _ _ _ HB _). by intros ? [? _].
  - refine (Forall_impl _ _ _ HB _). by intros ? [_ ?].
  - intros ->. apply Forall2_nil_inv_r in HF. pose proof (vr_some _ _ _ _ _ _ V) as Hne.
    unfold limit_rows in HF. destruct parsed as [|p ps]; [done|].
    destruct (pp_max_samples args) as [m|]; [|done]. case_match; [done|].
    apply (f_equal length) in HF. rewrite length_take in HF. cbn [length] in HF. lia.
Qed.

(** The run, given the rows, ends with an archive the reader can open. *)
Lemma preprocess_Ok ids_rows s :
  preprocess_rows args sizes offs 1 [] [] (iter_criteo_rows (open_lines <$> paths) (num_fields args)) =
    Ok (ids_rows, (λ p : option Z * list str, label_value p.1) <$> rows_in) →
  rectangular w ids_rows → Forall (Forall (λ id, 0 ≤ id < zsum sizes)) ids_rows → ids_rows ≠ [] →
  zlen ids_rows * w < two53 →
  let ids := nd_matrix w ids_rows in
  let file := preprocess_payload args (JObj (preprocess_metadata args paths (zlen ids_rows) w sizes offs)) ids
                (NdArray (shape ids) (block_of (pp_rows_per_block args) <$> data ids)) in
  analyze_trace_file polyfit_loglog file (pp_output_path args) (pp_output_stem args)
    (pp_rows_per_block args) (pp_topk args) (pp_block_bytes args) = Ok s →
  ∃ out, preprocess args = Ok out ∧ pp_payload out = file.
Proof.
  intros Erows Hrect HB Hne Hn ids file Ean. destruct run_sizes as (Hl & Hp & Hz & Hw).
  destruct (dtype_width _ _ (vr_bits _ _ _ _ _ _ V)) as [Hb0 Hb64].
  pose proof (vr_total _ _ _ _ _ _ V) as Ht. pose proof (vr_total64 _ _ _ _ _ _ V) as Ht64.
  pose proof (vr_rpb_pos _ _ _ _ _ _ V) as Hr0.
  destruct (sizes_in_width sizes Hp Ht64) as [W1 W2].
  assert (Forall (λ id, 0 ≤ id < zsum sizes) (data ids)) as HBd by (by apply Forall_concat).
  assert (all_u64 (data ids)) as Hu by (unfold all_u64, in_width; forall_lia).
  eexists. split. unfold preprocess.
  run_step ltac:(apply V). run_step ltac:(apply V). run_step ltac:(apply V).
  run_step ltac:(exact Erows). rewrite decide_False by done.
  run_step ltac:(apply np_asarray_rows_matrix; [exact Hne|exact Hrect|]).
  { refine (Forall_impl _ _ _ HB _). intros l Hl'. refine (Forall_impl _ _ _ Hl' _). unfold in_width. intros; lia. }
  run_step ltac:(apply np_uint64_small, V).
  run_step ltac:(reflexivity). run_step ltac:(reflexivity).
  run_step ltac:(apply np_arange_pos; [exact Hw|lia|unfold two53 in Hn; lia]).
  run_step ltac:(apply np_asarray_int8_small).
  { apply Forall_fmap, limit_rows_Forall. exact (vr_labels _ _ _ _ _ _ V). }
  run_step ltac:(by apply np_asarray_uint_small). run_step ltac:(by apply np_asarray_uint_small).
  fold ids. rewrite astype_uint64_id by done.
  assert (wrap bits <$> ((λ x, np_floordiv x (pp_rows_per_block args)) <$> data ids) =
          block_of (pp_rows_per_block args) <$> data ids) as ->.
  { rewrite <-list_fmap_compose. apply list_fmap_ext. intros i x Hx. unfold compose.
    pose proof (Forall_lookup_1 _ _ _ _ HBd Hx) as Hid. cbv beta in Hid.
    rewrite np_floordiv_pos; [|unfold in_width; lia|done]. apply wrap_small. unfold in_width, block_of.
    pose proof (Z.div_pos x (pp_rows_per_block args)). split; [lia|].
    apply Z.le_lt_trans with x; [|lia]. apply Z.div_le_upper_bound; nia. }
  run_step ltac:(unfold opened_after_savez; rewrite decide_True by apply V; reflexivity).
  run_step ltac:(exact Ean). reflexivity. reflexivity.
Qed.

(** The written trace of a run, before it is read. *)
Lemma run_written ids_rows :
  preprocess_rows args sizes offs 1 [] [] (iter_criteo_rows (open_lines <$> paths) (num_fields args)) =
    Ok (ids_rows, (λ p : option Z * list str, label_value p.1) <$> rows_in) →
  Forall2 (λ (p : option Z * list str) ids, row_ids args sizes offs p.2 = Ok ids) rows_in ids_rows →
  rectangular w ids_rows → Forall (Forall (λ id, 0 ≤ id < zsum sizes)) ids_rows →
  zlen ids_rows = zlen rows_in ∧ zlen ids_rows * w < two53 ∧ nd_wf (nd_matrix w ids_rows) ∧
  all_u64 (data (nd_matrix w ids_rows)) ∧ zlen (concat ids_rows) = zlen ids_rows * w ∧
  plain_json (JObj (preprocess_metadata args paths (zlen ids_rows) w sizes offs)).
Proof.
  intros _ HF Hrect HB. destruct run_sizes as (Hl & Hp & Hz & Hw).
  pose proof (vr_count _ _ _ _ _ _ V) as Hc. pose proof (vr_total64 _ _ _ _ _ _ V) as Ht64.
  assert (zlen ids_rows = zlen rows_in) as El by (by rewrite (Forall2_length _ _ _ HF)).
  assert (nd_wf (nd_matrix w ids_rows)) as Hwf by (apply nd_matrix_wf; [lia|done]).
  split_and!; [done|rewrite El; exact Hc|exact Hwf| | |].
  - apply Forall_concat. refine (Forall_impl _ _ _ HB _). intros l H. refine (Forall_impl _ _ _ H _).
    unfold in_width. intros; lia.
  - destruct Hwf as [_ E]. simpl in E. lia.
  - apply preprocess_metadata_plain; apply V.
Qed.

End Runs.

(** The archive of a run reads back, with the metadata a replay looks for. *)
Lemma preprocess_reads_back args paths files sizes bits parsed :
  valid_run args paths files sizes bits parsed → save_ids args = true → row_width args = pp_bag_size args →
  ∃ out tr batches rows,
    preprocess args = Ok out ∧
    EmbeddingTrace.init (pp_payload out) (Some (pp_rows_per_block args)) = Ok tr ∧
    (∃ d, EmbeddingTrace.metadata tr = JObj d ∧ dict_get d (u "total_num_embeddings") = Some (JInt (zsum sizes)) ∧
       dict_get d (u "trace_name") = Some (JStr (pp_output_stem args))) ∧
    EmbeddingTrace.iter_batches tr = Ok batches ∧ concat batches = concat rows ∧
    batches = (λ rs, concat rs) <$> batches_of (pp_batch_size args) rows ∧
    EmbeddingTrace.iter_block_batches tr = Ok (blocks_of (pp_rows_per_block args) <$> batches) ∧
    Forall2 (λ (p : option Z * list str) ids,
               row_ids args sizes (field_offsets_from_hash_sizes sizes) p.2 = Ok ids ∧
               zlen ids = pp_bag_size args ∧ Forall (λ id, 0 ≤ id < zsum sizes) ids)
      (limit_rows (pp_max_samples args) 1 parsed) rows.
Proof.
  intros V Hsave Hwidth.
  destruct (run_sizes _ _ _ _ _ _ V) as (Hl & Hp & Hz & Hw).
  destruct (run_rows _ _ _ _ _ _ V) as (rows & Erows & HF & Hrect & HB & Hne).
  destruct (run_written _ _ _ _ _ _ V rows Erows HF Hrect HB) as (Elr & Hcount & Hwf & Hu & Elc & Hplain).
  set (w := row_width args) in *. set (rpb := pp_rows_per_block args) in *. set (b := pp_batch_size args) in *.
  pose proof (vr_batch _ _ _ _ _ _ V) as Hb. pose proof (vr_rpb _ _ _ _ _ _ V) as Hr.
  pose proof (vr_rpb_pos _ _ _ _ _ _ V) as Hr0. fold rpb in Hr, Hr0. fold b in Hb.
  set (blk := NdArray [zlen rows; w] (block_of rpb <$> data (nd_matrix w rows))).
  destruct (written_trace_reads
    (preprocess_metadata args paths (zlen rows) w sizes (field_offsets_from_hash_sizes sizes))
    (nd_matrix w rows) (if save_blocks args then Some blk else None) (zlen rows) w b rpb) as (tr & Ei & Enb & Eit & Ebl);
    [exact Hplain|apply preprocess_metadata_get|rewrite Hwidth; apply preprocess_metadata_get|done|exact Hwf|exact Hu|
     exact Hw|exact Hb|exact Hr|exact Hr0|by destruct (save_blocks args)|].
  set (batches := batches_of (b * w) (data (nd_matrix w rows))) in *.
  assert (concat batches = concat rows) as Ec by (apply batches_of_concat; nia).
  set (file := preprocess_payload args
    (JObj (preprocess_metadata args paths (zlen rows) w sizes (field_offsets_from_hash_sizes sizes)))
    (nd_matrix w rows) blk).
  assert (EmbeddingTrace.init file (Some rpb) = Ok tr) as Ei'.
  { unfold file, preprocess_payload. rewrite Hsave. exact Ei. }
  assert (Forall all_u64 batches) as Hub by (apply Forall_batches; [nia|exact Hu]).
  assert (zlen batches ≤ zlen rows * w) as Elb.
  { unfold batches, batches_of. rewrite length_fmap, length_seqZ. cbn [data nd_matrix]. rewrite Elc.
    pose proof (cdiv_spec (zlen rows * w) (b * w) ltac:(nia)). nia. }
  destruct (analyze_runs polyfit_loglog file (pp_output_path args) (pp_output_stem args) rpb (pp_topk args)
    (pp_block_bytes args) batches) as (s & Ean & _); [by exists tr|exact Hub|exact Hr|exact Hr0|lia|rewrite Ec, Elc; lia|].
  destruct (preprocess_Ok _ _ _ _ _ _ V rows s Erows Hrect HB Hne Hcount Ean) as (out & Eout & Epay).
  exists out, tr, batches, rows. split_and!; [exact Eout|by rewrite Epay| |exact Eit|exact Ec| |exact Ebl|].
  { unfold file, preprocess_payload in Ei'. rewrite Hsave, EmbeddingTrace.init_npz in Ei' by exact Hplain.
    injection Ei' as <-. eexists. split; [reflexivity|]. by split. }
  { unfold batches. by apply batches_of_rows. }
  clear - HF Hrect HB Hwidth. unfold rectangular in Hrect.
  induction HF as [|p ids ps idss E _ IH]; [constructor|].
  apply Forall_cons in Hrect as [Hi Hrect]. apply Forall_cons in HB as [Hi' HB].
  constructor; [|by apply IH]. split_and!; [done| |done]. by rewrite Hi.
Qed.

(** C22: a preprocessed trace reads back. For readable Criteo files, when every
    row has bag_size ids (empty columns dropped and padded, or a bag no wider
    than the fields) and the ids are saved, [preprocess] returns and reading
    its archive yields one row per kept line, in order, each the hashed, padded
    and cut ids of that line, all below the total number of embeddings, in
    batches of batch_size rows (the last of what is left); the saved block ids are the batches' blocks. *)
Theorem preprocess_read_roundtrip args paths files sizes bits parsed :
  valid_run args paths files sizes bits parsed → save_ids args = true → row_width args = pp_bag_size args →
  ∃ out tr batches rows,
    preprocess args = Ok out ∧
    EmbeddingTrace.init (pp_payload out) (Some (pp_rows_per_block args)) = Ok tr ∧
    EmbeddingTrace.iter_batches tr = Ok batches ∧ concat batches = concat rows ∧
    batches = (λ rs, concat rs) <$> batches_of (pp_batch_size args) rows ∧
    EmbeddingTrace.iter_block_batches tr = Ok (blocks_of (pp_rows_per_block args) <$> batches) ∧
    Forall2 (λ (p : option Z * list str) ids,
               row_ids args sizes (field_offsets_from_hash_sizes sizes) p.2 = Ok ids ∧
               zlen ids = pp_bag_size args ∧ Forall (λ id, 0 ≤ id < zsum sizes) ids)
      (limit_rows (pp_max_samples args) 1 parsed) rows.
Proof.
  intros V Hs Hw. destruct (preprocess_reads_back _ _ _ _ _ _ V Hs Hw) as (out & tr & batches & rows & H1 & H2 & _ & H).
  by exists out, tr, batches, rows.
Qed.

(** Without drop_empty a bag wider than the fields loses samples: the rows
    keep num_fields ids but the metadata say bag_size, and reading the archive
    [preprocess] wrote yields only the first ceil(n / batch_size) of the [n]
    rows, one per batch. *)
Lemma wide_bag_loses_samples args paths files sizes bits parsed :
  valid_run args paths files sizes bits parsed → save_ids args = true →
  drop_empty args = false → num_fields args < pp_bag_size args →
  ∃ out tr batches rows,
    preprocess args = Ok out ∧
    EmbeddingTrace.init (pp_payload out) (Some (pp_rows_per_block args)) = Ok tr ∧
    EmbeddingTrace.iter_batches tr = Ok batches ∧
    zlen rows = zlen (limit_rows (pp_max_samples args) 1 parsed) ∧ rectangular (num_fields args) rows ∧
    zlen batches = cdiv (zlen rows) (pp_batch_size args) ∧
    concat batches = py_slice (concat rows) 0 (cdiv (zlen rows) (pp_batch_size args) * num_fields args).
Proof.
  intros V Hsave Hdrop Hbag.
  destruct (run_sizes _ _ _ _ _ _ V) as (Hl & Hp & Hz & Hw).
  destruct (run_rows _ _ _ _ _ _ V) as (rows & Erows & HF & Hrect & HB & Hne).
  destruct (run_written _ _ _ _ _ _ V rows Erows HF Hrect HB) as (Elr & Hcount & Hwf & Hu & Elc & Hplain).
  assert (row_width args = num_fields args) as Hwidth by (unfold row_width; rewrite Hdrop; lia).
  set (w := row_width args) in *. set (rpb := pp_rows_per_block args) in *. set (b := pp_batch_size args) in *.
  pose proof (vr_batch _ _ _ _ _ _ V) as Hb. pose proof (vr_rpb _ _ _ _ _ _ V) as Hr.
  pose proof (vr_rpb_pos _ _ _ _ _ _ V) as Hr0. fold rpb in Hr, Hr0. fold b in Hb.
  set (blk := NdArray [zlen rows; w] (block_of rpb <$> data (nd_matrix w rows))).
  set (fields := preprocess_metadata args paths (zlen rows) w sizes (field_offsets_from_hash_sizes sizes)) in *.
  set (file := preprocess_payload args (JObj fields) (nd_matrix w rows) blk).
  set (tr := EmbeddingTrace.Mk (Some rpb) (JObj fields) None (Some (nd_matrix w rows))
               (if save_blocks args then Some blk else None)).
  assert (EmbeddingTrace.init file (Some rpb) = Ok tr) as Ei.
  { unfold file, preprocess_payload. rewrite Hsave. by apply EmbeddingTrace.init_npz. }
  assert (EmbeddingTrace.batch_size tr = Ok (Some b)) as Ebs.
  { unfold EmbeddingTrace.batch_size. cbn [EmbeddingTrace.metadata tr meta_get]. unfold fields.
    by rewrite (proj1 (preprocess_metadata_get _ _ _ _ _ _)). }
  assert (EmbeddingTrace.bag_size tr = Ok (Some (pp_bag_size args))) as Ebag.
  { unfold EmbeddingTrace.bag_size. cbn [EmbeddingTrace.metadata tr meta_get]. unfold fields.
    rewrite (proj2 (preprocess_metadata_get _ _ _ _ _ _)).
    assert (truthy (JInt (pp_bag_size args)) = true) as Ht by (apply negb_true_iff, Z.eqb_neq; lia).
    change (default JNull (Some ?v)) with v. cbn [mbind result_bind]. by rewrite Ht. }
  assert (EmbeddingTrace.layout_batches tr = Ok (Some b)) as Elb.
  { assert (meta_get (EmbeddingTrace.metadata tr) (u "trace_layout") = Ok (JStr (u "samples_by_fields"))) as El by reflexivity.
    unfold EmbeddingTrace.layout_batches. run_step ltac:(exact El). cbn [is_str negb]. rewrite bool_decide_true by done.
    cbn [negb]. run_step ltac:(exact Ebs). cbn [opt_truthy]. by rewrite (proj2 (Z.eqb_neq b 0)) by lia. }
  assert (EmbeddingTrace.sample_batches tr (nd_matrix w rows) = Ok None) as Esb.
  { unfold EmbeddingTrace.sample_batches. change (negb (ndim (nd_matrix w rows) =? 2)) with false. cbv iota.
    run_step ltac:(exact Ebag). cbn [opt_truthy]. rewrite (proj2 (Z.eqb_neq (pp_bag_size args) 0)) by lia. cbn [negb].
    run_step ltac:(reflexivity). rewrite bool_decide_false by (intros [= ?]; lia). done. }
  destruct (mismatched_bag_batches tr (nd_matrix w rows) (zlen rows) w b) as (batches & Eit & Elen & Ec);
    [done|done|exact Hwf|done|exact Hu|exact Hb|exact Elb|exact Esb|].
  cbn [data nd_matrix] in Ec.
  assert (Forall all_u64 batches) as Hub.
  { assert (Forall (in_width 64) (concat batches)) as Hc.
    { rewrite Ec. apply Forall_forall. intros x Hx. unfold all_u64 in Hu. rewrite Forall_forall in Hu.
      apply Hu. by eapply py_slice_elem. }
    by apply Forall_concat in Hc. }
  pose proof (cdiv_spec (zlen rows) b Hb) as Hcd. pose proof (cdiv_nonneg (zlen rows) b ltac:(lia) Hb) as Hcn.
  destruct (analyze_runs polyfit_loglog file (pp_output_path args) (pp_output_stem args) rpb (pp_topk args)
    (pp_block_bytes args) batches) as (s & Ean & _);
    [by exists tr|exact Hub|exact Hr|exact Hr0|rewrite Elen; nia|rewrite Ec, length_py_slice by nia; lia|].
  destruct (preprocess_Ok _ _ _ _ _ _ V rows s Erows Hrect HB Hne Hcount Ean) as (out & Eout & Epay).
  exists out, tr, batches, rows. rewrite Epay, <-Hwidth. split_and!; done.
Qed.

(** An output that is not named [.npz] is written next to its name, so the
    statistics are those of what the name held before the run, if it held a
    trace, and otherwise the run fails after it has written its archive. *)
Lemma preprocess_analyses_old_file args out :
  preprocess args = Ok out → pp_output_suffix args ≠ u ".npz" →
  ∃ old, pp_output_before args = Ok old ∧
    analyze_trace_file polyfit_loglog old (pp_output_path args) (pp_output_stem args)
      (pp_rows_per_block args) (pp_topk args) (pp_block_bytes args) = Ok (pp_stats out).
Proof.
  intros H Hs. unfold preprocess in H. inv_run H; simplify_eq.
  match goal with E : opened_after_savez _ _ _ = Ok _ |- _ => unfold opened_after_savez in E; rewrite decide_False in E by done end.
  eauto.
Qed.
End Preprocess.

(** *** The properties at concrete files *)

Section Witnesses.
#[local] Existing Instance reference_numpy.
#[local] Existing Instance reference_asarray.
#[local] Existing Instance reference_set.

Definition example_line (label : str) (cats : list str) : str :=
  join [9] (label :: replicate 13 (u "5") ++ cats) ++ [10].
Definition example_lines : list str :=
  [example_line (u "1") [u "a"; u "b"]; u " " ++ [10]; example_line (u "x") [[]; u "c"];
   example_line (u "0") [u "a"; u "d"]].
Definition example_open (path : str) : result (list str) := Ok example_lines.
Definition example_parsed : list (option Z * list str) :=
  [(Some 1, [u "a"; u "b"]); (None, [[]; u "c"]); (Some 0, [u "a"; u "d"])].

Definition example_run (bag : Z) : preprocess_args :=
  {| input := Some (u "day_0"); input_glob := None; pp_output_path := u "o.npz"; pp_output_stem := u "o";
     pp_output_suffix := u ".npz"; pp_output_before := Err OSError; pp_max_samples := None; num_fields := 2; pp_batch_size := 2; pp_bag_size := bag; pp_hash_size := u "10,20";
     global_id_mode := u "per_field_offset"; pp_rows_per_block := 4; drop_empty := false; save_ids := true;
     save_blocks := true; dtype := u "uint32"; pp_seed := 0; pp_topk := 5; pp_block_bytes := 64 |}.

Lemma example_valid bag :
  0 < bag → valid_run (λ _, []) example_open (example_run bag) [u "day_0"] [example_lines] [10; 20] 32 example_parsed.
Proof.
  intros Hb. assert (0 ≤ row_width (example_run bag) ≤ 2) as Hw by (unfold row_width; cbn; lia).
  assert (zlen (limit_rows (pp_max_samples (example_run bag)) 1 example_parsed) = 3) as Hn by reflexivity.
  constructor.
  - reflexivity.
  - reflexivity.
  - vm_compute. reflexivity.
  - reflexivity.
  - by left.
  - reflexivity.
  - reflexivity.
  - exact Hb.
  - reflexivity.
  - split; vm_compute; congruence.
  - reflexivity.
  - vm_compute. congruence.
  - vm_compute. reflexivity.
  - vm_compute. reflexivity.
  - done.
  - rewrite Hn. unfold two53. lia.
  - reflexivity.
  - repeat constructor; vm_compute; congruence.
  - split_and!; [by apply plain_text_check|apply Forall_cons_2; [by apply plain_text_check|apply Forall_nil_2]|by apply plain_text_check..].
Qed.

Lemma preprocess_read_roundtrip_witness :
  ∃ out tr batches rows,
    preprocess (λ _, f_zero) (λ _, []) example_open (example_run 2) = Ok out ∧
    EmbeddingTrace.init (pp_payload out) (Some 4) = Ok tr ∧
    EmbeddingTrace.iter_batches tr = Ok batches ∧ concat batches = concat rows ∧
    batches = (λ rs, concat rs) <$> batches_of 2 rows ∧
    EmbeddingTrace.iter_block_batches tr = Ok (blocks_of 4 <$> batches) ∧
    Forall2 (λ (p : option Z * list str) ids,
               row_ids (example_run 2) [10; 20] (field_offsets_from_hash_sizes [10; 20]) p.2 = Ok ids ∧
               zlen ids = 2 ∧ Forall (λ id, 0 ≤ id < zsum [10; 20]) ids)
      (limit_rows None 1 example_parsed) rows.
Proof.
  apply (preprocess_read_roundtrip (λ _, f_zero) (λ _, []) example_open (example_run 2)
    [u "day_0"] [example_lines] [10; 20] 32 example_parsed); [by apply example_valid|reflexivity|reflexivity].
Defined.

Lemma wide_bag_loses_samples_witness :
  ∃ out tr batches rows,
    preprocess (λ _, f_zero) (λ _, []) example_open (example_run 3) = Ok out ∧
    EmbeddingTrace.init (pp_payload out) (Some 4) = Ok tr ∧
    EmbeddingTrace.iter_batches tr = Ok batches ∧
    zlen rows = zlen (limit_rows None 1 example_parsed) ∧ rectangular 2 rows ∧
    zlen batches = cdiv (zlen rows) 2 ∧
    concat batches = py_slice (concat rows) 0 (cdiv (zlen rows) 2 * 2).
Proof.
  apply (wide_bag_loses_samples (λ _, f_zero) (λ _, []) example_open (example_run 3)
    [u "day_0"] [example_lines] [10; 20] 32 example_parsed); [by apply example_valid|reflexivity|reflexivity|reflexivity].
Defined.
End Witnesses.
