(* ===== verification/BenchCli.v ===== *)
(** The command lines of the two benchmark runs
    (memtier_embedding_bench/python/baseline_cpu_staging.py and
    memtier_embedding.py): their parsers, and the programs from the words of the
    command line to the result.

    The environment gives what a path holds (as a trace, as bytes), whether
    CUDA is there and whether a shared library loads.  A missing
    [--num-embeddings] of the MemTier run is the size 0 for the generator, as
    [rng.integers(0, None)] is [rng.integers(0, 0)]; no run completes with it
    ([memtier_needs_a_size]). *)

From S2P Require Import Prelude PyFloat PyText PyPath NumPy Json Argparse Namespace NdArray Workload TraceReader.
From S2P Require Import Stats LruSim Analyze Bench CpuStaging RuntimeLib MemTierBag.

(** ** Parsers *)

Definition staging_parser : parser :=
  [req "--embedding-file" TPath;
   opt "--trace" TPath VNone;
   opt "--trace-file" TPath VNone;
   opt_in "--trace-source" TStr [VStr (u "synthetic"); VStr (u "criteo"); VStr (u "dlrm")] (VStr (u "synthetic"));
   opt "--output" TPath (VPath (path_of (u "results/baselines.jsonl")));
   opt "--num-embeddings" TInt (VInt 0);
   req "--embedding-dim" TInt;
   opt "--rows-per-block" TInt (VInt 2048);
   opt_in "--dtype-size" TInt [VInt 2; VInt 4] (VInt 2);
   opt_in "--dtype" TStr [VStr (u "fp16"); VStr (u "fp32")] VNone;
   opt "--batch-size" TInt (VInt 16384);
   opt "--bag-size" TInt (VInt 32);
   opt "--num-batches" TInt (VInt 1000);
   opt_in "--dist" TStr [VStr (u "uniform"); VStr (u "zipf")] (VStr (u "uniform"));
   opt "--zipf-alpha" TFloat (VFloat f_one);
   opt "--overlap-ratio" TFloat (VFloat f_zero);
   opt "--seed" TInt (VInt 1234);
   flag "--cuda-copy"].

Definition memtier_parser : parser :=
  [req "--embedding-file" TPath;
   opt "--trace" TPath VNone;
   opt "--trace-file" TPath VNone;
   opt_in "--trace-source" TStr [VStr (u "synthetic"); VStr (u "criteo"); VStr (u "dlrm")] (VStr (u "synthetic"));
   opt "--trace-name" TStr VNone;
   opt "--lib" TPath VNone;
   opt "--output" TPath (VPath (path_of (u "results/memtier.jsonl")));
   opt "--num-embeddings" TInt VNone;
   req "--embedding-dim" TInt;
   opt "--rows-per-block" TInt (VInt 2048);
   opt_in "--dtype-size" TInt [VInt 2; VInt 4] (VInt 2);
   opt "--batch-size" TInt (VInt 16384);
   opt "--bag-size" TInt (VInt 32);
   opt "--num-batches" TInt (VInt 1000);
   opt_in "--dist" TStr [VStr (u "uniform"); VStr (u "zipf")] (VStr (u "uniform"));
   opt "--zipf-alpha" TFloat (VFloat f_one);
   opt "--overlap-ratio" TFloat (VFloat f_zero);
   opt "--seed" TInt (VInt 1234);
   opt "--dram-cache-gb" TFloat (VFloat (lit 32 1));
   opt "--hbm-cache-gb" TFloat (VFloat (lit 4 1));
   opt_in "--mode" TStr [VStr (u "sum"); VStr (u "mean")] (VStr (u "sum"));
   flag "--enable-gds";
   flag "--enable-prefetch"].

(** ** From attributes to the arguments of the runs *)

Section Args.
  (** What [EmbeddingTrace] reads at a path, and the bytes a path holds. *)
  Variables (read_trace : path → result trace_file) (read_bytes : path → result (list Z)).
  (** Whether [ctypes.CDLL] loads the library of a name, and the files that
      exist under the root of the benchmark. *)
  Variables (cdll : str → bool) (exists_path : str → bool) (root : str).

  (** [args.trace_file or args.trace], and the parameters of a synthetic trace. *)
Definition trace_args_of (ns : namespace) (num_embeddings : Z) : result trace_args :=
    trace ← opt_attr path_attr ns "trace";
    trace_file ← opt_attr path_attr ns "trace_file";
    batch_size ← int_attr ns "batch_size";
    bag_size ← int_attr ns "bag_size";
    num_batches ← int_attr ns "num_batches";
    dist ← str_attr ns "dist";
    zipf_alpha ← float_attr ns "zipf_alpha";
    overlap_ratio ← float_attr ns "overlap_ratio";
    seed ← int_attr ns "seed";
    let trace_path := match trace_file with Some p => Some p | None => trace end in
    Ok {| trace_file_arg := (λ p, (read_trace p, path_stem p)) <$> trace_path;
          ta_num_embeddings := num_embeddings; ta_batch_size := batch_size; ta_bag_size := bag_size;
          ta_num_batches := num_batches; Bench.dist := dist; Bench.zipf_alpha := zipf_alpha;
          Bench.overlap_ratio := overlap_ratio; Bench.seed := seed |}.

Definition staging_args_of (ns : namespace) : result staging_args :=
    num_embeddings ← int_attr ns "num_embeddings";
    trace ← trace_args_of ns num_embeddings;
    trace_source ← str_attr ns "trace_source";
    embedding_file ← path_attr ns "embedding_file";
    embedding_dim ← int_attr ns "embedding_dim";
    rows_per_block ← int_attr ns "rows_per_block";
    dtype_size ← int_attr ns "dtype_size";
    dtype ← opt_attr str_attr ns "dtype";
    cuda_copy ← bool_attr ns "cuda_copy";
    Ok {| sa_trace := trace; sa_trace_source := trace_source; CpuStaging.embedding_file := read_bytes embedding_file;
          CpuStaging.embedding_dim := embedding_dim; sa_rows_per_block := rows_per_block;
          CpuStaging.dtype_size := dtype_size; sa_dtype := dtype; CpuStaging.cuda_copy := cuda_copy |}.

Definition memtier_args_of (ns : namespace) : result memtier_args :=
    num_embeddings ← opt_attr int_attr ns "num_embeddings";
    trace ← trace_args_of ns (default 0 num_embeddings);
    trace_name ← opt_attr str_attr ns "trace_name";
    trace_source ← str_attr ns "trace_source";
    embedding_file ← path_attr ns "embedding_file";
    embedding_dim ← int_attr ns "embedding_dim";
    rows_per_block ← int_attr ns "rows_per_block";
    dtype_size ← int_attr ns "dtype_size";
    dram_cache_gb ← float_attr ns "dram_cache_gb";
    hbm_cache_gb ← float_attr ns "hbm_cache_gb";
    mode ← str_attr ns "mode";
    enable_gds ← bool_attr ns "enable_gds";
    enable_prefetch ← bool_attr ns "enable_prefetch";
    lib ← opt_attr path_attr ns "lib";
    Ok {| ma_trace := trace; trace_name_arg := trace_name; ma_trace_source := trace_source;
          num_embeddings_given := bool_decide (is_Some num_embeddings); ma_embedding_file := path_str embedding_file;
          MemTierBag.embedding_dim := embedding_dim; MemTierBag.rows_per_block := rows_per_block;
          MemTierBag.dtype_size := dtype_size; MemTierBag.dram_cache_gb := dram_cache_gb;
          MemTierBag.hbm_cache_gb := hbm_cache_gb; MemTierBag.mode := mode; ma_enable_gds := enable_gds;
          ma_enable_prefetch := enable_prefetch;
          cdll_loads := cdll (match lib with Some p => path_str p | None => default_library_path exists_path root end) |}.

(** ** The programs *)

Definition staging_main `{NP : NumPy, AA : AsArray, RG : Rng} (clock : Z → f64) (cuda_available : bool)
    (argv : list str) : result (list (str * json)) :=
    ns ← parse_args staging_parser argv;
    args ← staging_args_of ns;
    CpuStaging.run clock cuda_available args.

Definition memtier_main `{EL : EmbeddingLib, NP : NumPy, AA : AsArray, RG : Rng} (clock : Z → f64)
    (argv : list str) : result (list (str * json)) :=
    ns ← parse_args memtier_parser argv;
    args ← memtier_args_of ns;
    MemTierBag.run clock args.
End Args.

(** ** Lemmas *)

Lemma staging_parser_ok : parser_ok staging_parser = true.
Proof. by vm_compute. Qed.
Lemma memtier_parser_ok : parser_ok memtier_parser = true.
Proof. by vm_compute. Qed.

(** A string, an integer among choices. *)
Lemma str_attr_in p argv ns k (l : list str) s :
  parser_ok p = true → parse_args p argv = Ok ns → chosen p k (VStr <$> l) = true → str_attr ns k = Ok s → s ∈ l.
Proof.
  intros ok H Hc Hs. unfold str_attr in Hs. apply bind_Ok in Hs as (v & Ev & Hs).
  destruct (attr_choice p argv ns ok H k _ v Hc Ev) as [->|(s' & -> & Hv)%list_elem_of_fmap]; [done|]. by injection Hs as <-.
Qed.
Lemma int_attr_in p argv ns k (l : list Z) z :
  parser_ok p = true → parse_args p argv = Ok ns → chosen p k (VInt <$> l) = true → int_attr ns k = Ok z → z ∈ l.
Proof.
  intros ok H Hc Hs. unfold int_attr in Hs. apply bind_Ok in Hs as (v & Ev & Hs).
  destruct (attr_choice p argv ns ok H k _ v Hc Ev) as [->|(s' & -> & Hv)%list_elem_of_fmap]; [done|]. by injection Hs as <-.
Qed.

Lemma staging_args_total read_trace read_bytes argv ns :
  parse_args staging_parser argv = Ok ns → stores_no_list ns → ∃ args, staging_args_of read_trace read_bytes ns = Ok args.
Proof.
  intros H Hn. pose proof staging_parser_ok as ok. unfold staging_args_of, trace_args_of. repeat attribute ok H Hn. eauto.
Qed.

Lemma memtier_args_total read_trace cdll exists_path root argv ns :
  parse_args memtier_parser argv = Ok ns → stores_no_list ns → ∃ args, memtier_args_of read_trace cdll exists_path root ns = Ok args.
Proof.
  intros H Hn. pose proof memtier_parser_ok as ok. unfold memtier_args_of, trace_args_of. repeat attribute ok H Hn. eauto.
Qed.

(** *** The same flags for both runs *)

Definition size_option (p : parser) : argument := default (req "--num-embeddings" TInt) (find_arg p "num_embeddings").

(** The attributes of two namespaces that both runs read at the same type. *)
Definition shared_keys : list string :=
  ["trace"; "trace_file"; "trace_source"; "embedding_file"; "embedding_dim"; "rows_per_block"; "dtype_size"; "batch_size";
   "bag_size"; "num_batches"; "dist"; "zipf_alpha"; "overlap_ratio"; "seed"]%string.

Lemma shared_keys_default k : k ∈ shared_keys → dict_get (defaults staging_parser) (u k) = dict_get (defaults memtier_parser) (u k).
Proof.
  intros Hk. assert (forallb (λ k, bool_decide (dict_get (defaults staging_parser) (u k) = dict_get (defaults memtier_parser) (u k)))
    shared_keys = true) as H by (by vm_compute).
  apply list_elem_of_In in Hk. apply (proj1 (forallb_forall _ _) H) in Hk. by apply bool_decide_eq_true in Hk.
Qed.

Lemma attr_eq ns ns' k : dict_get ns (u k) = dict_get ns' (u k) → attr ns k = attr ns' k.
Proof. unfold attr. by intros ->. Qed.

Lemma trace_args_agree read_trace ns ns' n :
  (∀ k, k ∈ shared_keys → attr ns k = attr ns' k) → trace_args_of read_trace ns n = trace_args_of read_trace ns' n.
Proof.
  intros H. unfold trace_args_of, opt_attr, int_attr, float_attr, str_attr, path_attr.
  rewrite !H by (apply (bool_decide_unpack _); vm_compute; exact I). done.
Qed.

Lemma get_value_dec n : get_value TInt None (dec n) = Ok (VInt n).
Proof.
  unfold get_value. rewrite decide_False.
  - cbn [convert_arg]. by rewrite py_int_dec.
  - intros E. pose proof (py_int_dec n) as H. rewrite E in H. by vm_compute in H.
Qed.

Lemma same_required seen : all_required staging_parser seen = all_required memtier_parser seen.
Proof. reflexivity. Qed.

Definition has_size (p : parser) : Prop :=
  size_option p ∈ p ∧ act (size_option p) = Store TInt None ∧ option_string (size_option p) = u "--num-embeddings".

(** Settings and a size: the settings over the defaults, and the size. *)
Lemma parse_with_size (p : parser) ss wss n :
  parser_ok p = true → has_size p → Forall2 (spells p) ss wss →
  parse_args p (concat wss ++ [u "--num-embeddings=" ++ dec n]) =
    (ns ← foldM apply_setting (defaults p) ss;
     if all_required p ((dest ∘ setting_arg <$> ss) ++ [u "num_embeddings"])
     then Ok (dict_set ns (u "num_embeddings") (VInt n)) else Err SystemExit).
Proof.
  intros ok (Hin & Ha & Ho) HF. set (st := Given (size_option p) (dec n)).
  assert (dest (size_option p) = u "num_embeddings") as Hd by (unfold dest; rewrite Ho; reflexivity).
  pose proof (parse_spelled p (ss ++ [st]) (wss ++ [[u "--num-embeddings=" ++ dec n]]) ok) as H.
  rewrite concat_app in H. cbn [concat app] in H. rewrite H.
  - unfold run_settings. rewrite foldM_app, fmap_app. cbn [fmap list_fmap compose setting_arg st]. rewrite Hd.
    destruct (foldM apply_setting (defaults p) ss) as [ns|e]; [|done]. cbn [mbind result_bind foldM].
    unfold apply_setting. cbn [setting_value setting_arg st]. rewrite Ha, get_value_dec. cbn [mbind result_bind]. by rewrite Hd.
  - apply Forall2_app; [done|]. constructor; [|constructor].
    pose proof (spells_joined p (size_option p) TInt None (dec n) Hin Ha) as Hsp. by rewrite Ho in Hsp.
Qed.

Lemma parsers_have_size : has_size staging_parser ∧ has_size memtier_parser.
Proof. split; (split; [apply (bool_decide_unpack _); vm_compute; exact I|done]). Qed.

(** Namespaces that agree on the shared attributes give both runs the same
    trace and block geometry. *)
Lemma arguments_agree read_trace read_bytes cdll exists_path root ns ns' n a a' :
  (∀ k, k ∈ shared_keys → attr ns k = attr ns' k) → attr ns "dtype" = Ok VNone →
  attr ns "num_embeddings" = Ok (VInt n) → attr ns' "num_embeddings" = Ok (VInt n) →
  staging_args_of read_trace read_bytes ns = Ok a → memtier_args_of read_trace cdll exists_path root ns' = Ok a' →
  sa_trace a = ma_trace a' ∧ sa_trace_source a = ma_trace_source a' ∧ num_embeddings_given a' = true ∧
  sa_rows_per_block a = MemTierBag.rows_per_block a' ∧ CpuStaging.embedding_dim a = MemTierBag.embedding_dim a' ∧
  dtype_size_of a = MemTierBag.dtype_size a'.
Proof.
  intros Hag Hdt Hn Hn' Ea Ea'. unfold staging_args_of in Ea. unfold memtier_args_of in Ea'.
  assert (int_attr ns "num_embeddings" = Ok n) as E1 by (unfold int_attr; by rewrite Hn).
  assert (opt_attr int_attr ns' "num_embeddings" = Ok (Some n)) as E2 by (unfold opt_attr, int_attr; by rewrite Hn').
  assert (opt_attr str_attr ns "dtype" = Ok None) as E3 by (unfold opt_attr; by rewrite Hdt).
  rewrite E1 in Ea. rewrite E2 in Ea'. cbn [mbind result_bind default] in Ea, Ea'.
  rewrite E3, (trace_args_agree read_trace ns ns' n Hag) in Ea.
  assert (∀ k, k ∈ shared_keys → int_attr ns k = int_attr ns' k ∧ str_attr ns k = str_attr ns' k) as Hty.
  { intros k Hk. unfold int_attr, str_attr. by rewrite (Hag k Hk). }
  rewrite (proj1 (Hty "embedding_dim"%string ltac:(by apply (bool_decide_unpack _)))),
    (proj1 (Hty "rows_per_block"%string ltac:(by apply (bool_decide_unpack _)))),
    (proj1 (Hty "dtype_size"%string ltac:(by apply (bool_decide_unpack _)))),
    (proj2 (Hty "trace_source"%string ltac:(by apply (bool_decide_unpack _)))) in Ea.
  inv_run Ea. inv_run Ea'. simplify_eq.
  unfold dtype_size_of, id in *. cbn [sa_trace ma_trace sa_trace_source ma_trace_source num_embeddings_given sa_rows_per_block
    MemTierBag.rows_per_block CpuStaging.embedding_dim MemTierBag.embedding_dim sa_dtype CpuStaging.dtype_size
    MemTierBag.dtype_size].
  rewrite !decide_False by done. split_and!; congruence || done.
Qed.

(** C34: the same flags make both benchmark runs replay the same trace. On words
    that spell settings known to both parsers, in the same way, and a number
    of embeddings, either both programs end with a usage error or both parse
    them, and agree on every attribute that both read. Unless one of the settings
    is the text [--], for which an empty list is stored, both get their
    arguments, with the same trace to open (the same file or the same
    synthetic parameters), and the same block geometry: rows per block, row
    dimension and size of a number. *)
Theorem runs_replay_same_trace read_trace read_bytes cdll exists_path root ss wss n :
  Forall2 (spells staging_parser) ss wss → Forall2 (spells memtier_parser) ss wss →
  let argv := concat wss ++ [u "--num-embeddings=" ++ dec n] in
  (∃ ns ns', parse_args staging_parser argv = Ok ns ∧ parse_args memtier_parser argv = Ok ns' ∧
     (∀ k, k ∈ shared_keys → attr ns k = attr ns' k) ∧
     ((∀ a, Given a (u "--") ∉ ss) →
      ∃ a a', staging_args_of read_trace read_bytes ns = Ok a ∧ memtier_args_of read_trace cdll exists_path root ns' = Ok a' ∧
        sa_trace a = ma_trace a' ∧ sa_trace_source a = ma_trace_source a' ∧ num_embeddings_given a' = true ∧
        sa_rows_per_block a = MemTierBag.rows_per_block a' ∧ CpuStaging.embedding_dim a = MemTierBag.embedding_dim a' ∧
        dtype_size_of a = MemTierBag.dtype_size a')) ∨
  (parse_args staging_parser argv = Err SystemExit ∧ parse_args memtier_parser argv = Err SystemExit).
Proof.
  intros Hs Hm argv. destruct parsers_have_size as [S1 S2].
  pose proof (parse_with_size _ ss wss n staging_parser_ok S1 Hs) as P1.
  pose proof (parse_with_size _ ss wss n memtier_parser_ok S2 Hm) as P2. fold argv in P1, P2.
  destruct (settings_agree ss (defaults staging_parser) (defaults memtier_parser)) as [(r & r' & E1 & E2 & Hk)|[E1 E2]].
  2: { right. by rewrite P1, P2, E1, E2. }
  rewrite E1 in P1. rewrite E2 in P2. cbn [mbind result_bind] in P1, P2. rewrite <-same_required in P2.
  destruct (all_required staging_parser _); [left|by right].
  eexists _, _. do 2 (split; [eassumption|]).
  set (full := dict_set r (u "num_embeddings") (VInt n)) in *. set (full' := dict_set r' (u "num_embeddings") (VInt n)) in *.
  assert (∀ k, k ∈ shared_keys → attr full k = attr full' k) as Hag.
  { intros k Hin. apply attr_eq. unfold full, full'. rewrite !dict_get_set. case_decide; [done|]. by apply Hk, shared_keys_default. }
  split; [exact Hag|]. intros Hlist.
  assert (stores_no_list full ∧ stores_no_list full') as [F1 F2].
  { split; (apply dict_set_full; [done|]; eapply settings_full; [exact Hlist| |eassumption]; apply defaults_full);
      [apply staging_parser_ok|apply memtier_parser_ok]. }
  destruct (staging_args_total read_trace read_bytes argv _ P1 F1) as [a Ea].
  destruct (memtier_args_total read_trace cdll exists_path root argv _ P2 F2) as [a' Ea'].
  exists a, a'. do 2 (split; [assumption|]). eapply arguments_agree; [exact Hag| | | |exact Ea|exact Ea'].
  - unfold attr, full. rewrite dict_get_set, decide_False by done.
    rewrite (foldM_settings_absent memtier_parser ss (defaults staging_parser) r (u "dtype")); [done| | |exact E1].
    + apply (bool_decide_unpack _). vm_compute. exact I.
    + apply Forall_forall. intros st [i Hi]%list_elem_of_lookup.
      destruct (Forall2_lookup_l _ _ _ _ _ Hm Hi) as (ws & _ & Hsp). by apply setting_of_arg; exists ws.
  - unfold attr, full. by rewrite dict_get_set, decide_True by done.
  - unfold attr, full'. by rewrite dict_get_set, decide_True by done.
Qed.

(** *** The choices of the command lines *)

(** A benchmark run is never given a value of the wrong type or outside
    its choices. Every command line that the parser of a run accepts, without
    storing an empty list, gives the run all its arguments at the types it uses them at; the size of a number is
    2 or 4, the distribution is one the generator knows, and the pooling mode
    is one [forward] knows, so its [ValueError] does not happen. *)
Lemma bench_commands_typed read_trace read_bytes cdll exists_path root :
  (∀ argv ns, parse_args staging_parser argv = Ok ns → stores_no_list ns →
     ∃ a, staging_args_of read_trace read_bytes ns = Ok a ∧
       Bench.dist (sa_trace a) ∈ [u "uniform"; u "zipf"] ∧ dtype_size_of a ∈ [2; 4]) ∧
  (∀ argv ns, parse_args memtier_parser argv = Ok ns → stores_no_list ns →
     ∃ a, memtier_args_of read_trace cdll exists_path root ns = Ok a ∧
       Bench.dist (ma_trace a) ∈ [u "uniform"; u "zipf"] ∧ MemTierBag.dtype_size a ∈ [2; 4] ∧
       MemTierBag.mode a ∈ [u "sum"; u "mean"]).
Proof.
  split; intros argv ns H Hn.
  - destruct (staging_args_total read_trace read_bytes argv ns H Hn) as [a Ea]. exists a. split; [done|].
    unfold staging_args_of, trace_args_of in Ea. inv_run Ea. simplify_eq. inv_res. cbn. split.
    + by eapply (str_attr_in staging_parser argv ns "dist" [u "uniform"; u "zipf"] _ staging_parser_ok H).
    + unfold dtype_size_of. cbn. case_decide; [by left|]. case_decide; [right; by left|].
      by eapply (int_attr_in staging_parser argv ns "dtype_size" [2; 4] _ staging_parser_ok H).
  - destruct (memtier_args_total read_trace cdll exists_path root argv ns H Hn) as [a Ea]. exists a. split; [done|].
    unfold memtier_args_of, trace_args_of in Ea. inv_run Ea. simplify_eq. inv_res. cbn. split_and!.
    + by eapply (str_attr_in memtier_parser argv ns "dist" [u "uniform"; u "zipf"] _ memtier_parser_ok H).
    + by eapply (int_attr_in memtier_parser argv ns "dtype_size" [2; 4] _ memtier_parser_ok H).
    + by eapply (str_attr_in memtier_parser argv ns "mode" [u "sum"; u "mean"] _ memtier_parser_ok H).
Qed.

(** Without a trace file the MemTier run needs the number of embeddings: it
    never completes without. *)
Lemma memtier_needs_a_size `{EL : EmbeddingLib, NP : NumPy, AA : AsArray, RG : Rng} clock a res :
  num_embeddings_given a = false → trace_file_arg (ma_trace a) = None → MemTierBag.run clock a ≠ Ok res.
Proof.
  intros Hn Ht H. unfold MemTierBag.run in H. apply bind_Ok in H as (tr & E & H).
  unfold open_batches, open_synthetic in E. rewrite Ht in E. inv_run E. simplify_eq.
  apply bind_Ok in H as (name & _ & H). unfold total_num_embeddings in H. by rewrite Hn in H.
Qed.

(** *** At concrete command lines *)

Section Witnesses.

Definition example_settings : list (setting * list str) :=
  [(Given (req "--embedding-file" TPath) (u "e.bin"), [u "--embedding-file"; u "e.bin"]);
   (Given (opt "--seed" TInt (VInt 1234)) (dec 7), [u "--seed"; dec 7]);
   (Given (req "--embedding-dim" TInt) (u " 8"), [u "--embedding-dim= 8"])].

Lemma example_spelled (p : parser) :
  parser_ok p = true → req "--embedding-file" TPath ∈ p → opt "--seed" TInt (VInt 1234) ∈ p → req "--embedding-dim" TInt ∈ p →
  Forall2 (spells p) example_settings.*1 example_settings.*2.
Proof.
  intros ok H1 H2 H3. repeat constructor.
  - eapply spells_spaced; [done|done|]. by apply plain_no_dash.
  - eapply spells_spaced; [done|done|]. by apply plain_dec.
  - by apply (spells_joined p (req "--embedding-dim" TInt) TInt None (u " 8")).
Qed.

#[local] Ltac in_parser := apply (bool_decide_unpack _); vm_compute; exact I.

Lemma runs_replay_same_trace_witness :
  let argv := concat example_settings.*2 ++ [u "--num-embeddings=" ++ dec 100] in
  (∃ ns ns', parse_args staging_parser argv = Ok ns ∧ parse_args memtier_parser argv = Ok ns' ∧
     (∀ k, k ∈ shared_keys → attr ns k = attr ns' k) ∧
     ((∀ a, Given a (u "--") ∉ example_settings.*1) →
      ∃ a a', staging_args_of (λ _, Err OSError) (λ _, Ok []) ns = Ok a ∧
        memtier_args_of (λ _, Err OSError) (λ _, true) (λ _, false) [] ns' = Ok a' ∧
        sa_trace a = ma_trace a' ∧ sa_trace_source a = ma_trace_source a' ∧ num_embeddings_given a' = true ∧
        sa_rows_per_block a = MemTierBag.rows_per_block a' ∧ CpuStaging.embedding_dim a = MemTierBag.embedding_dim a' ∧
        dtype_size_of a = MemTierBag.dtype_size a')) ∨
  (parse_args staging_parser argv = Err SystemExit ∧ parse_args memtier_parser argv = Err SystemExit).
Proof.
  apply (runs_replay_same_trace _ _ _ _ _ example_settings.*1);
    (apply example_spelled; [apply staging_parser_ok || apply memtier_parser_ok|in_parser..]).
Defined.

(** The first case is the one of this command line; a choice that is not offered
    and an option of one run only are the second. *)
Example command_lines :
  concat example_settings.*2 = [u "--embedding-file"; u "e.bin"; u "--seed"; u "7"; u "--embedding-dim= 8"] ∧
  is_ok (parse_args memtier_parser (concat example_settings.*2)) = true ∧
  parse_args memtier_parser (concat example_settings.*2 ++ [u "--mode=max"]) = Err SystemExit ∧
  parse_args staging_parser (concat example_settings.*2 ++ [u "--mode"; u "sum"]) = Err SystemExit ∧
  parse_args staging_parser (concat example_settings.*2 ++ [u "-h"]) = Err SystemExit ∧
  parse_args staging_parser (concat example_settings.*2 ++ [u "--embedding"; u "8"]) = Err SystemExit ∧
  (ns ← parse_args memtier_parser (concat example_settings.*2 ++ [u "--mode=--"]); attr ns "mode") = Ok VEmptyList.
Proof. by vm_compute. Qed.
End Witnesses.
