(* ===== verification/TorchBaseline.v ===== *)
(** The upper-bound baseline
    (memtier_embedding_bench/python/baseline_torch_embedding.py): the lookups of
    a trace by [torch.nn.EmbeddingBag] with the whole table on the GPU.

    PyTorch is an interface ([TorchBag]): its embedding bag may refuse ids
    outside its table and offsets that do not part the ids, and
    [torch_run_in_table] shows that the run never gives it any. *)

From S2P Require Import Prelude PyFloat PyText PyPath NumPy Json Argparse Namespace NdArray Workload TraceReader.
From S2P Require Import Stats LruSim Analyze Bench.

(** ** PyTorch *)

(** With [include_last_offset], bag [i] holds the ids from [offsets[i]] up to
    [offsets[i + 1]]: the offsets part the ids. *)
Definition offsets_part (offsets : list Z) (n : Z) : Prop :=
  head offsets = Some 0 ∧ last offsets = Some n ∧
  ∀ i x y, offsets !! i = Some x → offsets !! S i = Some y → x ≤ y.

Class TorchBag := {
  (** A module on the GPU. *)
  bag_module : Type;
  (** [torch.nn.EmbeddingBag(n, dim, mode=mode, include_last_offset=True,
      dtype=dtype).cuda()]; the dtype is given by the bytes of a number. *)
  embedding_bag : Z → Z → str → Z → result bag_module;
  (** [emb(ids, offsets)] for an array of int64 ids; the output is dropped. *)
  bag_forward : bag_module → ndarray → list Z → result unit;
  (** [torch.arange(start, end, step, dtype=torch.long)]. *)
  torch_arange : Z → Z → Z → result (list Z);
  embedding_bag_Ok n dim mode bytes :
    0 < n → 0 < dim → mode = u "sum" ∨ mode = u "mean" → is_ok (embedding_bag n dim mode bytes) = true;
  (** Ids of the table, in one dimension, are looked up. *)
  bag_forward_Ok n dim mode bytes e ids offsets :
    embedding_bag n dim mode bytes = Ok e → shape ids = [zlen (data ids)] →
    Forall (λ x, 0 ≤ x < n) (data ids) → offsets_part offsets (zlen (data ids)) → bag_forward e ids offsets = Ok ();
  torch_arange_pos start stop step : 0 < step → start ≤ stop → torch_arange start stop step = Ok (arange start stop step);
}.

(** ** The run *)

(** [percentile]: the same code as in baseline_cpu_staging.py. *)
Definition percentile (values : list f64) (pct : f64) : result f64 := percentile_f values pct.

(** [x.astype(np.int64)] on [uint64]. *)
Definition u64_to_i64 (x : Z) : Z := if x <? 2 ^ 63 then x else x - 2 ^ 64.

Record torch_args := {
  (** The array [np.load] reads at [args.trace]: of dtype uint64, as the tools
      of the repository write it. *)
  t_trace : option (result ndarray);
  t_num_embeddings : Z;
  t_embedding_dim : Z;
  t_rows_per_block : Z;
  t_dtype_size : Z;
  t_batch_size : Z;
  t_bag_size : Z;
  t_num_batches : Z;
  t_dist : str;
  t_zipf_alpha : f64;
  t_overlap_ratio : f64;
  t_seed : Z;
  t_mode : str;
}.

Section Run.
  Context {TB : TorchBag} {NP : NumPy} {RG : Rng}.
  (** The readings of [time.perf_counter], and [torch.cuda.is_available()]. *)
  Variable clock : Z → f64.
  Variable cuda_available : bool.

Definition torch_trace (args : torch_args) : result ndarray :=
    match t_trace args with
    | Some trace => trace
    | None =>
        rows ← generate_ids (t_num_embeddings args) (t_batch_size args) (t_bag_size args) (t_num_batches args)
                 (t_dist args) (t_zipf_alpha args) (t_overlap_ratio args) (t_seed args);
        Ok (nd_matrix (t_batch_size args * t_bag_size args) rows)
    end.

  (** [for batch in trace]: the arrays along the first axis. *)
Definition iter_array (a : ndarray) : result (list ndarray) :=
    match shape a with
    | [] => Err TypeError
    | n :: rest => Ok ((λ i, NdArray rest (py_slice (data a) (i * prod rest) ((i + 1) * prod rest))) <$> seqZ 0 n)
    end.

  (** [(batch % np.uint64(num_embeddings)).astype(np.int64)]. *)
Definition bag_ids (num_embeddings : Z) (batch : ndarray) : result ndarray :=
    n ← np_uint64 num_embeddings;
    Ok (NdArray (shape batch) ((λ x, u64_to_i64 (np_mod x n)) <$> data batch)).

  (** One batch: the latencies so far, two per reading of the clock. *)
Definition torch_step (args : torch_args) (emb : bag_module) (offsets : list Z) (latencies : list f64) (batch : ndarray)
    : result (list f64) :=
    ids ← bag_ids (t_num_embeddings args) batch;
    let start := clock (2 * zlen latencies) in
    _ ← bag_forward emb ids offsets;
    Ok (latencies ++ [elapsed_ms start (clock (2 * zlen latencies + 1))]).

Definition torch_result (args : torch_args) (trace : ndarray) (latencies : list f64) : result (list (str * json)) :=
    total_s ← fdiv (f_sum latencies) (lit 1000 1);
    nb ← shape_at trace 0;
    avg ← mean_or_zero_f latencies;
    p50 ← percentile latencies (lit 50 1);
    p95 ← percentile latencies (lit 95 1);
    size ← of_Z (zlen (data trace));
    throughput ← fdiv size (f_max total_s (lit 1 1000000000000));
    Ok [(u "system", JStr (u "torch_embedding_upper_bound")); (u "dist", JStr (t_dist args));
        (u "zipf_alpha", JFloat (t_zipf_alpha args)); (u "num_embeddings", JInt (t_num_embeddings args));
        (u "embedding_dim", JInt (t_embedding_dim args)); (u "rows_per_block", JInt (t_rows_per_block args));
        (u "batch_size", JInt (t_batch_size args)); (u "bag_size", JInt (t_bag_size args)); (u "num_batches", JInt nb);
        (u "avg_latency_ms", JFloat avg); (u "p50_latency_ms", JFloat p50); (u "p95_latency_ms", JFloat p95);
        (u "throughput_lookups_per_sec", JFloat throughput); (u "hbm_hit_rate", JFloat f_one);
        (u "dram_hit_rate", JFloat f_zero); (u "ssd_read_bytes", JInt 0); (u "dram_to_gpu_bytes", JInt 0);
        (u "posix_reads", JInt 0); (u "gds_reads", JInt 0)].

Definition run (args : torch_args) : result (list (str * json)) :=
    if negb cuda_available then Err RuntimeError else
    trace ← torch_trace args;
    emb ← embedding_bag (t_num_embeddings args) (t_embedding_dim args) (t_mode args)
            (if t_dtype_size args =? 2 then 2 else 4);
    offsets ← torch_arange 0 (t_batch_size args * t_bag_size args + 1) (t_bag_size args);
    batches ← iter_array trace;
    latencies ← foldM (torch_step args emb offsets) [] batches;
    torch_result args trace latencies.
End Run.

(** ** The command line *)

Definition torch_parser : parser :=
  [opt "--trace" TPath VNone;
   opt "--output" TPath (VPath (path_of (u "results/baselines.jsonl")));
   req "--num-embeddings" TInt;
   req "--embedding-dim" TInt;
   opt "--rows-per-block" TInt (VInt 2048);
   opt_in "--dtype-size" TInt [VInt 2; VInt 4] (VInt 2);
   opt "--batch-size" TInt (VInt 16384);
   opt "--bag-size" TInt (VInt 32);
   opt "--num-batches" TInt (VInt 1000);
   opt_in "--dist" TStr [VStr (u "uniform"); VStr (u "zipf")] (VStr (u "uniform"));
   opt "--zipf-alpha" TFloat (VFloat f_one);
   opt "--overlap-ratio" TFloat (VFloat f_zero);
   opt "--seed" TInt (VInt 1234);
   opt_in "--mode" TStr [VStr (u "sum"); VStr (u "mean")] (VStr (u "sum"))].

Definition torch_args_of (load : path → result ndarray) (ns : namespace) : result torch_args :=
  trace ← opt_attr path_attr ns "trace";
  num_embeddings ← int_attr ns "num_embeddings";
  embedding_dim ← int_attr ns "embedding_dim";
  rows_per_block ← int_attr ns "rows_per_block";
  dtype_size ← int_attr ns "dtype_size";
  batch_size ← int_attr ns "batch_size";
  bag_size ← int_attr ns "bag_size";
  num_batches ← int_attr ns "num_batches";
  dist ← str_attr ns "dist";
  zipf_alpha ← float_attr ns "zipf_alpha";
  overlap_ratio ← float_attr ns "overlap_ratio";
  seed ← int_attr ns "seed";
  mode ← str_attr ns "mode";
  Ok {| t_trace := load <$> trace; t_num_embeddings := num_embeddings; t_embedding_dim := embedding_dim;
        t_rows_per_block := rows_per_block; t_dtype_size := dtype_size; t_batch_size := batch_size;
        t_bag_size := bag_size; t_num_batches := num_batches; t_dist := dist; t_zipf_alpha := zipf_alpha;
        t_overlap_ratio := overlap_ratio; t_seed := seed; t_mode := mode |}.

Lemma torch_parser_ok : parser_ok torch_parser = true.
Proof. by vm_compute. Qed.

Lemma torch_args_total load argv ns :
  parse_args torch_parser argv = Ok ns → stores_no_list ns → ∃ args, torch_args_of load ns = Ok args.
Proof. intros H Hn. pose proof torch_parser_ok as ok. unfold torch_args_of. repeat attribute ok H Hn. eauto. Qed.

(** ** Lemmas *)

Lemma torch_result_wf args trace latencies res :
  Forall (λ f, f_wf f = true) latencies → f_wf (t_zipf_alpha args) = true → plain_text (t_dist args) →
  torch_result args trace latencies = Ok res → plain_json (JObj res).
Proof.
  intros Hw Ha Hd E. unfold torch_result, percentile in E. inv_run E. simplify_eq. apply plain_json_obj.
  split; [apply (bool_decide_unpack _); vm_compute; exact I|].
  repeat (apply Forall_cons_2; [split; [by apply plain_text_check|]; cbn [fst snd plain_json];
    first [done | by apply plain_text_check | eauto using mean_or_zero_f_wf, percentile_f_wf, fdiv_wf]|]).
  apply Forall_nil_2.
Qed.

(** The offsets of equal bags. *)
Lemma equal_bags_part b total :
  0 < b → 0 ≤ total → total `mod` b = 0 → offsets_part (arange 0 (total + 1) b) total.
Proof.
  intros Hb Ht Hm. pose proof (Z.div_mod total b ltac:(lia)) as Hd. rewrite Hm in Hd. set (q := total `div` b) in *.
  assert (0 ≤ q) as Hq by (unfold q; by apply Z.div_pos; lia).
  assert (cdiv (total + 1 - 0) b = q + 1) as Hc by (apply cdiv_unique; [done|lia]).
  pose proof (seqZ_snoc q Hq) as Es. unfold Z.succ in Es.
  unfold offsets_part, arange. rewrite Hc. split_and!.
  - rewrite seqZ_cons by lia. cbn. f_equal; lia.
  - rewrite Es, fmap_app, last_app. cbn. f_equal; lia.
  - intros i x y Hx Hy. rewrite list_lookup_fmap in Hx, Hy.
    apply fmap_Some in Hx as (k & [-> _]%lookup_seqZ & ->), Hy as (k' & [-> _]%lookup_seqZ & ->). lia.
Qed.

(** The batches of a trace of equal rows. *)
Lemma iter_array_Ok a n w :
  nd_wf a → shape a = [n; w] → all_u64 (data a) →
  ∃ batches, iter_array a = Ok batches ∧ zlen batches = n ∧
    Forall (λ b, shape b = [w] ∧ zlen (data b) = w ∧ all_u64 (data b)) batches.
Proof.
  intros [Hp Hl] Es Hu. rewrite Es in Hp, Hl. cbn [prod foldr] in Hl.
  apply Forall_cons in Hp as [Hn [Hw _]%Forall_cons]. unfold iter_array. rewrite Es. eexists. split; [reflexivity|].
  split; [rewrite length_fmap, length_seqZ; lia|]. apply Forall_fmap, Forall_forall. intros i Hi%elem_of_seqZ.
  unfold compose. cbn [shape data prod foldr]. rewrite Z.mul_1_r. split; [done|]. split; [rewrite length_py_slice by nia; nia|].
  apply Forall_forall. intros x Hx%py_slice_elem. unfold all_u64 in Hu. rewrite Forall_forall in Hu. by apply Hu.
Qed.

Section Runs.
Context {TB : TorchBag} {NP : NumPy} {RG : Rng}.
Variable clock : Z → f64.

(** What a run needs: a table, bags of at least one id, and a trace of batches
    of [batch_size * bag_size] ids, recorded or generated. *)
Record valid_torch (args : torch_args) (n : Z) : Prop := {
  vt_table : 0 < t_num_embeddings args ≤ 2 ^ 63;
  vt_dim : 0 < t_embedding_dim args;
  vt_mode : t_mode args = u "sum" ∨ t_mode args = u "mean";
  vt_bag : 0 < t_bag_size args;
  vt_batch : 0 ≤ t_batch_size args * t_bag_size args;
  vt_count : n * (t_batch_size args * t_bag_size args) < two53;
  vt_n : 0 ≤ n < two53;
  vt_trace : match t_trace args with
             | Some trace => ∃ a, trace = Ok a ∧ nd_wf a ∧ shape a = [n; t_batch_size args * t_bag_size args] ∧ all_u64 (data a)
             | None => n = t_num_batches args ∧ 0 ≤ t_seed args ∧ t_batch_size args * t_bag_size args ≤ two53 ∧
                 dist_defined (t_dist args) (t_num_embeddings args) (t_zipf_alpha args) ∧
                 f_wf (t_overlap_ratio args) = true ∧ fle f_zero (t_overlap_ratio args) && flt (t_overlap_ratio args) f_one = true
             end;
}.

Lemma torch_trace_Ok args n :
  valid_torch args n →
  ∃ a, torch_trace args = Ok a ∧ nd_wf a ∧ shape a = [n; t_batch_size args * t_bag_size args] ∧ all_u64 (data a).
Proof.
  intros V. pose proof (vt_trace _ _ V) as Ht. unfold torch_trace. destruct (t_trace args) as [trace|].
  { destruct Ht as (a & -> & H). by exists a. }
  destruct Ht as (-> & Hs & Ht & Hd & Hr & Hr'). pose proof (vt_table _ _ V). pose proof (vt_batch _ _ V). pose proof (vt_n _ _ V).
  destruct (generate_ids_shape (t_num_embeddings args) (t_batch_size args) (t_bag_size args) (t_num_batches args)
    (t_dist args) (t_zipf_alpha args) (t_overlap_ratio args) (t_seed args)) as (rows & ov & E & _ & _ & Hn & HF & _);
    [done|lia|lia|done|lia|done|done|].
  rewrite E. cbn [mbind result_bind]. eexists. split; [reflexivity|].
  assert (rectangular (t_batch_size args * t_bag_size args) rows) as Hrect by (refine (Forall_impl _ _ _ HF _); by intros r [? _]).
  split_and!; [by apply nd_matrix_wf; [lia|]|cbn; by rewrite Hn|]. apply Forall_concat. refine (Forall_impl _ _ _ HF _).
  intros r [_ Hb]. refine (Forall_impl _ _ _ Hb _). unfold in_width. intros; lia.
Qed.

Lemma bag_ids_Ok args n b :
  valid_torch args n → all_u64 (data b) →
  ∃ l, bag_ids (t_num_embeddings args) b = Ok (NdArray (shape b) l) ∧ zlen l = zlen (data b) ∧
    Forall (λ x, 0 ≤ x < t_num_embeddings args) l.
Proof.
  intros V Hu. pose proof (vt_table _ _ V) as Ht. unfold bag_ids. rewrite np_uint64_small by (unfold in_width; lia).
  eexists. split; [reflexivity|]. split; [by rewrite length_fmap|]. apply Forall_fmap. refine (Forall_impl _ _ _ Hu _).
  intros x Hx. unfold compose. rewrite np_mod_pos by (done || lia).
  pose proof (Z.mod_pos_bound x (t_num_embeddings args)). unfold u64_to_i64.
  destruct (Z.ltb_spec (x `mod` t_num_embeddings args) (2 ^ 63)); lia.
Qed.

(** The upper-bound run only looks up ids of its table. On a trace of full
    batches of 64-bit ids, recorded or generated, with any embedding bag, also
    one that refuses ids outside the table and offsets that do not part the
    ids, the run never fails: every id is reduced into the table, the bags part
    every batch, and the result reports the number of batches of the trace. *)
Lemma torch_run_in_table args n :
  valid_torch args n → ∃ res, run clock true args = Ok res ∧ dict_get res (u "num_batches") = Some (JInt n).
Proof.
  intros V. destruct (torch_trace_Ok args n V) as (a & Ea & Wa & Sa & Ua). unfold run. cbn [negb]. rewrite Ea. cbn [mbind result_bind].
  pose proof (embedding_bag_Ok (t_num_embeddings args) (t_embedding_dim args) (t_mode args) (if t_dtype_size args =? 2 then 2 else 4))
    as He. specialize (He ltac:(pose proof (vt_table _ _ V); lia) (vt_dim _ _ V) (vt_mode _ _ V)).
  destruct (embedding_bag _ _ _ _) as [e|] eqn:Ee; [|done]. cbn [mbind result_bind].
  pose proof (vt_bag _ _ V) as Hb. pose proof (vt_batch _ _ V) as Ht. set (total := t_batch_size args * t_bag_size args) in *.
  rewrite torch_arange_pos by lia. cbn [mbind result_bind].
  destruct (iter_array_Ok a n total Wa Sa Ua) as (batches & -> & Hn & HF). cbn [mbind result_bind].
  destruct (foldM_count_total (λ k lat, zlen lat = k ∧ Forall (λ f, f_wf f = true) lat)
    (λ b, shape b = [total] ∧ zlen (data b) = total ∧ all_u64 (data b))
    (torch_step clock args e (arange 0 (total + 1) (t_bag_size args))) 0 [] batches) as (lat & -> & Hlat & Hw); [|done|by split|]; [|rewrite Z.add_0_l, Hn in Hlat].
  - intros k st b (Sb & Lb & Ub) [Hk Hw]. destruct (bag_ids_Ok args n b V Ub) as (l & El & Ll & Rl).
    unfold torch_step. rewrite El. cbn [mbind result_bind].
    rewrite (bag_forward_Ok _ _ _ _ _ _ _ Ee); [|cbn; rewrite Sb, Ll; by f_equal|done|].
    + cbn [mbind result_bind]. eexists. split; [reflexivity|]. split; [rewrite length_app; cbn; lia|].
      apply Forall_app_2; [done|]. constructor; [apply elapsed_ms_wf|constructor].
    + cbn [data]. rewrite Ll, Lb. apply equal_bags_part; [done|done|]. unfold total. apply Z.mod_mul. lia.
  - cbn [mbind result_bind].
    destruct (summarize_latencies_Ok lat (zlen (data a)) Hw) as (s & Es).
    + pose proof (vt_n _ _ V). lia.
    + destruct Wa as [_ Hl]. rewrite Sa in Hl. cbn [prod foldr] in Hl. pose proof (vt_count _ _ V). pose proof (vt_n _ _ V).
      subst total. nia.
    + unfold summarize_latencies in Es. inv_run Es. unfold torch_result, percentile.
      eexists. split.
      * run_step ltac:(eassumption). run_step ltac:(unfold shape_at; rewrite Sa; reflexivity). run_step ltac:(eassumption).
        run_step ltac:(eassumption). run_step ltac:(eassumption). run_step ltac:(eassumption). run_step ltac:(eassumption). reflexivity.
      * reflexivity.
Qed.
End Runs.

(** ** A strict embedding bag *)

Fixpoint ascending (l : list Z) : bool :=
  match l with
  | x :: l' => match l' with y :: _ => x <=? y | [] => true end && ascending l'
  | [] => true
  end.

Lemma ascending_ok l : (∀ i x y, l !! i = Some x → l !! S i = Some y → x ≤ y) → ascending l = true.
Proof.
  induction l as [|x [|y l] IH]; intros H; [done..|]. change (ascending (x :: y :: l)) with ((x <=? y) && ascending (y :: l)). apply andb_true_iff. split.
  - apply Z.leb_le. by apply (H 0%nat).
  - apply IH. intros i a b Ha Hb. by apply (H (S i)).
Qed.

(** Refuses everything that [TorchBag] does not oblige it to accept. *)
Definition strict_forward (n : Z) (ids : ndarray) (offsets : list Z) : result unit :=
  if bool_decide (shape ids = [zlen (data ids)]) && bool_decide (Forall (λ x, 0 ≤ x < n) (data ids)) &&
     bool_decide (head offsets = Some 0) && bool_decide (last offsets = Some (zlen (data ids))) && ascending offsets
  then Ok () else Err RuntimeError.

#[program] Definition strict_torch : TorchBag := {|
  bag_module := Z;
  embedding_bag n dim mode bytes := if (0 <? n) && (0 <? dim) then Ok n else Err RuntimeError;
  bag_forward := strict_forward;
  torch_arange start stop step :=
    if (0 <? step) && (start <=? stop) then Ok (arange start stop step) else Err RuntimeError;
|}.
Next Obligation. intros n dim mode bytes Hn Hd _. cbv beta. by rewrite (proj2 (andb_true_iff _ _)) by lia. Qed.
Next Obligation.
  intros n dim mode bytes e ids offsets He Hs Hr (Hh & Hl & Ha). cbv beta in He. case_match; [|done]. injection He as <-.
  unfold strict_forward. rewrite !bool_decide_eq_true_2 by done. by rewrite (ascending_ok _ Ha).
Qed.
Next Obligation. intros start stop step Hs Hle. cbv beta. by rewrite (proj2 (andb_true_iff _ _)) by lia. Qed.

(** Two recorded batches of two bags of two ids, the ids beyond a table of five. *)
Definition example_args (trace : option (result ndarray)) : torch_args :=
  {| t_trace := trace; t_num_embeddings := 5; t_embedding_dim := 8; t_rows_per_block := 2048; t_dtype_size := 2;
     t_batch_size := 2; t_bag_size := 2; t_num_batches := 1000; t_dist := u "uniform"; t_zipf_alpha := f_one;
     t_overlap_ratio := f_zero; t_seed := 1234; t_mode := u "sum" |}.

Definition example_recorded : torch_args := example_args (Some (Ok (nd_matrix 4 [[0; 4; 5; 9]; [3; 3; 2 ^ 64 - 1; 7]]))).

Lemma torch_run_in_table_witness :
  ∃ res, run (TB := strict_torch) (NP := reference_numpy) (RG := reference_rng) (λ k, lit k 1000) true example_recorded = Ok res ∧
    dict_get res (u "num_batches") = Some (JInt 2).
Proof.
  apply torch_run_in_table. split; cbn; try lia; try by left.
  - unfold two53. lia.
  - unfold two53. lia.
  - eexists. split; [reflexivity|]. split; [|split; [done|]].
    + split; [repeat constructor; lia|done].
    + repeat constructor; lia.
Defined.

(** Bags that do not part the batches are refused. *)
Example torch_run_wrong_bags :
  run (TB := strict_torch) (NP := reference_numpy) (RG := reference_rng) (λ k, lit k 1000) true
    (example_args (Some (Ok (nd_matrix 3 [[0; 1; 2]])))) = Err RuntimeError.
Proof. by vm_compute. Qed.
