(* ===== verification/LoaderBench.v ===== *)
(** The DataLoader benchmark as a program: the table of results of
    memtier_pytorch/memtier/benchmark.py and the command line of
    memtier_pytorch/examples/run_memtier_dataloader.py.

    [loader_main] goes from the words of the command line and the bytes at the
    path to the lines printed; the reports come from file FileDataset, the
    table it writes when it has to from file EmbFile. *)

From S2P Require Import Prelude PyFloat PyText FloatRepr PyPath NumPy Json Argparse Namespace Posix Uvm EmbFile FileDataset.

(** ** [format(x, ".3f")] *)

(** The digits of [n / 10^p] with [p] decimals. *)
Definition fixed_digits (p n : Z) : str :=
  let frac := dec_nonneg (n `mod` 10 ^ p) in
  dec_nonneg (n `div` 10 ^ p) ++ u "." ++ zeros (p - zlen frac) ++ frac.

(** The exact value, rounded once to [p] decimals, ties to even. *)
Definition format_fixed (p : Z) (f : f64) : str :=
  match f with
  | NaN => u "nan"
  | Inf neg => minus_sign neg ++ u "inf"
  | Fin neg m e => minus_sign neg ++ fixed_digits p (div_rne (shl m e * 10 ^ p) (shl 1 (- e)))
  end.

Example format_fixed_examples :
  format_fixed 3 (lit 3 2) = u "1.500" ∧ format_fixed 3 (lit (-1) 80000) = u "-0.000" ∧
  format_fixed 3 (lit 1 16) = u "0.062" ∧ format_fixed 3 (lit 1234567 1000) = u "1234.567" ∧
  format_fixed 2 (lit 999 1000) = u "1.00".
Proof. by vm_compute. Qed.

(** ** The table *)

(** [BenchmarkResult.as_dict]. *)
Definition as_dict (r : benchmark_result) : json :=
  JObj [(u "name", JStr (name r)); (u "num_batches", JInt (num_batches r)); (u "total_bytes", JInt (total_bytes r));
        (u "total_s", JFloat (total_s r)); (u "end_to_end_batch_ms", JFloat (end_to_end_batch_ms r));
        (u "effective_gb_s", JFloat (effective_gb_s r)); (u "file_read_ms", JFloat (file_read_ms r));
        (u "prefetch_ms", JFloat (prefetch_ms r)); (u "gpu_touch_ms", JFloat (gpu_touch_ms r));
        (u "extension_stats",
         JObj (match extension_stats r with
               | Some stats => (λ kv, (kv.1, JInt kv.2)) <$> get_stats stats
               | None => []
               end))].

Definition table_header : str :=
  u "| path | batches | total GiB | batch ms | eff GB/s | file ms | prefetch ms | gpu touch ms |" ++ [10] ++
  u "|---|---:|---:|---:|---:|---:|---:|---:|".

Definition table_line (item : benchmark_result) : result str :=
  gib ← truediv (total_bytes item) (1024 ^ 3);
  Ok (u "| " ++ name item ++ u " | " ++ dec (num_batches item) ++ u " | " ++ format_fixed 3 gib ++ u " | " ++
      format_fixed 3 (end_to_end_batch_ms item) ++ u " | " ++ format_fixed 3 (effective_gb_s item) ++ u " | " ++
      format_fixed 3 (file_read_ms item) ++ u " | " ++ format_fixed 3 (prefetch_ms item) ++ u " | " ++
      format_fixed 3 (gpu_touch_ms item) ++ u " |").

Definition format_results (results : list benchmark_result) : result str :=
  lines ← mapM table_line results; Ok (join [10] (table_header :: lines)).

(** ** The program *)

Definition loader_parser : parser :=
  [opt "--path" TStr (VStr (u "/tmp/emb.bin"));
   opt "--rows" TInt (VInt 1000000);
   opt "--dim" TInt (VInt 768);
   opt "--batch-rows" TInt (VInt 4096);
   opt "--device" TInt (VInt 0);
   opt "--num-workers" TInt (VInt 0)].

(** What [ensure_binary_file] prints when it has to write the file. *)
Definition generating_lines (path_text : str) (existing : option (list Z)) (rows dim : Z) : result (list str) :=
  let expected_bytes := rows * dim * 4 in
  if bool_decide ((λ file, zlen file) <$> existing = Some expected_bytes) then Ok []
  else
    gib ← truediv expected_bytes (1024 ^ 3);
    Ok [u "Generating " ++ path_text ++ u " with shape [" ++ dec rows ++ u ", " ++ dec dim ++ u "] (" ++
        format_fixed 2 gib ++ u " GiB)"].

(** The counters of a result, after an empty line. *)
Definition stats_lines (r : benchmark_result) : list str :=
  match extension_stats r with
  | Some stats => [] :: (name r ++ u " extension stats:") :: ((λ kv, u "  " ++ kv.1 ++ u ": " ++ dec kv.2) <$> get_stats stats)
  | None => []
  end.

Section Main.
  Context {MM : Memmap} {CU : Cuda}.
  (** The system once the path holds these bytes, what it holds before, the
      clock, whether the extension is built, and the fuel of one read. *)
  Variable posix_with : list Z → Posix.
  Variable existing : path → option (list Z).
  Variable clock : Z → f64.
  Variable extension_built : bool.
  Variable fuel : nat.

(** The lines printed, and the results. *)
Definition loader_main (argv : list str) : UM (list benchmark_result * list str) :=
    ns ← lift (parse_args loader_parser argv);
    path_text ← lift (str_attr ns "path");
    rows ← lift (int_attr ns "rows");
    dim ← lift (int_attr ns "dim");
    batch_rows ← lift (int_attr ns "batch_rows");
    device ← lift (int_attr ns "device");
    let path := path_of path_text in
    generating ← lift (generating_lines (path_str path) (existing path) rows dim);
    file ← lift (ensure_binary_file (existing path) rows dim);
    results ← run_all (PX := posix_with file) extension_built fuel clock (path_str path) rows dim batch_rows device;
    table ← lift (format_results results);
    mret (results, generating ++ [table] ++ concat (stats_lines <$> results)).
End Main.

(** ** Lemmas *)

Lemma loader_parser_ok : parser_ok loader_parser = true.
Proof. by vm_compute. Qed.

Lemma digits_value_frac p n : 0 ≤ n < 10 ^ p → 0 ≤ p → digits_value (zeros (p - zlen (dec_nonneg n)) ++ dec_nonneg n) = n.
Proof. intros Hn Hp. rewrite digits_value_app, digits_value_zeros, digits_value_dec; lia. Qed.

(** The printed decimal: integer digits, a point and [p] digits, that denote
    the multiple of [10^-p] nearest to the float. *)
Lemma format_fixed_nearest p s m e (f := Fin s m e) :
  0 < p → canonical m e = true →
  ∃ ip fp, format_fixed p f = minus_sign s ++ ip ++ u "." ++ fp ∧
    2 * Z.abs (digits_value (ip ++ fp) * fden f - Z.abs (fnum f) * 10 ^ p) ≤ fden f.
Proof.
  intros Hp Hc. apply canonical_spec in Hc as (Hm & _). cbn [format_fixed f]. set (n := div_rne _ _).
  pose proof (Z.pow_pos_nonneg 10 p ltac:(lia) ltac:(lia)) as Hpp.
  assert (0 < shl 1 (- e)) as Hd by (apply shl_pos; lia). assert (0 ≤ shl m e) as Hs by (apply shl_nonneg; lia).
  destruct (div_rne_spec (shl m e * 10 ^ p) (shl 1 (- e)) Hd) as [R _]. fold n in R.
  assert (0 ≤ n) as Hn by nia. unfold fixed_digits. eexists _, _. split; [reflexivity|].
  pose proof (Z.mod_pos_bound n (10 ^ p) Hpp) as Hr. pose proof (Z.div_mod n (10 ^ p) ltac:(lia)) as Hdm.
  assert (zlen (dec_nonneg (n `mod` 10 ^ p)) ≤ p) as Hlen.
  { destruct (Z.eq_dec (n `mod` 10 ^ p) 0) as [->|H0]; [cbn; lia|].
    destruct (dec_length (n `mod` 10 ^ p)) as (_ & L & _); [lia|].
    destruct (Z.le_gt_cases (zlen (dec_nonneg (n `mod` 10 ^ p))) p) as [|Hgt]; [done|].
    assert (10 ^ p ≤ 10 ^ (zlen (dec_nonneg (n `mod` 10 ^ p)) - 1)) by (apply Z.pow_le_mono_r; lia). lia. }
  rewrite digits_value_app, digits_value_frac, digits_value_dec by (try apply Z.div_pos; lia).
  rewrite length_app, Nat2Z.inj_add, zeros_length by lia. rewrite Z.sub_add.
  replace (n `div` 10 ^ p * 10 ^ p + n `mod` 10 ^ p) with n by lia. subst f. cbn [fnum fden].
  assert (Z.abs (sgn_apply s (shl m e)) = shl m e) as -> by (unfold sgn_apply; destruct s; lia). lia.
Qed.

Lemma table_line_Ok r : 0 ≤ total_bytes r < 2 ^ 64 → ∃ t, table_line r = Ok t.
Proof.
  intros Hb. unfold table_line. destruct (truediv_bounded (total_bytes r) (1024 ^ 3)) as (g & -> & _);
    [lia|done|unfold two53; lia|]. by eexists.
Qed.

Lemma generating_lines_Ok text existing rows dim : 0 ≤ rows * dim * 4 < 2 ^ 64 → ∃ l, generating_lines text existing rows dim = Ok l.
Proof.
  intros Hb. unfold generating_lines. case_match; [by eexists|].
  destruct (truediv_bounded (rows * dim * 4) (1024 ^ 3)) as (g & -> & _); [lia|done|unfold two53; lia|]. by eexists.
Qed.

Section Program.
Context {MM : Memmap} {CU : Cuda}.
Variable posix_with : list Z → Posix.
Variable existing : path → option (list Z).
Variable clock : Z → f64.
Variables (B fuel : nat).

(** The three paths of the DataLoader benchmark move the same data. For
    positive sizes on a device that works, whatever is at the path before, the
    program writes a table of the right size when there is none, returns, and
    reports three runs, baseline, without and with prefetch, of
    ceil(rows / batch_rows) batches and rows * dim * 4 bytes each; the counters
    of the two managed runs say that all these bytes were read from the file,
    and that every batch was prefetched in the last run and none in the other;
    no managed allocation is left. *)
Lemma loader_paths_agree argv ns path_text rows dim batch_rows device s :
  parse_args loader_parser argv = Ok ns →
  str_attr ns "path" = Ok path_text → int_attr ns "rows" = Ok rows → int_attr ns "dim" = Ok dim →
  int_attr ns "batch_rows" = Ok batch_rows → int_attr ns "device" = Ok device → 0 < rows → 0 < dim →
  (∀ file policy, zlen file = rows * dim * 4 → policy ∈ POLICIES →
     uvm_ready (PX := posix_with file) B fuel (path_str (path_of path_text)) file rows dim batch_rows device policy) →
  g_alloc_sizes s = ∅ → cuda_live s = ∅ →
  ∃ a b c lines s' sb sc, loader_main posix_with existing clock true fuel argv s = Some (Ok ([a; b; c], lines), s') ∧
    name a = u "baseline" ∧ name b = u "uvm_none" ∧ name c = u "uvm_prefetch" ∧
    Forall (λ r, num_batches r = cdiv rows batch_rows ∧ total_bytes r = rows * dim * 4) [a; b; c] ∧
    extension_stats a = None ∧ extension_stats b = Some sb ∧ extension_stats c = Some sc ∧
    sb file_read_bytes = rows * dim * 4 ∧ sc file_read_bytes = rows * dim * 4 ∧
    sb num_prefetch_gpu = 0 ∧ sc num_prefetch_gpu = cdiv rows batch_rows ∧ g_alloc_sizes s' = ∅ ∧ cuda_live s' = ∅.
Proof.
  intros Hp Ept Er Ed Eb Edv Hr Hd Hready Hs Hl. set (pth := path_of path_text) in *.
  destruct (ensured_file_complete (existing pth) rows dim Hr Hd) as (file & Ef & Hlen & _).
  assert (u "none" ∈ POLICIES ∧ u "gpu" ∈ POLICIES) as [Pn Pg] by (unfold POLICIES; set_solver).
  pose proof (Hready file (u "none") Hlen Pn) as Rn. pose proof (Hready file (u "gpu") Hlen Pg) as Rg.
  pose proof Rg as [R1 R2 R3 R4 R5 R6 R7 R8 R9 R10 R11].
  destruct (run_baseline_Ok (PX := posix_with file) (path_str pth) file rows dim batch_rows device (clock 0) (clock 1))
    as (a & Ea & Na & Ba & Ta & Xa); [done..|by apply cw_device|].
  destruct (run_uvm_Ok (PX := posix_with file) B fuel (path_str pth) file rows dim batch_rows device (u "none") (clock 2) (clock 3) s Rn Hs Hl)
    as (b & s1 & sb & E1 & Nb & Bb & Tb & Xb & Fb & _ & Pb & _ & Hs1 & Hl1).
  destruct (run_uvm_Ok (PX := posix_with file) B fuel (path_str pth) file rows dim batch_rows device (u "gpu") (clock 4) (clock 5) s1 Rg Hs1 Hl1)
    as (c & s2 & sc & E2 & Nc & Bc & Tc & Xc & Fc & _ & Pc & _ & Hs2 & Hl2).
  assert (0 ≤ rows * dim * 4 < 2 ^ 64) as Hbytes by (split; [nia|done]).
  destruct (table_line_Ok a) as (la & Ela); [by rewrite Ta|]. destruct (table_line_Ok b) as (lb & Elb); [by rewrite Tb|].
  destruct (table_line_Ok c) as (lc & Elc); [by rewrite Tc|].
  destruct (generating_lines_Ok (path_str pth) (existing pth) rows dim Hbytes) as (gl & Egl).
  exists a, b, c, (gl ++ [join [10] [table_header; la; lb; lc]] ++ concat (stats_lines <$> [a; b; c])), s2, sb, sc.
  split.
  - unfold loader_main, lift. sm_run ltac:(rewrite Hp; reflexivity). sm_run ltac:(rewrite Ept; reflexivity).
    sm_run ltac:(rewrite Er; reflexivity). sm_run ltac:(rewrite Ed; reflexivity). sm_run ltac:(rewrite Eb; reflexivity).
    sm_run ltac:(rewrite Edv; reflexivity). fold pth. sm_run ltac:(rewrite Egl; reflexivity). sm_run ltac:(rewrite Ef; reflexivity).
    sm_run ltac:(unfold run_all, lift; sm_run ltac:(rewrite Ea; reflexivity); sm_run ltac:(exact E1); sm_run ltac:(exact E2); reflexivity).
    sm_run ltac:(unfold format_results; cbn [mapM]; rewrite Ela, Elb, Elc; reflexivity). reflexivity.
  - split_and!; try done. by repeat (apply Forall_cons_2; [done|]).
Qed.
End Program.

(** ** A run on a concrete system *)

Section Witness.
#[local] Existing Instance reference_cuda.
#[local] Existing Instance reference_memmap.

Definition example_argv : list str := [u "--rows"; u "5"; u "--dim=2"; u "--batch-rows"; u "2"; u "--path"; u "emb.bin"].
Definition example_ns : namespace := match parse_args loader_parser example_argv with Ok ns => ns | Err _ => [] end.
Definition one_file (file : list Z) : Posix := reference_posix_on (λ _, Some file).

(** Nothing is at the path: the table is written first. *)
Lemma loader_paths_agree_witness :
  ∃ a b c lines s' sb sc,
    loader_main one_file (λ _, None) (λ k, lit k 1) true 100 example_argv uvm_start = Some (Ok ([a; b; c], lines), s') ∧
    name a = u "baseline" ∧ name b = u "uvm_none" ∧ name c = u "uvm_prefetch" ∧
    Forall (λ r, num_batches r = cdiv 5 2 ∧ total_bytes r = 5 * 2 * 4) [a; b; c] ∧
    extension_stats a = None ∧ extension_stats b = Some sb ∧ extension_stats c = Some sc ∧
    sb file_read_bytes = 5 * 2 * 4 ∧ sc file_read_bytes = 5 * 2 * 4 ∧
    sb num_prefetch_gpu = 0 ∧ sc num_prefetch_gpu = cdiv 5 2 ∧ g_alloc_sizes s' = ∅ ∧ cuda_live s' = ∅.
Proof.
  apply (loader_paths_agree one_file (λ _, None) (λ k, lit k 1) 2 100 example_argv example_ns (u "emb.bin") 5 2 2 0 uvm_start);
    try (vm_compute; reflexivity).
  intros file policy Hl Hp. split; try done; try (unfold two53; lia).
  - apply reference_reliable_on.
Defined.
End Witness.
