(* ===== verification/ToolsCli.v ===== *)
(** The command lines of the scripts
    (memtier_embedding_bench/scripts: analyze_trace.py, preprocess_criteo_trace.py,
    convert_dlrm_trace.py, generate_embedding_file.py): their parsers and their
    [main], from the words of the command line to what is written.

    The environment gives what a path holds when it is read as a trace, as the
    input of the conversion or as decoded lines. *)

From S2P Require Import Prelude PyFloat PyText PyPath NumPy Json Argparse Namespace NdArray Criteo Workload TraceReader.
From S2P Require Import SyntheticTrace Stats LruSim Analyze Bench CpuStaging RuntimeLib MemTierBag BenchCli.
From S2P Require Import EmbFile DlrmConvert Preprocess.

(** [2048 * 128 * 2], the default of [--block-bytes]. *)
Definition default_block_bytes : Z := 2048 * 128 * 2.

(** ** analyze_trace.py *)

Definition analyze_parser : parser :=
  [req "--trace-file" TPath;
   req "--rows-per-block" TInt;
   opt "--output-json" TPath VNone;
   opt "--output-csv" TPath VNone;
   opt "--topk" TInt (VInt 100);
   opt "--block-bytes" TInt (VInt default_block_bytes)].

(** The statistics printed, where they are written as JSON, and the CSV file. *)
Record analyze_output := {
  ao_stats : stats;
  ao_json : option path;
  ao_csv : option (path * list (str * Z * Z * Z));
}.

Section Analyze.
  Context {NP : NumPy} {AA : AsArray} {PS : PySet}.
  Variable polyfit_loglog : list Z → f64.
  Variable read_trace : path → result trace_file.

Definition analyze_main (argv : list str) : result analyze_output :=
    ns ← parse_args analyze_parser argv;
    trace_file ← path_attr ns "trace_file";
    rows_per_block ← int_attr ns "rows_per_block";
    topk ← int_attr ns "topk";
    block_bytes ← int_attr ns "block_bytes";
    file ← read_trace trace_file;
    stats ← analyze_trace_file polyfit_loglog file (path_str trace_file) (path_stem trace_file) rows_per_block topk block_bytes;
    output_json ← opt_attr path_attr ns "output_json";
    output_csv ← opt_attr path_attr ns "output_csv";
    Ok {| ao_stats := stats; ao_json := output_json; ao_csv := (λ p, (p, write_csv stats)) <$> output_csv |}.
End Analyze.

(** ** preprocess_criteo_trace.py *)

Definition preprocess_parser : parser :=
  [opt "--input" TPath VNone;
   opt "--input-glob" TStr VNone;
   req "--output" TPath;
   opt "--max-samples" TInt VNone;
   opt "--num-fields" TInt (VInt 26);
   opt "--batch-size" TInt (VInt 16384);
   opt "--bag-size" TInt (VInt 26);
   req "--hash-size" TStr;
   opt_in "--global-id-mode" TStr [VStr (u "per_field_offset"); VStr (u "shared_hash")] (VStr (u "per_field_offset"));
   req "--rows-per-block" TInt;
   flag "--drop-empty";
   toggle "--save-ids" true;
   toggle "--save-blocks" true;
   opt_in "--dtype" TStr [VStr (u "uint64"); VStr (u "uint32")] (VStr (u "uint64"));
   opt "--seed" TInt (VInt 0);
   opt "--topk" TInt (VInt 100);
   opt "--stats-dir" TPath VNone;
   opt "--block-bytes" TInt (VInt default_block_bytes);
   opt "--progress-interval" TInt (VInt 1000000)].

(** [args.stats_dir or (ROOT / "results" / "trace_stats")], and the two files
    named after the output. *)
Definition path_join (p : path) (name : str) : path :=
  {| path_root := path_root p; path_parts := path_parts p ++ path_parts (path_of name) |}.
Definition stats_dir_or (root : path) (stats_dir : option path) : path :=
  default (path_join (path_join root (u "results")) (u "trace_stats")) stats_dir.
Definition stats_files (dir output : path) : path * path :=
  (path_join dir (path_stem output ++ u ".json"), path_join dir (path_stem output ++ u ".csv")).

Section Preprocess.
  Context {NP : NumPy} {AA : AsArray} {PS : PySet}.
  Variable polyfit_loglog : list Z → f64.
  Variable glob : str → list str.
  Variable open_lines : str → result (list str).
  Variable read_trace : path → result trace_file.
  (** [ROOT], the directory of the benchmark. *)
  Variable root : path.

Definition preprocess_args_of (ns : namespace) : result preprocess_args :=
    single ← opt_attr path_attr ns "input";
    pattern ← opt_attr str_attr ns "input_glob";
    output ← path_attr ns "output";
    max_samples ← opt_attr int_attr ns "max_samples";
    num_fields ← int_attr ns "num_fields";
    batch_size ← int_attr ns "batch_size";
    bag_size ← int_attr ns "bag_size";
    hash_size ← str_attr ns "hash_size";
    global_id_mode ← str_attr ns "global_id_mode";
    rows_per_block ← int_attr ns "rows_per_block";
    drop_empty ← bool_attr ns "drop_empty";
    save_ids ← bool_attr ns "save_ids";
    save_blocks ← bool_attr ns "save_blocks";
    dtype ← str_attr ns "dtype";
    seed ← int_attr ns "seed";
    topk ← int_attr ns "topk";
    block_bytes ← int_attr ns "block_bytes";
    Ok {| input := path_str <$> single; input_glob := pattern; pp_output_path := path_str output;
          pp_output_stem := path_stem output; pp_output_suffix := path_suffix output;
          pp_output_before := read_trace output; pp_max_samples := max_samples;
          Preprocess.num_fields := num_fields; pp_batch_size := batch_size; pp_bag_size := bag_size;
          pp_hash_size := hash_size; Preprocess.global_id_mode := global_id_mode;
          pp_rows_per_block := rows_per_block; Preprocess.drop_empty := drop_empty;
          Preprocess.save_ids := save_ids; Preprocess.save_blocks := save_blocks; Preprocess.dtype := dtype;
          pp_seed := seed; pp_topk := topk; pp_block_bytes := block_bytes |}.

(** The run, and where its statistics go. *)
Definition preprocess_main (argv : list str) : result (preprocessed * (path * path)) :=
    ns ← parse_args preprocess_parser argv;
    args ← preprocess_args_of ns;
    out ← preprocess polyfit_loglog glob open_lines args;
    output ← path_attr ns "output";
    stats_dir ← opt_attr path_attr ns "stats_dir";
    Ok (out, stats_files (stats_dir_or root stats_dir) output).
End Preprocess.

(** ** convert_dlrm_trace.py *)

Definition convert_parser : parser :=
  [req "--input" TPath;
   opt_in "--input-format" TStr [VStr (u "npy"); VStr (u "npz"); VStr (u "jsonl"); VStr (u "auto")] (VStr (u "auto"));
   req "--output" TPath;
   req "--rows-per-block" TInt;
   opt "--num-embeddings" TInt VNone;
   opt "--batch-size" TInt (VInt 16384);
   opt_in "--field-offset-mode" TStr [VStr (u "per_field_offset"); VStr (u "shared_hash"); VStr (u "direct")] (VStr (u "direct"));
   opt "--hash-size" TStr VNone;
   opt "--max-samples" TInt VNone;
   opt "--topk" TInt (VInt 100);
   opt "--stats-dir" TPath VNone;
   opt "--block-bytes" TInt (VInt default_block_bytes)].

Section Convert.
  Context {NP : NumPy} {AA : AsArray} {PS : PySet}.
  Variable polyfit_loglog : list Z → f64.
  Variable read_trace : path → result trace_file.
  Variable read_sparse : path → sparse_input.
  Variable root : path.

Definition convert_args_of (ns : namespace) : result (sparse_input * convert_args) :=
    input ← path_attr ns "input";
    input_format ← str_attr ns "input_format";
    output ← path_attr ns "output";
    rows_per_block ← int_attr ns "rows_per_block";
    num_embeddings ← opt_attr int_attr ns "num_embeddings";
    batch_size ← int_attr ns "batch_size";
    field_offset_mode ← str_attr ns "field_offset_mode";
    hash_size ← opt_attr str_attr ns "hash_size";
    max_samples ← opt_attr int_attr ns "max_samples";
    topk ← int_attr ns "topk";
    block_bytes ← int_attr ns "block_bytes";
    Ok (read_sparse input,
        {| input_suffix := path_suffix input; input_name := path_str input; DlrmConvert.input_format := input_format;
           output_path := path_str output; output_stem := path_stem output; output_suffix := path_suffix output;
           output_before := read_trace output; arg_rows_per_block := rows_per_block;
           DlrmConvert.num_embeddings := num_embeddings; arg_batch_size := batch_size;
           DlrmConvert.field_offset_mode := field_offset_mode; DlrmConvert.hash_size := hash_size;
           DlrmConvert.max_samples := max_samples; arg_topk := topk; arg_block_bytes := block_bytes |}).

Definition convert_main (argv : list str) : result (conversion * (path * path)) :=
    ns ← parse_args convert_parser argv;
    '(inp, args) ← convert_args_of ns;
    out ← convert polyfit_loglog inp args;
    output ← path_attr ns "output";
    stats_dir ← opt_attr path_attr ns "stats_dir";
    Ok (out, stats_files (stats_dir_or root stats_dir) output).
End Convert.

(** ** generate_embedding_file.py *)



(** ** Lemmas *)

Lemma analyze_parser_ok : parser_ok analyze_parser = true.
Proof. by vm_compute. Qed.
Lemma preprocess_parser_ok : parser_ok preprocess_parser = true.
Proof. by vm_compute. Qed.
Lemma convert_parser_ok : parser_ok convert_parser = true.
Proof. by vm_compute. Qed.

Lemma preprocess_args_total read_trace argv ns :
  parse_args preprocess_parser argv = Ok ns → stores_no_list ns → ∃ args, preprocess_args_of read_trace ns = Ok args.
Proof.
  intros H Hn. pose proof preprocess_parser_ok as ok. unfold preprocess_args_of. repeat attribute ok H Hn. eauto.
Qed.

Lemma convert_args_total read_trace read_sparse argv ns :
  parse_args convert_parser argv = Ok ns → stores_no_list ns → ∃ r, convert_args_of read_trace read_sparse ns = Ok r.
Proof.
  intros H Hn. pose proof convert_parser_ok as ok. unfold convert_args_of. repeat attribute ok H Hn. eauto.
Qed.

Lemma ends_with_spec s w : ends_with s w = true ↔ ∃ x, w = x ++ s.
Proof.
  unfold ends_with. rewrite starts_with_spec. split; intros [r Hr].
  - exists (rev r). by rewrite <-(rev_involutive w), Hr, rev_app_distr, rev_involutive.
  - exists (rev r). by rewrite Hr, rev_app_distr.
Qed.

(** No word of the command line ends in [=--]. *)
Definition no_dash_dash (argv : list str) : bool := forallb (λ w, negb (ends_with (u "=--") w)) argv.

Lemma no_dash_dash_full p argv ns :
  parser_ok p = true → no_dash_dash argv = true → parse_args p argv = Ok ns → stores_no_list ns.
Proof.
  intros ok Hw. apply stored_empty_list; [done|]. apply Forall_forall. intros w Hi%list_elem_of_In He%ends_with_spec.
  apply (proj1 (forallb_forall _ _) Hw) in Hi. by rewrite He in Hi.
Qed.

Lemma elem_of_pair {A} (x a b : A) : x ∈ [a; b] → x = a ∨ x = b.
Proof. set_solver. Qed.

(** C35: the tools refuse at the command line what they cannot do. Every command
    line that the parser of a tool accepts, none of whose words ends in [=--],
    gives all its arguments at the types it uses them at. The distribution, the pooling mode and the size of a number
    of the benchmark runs are ones the code knows, so the [ValueError] of
    [forward] does not happen; the id mode and the dtype of [preprocess] are
    known; the input format of [convert] is found or deduced from the suffix,
    and its mapping mode is known. *)
Theorem tool_commands_typed read_trace read_bytes read_sparse cdll exists_path root :
  (∀ argv ns, parse_args staging_parser argv = Ok ns → no_dash_dash argv = true →
     ∃ a, staging_args_of read_trace read_bytes ns = Ok a ∧
       Bench.dist (sa_trace a) ∈ [u "uniform"; u "zipf"] ∧ dtype_size_of a ∈ [2; 4]) ∧
  (∀ argv ns, parse_args memtier_parser argv = Ok ns → no_dash_dash argv = true →
     ∃ a, memtier_args_of read_trace cdll exists_path root ns = Ok a ∧
       Bench.dist (ma_trace a) ∈ [u "uniform"; u "zipf"] ∧ MemTierBag.dtype_size a ∈ [2; 4] ∧
       MemTierBag.mode a ∈ [u "sum"; u "mean"]) ∧
  (∀ argv ns, parse_args preprocess_parser argv = Ok ns → no_dash_dash argv = true →
     ∃ a, preprocess_args_of read_trace ns = Ok a ∧ valid_mode (Preprocess.global_id_mode a) ∧
       is_ok (dtype_from_name (Preprocess.dtype a)) = true) ∧
  (∀ argv ns, parse_args convert_parser argv = Ok ns → no_dash_dash argv = true →
     ∃ inp a, convert_args_of read_trace read_sparse ns = Ok (inp, a) ∧
       DlrmConvert.field_offset_mode a ∈ [u "per_field_offset"; u "shared_hash"; u "direct"] ∧
       (DlrmConvert.input_format a = u "auto" ∨
        detect_format (input_suffix a) (DlrmConvert.input_format a) ∈ Ok <$> [u "npy"; u "npz"; u "jsonl"])).
Proof.
  destruct (bench_commands_typed read_trace read_bytes cdll exists_path root) as [HS HM].
  split; [intros argv ns H Hw; exact (HS argv ns H (no_dash_dash_full _ argv ns staging_parser_ok Hw H))|].
  split; [intros argv ns H Hw; exact (HM argv ns H (no_dash_dash_full _ argv ns memtier_parser_ok Hw H))|].
  split; intros argv ns H Hw.
  - pose proof (no_dash_dash_full _ argv ns preprocess_parser_ok Hw H) as Hn.
    destruct (preprocess_args_total read_trace argv ns H Hn) as [a Ea]. exists a. split; [done|].
    unfold preprocess_args_of in Ea. inv_run Ea. simplify_eq. cbn. split.
    + assert (Hm : ∀ s, str_attr ns "global_id_mode" = Ok s → s ∈ [u "per_field_offset"; u "shared_hash"])
        by (intros s; by apply (str_attr_in preprocess_parser argv ns "global_id_mode" _ s preprocess_parser_ok H)).
      match goal with E : str_attr ns "global_id_mode" = Ok _ |- _ => apply Hm, elem_of_pair in E as [->| ->] end;
        [by left|by right].
    + assert (Hm : ∀ s, str_attr ns "dtype" = Ok s → s ∈ [u "uint64"; u "uint32"])
        by (intros s; by apply (str_attr_in preprocess_parser argv ns "dtype" _ s preprocess_parser_ok H)).
      match goal with E : str_attr ns "dtype" = Ok _ |- _ => apply Hm, elem_of_pair in E as [->| ->] end; done.
  - pose proof (no_dash_dash_full _ argv ns convert_parser_ok Hw H) as Hn.
    destruct (convert_args_total read_trace read_sparse argv ns H Hn) as [[inp a] Ea]. exists inp, a. split; [done|].
    unfold convert_args_of in Ea. inv_run Ea. simplify_eq. cbn [DlrmConvert.field_offset_mode DlrmConvert.input_format input_suffix].
    split; [by eapply (str_attr_in convert_parser argv ns "field_offset_mode" [u "per_field_offset"; u "shared_hash"; u "direct"] _ convert_parser_ok H)|].
    assert (Hm : ∀ s, str_attr ns "input_format" = Ok s → s ∈ [u "npy"; u "npz"; u "jsonl"; u "auto"])
      by (intros s; by apply (str_attr_in convert_parser argv ns "input_format" _ s convert_parser_ok H)).
    match goal with E : str_attr ns "input_format" = Ok ?s |- _ => apply Hm in E; destruct (decide (s = u "auto")) as [|Hne]; [by left|right] end.
    unfold detect_format. rewrite bool_decide_eq_false_2 by done. cbn [negb]. set_solver.
Qed.


(** *** At concrete command lines *)

Section Witnesses.
#[local] Existing Instance reference_normals.



Definition example_preprocess : list str :=
  [u "--input"; u "day_0"; u "--output"; u "o.npz"; u "--hash-size=10,20"; u "--rows-per-block=4"; u "--no-save-blocks";
   u "--global-id-mode"; u "shared_hash"].

Lemma tool_commands_typed_witness :
  ∃ a, preprocess_args_of (λ _, Err OSError)
         (match parse_args preprocess_parser example_preprocess with Ok ns => ns | Err _ => [] end) = Ok a ∧
    valid_mode (Preprocess.global_id_mode a) ∧ is_ok (dtype_from_name (Preprocess.dtype a)) = true.
Proof.
  apply (proj1 (proj2 (proj2 (tool_commands_typed (λ _, Err OSError) (λ _, Ok [])
    (λ _, {| in_npy := Err OSError; in_npz := Err OSError; in_text := Err OSError |}) (λ _, true) (λ _, false) [])))
    example_preprocess); vm_compute; reflexivity.
Defined.
End Witnesses.
