(* ===== verification/Pipeline.v ===== *)
(** From the Criteo files to the benchmark runs: what
    scripts/preprocess_criteo_trace.py writes is what python/memtier_embedding.py
    and python/baseline_cpu_staging.py replay.

    [replay_setup] lists what the runtime needs besides the trace; with it the
    archive of a preprocessing run satisfies every condition of the replay. *)

From S2P Require Import Prelude PyFloat PyText NumPy Json NdArray Criteo Workload TraceReader Stats LruSim Analyze Bench.
From S2P Require Import CpuStaging Posix SlotCache Runtime RuntimeData Metrics RuntimeLib MemTierBag DlrmConvert Preprocess.

Section Pipeline.
Context {EL : EmbeddingLib} {NP : NumPy} {AA : AsArray} {PS : PySet} {RG : Rng}.
Variables (polyfit_loglog : list Z → f64) (glob : str → list str) (open_lines : str → result (list str)).

(** A MemTier run over the archive: no name and no size of its own, the rows
    per block of the preprocessing, and a library that initializes with the
    table size [num]. *)
Record replay_setup (pargs : preprocess_args) (out : preprocessed) (args : memtier_args) (num dram hbm : Z) (l : lib) : Prop := {
  rs_trace : trace_file_arg (ma_trace args) = Some (Ok (pp_payload out), pp_output_stem pargs);
  rs_name : trace_name_arg args = None;
  rs_size : num_embeddings_given args = false;
  rs_rpb : MemTierBag.rows_per_block args = pp_rows_per_block pargs;
  rs_rpb_width : pp_rows_per_block pargs < 2 ^ 32;
  rs_dram : gb_to_bytes (MemTierBag.dram_cache_gb args) = Ok dram;
  rs_hbm : gb_to_bytes (MemTierBag.hbm_cache_gb args) = Ok hbm;
  rs_cdll : cdll_loads args = true;
  rs_init : lib_init (ma_embedding_file args)
              (MemTierEmbeddingConfig num (MemTierBag.embedding_dim args) (MemTierBag.rows_per_block args)
                 (MemTierBag.dtype_size args) dram hbm (Z.b2z (ma_enable_gds args)) (Z.b2z (ma_enable_prefetch args))) = Some l;
  rs_mode : MemTierBag.mode args = u "sum" ∨ MemTierBag.mode args = u "mean";
  rs_dim : 0 < MemTierBag.embedding_dim args < 2 ^ 32;
  rs_dtype : 0 < MemTierBag.dtype_size args < 2 ^ 32;
  rs_bytes : MemTierBag.rows_per_block args * MemTierBag.embedding_dim args * MemTierBag.dtype_size args < 2 ^ 64;
}.

(** The archive as an opened trace. *)
Lemma open_archive file stem rpb tr batches d name :
  EmbeddingTrace.init file (Some rpb) = Ok tr → EmbeddingTrace.iter_batches tr = Ok batches →
  EmbeddingTrace.metadata tr = JObj d → dict_get d (u "trace_name") = Some name →
  ∃ trace, open_recorded (Ok file) stem rpb = Ok trace ∧ ot_batches trace = Ok (Ok <$> batches) ∧
    ot_metadata trace = JObj d ∧ ot_name trace = Ok name.
Proof.
  intros Ei Eb Em En. unfold open_recorded. cbn [mbind result_bind]. rewrite Ei. cbn [mbind result_bind].
  pose proof (EmbeddingTrace.batch_stream_Ok tr batches Eb) as Es.
  unfold EmbeddingTrace.iter_batches in Eb. inv_res. match goal with E : EmbeddingTrace.num_batches tr = Ok _ |- _ => rewrite E end.
  cbn [mbind result_bind]. eexists. split; [reflexivity|]. cbn [ot_batches ot_metadata ot_name]. split_and!; [done|done|]. by rewrite Em, En.
Qed.

Lemma reported_size args d z :
  num_embeddings_given args = false → dict_get d (u "total_num_embeddings") = Some (JInt z) → z ≠ 0 →
  total_num_embeddings args (JObj d) = Ok z.
Proof.
  intros Hn Hd Hz. unfold total_num_embeddings. rewrite Hn, Hd. unfold py_or.
  change (default (JInt 0) (Some (JInt z))) with (JInt z). unfold truthy. by rewrite (proj2 (Z.eqb_neq z 0) Hz).
Qed.

(** C32: a preprocessed trace replays. For readable Criteo files and rows of
    bag_size ids, the MemTier runner given the archive and nothing else about
    the trace takes the size of the table from its metadata, the sum of the
    hash sizes, and finds every condition of a replay met: the batches it reads
    are the hashed rows, in order, and every id is below that size. *)
Theorem preprocessed_trace_replays pargs paths files sizes bits parsed out args dram hbm l :
  valid_run glob open_lines pargs paths files sizes bits parsed → save_ids pargs = true →
  row_width pargs = pp_bag_size pargs → preprocess polyfit_loglog glob open_lines pargs = Ok out →
  replay_setup pargs out args (zsum sizes) dram hbm l →
  ∃ trace bs rows, valid_memtier args trace (JStr (pp_output_stem pargs)) bs (zsum sizes) dram hbm l ∧
    concat bs = concat rows ∧ Forall (Forall (λ id, 0 ≤ id < zsum sizes)) bs ∧
    Forall2 (λ (p : option Z * list str) ids, row_ids pargs sizes (field_offsets_from_hash_sizes sizes) p.2 = Ok ids)
      (limit_rows (pp_max_samples pargs) 1 parsed) rows.
Proof.
  intros V Hs Hw Hout R.
  destruct (preprocess_reads_back polyfit_loglog glob open_lines _ _ _ _ _ _ V Hs Hw)
    as (out' & tr & bs & rows & E & Ei & (d & Em & Ed & En) & Eb & Ec & _ & _ & HF).
  assert (out' = out) as -> by congruence.
  destruct (run_sizes glob open_lines _ _ _ _ _ _ V) as (_ & _ & Hz & _).
  destruct (open_archive (pp_payload out) (pp_output_stem pargs) (pp_rows_per_block pargs) tr bs d
    (JStr (pp_output_stem pargs)) Ei Eb Em En) as (trace & Eo & Ebs & Emd & Enm).
  assert (Forall (λ id, 0 ≤ id < zsum sizes) (concat bs)) as Hids.
  { rewrite Ec. apply Forall_concat. clear -HF. induction HF as [|p ids ps rows (_ & _ & H) _ IH]; by constructor. }
  apply Forall_concat in Hids. pose proof (vr_total64 _ _ _ _ _ _ _ _ V) as H64. pose proof (vr_rpb_pos _ _ _ _ _ _ _ _ V).
  destruct R as [R1 R2 R3 R4 R5 R6 R7 R8 R9 R10 R11 R12 R13].
  exists trace, bs, rows. split_and!; [|done|done|].
  - split; rewrite ?R4; try done; try lia.
    + unfold open_batches. by rewrite R1.
    + by rewrite R2.
    + refine (Forall_impl _ _ _ Hids _). intros b Hb. refine (Forall_impl _ _ _ Hb _). unfold UINT64_MAX. intros; lia.
    + rewrite Emd. apply reported_size; [done|done|lia].
    + by rewrite <-R4.
  - clear -HF. induction HF as [|p ids ps rows (H & _) _ IH]; by constructor.
Qed.
End Pipeline.

(** *** At concrete data: three lines of two columns, replayed with blocks of
    four rows of two fp16 numbers *)

Section Witnesses.
#[local] Existing Instance reference_numpy.
#[local] Existing Instance reference_asarray.
#[local] Existing Instance reference_set.
#[local] Existing Instance reference_rng.
#[local] Existing Instance reference_posix.
#[local] Existing Instance example_device.
#[local] Existing Instance MemTierBag.example_lib.

Definition example_pre : preprocess_args := Preprocess.example_run 2.
#[local] Abbreviation example_run_out := (preprocess (λ _, f_zero) (λ _, []) example_open example_pre).
Definition payload_of (r : result preprocessed) : trace_file := match r with Ok out => pp_payload out | Err _ => OtherSuffix end.
Definition example_payload : trace_file := payload_of example_run_out.

Definition example_replay : memtier_args :=
  {| ma_trace := {| trace_file_arg := Some (Ok example_payload, u "o"); ta_num_embeddings := 0; ta_batch_size := 16384;
                    ta_bag_size := 32; ta_num_batches := 1000; dist := u "uniform"; zipf_alpha := f_one;
                    overlap_ratio := f_zero; seed := 1234 |};
     trace_name_arg := None; ma_trace_source := u "criteo"; num_embeddings_given := false;
     ma_embedding_file := u "emb.bin"; MemTierBag.embedding_dim := 2; MemTierBag.rows_per_block := 4;
     MemTierBag.dtype_size := 2; dram_cache_gb := lit 48 (2 ^ 30); hbm_cache_gb := lit 64 (2 ^ 30); mode := u "sum";
     ma_enable_gds := false; ma_enable_prefetch := false; cdll_loads := true |}.
#[local] Abbreviation example_init :=
  (lib_init (ma_embedding_file example_replay) (MemTierEmbeddingConfig (zsum [10; 20]) (MemTierBag.embedding_dim example_replay)
     (MemTierBag.rows_per_block example_replay) (MemTierBag.dtype_size example_replay) 48 64 (Z.b2z (ma_enable_gds example_replay))
     (Z.b2z (ma_enable_prefetch example_replay)))).

Lemma preprocessed_trace_replays_witness :
  ∃ out l trace bs rows, example_run_out = Ok out ∧
    valid_memtier example_replay trace (JStr (u "o")) bs 30 48 64 l ∧
    concat bs = concat rows ∧ Forall (Forall (λ id, 0 ≤ id < 30)) bs ∧
    Forall2 (λ (p : option Z * list str) ids, row_ids example_pre [10; 20] (field_offsets_from_hash_sizes [10; 20]) p.2 = Ok ids)
      (limit_rows None 1 example_parsed) rows.
Proof.
  assert (is_ok example_run_out = true) as Hrun by (vm_compute; reflexivity).
  assert (bool_decide (is_Some example_init) = true) as Hinit by (vm_compute; reflexivity).
  destruct example_run_out as [out|e] eqn:E; [|discriminate Hrun].
  destruct example_init as [l|] eqn:El; [|discriminate Hinit]. exists out, l.
  assert (replay_setup example_pre out example_replay (zsum [10; 20]) 48 64 l) as R.
  { split; [|reflexivity|reflexivity|reflexivity|reflexivity|vm_compute; reflexivity|vm_compute; reflexivity|reflexivity|exact El|
      by left|by split|by split|reflexivity].
    unfold example_replay, example_payload. cbn [ma_trace trace_file_arg]. rewrite E. reflexivity. }
  destruct (preprocessed_trace_replays (λ _, f_zero) (λ _, []) example_open example_pre [u "day_0"] [example_lines] [10; 20] 32
    example_parsed out example_replay 48 64 l (example_valid 2 eq_refl) eq_refl eq_refl E R) as (trace & bs & rows & H).
  exists trace, bs, rows. exact (conj eq_refl H).
Defined.
End Witnesses.
