(* ===== verification/Reports.v ===== *)
(** Results files: the placeholder run that appends to one
    (memtier_embedding_bench/python/baseline_uvm.py) and the script that reads
    one (memtier_embedding_bench/scripts/plot_results.py).

    Every benchmark run appends [json.dumps(result)] and a line feed to its
    [--output]; [load_jsonl] reads the lines back. *)

From S2P Require Import Prelude PyFloat PyText PyPath Json Argparse Namespace NumPy NdArray TraceReader DlrmConvert.

(** ** Appending *)

(** [f.write(json.dumps(result) + "\n")] on a file opened for appending. *)
Definition append_result (file : str) (result : json) : str := file ++ json_dumps result ++ [10].

Definition uvm_parser : parser :=
  [opt "--output" TPath (VPath (path_of (u "results/baselines.jsonl")));
   opt "--note" TStr (VStr (u "native UVM baseline TODO in Phase 3"))].

Definition uvm_result (note : str) : json :=
  JObj [(u "system", JStr (u "uvm_baseline")); (u "status", JStr (u "todo")); (u "note", JStr note)].

(** [main]: the path and its contents after the run; [read_text] gives the
    contents before, empty when there is no file. *)
Definition uvm_main (read_text : path → str) (argv : list str) : result (path * str) :=
  ns ← parse_args uvm_parser argv;
  output ← path_attr ns "output";
  note ← str_attr ns "note";
  Ok (output, append_result (read_text output) (uvm_result note)).

(** ** Reading *)

(** The loop of [load_jsonl] over the lines, universal newlines. *)
Fixpoint load_lines (rows : list json) (lines : list str) : result (list json) :=
  match lines with
  | [] => Ok rows
  | line :: lines =>
      let line := strip line in
      if decide (line = []) then load_lines rows lines
      else row ← json_loads line; load_lines (rows ++ [row]) lines
  end.
Definition load_jsonl (text : str) : result (list json) := load_lines [] (text_lines text).

Definition plot_parser : parser := [req "--input" TPath; opt "--output" TPath VNone].

(** [row.get(k, d)]. *)
Definition row_get (row : json) (k : str) (d : json) : result json :=
  match row with JObj m => Ok (default d (dict_get m k)) | _ => Err AttributeError end.

Definition summary_keys : list str :=
  [u "system"; u "dist"; u "zipf_alpha"; u "avg_latency_ms"; u "throughput_lookups_per_sec"].

(** The object printed for a row when there is no matplotlib. *)
Definition summary_row (row : json) : result json :=
  members ← mapM (λ k, v ← row_get row k JNull; Ok (k, v)) summary_keys; Ok (JObj members).

(** What [main] shows: printed objects, or bars with their labels and where the
    figure goes ([None]: on the screen). *)
Inductive plot_output : Type :=
| Summary (rows : list json)
| Bars (labels : list str) (latencies : list json) (output : option path).

Section Plot.
  (** [str(v)] of a decoded value, whether matplotlib is there, the text of a
      file. *)
  Variable py_str : json → str.
  Variable matplotlib : bool.
  Variable read_file : path → result str.

Definition bar_label (row : json) : result str :=
    system ← row_get row (u "system") JNull;
    dist ← row_get row (u "dist") (JStr []);
    alpha ← row_get row (u "zipf_alpha") (JStr []);
    Ok (py_str system ++ u ":" ++ py_str dist ++ u "/" ++ py_str alpha).

Definition plot_main (argv : list str) : result plot_output :=
    ns ← parse_args plot_parser argv;
    input ← path_attr ns "input";
    output ← opt_attr path_attr ns "output";
    text ← read_file input;
    rows ← load_jsonl text;
    if negb matplotlib then Summary <$> mapM summary_row rows else
    labels ← mapM bar_label rows;
    lat ← mapM (λ r, row_get r (u "avg_latency_ms") (JFloat f_zero)) rows;
    Ok (Bars labels lat output).
End Plot.

(** ** Lemmas *)

Lemma uvm_parser_ok : parser_ok uvm_parser = true.
Proof. by vm_compute. Qed.
Lemma plot_parser_ok : parser_ok plot_parser = true.
Proof. by vm_compute. Qed.

(** A line without line ends of its own, then the rest. *)
Definition no_line_end (c : Z) : Prop := c ≠ 10 ∧ c ≠ 13.

Lemma text_lines_line w rest : Forall no_line_end w → text_lines (w ++ 10 :: rest) = (w ++ [10]) :: text_lines rest.
Proof.
  induction 1 as [|c w [H1 H2] _ IH]; [done|]. cbn [app text_lines].
  rewrite (proj2 (Z.eqb_neq c 10) H1), (proj2 (Z.eqb_neq c 13) H2). by rewrite IH.
Qed.

(** The text of a value as a line: its characters, and no blanks around it. *)
Definition line_text (w : str) : Prop := w ≠ [] ∧ Forall no_line_end w ∧ strip (w ++ [10]) = w.

Lemma load_lines_text ws vs rows rest :
  Forall2 (λ w v, line_text w ∧ json_loads w = Ok v) ws vs →
  load_lines rows (text_lines (concat ((λ w, w ++ [10]) <$> ws) ++ rest)) = load_lines (rows ++ vs) (text_lines rest).
Proof.
  intros H. revert rows. induction H as [|w v ws vs [(Hne & Hl & Hs) Hv] _ IH]; intros rows; [by rewrite app_nil_r|].
  rewrite fmap_cons. cbn [concat]. rewrite <-!app_assoc. cbn [app]. rewrite text_lines_line by done. cbn [load_lines].
  rewrite Hs, decide_False by done. rewrite Hv. cbn [mbind result_bind]. rewrite IH. by rewrite <-app_assoc.
Qed.

Lemma printable_lines w : Forall printable w → Forall no_line_end w.
Proof. intros H. refine (Forall_impl _ _ _ H _). unfold printable, no_line_end. lia. Qed.

Lemma drop_while_last p (l : str) c : p c = false → drop_while p (l ++ [c]) ≠ [].
Proof. intros H. induction l as [|x l IH]; cbn; [by rewrite H|]. by destruct (p x). Qed.

(** A printable text with no blank at either end. *)
Lemma line_text_intro c w d :
  is_space c = false → is_space d = false → Forall no_line_end (c :: w ++ [d]) → line_text (c :: w ++ [d]).
Proof.
  intros Hc Hd Hl. split; [done|]. split; [done|]. unfold strip, strip_by, lstrip, rstrip.
  cbn [app drop_while]. rewrite Hc. rewrite app_comm_cons, rev_app_distr. cbn [rev app drop_while].
  change (is_space 10) with true. cbn [app].
  replace (rev (w ++ [d]) ++ [c]) with (rev (c :: w ++ [d])) by done.
  rewrite app_comm_cons, rev_app_distr. cbn [rev app drop_while]. rewrite Hd.
  change (d :: rev w ++ [c]) with (rev [d] ++ rev (c :: w)). rewrite <-rev_app_distr. by rewrite rev_involutive.
Qed.

Lemma object_line l : plain_json (JObj l) → line_text (json_dumps (JObj l)).
Proof.
  intros Hp. pose proof (printable_lines _ (dumps_printable _ Hp)) as H. cbn [json_dumps] in *. cbn [app] in *.
  by apply line_text_intro.
Qed.

(** Whatever objects the runs appended, one after the other, to a file that read
    as some rows and ended at a line's end, the plotting script reads the old
    rows and then the objects, in order. *)
Lemma append_results_read old rows results :
  Forall2 (λ w v, line_text w ∧ json_loads w = Ok v) old rows →
  Forall (λ r, ∃ l, r = JObj l ∧ plain_json r) results →
  load_jsonl (foldl append_result (concat ((λ w, w ++ [10]) <$> old)) results) = Ok (rows ++ results).
Proof.
  intros Hold Hres.
  assert (foldl append_result (concat ((λ w, w ++ [10]) <$> old)) results =
          concat ((λ w, w ++ [10]) <$> (old ++ (json_dumps <$> results))) ++ []) as ->.
  { rewrite app_nil_r, fmap_app, concat_app. generalize (concat ((λ w, w ++ [10]) <$> old)). clear Hold Hres.
    induction results as [|r results IH]; intros f; [cbn; by rewrite app_nil_r|]. cbn [foldl]. rewrite IH. unfold append_result.
    rewrite !fmap_cons. cbn [concat]. by rewrite <-!app_assoc. }
  unfold load_jsonl. rewrite (load_lines_text _ (rows ++ results)); [done|]. apply Forall2_app; [done|].
  apply Forall2_fmap_l, Forall_Forall2_diag. refine (Forall_impl _ _ _ Hres _). intros r (l & -> & Hp).
  split; [by apply object_line|by apply loads_dumps].
Qed.
