(* ===== verification/Session.v ===== *)
(** A session at the command line: benchmark runs, each appending its result to
    its [--output], and the plotting script over a results file.

    [execute] is one of the four benchmark programs
    (memtier_embedding_bench/python: baseline_cpu_staging.py,
    memtier_embedding.py, baseline_torch_embedding.py and baseline_uvm.py), from
    the words of its command line to the path it appends to and the object it
    appends; [session] runs commands one after another over the files, a
    command that fails appending nothing. *)

From S2P Require Import Posix Runtime SlotCache RuntimeData Metrics.
From S2P Require Import Prelude PyFloat PyText PyPath Json Argparse Namespace NumPy NdArray Workload TraceReader Stats LruSim Analyze.
From S2P Require Import Bench RuntimeLib CpuStaging MemTierBag BenchCli TorchBaseline DlrmConvert Reports.

Inductive command : Type :=
| StagingRun (argv : list str)
| MemtierRun (argv : list str)
| TorchRun (argv : list str)
| UvmRun (argv : list str).

Section Session.
Context {EL : EmbeddingLib} {TB : TorchBag} {NP : NumPy} {AA : AsArray} {RG : Rng}.
(** What the paths hold: traces, embedding files, arrays; the shared libraries
    and files that exist; the clock and the GPU. *)
Variables (read_trace : path → result trace_file) (read_bytes : path → result (list Z)) (load : path → result ndarray).
Variables (cdll : str → bool) (exists_path : str → bool) (root : str) (clock : Z → f64) (cuda_available : bool).

(** The path a run appends to and the object it appends. *)
Definition execute (c : command) : result (path * json) :=
  match c with
  | StagingRun argv =>
      ns ← parse_args staging_parser argv;
      args ← staging_args_of read_trace read_bytes ns;
      output ← path_attr ns "output";
      res ← CpuStaging.run clock cuda_available args;
      Ok (output, JObj res)
  | MemtierRun argv =>
      ns ← parse_args memtier_parser argv;
      args ← memtier_args_of read_trace cdll exists_path root ns;
      output ← path_attr ns "output";
      res ← MemTierBag.run clock args;
      Ok (output, JObj res)
  | TorchRun argv =>
      ns ← parse_args torch_parser argv;
      args ← torch_args_of load ns;
      output ← path_attr ns "output";
      res ← TorchBaseline.run clock cuda_available args;
      Ok (output, JObj res)
  | UvmRun argv =>
      ns ← parse_args uvm_parser argv;
      output ← path_attr ns "output";
      note ← str_attr ns "note";
      Ok (output, uvm_result note)
  end.

(** The text files, empty where there is none. *)
Definition session_step (files : path → str) (c : command) : path → str :=
  match execute c with
  | Ok (output, row) => λ p, if decide (p = output) then append_result (files p) row else files p
  | Err _ => files
  end.
Definition session (files : path → str) (cs : list command) : path → str := foldl session_step files cs.

(** What the commands appended to a path, in order. *)
Definition appended_to (p : path) (cs : list command) : list json :=
  omap (λ c, match execute c with Ok (q, row) => if decide (p = q) then Some row else None | Err _ => None end) cs.

(** ** Every result is written and read back exactly *)

(** The text and the objects that come from outside the programs: the name a
    trace has in its metadata, a note, the metrics of the runtime. *)
Definition free_keys : list str := [u "trace_name"; u "note"; u "metrics"].
Definition free_plain (row : json) : Prop :=
  match row with JObj m => ∀ k v, k ∈ free_keys → dict_get m k = Some v → plain_json v | _ => True end.

#[local] Ltac member H :=
  first [done | by destruct (p95_unique_blocks_per_batch _) | by apply plain_text_check | exact (fsub_wf f_one _) | by eauto using truediv_wf
    | by apply (H (u "trace_name")); [left|] | refine (H (u "note") (JStr _) _ eq_refl); by right; left
    | by apply (H (u "metrics")); [right; right; left|]].
#[local] Ltac members H :=
  apply plain_json_obj; split; [apply (bool_decide_unpack _); vm_compute; exact I|];
  repeat (apply Forall_cons_2; [split; [by apply plain_text_check|]; cbn [fst snd plain_json]; member H|]); apply Forall_nil_2.

(** Strings among the choices of the parsers. *)
Lemma str_choice_plain p argv ns k l s :
  parser_ok p = true → parse_args p argv = Ok ns → chosen p k (VStr <$> l) = true →
  forallb (λ s, forallb (λ c, (0 <=? c) && (c <? 0xd800)) s) l = true → str_attr ns k = Ok s → plain_text s.
Proof.
  intros ok H Hc Hl Hs. pose proof (str_attr_in p argv ns k l s ok H Hc Hs) as Hin.
  apply plain_text_check. rewrite list_elem_of_In in Hin. exact (proj1 (forallb_forall _ _) Hl s Hin).
Qed.

Lemma trace_args_plain p argv ns n ta :
  parser_ok p = true → parse_args p argv = Ok ns → default_wf p "zipf_alpha" = true →
  chosen p "dist" (VStr <$> [u "uniform"; u "zipf"]) = true → trace_args_of read_trace ns n = Ok ta →
  plain_text (Bench.dist ta) ∧ f_wf (Bench.zipf_alpha ta) = true.
Proof.
  intros ok H Hz Hd E. unfold trace_args_of in E. inv_run E. simplify_eq. cbn [Bench.dist Bench.zipf_alpha]. split.
  - by eapply str_choice_plain.
  - by eapply float_attr_wf.
Qed.

Lemma staging_plain args res :
  plain_text (dist (sa_trace args)) → f_wf (zipf_alpha (sa_trace args)) = true → plain_text (sa_trace_source args) →
  CpuStaging.run clock cuda_available args = Ok res → free_plain (JObj res) → plain_json (JObj res).
Proof.
  intros Hd Ha Hs E Hfree. unfold CpuStaging.run in E. apply bind_Ok in E as (r & E & [= <-]).
  unfold run_staging in E. inv_run E. injection E as <-.
  match goal with E : for_each _ _ _ = Ok ?st |- _ =>
    assert (Forall (λ f, f_wf f = true) (latencies st)) as Hl by (
      refine (for_each_inv (λ st, Forall (λ f, f_wf f = true) (latencies st)) _ _ _ _ _ _ E); [|constructor];
      intros st1 b st2 Hst E1; unfold staging_step in E1; inv_run E1; simplify_eq; cbn [latencies];
      apply Forall_app_2; [done|]; constructor; [apply elapsed_ms_wf|constructor]) end.
  match goal with E : summarize_latencies _ _ = Ok _ |- _ => destruct (summarize_latencies_wf _ _ _ Hl E) as (? & ? & ? & ?) end.
  match goal with E : summarize _ = Ok _ |- _ => destruct (summarize_wf _ _ E) as (? & ? & ?) end.
  unfold staging_result. members Hfree.
Qed.

Lemma with_bag_Ok {A} b (m : SM bag A) r : with_bag b m = Ok r → ∃ b', m b = Some (Ok r, b').
Proof. unfold with_bag. destruct (m b) as [[x b']|]; [|done]. intros ->. by exists b'. Qed.

Lemma memtier_plain args res :
  plain_text (dist (ma_trace args)) → f_wf (zipf_alpha (ma_trace args)) = true → plain_text (ma_trace_source args) →
  MemTierBag.run clock args = Ok res → free_plain (JObj res) → plain_json (JObj res).
Proof.
  intros Hd Ha Hs E Hfree. unfold MemTierBag.run in E. inv_run E; [done|]. subst.
  match goal with E : with_bag _ _ = Ok (?st, _) |- _ =>
    assert (Forall (λ f, f_wf f = true) (r_latencies st)) as Hl end.
  { match goal with E : with_bag _ _ = Ok _ |- _ => apply with_bag_Ok in E as (b' & Em) end.
    apply sm_bind_inv in Em as [(bs & s1 & _ & Em)|(e & _ & [=])]. unfold run_batches in Em.
    apply sm_bind_inv in Em as [(st & s2 & Ef & Em)|(e & _ & [=])].
    apply sm_bind_inv in Em as [(m & s3 & _ & Em)|(e & _ & [=])]. injection Em as -> _ _.
    refine (sm_fold_inv (λ st, Forall (λ f, f_wf f = true) (r_latencies st)) _ _ _ _ _ _ _ _ Ef); [|constructor].
    intros st1 a t1 st2 t2 Hst E1. apply sm_bind_inv in E1 as [(b & t3 & _ & E1)|(e & _ & [=])]. unfold run_batch in E1.
    apply sm_bind_inv in E1 as [(blocks & t4 & _ & E1)|(e & _ & [=])].
    apply sm_bind_inv in E1 as [(m1 & t5 & _ & E1)|(e & _ & [=])].
    apply sm_bind_inv in E1 as [(out & t6 & E2 & E1)|(e & _ & [=])]. injection E1 as <- _. cbn [r_latencies].
    apply Forall_app_2; [done|]. constructor; [|constructor]. unfold forward in E2.
    apply sm_bind_inv in E2 as [(y1 & t7 & _ & E2)|(e & _ & [=])].
    apply sm_bind_inv in E2 as [(y2 & t8 & _ & E2)|(e & _ & [=])].
    apply sm_bind_inv in E2 as [(y3 & t9 & _ & E2)|(e & _ & [=])].
    apply sm_bind_inv in E2 as [([y4 y5] & t10 & _ & E2)|(e & _ & [=])]. injection E2 as <- _. apply elapsed_ms_wf. }
  match goal with E : summarize_latencies _ _ = Ok _ |- _ => destruct (summarize_latencies_wf _ _ _ Hl E) as (? & ? & ? & ?) end.
  match goal with E : summarize _ = Ok _ |- _ => destruct (summarize_wf _ _ E) as (? & ? & ?) end.
  unfold memtier_result in E. inv_run E. injection E as <-. members Hfree.
Qed.

Definition trace_sources : list str := [u "synthetic"; u "criteo"; u "dlrm"].

(** Whatever a command appends, the JSON written for it reads back. *)
Lemma execute_plain c p row : execute c = Ok (p, row) → free_plain row → ∃ m, row = JObj m ∧ plain_json row.
Proof.
  intros E Hfree. destruct c as [argv|argv|argv|argv]; cbn [execute] in E; apply bind_Ok in E as (ns & Ens & E).
  - pose proof staging_parser_ok as ok. apply bind_Ok in E as (args & Ea & E). inv_run E. injection E as <- <-.
    eexists. split; [done|]. unfold staging_args_of in Ea. inv_run Ea. injection Ea as <-.
    match goal with E : trace_args_of _ _ _ = Ok _ |- _ => apply (trace_args_plain _ _ _ _ _ ok Ens) in E as [? ?]; [|done..] end.
    match goal with E : CpuStaging.run _ _ _ = Ok _ |- _ => refine (staging_plain _ _ _ _ _ E Hfree); [done|done|] end.
    by apply (str_choice_plain _ _ _ "trace_source" trace_sources _ ok Ens).
  - pose proof memtier_parser_ok as ok. apply bind_Ok in E as (args & Ea & E). inv_run E. injection E as <- <-.
    eexists. split; [done|]. unfold memtier_args_of in Ea. inv_run Ea. injection Ea as <-.
    match goal with E : trace_args_of _ _ _ = Ok _ |- _ => apply (trace_args_plain _ _ _ _ _ ok Ens) in E as [? ?]; [|done..] end.
    match goal with E : MemTierBag.run _ _ = Ok _ |- _ => refine (memtier_plain _ _ _ _ _ E Hfree); [done|done|] end.
    by apply (str_choice_plain _ _ _ "trace_source" trace_sources _ ok Ens).
  - pose proof torch_parser_ok as ok. apply bind_Ok in E as (args & Ea & E). inv_run E. injection E as <- <-.
    eexists. split; [done|]. unfold torch_args_of in Ea. inv_run Ea. injection Ea as <-.
    unfold TorchBaseline.run in *. match goal with E : (if _ then _ else _) = Ok _ |- _ => inv_run E end; [done|].
    match goal with E : torch_result _ _ _ = Ok _ |- _ => refine (torch_result_wf _ _ _ _ _ _ _ E) end;
      [|by apply (float_attr_wf _ _ _ ok Ens "zipf_alpha")|by apply (str_choice_plain _ _ _ "dist" [u "uniform"; u "zipf"] _ ok Ens)].
    match goal with E : foldM (torch_step _ _ _ _) [] _ = Ok _ |- _ =>
      refine (foldM_inv (Forall (λ f, f_wf f = true)) (λ _, True) _ _ _ _ _ _ _ E); [|by apply Forall_true|constructor] end.
    intros st b st' _ Hst E1. unfold torch_step in E1. inv_run E1. simplify_eq.
    apply Forall_app_2; [done|]. constructor; [apply elapsed_ms_wf|constructor].
  - inv_run E. injection E as <- <-. eexists. split; [done|]. unfold uvm_result in *. members Hfree.
Qed.

(** C39: a session of benchmark runs is recorded and read back exactly. Whatever
    command lines are run, in whatever order and with whatever outcome, on a
    results file that already reads as some rows: load_jsonl then gives these
    rows and, in order, the results of the runs that completed with this
    output, every number and text as it was.  Only text and objects from
    outside (a trace's name, a note, the runtime's metrics) have to be free of
    lone surrogates. *)
Theorem session_reads_back files cs p old rows :
  files p = concat ((λ w, w ++ [10]) <$> old) → Forall2 (λ w v, line_text w ∧ json_loads w = Ok v) old rows →
  Forall free_plain (appended_to p cs) →
  load_jsonl (session files cs p) = Ok (rows ++ appended_to p cs).
Proof.
  intros Ef Hold Hfree.
  assert (session files cs p = foldl append_result (files p) (appended_to p cs)) as ->.
  { clear. revert files. induction cs as [|c cs IH]; intros files; [done|]. unfold session, appended_to in *. cbn [foldl omap list_omap].
    rewrite IH. unfold session_step. destruct (execute c) as [[q row]|]; [|done]. by destruct (decide (p = q)). }
  rewrite Ef. apply append_results_read; [done|]. rewrite Forall_forall in Hfree |- *. intros row Hrow. specialize (Hfree row Hrow).
  unfold appended_to in Hrow. apply list_elem_of_omap in Hrow as (c & _ & E).
  destruct (execute c) as [[q row']|] eqn:Ec; [|done]. destruct (decide (p = q)); [|done]. injection E as ->.
  by eapply execute_plain.
Qed.
End Session.

(** ** A concrete session *)

Section Witness.
#[local] Existing Instance reference_posix.
#[local] Existing Instance example_device.
#[local] Existing Instance example_lib.
#[local] Existing Instance strict_torch.
#[local] Existing Instance reference_numpy.
#[local] Existing Instance reference_asarray.
#[local] Existing Instance reference_rng.

Definition results_path : path := path_of (u "results/baselines.jsonl").

(** A note, a command line that is refused, and a generated trace. *)
Definition example_session : list command :=
  [UvmRun [u "--note"; u "later"]; StagingRun [];
   TorchRun [u "--num-embeddings"; u "5"; u "--embedding-dim=8"; u "--batch-size"; u "2"; u "--bag-size"; u "2"; u "--num-batches"; u "3"]].

Definition example_appended : list json :=
  appended_to (λ _, Err OSError) (λ _, Err OSError) (λ _, Err OSError) (λ _, true) (λ _, false) [] (λ k, lit k 1000) true
    results_path example_session.

(** The free parts of a row are absent or text of the basic plane. *)
Definition free_text (row : json) : bool :=
  match row with
  | JObj m => forallb (λ k, match dict_get m k with None => true | Some (JStr s) => forallb (λ c, (0 <=? c) && (c <? 0xd800)) s | _ => false end)
                free_keys
  | _ => true
  end.

Lemma free_text_plain row : free_text row = true → free_plain row.
Proof.
  destruct row as [| | | | | |m]; try done. cbn [free_text free_plain]. intros H k v Hk Hv.
  rewrite list_elem_of_In in Hk. pose proof (proj1 (forallb_forall _ _) H k Hk) as Hc. cbn beta in Hc. rewrite Hv in Hc.
  destruct v; try done. by apply plain_text_check.
Qed.

Lemma session_reads_back_witness :
  length example_appended = 2%nat ∧
  load_jsonl (session (λ _, Err OSError) (λ _, Err OSError) (λ _, Err OSError) (λ _, true) (λ _, false) [] (λ k, lit k 1000) true
                (λ _, []) example_session results_path) = Ok ([] ++ example_appended).
Proof.
  assert (length example_appended = 2%nat ∧ forallb free_text example_appended = true) as [Hn Hf] by (by vm_compute).
  split; [exact Hn|]. apply (session_reads_back _ _ _ _ _ _ _ _ (λ _, []) example_session results_path [] []); [reflexivity|constructor|].
  apply Forall_forall. intros row Hrow. apply free_text_plain. rewrite list_elem_of_In in Hrow.
  exact (proj1 (forallb_forall _ _) Hf row Hrow).
Defined.
End Witness.
